(* ===== verification/_CoqProject ===== *)
-Q . S2P
Prelude.v
Alloc.v
Abi.v
Utf8.v
Serial.v
Elf.v
LoaderElf.v
Tty.v
Vfs.v
Ramdisk.v
VfsHeap.v
XTask.v
Video.v
FrameAlloc.v
Heap.v
HeapLimits.v
Context.v
X86.v
Paging.v
Sched.v
Process.v
FlatSpaces.v
ProcessImage.v
UserSpace.v
LoaderMain.v
LoaderPaging.v
TaskNew.v
Bus.v
SerialPort.v
Arch.v
Drivers.v
Ext2.v
Services.v
Smp.v
Interrupts.v
Boot.v
EarlyBoot.v
BootTotal.v
KernelTasks.v
Syscall.v
Libturnix.v
UserShell.v
UserStd.v
Repl.v
Locks.v
