(* ===== verification/Prelude.v ===== *)
(** * turnix: a verification development

    turnix is a small x86-64 operating system in Rust: a UEFI boot loader
    ([boot/uefi-loader]), a kernel ([kernel]), the ABI and serial crates they
    share ([shared]), a few user programs with their system-call library
    ([userland]) and a build tool that builds the images and packs the initial
    ramdisk ([tools/xtask]).  This library models the parts that carry the
    system's own logic as executable functions and proves what makes them
    correct.

    ** How the parts interact

    The build tool runs the compiler for loader, kernel and programs and
    stages a boot partition.  The loader reads the kernel's ELF file and the
    ramdisk from it, asks the firmware for pages, copies the segments, builds
    page tables and hands the kernel a [BootInfo] block.  The kernel checks
    the block, maps its heap, sets up descriptor tables, interrupt
    controllers and devices, fills the file system from the ramdisk, starts
    the text console with a font found there, turns the programs it finds into
    processes and runs the tasks round robin from the timer interrupt.  User
    programs enter the kernel through the system-call entry code; the
    dispatcher decodes the saved registers and calls the handlers, which work
    on the file system, the terminal, the scheduler and the caller's memory.
    The keyboard interrupt feeds the terminal, which turns keys into lines and
    echoes on the console.

    ** Files, in the order they build on each other

    - [Prelude]: control flow (return, panic, no return), machine integers
      with the overflow checks of the debug build, bytes, slices, memory; the
      generic lemmas, tactics and the hint database of the library.
    - [Alloc]: what code asks of the global allocator ([Request]), and an
      operation on a heap that may refuse ([on_heap], class [KernelHeap]).
    - [Abi] ([shared/abi/src]): system-call numbers and argument blocks, the
      boot block, the iteration over the memory map.
    - [Utf8]: Rust strings as UTF-8 bytes.
    - [Serial] ([shared/serial/src/lib.rs], [kernel/src/serial.rs]): the text
      that reaches the serial line.
    - [Elf] ([kernel/src/elf.rs]) and [LoaderElf]
      ([boot/uefi-loader/src/elf.rs]): the two ELF parsers and the loading of
      the kernel image.  The firmware's page allocation is the class
      [PageAllocator].
    - [Tty] ([kernel/src/tty/mod.rs], [kernel/src/input/mod.rs]): the line
      discipline, against the interface [Console] with its promise
      [TotalConsole].
    - [Vfs] ([kernel/src/vfs.rs]): the file system with its entry table and
      its table of sixteen descriptors.
    - [Ramdisk] and [XTask] ([tools/xtask/src/main.rs]): the archive writer,
      and every command of the build tool over a host with files, directories,
      an environment and a log of what the tool does; the programs it runs are
      the class [Programs].  [VfsHeap]: the file system on a heap that may
      refuse, mounting any archive included.
    - [Video] ([kernel/src/drivers/video]): font, framebuffer and text
      console; the instance of [TotalConsole].
    - [FrameAlloc] ([kernel/src/memory.rs]): the frame allocator and the
      interface [FrameSource] its clients use.
    - [Heap] ([kernel/src/memory/allocator], [heap.rs]): the free-list and the
      size-class allocator; interfaces [GlobalAlloc] and [SafeHeap].
      [HeapLimits]: that allocator as a [KernelHeap], and what its 100 KiB
      cannot hold.
    - [Context] ([kernel/src/interrupts/mod.rs], [kernel/src/syscall/mod.rs]):
      the assembly of interrupt and system-call entry and exit over a machine
      state.
    - [X86]: the interface to the [x86_64] crate (canonical addresses,
      page-table entries, address spaces), with concrete instances.  The
      laws on address spaces hold for the roots in use ([coherent]), not for
      any frame read as a root.
    - [Paging] ([kernel/src/memory/paging.rs]): page-table walks over physical
      memory.
    - [Sched] ([kernel/src/task/scheduler.rs], [Task::switch_to]) and
      [TaskNew] (the rest of [kernel/src/task/mod.rs]).
    - [Process] and [ProcessImage] ([kernel/src/process.rs]): loading a
      program and [fork], over the interface [Mapper] to the page tables;
      [FlatSpaces] is an instance of that interface, which shows that its laws
      can hold and lets examples run.  [UserSpace]
      ([kernel/src/memory/user.rs]): a second way to map a user stack.
    - [LoaderMain] ([boot/uefi-loader/src/main.rs]): the loader's steps and
      page tables, over the class [LoaderTables] of the crate's [map_to];
      [LoaderPaging] has its instance with four-level tables in memory.
    - [Bus]: device access as a state monad with a log of all requests
      ([Hardware] answers them), and its weakest precondition.
    - [SerialPort] ([shared/serial/src/lib.rs]): the driver of the serial
      port, over a device that accepts a byte only when it is ready.
    - [Arch] ([kernel/src/gdt.rs], [interrupts/mod.rs], [interrupts/apic.rs],
      [syscall/mod.rs]): descriptor tables, interrupt controllers and
      system-call registers.
    - [Drivers] ([drivers/pci.rs], [drivers/ahci.rs]) and [Smp] ([acpi.rs],
      [smp.rs]): device and processor discovery.
    - [Ext2] ([fs/ext2.rs], [fs/mod.rs]) and [Services] ([security/mod.rs],
      [userland/service-manager/src/lib.rs], [drivers/net.rs]): code of the
      repository the running system does not call yet.
    - [Interrupts] ([kernel/src/interrupts/mod.rs]): the Rust halves of the
      interrupt handlers.
    - [Boot] and [EarlyBoot] ([kernel/src/boot.rs], [memory/heap.rs]): the
      boot sequence from the hand-off to the first task; [BootTotal]: that it
      ends; [KernelTasks] ([kernel/src/boot.rs],
      [kernel/src/bin/turnix-kernel-image.rs]): the kernel's own tasks and
      the panic path.
    - [Syscall] ([kernel/src/syscall/handler.rs], the dispatcher of
      [syscall/mod.rs]): every handler over the whole kernel state.
    - [Libturnix] ([userland/libturnix/src/lib.rs]): the user library over the
      dispatcher.
    - [UserShell] ([userland/shell/src/main.rs], [userland/init/src/main.rs]):
      the shell over the library and the system-call path, and init.
    - [UserStd] ([userland/std/src/lib.rs],
      [userland/fault-tester/src/main.rs]): printing of the runtime library,
      and the program that provokes a page fault.
    - [Locks]: which spin locks the handlers and tasks take (the mutexes of
      statics, processes and the allocator, and first uses of lazy statics),
      and when interrupts are masked, over a processor with tasks and
      interrupts.
    - [Repl] ([kernel/src/shell.rs]): a command line that is not part of the
      kernel's module tree.

    Definitions keep the names of the Rust code; a method [T::f] whose plain
    name would clash is [T_f], and the record of a struct has the struct's
    fields.  A function that may panic returns an [outcome]; one that returns
    a [Result] returns a [result]; [&mut self] is state passing.  Where the
    code keeps global state behind locks ([VFS], [TTY], [CONSOLE],
    [FRAMEBUFFER], the scheduler) the state is an argument and a result; the
    locks themselves are the subject of [Locks], and the timer may find the
    scheduler's lock taken ([timer_tick]).

    ** What the theorems show

    - Memory: the heap never hands out overlapping, misaligned or outside
      memory, whatever the sequence of allocations and frees, and panics only
      for sizes and alignments near the end of the address space
      ([kernel_heap_safe], [first_fit_complete]); frames are never granted
      twice ([frames_never_reused], [sorted_map_exhausted]).
    - Address spaces: cloning copies the user half into fresh tables
      ([clone_user_mappings_copies]); a new process holds its program's image
      with its segments' permissions and nothing else in the user half ([process_image],
      [new_from_elf_errors]); [fork] shares the parent's pages
      ([fork_copies]); the loader's tables map what the kernel expects
      ([loader_mappings]).
    - Control transfer: an interrupted context is resumed exactly, a system
      call returns with everything but its result registers intact
      ([context_switch_roundtrip], [syscall_roundtrip]); new tasks start where
      they should on stacks of their own ([Task_new_starts],
      [Task_new_user_starts], [kernel_stacks_apart], [spawned_task_queued]).
    - Scheduling: an invariant over all reachable states, progress, round
      robin order, and that ended tasks stay ended ([scheduler_invariant],
      [scheduler_progress], [round_robin], [exited_never_runs]).
    - Locks: handlers never wait for a lock that is taken
      ([kernel_never_spins]), as long as tasks take locks with interrupts
      masked only; the heartbeat task does not ([Locks.heartbeat_deadlock],
      [Locks.heartbeat_key_deadlock]).
    - Files: every operation keeps the file system well formed or panics for
      a named reason ([vfs_invariant]) and does what it should on every branch
      ([open_lowest_free], [read_stream], [write_seek_read],
      [descriptor_isolation], [unlink_removes], [mkdir_unlink_roundtrip]);
      mounting ext2 answers for every device content ([ext2_mount_verdict]).
    - System calls: every call keeps the kernel consistent and ends, or
      panics for a named reason ([syscall_preserves_kernel]), writes only to its caller's buffer
      ([syscall_footprint]), and is decoded from the registers as the library
      encodes it ([dispatch_decodes], [syscall_ls]); the whole path from
      the user library to the file's bytes is [user_open_read], to its status
      [user_stat], and a session
      with the shell through that path is [shell_session].
    - Start-up: what reaches the devices ([arch_init_programs],
      [pci_scan_finds_controllers], [smp_starts_listed_processors],
      [serial_port_refines_line]), and that on a machine with enough frames
      and heap the boot sequence ends with the programs of the ramdisk and the
      kernel's tasks queued ([boot_completes]).
    - Formats: both ELF parsers against one reference reading
      ([parse_header_verdict], [parse_program_header_verdict],
      [elf_image_roundtrip], [loader_header_agrees]), the loaded kernel image
      ([load_kernel_memory_safe], [load_kernel_places_segments]), the ramdisk
      ([ramdisk_roundtrip], [ramdisk_any_archive]), the font
      ([built_font_boots]), the boot partition
      ([build_stages_boot_partition], [build_reports_first_failure]).
    - Terminal and console: [tty_line_discipline],
      [keyboard_interrupts_typed], [console_safe], [glyph_drawn],
      [newline_scrolls], [print_u64_decimal].

    Lemmas that record a behaviour the authors may not intend are kept beside
    the component: [Vfs.write_ignores_offset],
    [Ramdisk.ramdisk_size_overflow_panics],
    [FrameAlloc.unsorted_map_loses_memory], [Heap.alignment_padding_lost],
    [Context.fault_exchanges_gs], [Sched.yield_advances_uptime],
    [Sched.task_count_counts_dead], [Libturnix.open_missing_is_descriptor_1],
    [Video.bgr_channels_exchanged], [Video.scroll_background_differs],
    [ProcessImage.kernel_segment_overwrites],
    [ProcessImage.bad_entry_point_panics], [Drivers.port_stride],
    [Ext2.ahci_mounts_placeholder], [Ext2.socket_is_directory_and_file],
    [Services.Security.uninitialised_is_root],
    [UserStd.println_grows_init], [Repl.version_text],
    [Heap.oversized_request_panics], [HeapLimits.large_file_panics],
    [LoaderPaging.scratchpad_too_small].

    ** Bounds and fuel

    Kernel, loader and build tool are built in the debug profile, so [+], [-]
    and [*] panic on overflow and raw slices are checked for their length;
    user programs are built in the release profile and wrap.  Machine integers are
    [Z] with the range as a hypothesis where it matters.  Lengths of slices
    and vectors are at most [isize::MAX], which Rust guarantees.  These loops
    take fuel: the ramdisk scan, which consumes at least 72 bytes per turn and
    gets one more than the number of bytes ([ramdisk_any_archive] proves that
    this is enough); the iteration over the memory map, which gets one more
    than the number of entries ([Abi.drain_enough_fuel]); digit loops,
    which get the number of digits of the largest 64-bit value
    ([print_u64_decimal]); the page-wise copy of a segment, with [fill_fuel]
    turns ([process_image] shows the whole segment is written); and loops that
    poll a device, whose fuel is a parameter: the classes [Settles],
    [Delivers] and [Uart] say that the device answers within it (for the
    registers the driver polls), and the
    theorems show that the driver then ends.  All other loops are structural.

    ** The heap

    Rust's collections panic when the allocator refuses.  The functions that
    model the kernel's operations are written as if it served; what the
    operations of the file system, the system calls and the boot sequence ask
    for is listed beside them ([VfsHeap.op_requests],
    [Syscall.syscall_requests], [EarlyBoot.boot_requests]), and the theorems on
    their panics ([vfs_invariant], [ramdisk_any_archive],
    [syscall_preserves_kernel], [boot_completes]) are about the operation on any
    heap.  Elsewhere a served heap is assumed: for the terminal's line and
    queue, the keyboard buffer, the glyph copy of the console, the record of
    an ext2 mount, and in the theorems about what an operation that returns
    has done.

    ** Not modelled

    Undefined behaviour is outside the model: memory reached through raw
    pointers is a total map, and the descriptors of the memory map are taken
    to be aligned as the firmware places them.  Concurrency is what a single
    processor does between interrupts; the code other processors run after
    [ap_entry] is left out.  Lines of the serial
    log are kept only where they are an operation's result.
    [kernel/src/context.rs] is not compiled into the kernel, and
    [userland/libnewos] is the text of [libturnix] over a crate that is
    not in the repository.  The bodies of macros of other crates (bit flags,
    lazy statics, page-table mapper, PIC and keyboard crates, the ACPI parser)
    are parameters.
 *)

From Stdlib Require Export Strings.Byte ZArith Lia.
From stdpp Require Export prelude.

#[global] Open Scope Z_scope.

(** ** Control flow of the Rust code

    [Ret a]: the code returns [a]; [Panic]: it panics (an out-of-range index,
    an arithmetic overflow, [unwrap] of [None], a failed [assert!]); [Loop]:
    it does not return (a [hlt] loop, or the model ran out of fuel). *)

Inductive outcome (A : Type) : Type :=
| Ret (a : A)
| Panic
| Loop.
Arguments Ret {A} a.
Arguments Panic {A}.
Arguments Loop {A}.

(** [Result<A, E>]. *)
Inductive result (E A : Type) : Type :=
| Ok (a : A)
| Err (e : E).
Arguments Ok {E A} a.
Arguments Err {E A} e.

#[global] Instance outcome_ret : MRet outcome := fun A a => Ret a.
#[global] Instance outcome_bind : MBind outcome := fun A B k m =>
  match m with Ret a => k a | Panic => Panic | Loop => Loop end.

#[global] Instance result_ret {E} : MRet (result E) := fun A a => Ok a.
#[global] Instance result_bind {E} : MBind (result E) := fun A B k m =>
  match m with Ok a => k a | Err e => Err e end.

(** The [?] operator inside a function that may also panic. *)
Definition try_bind {E A B} (m : outcome (result E A))
    (k : A -> outcome (result E B)) : outcome (result E B) :=
  match m with
  | Ret (Ok a) => k a
  | Ret (Err e) => Ret (Err e)
  | Panic => Panic
  | Loop => Loop
  end.

(** [o.ok_or(e)]. *)
Definition ok_or {E A} (o : option A) (e : E) : result E A :=
  match o with Some a => Ok a | None => Err e end.

(** [o.unwrap()], [o.expect(..)]. *)
Definition unwrap {A} (o : option A) : outcome A :=
  match o with Some a => Ret a | None => Panic end.

(** [assert!(b)]. *)
Definition assert_b (b : bool) : outcome unit := if b then Ret tt else Panic.

Declare Scope turnix_scope.
Delimit Scope turnix_scope with turnix.
#[global] Open Scope turnix_scope.
Notation "x '←?' m ; k" := (try_bind m (fun x => k))
  (at level 20, m at level 100, k at level 200, only parsing) : turnix_scope.

(** Whether the code returns normally. *)
Definition returns {A} (m : outcome A) : Prop := exists a, m = Ret a.

(** ** Machine integers

    A [w]-bit unsigned integer is a [Z] in [[0, 2^w)].  The kernel and the
    loader are built in the debug profile, where [+], [-] and [*] panic on
    overflow; [checked_*] return [None]. *)

Definition in_range (w z : Z) : Prop := 0 <= z < 2 ^ w.
Abbreviation in_u8 := (in_range 8).
Abbreviation in_u16 := (in_range 16).
Abbreviation in_u32 := (in_range 32).
Abbreviation in_u64 := (in_range 64).
Abbreviation in_usize := (in_range 64).

Definition wrap (w z : Z) : Z := z mod 2 ^ w.

Definition checked_add (w a b : Z) : option Z :=
  if a + b <? 2 ^ w then Some (a + b) else None.
Definition checked_sub (a b : Z) : option Z :=
  if b <=? a then Some (a - b) else None.
Definition checked_mul (w a b : Z) : option Z :=
  if a * b <? 2 ^ w then Some (a * b) else None.

Definition add_u (w a b : Z) : outcome Z := unwrap (checked_add w a b).
Definition sub_u (a b : Z) : outcome Z := unwrap (checked_sub a b).
Definition mul_u (w a b : Z) : outcome Z := unwrap (checked_mul w a b).

(** [!a] at width [w]. *)
Definition not_u (w a : Z) : Z := 2 ^ w - 1 - a.

(** [v as i64], [v as i32 as u64] and the like. *)
Definition as_signed (w z : Z) : Z :=
  let u := z mod 2 ^ w in if u <? 2 ^ (w - 1) then u else u - 2 ^ w.

Definition u64_max : Z := 2 ^ 64 - 1.
Definition isize_max : Z := 2 ^ 63 - 1.

(** [n.div_ceil(d)]. *)
Definition div_ceil (n d : Z) : Z := (n + d - 1) / d.

(** ** Bytes *)

#[global] Instance byte_eq_decision : EqDecision byte := Byte.byte_eq_dec.
#[global] Instance byte_inhabited : Inhabited byte := populate x00.

Definition u8 (b : byte) : Z := Z.of_N (Byte.to_N b).
Definition byte_of (z : Z) : byte :=
  default x00 (Byte.of_N (Z.to_N (z mod 256))).

(** [uN::from_le_bytes] and [to_le_bytes]. *)
Fixpoint le_val (bs : list byte) : Z :=
  match bs with
  | [] => 0
  | b :: bs' => u8 b + 256 * le_val bs'
  end.

Fixpoint le_bytes (n : nat) (z : Z) : list byte :=
  match n with
  | O => []
  | S n' => byte_of z :: le_bytes n' (z / 256)
  end.

(** ** Slices and vectors

    [data.len()], [data[i]], [&data[a..b]], with the panics of the bounds
    checks. *)

Definition len {A} (l : list A) : Z := Z.of_nat (length l).

Definition zget {A} (l : list A) (i : Z) : option A :=
  if (i <? 0) || (len l <=? i) then None else l !! Z.to_nat i.

Definition idx {A} (l : list A) (i : Z) : outcome A := unwrap (zget l i).

Definition sub_list {A} (l : list A) (a n : Z) : list A :=
  take (Z.to_nat n) (drop (Z.to_nat a) l).

Definition slice {A} (l : list A) (a b : Z) : outcome (list A) :=
  if (0 <=? a) && (a <=? b) && (b <=? len l)
  then Ret (sub_list l a (b - a)) else Panic.

(** [iter().position(p)]. *)
Fixpoint position {A} (p : A -> bool) (l : list A) : option nat :=
  match l with
  | [] => None
  | x :: l' => if p x then Some O else S <$> position p l'
  end.

(** [l.iter().map(f).collect()] where [f] may panic. *)
Fixpoint map_out {A B} (f : A -> outcome B) (l : list A) : outcome (list B) :=
  match l with
  | [] => Ret []
  | x :: l' => y ← f x; ys ← map_out f l'; Ret (y :: ys)
  end.

(** [for x in l { s = f(s, x) }] where the body may panic. *)
Fixpoint for_each {A S} (f : S -> A -> outcome S) (l : list A) (s : S)
    : outcome S :=
  match l with
  | [] => Ret s
  | x :: l' => s' ← f s x; for_each f l' s'
  end.

(** The same where the body may also return an error with [?]. *)
Fixpoint try_each {E A S} (f : S -> A -> outcome (result E S)) (l : list A) (s : S)
    : outcome (result E S) :=
  match l with
  | [] => Ret (Ok s)
  | x :: l' => s' ←? f s x; try_each f l' s'
  end.

(** ** Lemmas on outcomes *)

Create HintDb turnix.

Lemma bind_Ret_inv {A B} (m : outcome A) (k : A -> outcome B) b :
  (m ≫= k) = Ret b -> exists a, m = Ret a /\ k a = Ret b.
Proof. destruct m; naive_solver. Qed.

Lemma try_bind_Ok_inv {E A B} (m : outcome (result E A)) (k : A -> outcome (result E B)) b :
  try_bind m k = Ret (Ok b) -> exists a, m = Ret (Ok a) /\ k a = Ret (Ok b).
Proof. destruct m as [[]| |]; naive_solver. Qed.

Lemma unwrap_Ret {A} (o : option A) a : unwrap o = Ret a <-> o = Some a.
Proof. destruct o; naive_solver. Qed.

Lemma assert_b_Ret b u : assert_b b = Ret u <-> b = true.
Proof. destruct b, u; naive_solver. Qed.

(** Decompose a computation that returned into its steps. *)
Ltac inv_out :=
  repeat match goal with
  | H : (_ ≫= _) = Ret _ |- _ =>
      let a := fresh "a" in let Ha := fresh "Ha" in
      apply bind_Ret_inv in H as (a & Ha & H)
  | H : try_bind _ _ = Ret (Ok _) |- _ =>
      let a := fresh "a" in let Ha := fresh "Ha" in
      apply try_bind_Ok_inv in H as (a & Ha & H)
  | H : unwrap _ = Ret _ |- _ => apply unwrap_Ret in H
  | H : assert_b _ = Ret _ |- _ => apply assert_b_Ret in H
  | H : Ret _ = Ret _ |- _ => injection H as H
  | H : Ok _ = Ok _ |- _ => injection H as H
  | H : Some _ = Some _ |- _ => injection H as H
  | H : Panic = Ret _ |- _ => discriminate H
  | H : Loop = Ret _ |- _ => discriminate H
  | H : Err _ = Ok _ |- _ => discriminate H
  end; subst.

(** Case on the conditions of [if]s, keeping them as arithmetic facts. *)
Ltac case_if :=
  match goal with
  | |- context [if ?b then _ else _] => let E := fresh "E" in destruct b eqn:E
  | H : context [if ?b then _ else _] |- _ => let E := fresh "E" in destruct b eqn:E
  end.

(** ** Lemmas on machine integers *)

Lemma checked_add_Some w a b c :
  checked_add w a b = Some c <-> c = a + b /\ a + b < 2 ^ w.
Proof. unfold checked_add. case_if; naive_solver lia. Qed.

Lemma checked_mul_Some w a b c :
  checked_mul w a b = Some c <-> c = a * b /\ a * b < 2 ^ w.
Proof. unfold checked_mul. case_if; naive_solver lia. Qed.

Lemma checked_sub_Some a b c :
  checked_sub a b = Some c <-> c = a - b /\ b <= a.
Proof. unfold checked_sub. case_if; naive_solver lia. Qed.

Lemma add_u_Ret w a b : a + b < 2 ^ w -> add_u w a b = Ret (a + b).
Proof. intros. apply unwrap_Ret, checked_add_Some. lia. Qed.

Lemma add_u_inv w a b c : add_u w a b = Ret c <-> c = a + b /\ a + b < 2 ^ w.
Proof. unfold add_u. rewrite unwrap_Ret. apply checked_add_Some. Qed.

Lemma sub_u_Ret a b : b <= a -> sub_u a b = Ret (a - b).
Proof. intros. apply unwrap_Ret, checked_sub_Some. lia. Qed.

Lemma sub_u_inv a b c : sub_u a b = Ret c <-> c = a - b /\ b <= a.
Proof. unfold sub_u. rewrite unwrap_Ret. apply checked_sub_Some. Qed.

Lemma mul_u_Ret w a b : a * b < 2 ^ w -> mul_u w a b = Ret (a * b).
Proof. intros. apply unwrap_Ret, checked_mul_Some. lia. Qed.

Lemma div_ceil_spec n d : 0 < d -> n <= div_ceil n d * d < n + d.
Proof.
  intros Hd. unfold div_ceil.
  pose proof (Z.div_mod (n + d - 1) d). pose proof (Z.mod_pos_bound (n + d - 1) d Hd).
  nia.
Qed.

(** Masking with [!(2^k - 1)] rounds down to a multiple of [2^k]. *)
Lemma land_not_mask w k x :
  0 <= k <= w -> in_range w x ->
  Z.land x (not_u w (2 ^ k - 1)) = x / 2 ^ k * 2 ^ k.
Proof.
  intros Hk Hx.
  assert (not_u w (2 ^ k - 1) = Z.ldiff (Z.ones w) (Z.ones k)) as ->.
  { unfold not_u. rewrite <- Z.sub_nocarry_ldiff.
    - rewrite !Z.ones_equiv. lia.
    - apply Z.bits_inj'. intros n Hn.
      rewrite Z.ldiff_spec, !Z.testbit_ones, Z.bits_0 by lia. lia. }
  rewrite <- Z.shiftr_div_pow2, <- Z.shiftl_mul_pow2 by lia.
  rewrite <- Z.ldiff_ones_r by lia.
  apply Z.bits_inj'. intros n Hn.
  rewrite Z.land_spec, !Z.ldiff_spec, Z.testbit_ones by lia.
  destruct (decide (n < w)).
  - replace ((0 <=? n) && (n <? w)) with true by lia. done.
  - replace (Z.testbit x n) with false; [done |].
    symmetry. apply Z.testbit_false; [lia|].
    rewrite Z.div_small; [done|]. destruct Hx. split; [lia|].
    assert (2 ^ w <= 2 ^ n) by (apply Z.pow_le_mono_r; lia). lia.
Qed.

(** ** Lemmas on bytes *)

Lemma u8_bound b : 0 <= u8 b < 256.
Proof. unfold u8. pose proof (Byte.to_N_bounded b). lia. Qed.

Lemma u8_byte_of z : u8 (byte_of z) = z mod 256.
Proof.
  unfold u8, byte_of. pose proof (Z.mod_pos_bound z 256 ltac:(lia)).
  destruct (Byte.of_N (Z.to_N (z mod 256))) eqn:E; simpl.
  - apply Byte.to_of_N in E. rewrite E. lia.
  - apply Byte.of_N_None_iff in E. lia.
Qed.

Lemma byte_of_u8 b : byte_of (u8 b) = b.
Proof.
  unfold byte_of. rewrite Z.mod_small by apply u8_bound.
  unfold u8. by rewrite N2Z.id, Byte.of_to_N.
Qed.

Lemma u8_inj b c : u8 b = u8 c -> b = c.
Proof. intros H. by rewrite <- (byte_of_u8 b), H, byte_of_u8. Qed.

Lemma le_val_bound bs : 0 <= le_val bs < 256 ^ len bs.
Proof.
  induction bs as [|b bs IH]; [done|].
  unfold len in *. simpl length. rewrite Nat2Z.inj_succ, Z.pow_succ_r by lia.
  pose proof (u8_bound b). simpl. lia.
Qed.

Lemma length_le_bytes n z : length (le_bytes n z) = n.
Proof. revert z. induction n; simpl; auto. Qed.

Lemma le_val_le_bytes n z : le_val (le_bytes n z) = z mod 256 ^ Z.of_nat n.
Proof.
  revert z. induction n as [|n IH]; intros z.
  - simpl. by rewrite Z.mod_1_r.
  - rewrite Nat2Z.inj_succ, Z.pow_succ_r by lia. simpl.
    rewrite IH, u8_byte_of.
    rewrite Z.rem_mul_r by lia. done.
Qed.

Lemma le_bytes_le_val bs : le_bytes (length bs) (le_val bs) = bs.
Proof.
  induction bs as [|b bs IH]; [done|]. simpl. pose proof (u8_bound b). f_equal.
  - apply u8_inj. rewrite u8_byte_of.
    rewrite (Z.mul_comm 256), Z.mod_add, Z.mod_small; lia.
  - rewrite (Z.mul_comm 256), Z.div_add, Z.div_small by lia. done.
Qed.

(** ** Lemmas on slices *)

Lemma len_nonneg {A} (l : list A) : 0 <= len l.
Proof. unfold len. lia. Qed.

Lemma len_app {A} (l k : list A) : len (l ++ k) = len l + len k.
Proof. unfold len. rewrite length_app. lia. Qed.

Lemma len_replicate {A} n (x : A) : len (replicate n x) = Z.of_nat n.
Proof. unfold len. by rewrite length_replicate. Qed.

Lemma zget_Some_bound {A} (l : list A) i x : zget l i = Some x -> 0 <= i < len l.
Proof. unfold zget, len. case_if; [done|]. intros H%lookup_lt_Some. lia. Qed.

Lemma zget_lookup {A} (l : list A) i : 0 <= i -> zget l i = l !! Z.to_nat i.
Proof.
  intros. unfold zget, len. case_if; [|done]. symmetry. apply lookup_ge_None. lia.
Qed.

Lemma zget_is_Some {A} (l : list A) i : 0 <= i < len l -> is_Some (zget l i).
Proof.
  unfold len. intros. rewrite zget_lookup by lia.
  apply lookup_lt_is_Some. lia.
Qed.

Lemma idx_returns {A} (l : list A) i : 0 <= i < len l -> returns (idx l i).
Proof. intros [x Hx]%zget_is_Some. exists x. by apply unwrap_Ret. Qed.

Lemma length_sub_list {A} (l : list A) a n :
  0 <= a -> 0 <= n -> a + n <= len l -> length (sub_list l a n) = Z.to_nat n.
Proof. unfold sub_list, len. intros. rewrite length_take, length_drop. lia. Qed.

Lemma len_sub_list {A} (l : list A) a n :
  0 <= a -> 0 <= n -> a + n <= len l -> len (sub_list l a n) = n.
Proof. intros. unfold len. rewrite length_sub_list by done. lia. Qed.

Lemma slice_Ret {A} (l : list A) a b :
  0 <= a <= b -> b <= len l -> slice l a b = Ret (sub_list l a (b - a)).
Proof. intros. unfold slice. case_if; [done|lia]. Qed.

Lemma slice_len {A} (l d : list A) a b : slice l a b = Ret d -> len d <= len l.
Proof.
  unfold slice. case_if; [|done]. intros [= <-]. rewrite len_sub_list; lia.
Qed.

Lemma zget_sub_list {A} (l : list A) a n i :
  0 <= a -> 0 <= i < n -> zget (sub_list l a n) i = zget l (a + i).
Proof.
  intros. rewrite !zget_lookup by lia. unfold sub_list.
  rewrite lookup_take, lookup_drop. case_decide; [|lia]. f_equal. lia.
Qed.

Lemma sub_list_split {A} (l : list A) a n m :
  0 <= a -> 0 <= n -> 0 <= m ->
  sub_list l a (n + m) = sub_list l a n ++ sub_list l (a + n) m.
Proof.
  intros. unfold sub_list. rewrite !Z2Nat.inj_add by lia.
  by rewrite <- take_take_drop, drop_drop.
Qed.

Lemma sub_list_app_r {A} (l k : list A) n :
  sub_list (l ++ k) (len l) n = take (Z.to_nat n) k.
Proof. unfold sub_list, len. by rewrite Nat2Z.id, drop_app_length. Qed.

Lemma sub_list_app_at {A} (l k : list A) a n :
  a = len l -> sub_list (l ++ k) a n = take (Z.to_nat n) k.
Proof. intros ->. apply sub_list_app_r. Qed.

Lemma sub_list_all {A} (l : list A) : sub_list l 0 (len l) = l.
Proof. unfold sub_list, len. rewrite Nat2Z.id. simpl. by rewrite firstn_all. Qed.

(** ** Lemmas on searches and loops *)

Lemma position_Some {A} (p : A -> bool) l n :
  position p l = Some n ->
  exists x, l !! n = Some x /\ p x = true /\
    (forall m y, (m < n)%nat -> l !! m = Some y -> p y = false).
Proof.
  revert n. induction l as [|x l IH]; intros n; simpl; [done|].
  case_if; intros.
  - simplify_eq. exists x. split_and!; try done. intros; lia.
  - destruct (position p l) as [k|] eqn:Ek; simplify_eq/=.
    destruct (IH k eq_refl) as (y & Hy & Hp & Hbefore). exists y. split_and!; [done..|].
    intros [|m] z Hm Hz; simplify_eq/=; [done|]. apply (Hbefore m); [lia|done].
Qed.

Lemma position_None {A} (p : A -> bool) l :
  position p l = None <-> Forall (fun x => p x = false) l.
Proof.
  induction l as [|x l IH]; simpl; [done|].
  rewrite Forall_cons, <- IH. case_if; [naive_solver|].
  destruct (position p l); naive_solver.
Qed.

Lemma find_none_iff {A} (p : A -> bool) l :
  find p l = None <-> Forall (fun x => p x = false) l.
Proof.
  split.
  - intros H. apply Forall_forall. intros x Hx. apply (find_none _ _ H).
    by apply list_elem_of_In.
  - intros H. destruct (find p l) as [x|] eqn:E; [|done].
    apply find_some in E as [Hin Hp]. rewrite Forall_forall in H.
    rewrite <- list_elem_of_In in Hin. specialize (H _ Hin). congruence.
Qed.

Lemma map_out_Ret {A B} (f : A -> outcome B) (g : A -> B) l :
  (forall x, x ∈ l -> f x = Ret (g x)) -> map_out f l = Ret (map g l).
Proof.
  induction l as [|x l IH]; intros Hf; [done|]. simpl.
  rewrite Hf by set_solver. simpl. rewrite IH by set_solver. done.
Qed.

Lemma for_each_app {A S} (f : S -> A -> outcome S) l k s :
  for_each f (l ++ k) s = (s' ← for_each f l s; for_each f k s').
Proof.
  revert s. induction l as [|x l IH]; intros s; [done|]. simpl.
  destruct (f s x); simpl; auto.
Qed.

(** Invariant rule for loops. *)
Lemma for_each_inv {A S} (P : S -> Prop) (f : S -> A -> outcome S) l s s' :
  (forall t t' x, x ∈ l -> P t -> f t x = Ret t' -> P t') ->
  P s -> for_each f l s = Ret s' -> P s'.
Proof.
  revert s. induction l as [|x l IH]; intros s Hstep Hs H; simpl in H; inv_out; [done|].
  eapply IH; [|eapply (Hstep s a x); [set_solver|done..]|done].
  intros t t' y ???; eapply (Hstep t t' y); [set_solver|done..].
Qed.

(** A loop over [a..a + n] that keeps an invariant and may panic for one reason. *)
Lemma for_each_range {S} (I : Z -> S -> Prop) (P : Prop) (f : S -> Z -> outcome S) a n s :
  0 <= n ->
  (forall k t, a <= k < a + n -> I k t ->
     match f t k with Ret t' => I (k + 1) t' | Panic => P | Loop => False end) ->
  I a s -> match for_each f (seqZ a n) s with Ret t' => I (a + n) t' | Panic => P | Loop => False end.
Proof.
  intros Hn Hstep. enough (forall (j : nat) k t, k + Z.of_nat j = a + n -> a <= k -> I k t ->
    match for_each f (seqZ k (Z.of_nat j)) t with Ret t' => I (a + n) t' | Panic => P | Loop => False end) as He.
  { intros Hs. specialize (He (Z.to_nat n) a s). rewrite Z2Nat.id in He by lia. apply He; [lia|lia|done]. }
  induction j as [|j IH]; intros k t Hk H0 Ht.
  { simpl. by replace (a + n) with k by lia. }
  rewrite seqZ_cons by lia. replace (Z.pred (Z.of_nat (Datatypes.S j))) with (Z.of_nat j) by lia.
  cbn [for_each]. specialize (Hstep k t ltac:(lia) Ht). destruct (f t k) as [t'| |]; [|done|done].
  cbn [mbind outcome_bind]. apply IH; [lia|lia|]. by replace (Z.succ k) with (k + 1) by lia.
Qed.

Lemma for_each_returns {A S} (P : S -> Prop) (f : S -> A -> outcome S) l s :
  (forall t x, x ∈ l -> P t -> exists t', f t x = Ret t' /\ P t') ->
  P s -> exists s', for_each f l s = Ret s' /\ P s'.
Proof.
  revert s. induction l as [|x l IH]; intros s Hstep Hs; simpl; [eauto|].
  destruct (Hstep s x) as (t & -> & Ht); [set_solver|done|]. simpl.
  apply IH; [|done]. intros; apply Hstep; [set_solver|done].
Qed.

(** ** Raw memory

    The bytes of an address space, for code that goes through raw pointers. *)

Definition mem : Type := Z -> byte.

Definition read_mem (m : mem) (a n : Z) : list byte :=
  map (fun i => m (a + i)) (seqZ 0 n).

(** [slice::from_raw_parts(ptr, n)], whose precondition the debug build
    checks. *)
Definition raw_slice (m : mem) (ptr n : Z) : outcome (list byte) :=
  if isize_max <? n then Panic else Ret (read_mem m ptr n).

Lemma raw_slice_ok m ptr n : 0 <= n <= isize_max -> raw_slice m ptr n = Ret (read_mem m ptr n).
Proof. intros. unfold raw_slice. case_if; [lia|done]. Qed.

Definition write_mem (m : mem) (a : Z) (bs : list byte) : mem :=
  fun x => match zget bs (x - a) with Some b => b | None => m x end.

Lemma len_read_mem m a n : 0 <= n -> len (read_mem m a n) = n.
Proof. intros. unfold len, read_mem. rewrite length_map, length_seqZ. lia. Qed.

Lemma zget_read_mem m a n i : 0 <= i < n -> zget (read_mem m a n) i = Some (m (a + i)).
Proof.
  intros. rewrite zget_lookup by lia. unfold read_mem.
  change (map ?f ?l) with (f <$> l).
  rewrite list_lookup_fmap, lookup_seqZ_lt by lia. simpl. do 2 f_equal. lia.
Qed.

Lemma write_mem_in m a bs i b :
  zget bs i = Some b -> write_mem m a bs (a + i) = b.
Proof. intros H. unfold write_mem. by replace (a + i - a) with i by lia; rewrite H. Qed.

Lemma write_mem_out m a bs x :
  x < a \/ a + len bs <= x -> write_mem m a bs x = m x.
Proof.
  intros H. unfold write_mem.
  destruct (zget bs (x - a)) eqn:E; [|done]. apply zget_Some_bound in E. lia.
Qed.

Lemma read_write_mem m a bs : read_mem (write_mem m a bs) a (len bs) = bs.
Proof.
  apply list_eq. intros i. unfold read_mem. change (map ?f ?l) with (f <$> l).
  rewrite list_lookup_fmap.
  destruct (decide (Z.of_nat i < len bs)) as [Hi|Hi].
  - rewrite lookup_seqZ_lt by lia. simpl. unfold write_mem.
    replace (a + _ - a) with (Z.of_nat i) by lia.
    rewrite zget_lookup, Nat2Z.id by lia.
    destruct (bs !! i) eqn:Eb; [done|]. apply lookup_ge_None in Eb. unfold len in Hi. lia.
  - rewrite lookup_seqZ_ge by lia. simpl. symmetry. apply lookup_ge_None.
    unfold len in Hi. lia.
Qed.

Lemma read_mem_ext m m' a n :
  (forall x, a <= x < a + n -> m' x = m x) -> read_mem m' a n = read_mem m a n.
Proof.
  intros H. unfold read_mem. apply map_ext_in. intros i Hi%list_elem_of_In.
  apply elem_of_seqZ in Hi. apply H. lia.
Qed.

Lemma read_mem_app m a n k :
  0 <= n -> 0 <= k -> read_mem m a (n + k) = read_mem m a n ++ read_mem m (a + n) k.
Proof.
  intros Hn Hk. unfold read_mem. rewrite seqZ_app, map_app by done. f_equal.
  replace (0 + n) with (n + 0) by lia. rewrite <- fmap_add_seqZ.
  change (map ?f ?l) with (f <$> l). rewrite <- list_fmap_compose.
  apply list_fmap_ext. intros _ i _. unfold compose. f_equal. lia.
Qed.

(** ** Binary records

    The little-endian field of [n] bytes at [off], and the record built from
    a list of (width in bytes, value) pairs. *)

Definition field (data : list byte) (off : Z) (n : Z) : Z := le_val (sub_list data off n).

Definition enc (fs : list (nat * Z)) : list byte :=
  concat (map (fun f => le_bytes f.1 f.2) fs).

Definition widths (fs : list (nat * Z)) : Z :=
  foldr (fun f n => Z.of_nat f.1 + n) 0 fs.

Lemma field_bound data off n : 0 <= n -> 0 <= field data off n < 256 ^ n.
Proof.
  intros Hn. unfold field. pose proof (le_val_bound (sub_list data off n)) as H.
  assert (len (sub_list data off n) <= n).
  { unfold len, sub_list. rewrite length_take. lia. }
  pose proof (Z.pow_le_mono_r 256 (len (sub_list data off n)) n). lia.
Qed.

Lemma len_enc fs : len (enc fs) = widths fs.
Proof.
  unfold enc, len. induction fs as [|[n z] fs IH]; [done|]. simpl in *.
  rewrite length_app, length_le_bytes. lia.
Qed.

Lemma widths_nonneg fs : 0 <= widths fs.
Proof. rewrite <- len_enc. apply len_nonneg. Qed.

Lemma enc_app fs gs : enc (fs ++ gs) = enc fs ++ enc gs.
Proof. unfold enc. by rewrite map_app, concat_app. Qed.

(** Decoding the [k]-th field of an encoded record gives its value. *)
Lemma field_enc fs (k : nat) n z rest :
  fs !! k = Some (n, z) ->
  field (enc fs ++ rest) (widths (take k fs)) (Z.of_nat n) = z mod 256 ^ Z.of_nat n.
Proof.
  intros Hk. unfold field. rewrite <- le_val_le_bytes.
  assert (fs = take k fs ++ (n, z) :: drop (S k) fs) as Hfs by (by rewrite take_drop_middle).
  assert (enc fs ++ rest = enc (take k fs) ++ (le_bytes n z ++ enc (drop (S k) fs) ++ rest)) as ->.
  { rewrite Hfs at 1. rewrite enc_app. simpl. unfold enc at 2. simpl. by rewrite <- !app_assoc. }
  rewrite <- len_enc, sub_list_app_r, Nat2Z.id.
  rewrite take_app_length'; [done|]. by rewrite length_le_bytes.
Qed.

Lemma sub_list_app_l {A} (l k : list A) a n :
  0 <= a -> 0 <= n -> a + n <= len l -> sub_list (l ++ k) a n = sub_list l a n.
Proof.
  intros. unfold sub_list, len in *. rewrite drop_app_le by lia.
  rewrite take_app_le; [done|]. rewrite length_drop. lia.
Qed.

Lemma sub_list_app_skip {A} (l k : list A) a n :
  0 <= a -> sub_list (l ++ k) (len l + a) n = sub_list k a n.
Proof.
  intros. unfold sub_list, len.
  replace (Z.to_nat (Z.of_nat (length l) + a)) with (length l + Z.to_nat a)%nat by lia.
  by rewrite drop_app_add'.
Qed.

Lemma zget_app_l {A} (l k : list A) i : i < len l -> zget (l ++ k) i = zget l i.
Proof.
  intros Hi. destruct (decide (i < 0)) as [Hn|Hn].
  - unfold zget. by replace (i <? 0) with true by lia.
  - rewrite !zget_lookup by lia. apply lookup_app_l. unfold len in Hi. lia.
Qed.
