(* ===== verification/Alloc.v ===== *)
(** * What the code asks of the global allocator

    The functions of the other files are written as if the heap served every
    request; Rust's collections panic when it does not.  Beside the operations
    whose panics matter stands the list of what they ask for, and [on_heap]
    runs an operation on a heap that may refuse.  A panic leaves no state
    behind, so it does not matter at which of the requests it happens.

    How much a growing vector asks for depends on the capacity it happens to
    have; whether the heap serves a sequence of requests is therefore a
    parameter, for which [HeapLimits] has an instance made of the kernel's
    allocator. *)

From S2P Require Import Prelude.

Inductive Request :=
| Text (n : Z)             (* a string of [n] bytes: [String::from], [clone] *)
| Bytes (n : Z)            (* [vec![0; n]], [Vec::from] or [to_vec] of [n] bytes *)
| Extend (n more : Z)      (* a byte vector of [n] bytes grows by [more] *)
| Push (n : Z)             (* one more element for a vector or queue of [n] *)
| Collect (n : Z)          (* a vector of [n] strings *)
| Draw (text : list byte)  (* copies of the glyphs of a text *)
| Shared                   (* [Arc::new] *)
| Tables.                  (* what the ACPI parser and the processor list need *)

(** Whether the heap serves these requests, in this order. *)
Class KernelHeap := { serves : list Request -> bool }.

Definition on_heap `{KernelHeap} {A} (rs : list Request) (m : outcome A) : outcome A :=
  if serves rs then m else Panic.

(** A heap without limits. *)
Definition roomy : KernelHeap := {| serves _ := true |}.
