(* ===== verification/Abi.v ===== *)
(** * The kernel/user and loader/kernel ABI

    [shared/abi/src/syscall.rs]: the system-call numbers and argument blocks;
    [shared/abi/src/boot.rs]: the hand-off block the loader passes to the
    kernel and the iteration over the UEFI memory map in it. *)

From S2P Require Import Prelude.

(** ** System calls *)

Inductive Syscall :=
| SysWrite | SysExit | SysRead | SysOpen | SysClose | SysExec | SysFork
| SysWait | SysYielder | SysUptime | SysLs | SysStat | SysGetPid | SysSeek
| SysWriteFile | SysGetUid | SysGetGid | SysBrk | SysMkdir | SysUnlink.

#[global] Instance Syscall_eq_dec : EqDecision Syscall.
Proof. solve_decision. Defined.

Definition from_u16 (value : Z) : option Syscall :=
  match value with
  | 1 => Some SysWrite | 2 => Some SysExit | 3 => Some SysRead
  | 4 => Some SysOpen | 5 => Some SysClose | 6 => Some SysExec
  | 7 => Some SysFork | 8 => Some SysWait | 9 => Some SysYielder
  | 10 => Some SysUptime | 11 => Some SysLs | 12 => Some SysStat
  | 13 => Some SysGetPid | 14 => Some SysSeek | 15 => Some SysWriteFile
  | 16 => Some SysGetUid | 17 => Some SysGetGid | 18 => Some SysBrk
  | 19 => Some SysMkdir | 20 => Some SysUnlink
  | _ => None
  end.

(** [Syscall::id], the discriminant. *)
Definition id (s : Syscall) : Z :=
  match s with
  | SysWrite => 1 | SysExit => 2 | SysRead => 3 | SysOpen => 4 | SysClose => 5
  | SysExec => 6 | SysFork => 7 | SysWait => 8 | SysYielder => 9
  | SysUptime => 10 | SysLs => 11 | SysStat => 12 | SysGetPid => 13
  | SysSeek => 14 | SysWriteFile => 15 | SysGetUid => 16 | SysGetGid => 17
  | SysBrk => 18 | SysMkdir => 19 | SysUnlink => 20
  end.

Record SyscallHeader := mkSyscallHeader {
  number : Z; header_flags : Z; header_reserved : Z }.

Definition SyscallHeader_new (n : Syscall) : SyscallHeader :=
  mkSyscallHeader (id n) 0 0.

Record SyscallArgs := mkSyscallArgs { arg0 : Z; arg1 : Z; arg2 : Z; arg3 : Z }.

Definition FILE_TYPE_REGULAR : Z := 0.
Definition FILE_TYPE_DIRECTORY : Z := 1.
Definition FILE_TYPE_DEVICE : Z := 2.
Definition FILE_TYPE_PIPE : Z := 3.

Record Stat := mkStat { stat_size : Z; stat_file_type : Z }.

(** ** The boot hand-off block *)

Inductive BootEnvironment := EnvUnknown | EnvUefi.
Inductive BootLoaderKind := LoaderUnknown | UefiLoader.

Definition BOOT_FLAG_BOOT_SERVICES_EXITED : Z := 1.
Definition MEMORY_TYPE_CONVENTIONAL : Z := 7.
Definition MEMORY_TYPE_LOADER_DATA : Z := 2.
Definition MEMORY_TYPE_BOOT_SERVICES_CODE : Z := 3.
Definition MEMORY_TYPE_BOOT_SERVICES_DATA : Z := 4.

Record BootMemoryDescriptor := mkDescriptor {
  ty : Z; reserved : Z; phys_start : Z; virt_start : Z; page_count : Z; att : Z }.

(** [size_of::<BootMemoryDescriptor>()] of the [repr(C)] struct. *)
Definition size_of_descriptor : Z := 40.

Record BootMemoryMap := mkMemoryMap {
  descriptors : Z; map_size : Z; desc_size : Z; desc_version : Z }.

Definition BootMemoryMap_empty : BootMemoryMap := mkMemoryMap 0 0 0 0.

Definition entry_count (m : BootMemoryMap) : Z :=
  if desc_size m =? 0 then 0 else map_size m / desc_size m.

(** The [repr(C)] struct at address [a]. *)
Definition read_descriptor (mm : mem) (a : Z) : BootMemoryDescriptor :=
  {| ty := le_val (read_mem mm a 4);
     reserved := le_val (read_mem mm (a + 4) 4);
     phys_start := le_val (read_mem mm (a + 8) 8);
     virt_start := le_val (read_mem mm (a + 16) 8);
     page_count := le_val (read_mem mm (a + 24) 8);
     att := le_val (read_mem mm (a + 32) 8) |}.

Definition get (mm : mem) (m : BootMemoryMap) (index : Z)
    : option BootMemoryDescriptor :=
  if (entry_count m <=? index) || (descriptors m =? 0)
     || (desc_size m <? size_of_descriptor)
  then None
  else
    offset ← checked_mul 64 index (desc_size m);
    Some (read_descriptor mm (descriptors m + offset)).

Record BootMemoryMapIter := mkIter { iter_map : BootMemoryMap; iter_index : Z }.

Definition iter (m : BootMemoryMap) : BootMemoryMapIter := mkIter m 0.

Definition next (mm : mem) (it : BootMemoryMapIter)
    : option (BootMemoryDescriptor * BootMemoryMapIter) :=
  item ← get mm (iter_map it) (iter_index it);
  Some (item, mkIter (iter_map it) (iter_index it + 1)).

(** The descriptors a [for] loop over the iterator visits, within [fuel]
    calls of [next]; [None] when the iterator is not exhausted by then. *)
Fixpoint drain (mm : mem) (fuel : nat) (it : BootMemoryMapIter)
    : option (list BootMemoryDescriptor) :=
  match fuel with
  | O => None
  | S fuel' =>
      match next mm it with
      | None => Some []
      | Some (d, it') => cons d <$> drain mm fuel' it'
      end
  end.

(** Enough fuel for any map: see [drain_enough_fuel]. *)
Definition visited (mm : mem) (m : BootMemoryMap) : list BootMemoryDescriptor :=
  default [] (drain mm (S (Z.to_nat (entry_count m))) (iter m)).

Record BootFramebuffer := mkBootFramebuffer {
  fb_addr : Z; fb_size : Z; fb_width : Z; fb_height : Z; fb_pitch : Z; fb_format : Z }.

Record BootInfo := mkBootInfo {
  abi_version : Z;
  environment : BootEnvironment;
  loader : BootLoaderKind;
  flags : Z;
  kernel_image_base : Z;
  kernel_image_size : Z;
  physical_memory_offset : Z;
  ramdisk_addr : Z;
  ramdisk_size : Z;
  memory_map : BootMemoryMap;
  framebuffer : BootFramebuffer;
  rsdp_addr : Z }.

Definition uefi (v : Z) : BootInfo :=
  {| abi_version := v; environment := EnvUefi; loader := UefiLoader; flags := 0;
     kernel_image_base := 0; kernel_image_size := 0; physical_memory_offset := 0;
     ramdisk_addr := 0; ramdisk_size := 0; memory_map := BootMemoryMap_empty;
     framebuffer := mkBootFramebuffer 0 0 0 0 0 0; rsdp_addr := 0 |}.

Definition boot_services_exited (b : BootInfo) : bool :=
  negb (Z.land (flags b) BOOT_FLAG_BOOT_SERVICES_EXITED =? 0).

Definition ABI_VERSION : Z := 3.

(** ** Lemmas *)

Lemma from_u16_id s : from_u16 (id s) = Some s.
Proof. by destruct s. Qed.

Lemma id_from_u16 v s : from_u16 v = Some s -> id s = v.
Proof.
  intros H. destruct (decide (1 <= v <= 20)) as [Hv|Hv].
  - assert (exists n : nat, v = Z.of_nat n /\ (n <= 20)%nat) as (n & -> & Hn).
    { exists (Z.to_nat v). lia. }
    do 21 (destruct n as [|n]; [by simplify_eq/=|]). lia.
  - exfalso. unfold from_u16 in H. repeat case_match; simplify_eq; lia.
Qed.

(** A usable map: a non-null table of entries at least as large as the
    struct the kernel reads. *)
Definition map_readable (m : BootMemoryMap) : Prop :=
  descriptors m <> 0 /\ size_of_descriptor <= desc_size m /\ in_usize (map_size m).

Lemma get_in mm m i :
  map_readable m -> 0 <= i < entry_count m ->
  get mm m i = Some (read_descriptor mm (descriptors m + i * desc_size m)).
Proof.
  intros (Hd & Hs & Hm) Hi. unfold get, entry_count, size_of_descriptor, in_range in *.
  case_if; [lia|]. case_if; [lia|].
  unfold checked_mul. case_if; [done|].
  pose proof (Z.mul_div_le (map_size m) (desc_size m)). nia.
Qed.

Lemma get_out mm m i : entry_count m <= i -> get mm m i = None.
Proof. intros. unfold get. case_if; [done|lia]. Qed.

Lemma drain_from mm m (k fuel : nat) i :
  map_readable m -> 0 <= i -> i + Z.of_nat k = entry_count m -> (k < fuel)%nat ->
  drain mm fuel (mkIter m i) =
  Some (map (fun j => read_descriptor mm (descriptors m + j * desc_size m)) (seqZ i (Z.of_nat k))).
Proof.
  revert fuel i. induction k as [|k IH]; intros [|fuel] i Hm Hi Hk Hf; try lia; simpl;
    unfold next; simpl.
  - by rewrite get_out by lia.
  - rewrite get_in by (done || lia). simpl. rewrite (IH fuel (i + 1)) by (done || lia).
    rewrite (seqZ_cons i) by lia. simpl. do 3 f_equal. f_equal; lia.
Qed.

Lemma entry_count_nonneg m : map_readable m -> 0 <= entry_count m.
Proof.
  intros (_ & Hs & Hm). unfold entry_count, size_of_descriptor, in_range in *.
  case_if; [lia|]. apply Z.div_pos; lia.
Qed.

(** The iteration ends: any fuel above the number of entries gives the same
    list, one descriptor per entry, in table order. *)
Lemma drain_enough_fuel mm m (fuel : nat) :
  map_readable m -> entry_count m < Z.of_nat fuel ->
  drain mm fuel (iter m) = Some (visited mm m).
Proof.
  intros Hm Hf. pose proof (entry_count_nonneg m Hm).
  unfold visited, iter.
  rewrite !(drain_from mm m (Z.to_nat (entry_count m))) by (done || lia). done.
Qed.

Lemma visited_eq mm m :
  map_readable m ->
  visited mm m =
  map (fun j => read_descriptor mm (descriptors m + j * desc_size m)) (seqZ 0 (entry_count m)).
Proof.
  intros Hm. pose proof (entry_count_nonneg m Hm). unfold visited, iter.
  rewrite (drain_from mm m (Z.to_nat (entry_count m))) by (done || lia).
  rewrite Z2Nat.id by done. done.
Qed.
