(* ===== verification/Utf8.v ===== *)
(** * Strings

    A Rust [&str] or [String] is its UTF-8 bytes; a [char] is its scalar
    value.  [decode] is the validation of [core::str::from_utf8] and the
    iteration [chars()]; [encode] is [String::push] over [char]s. *)

From Stdlib Require Import Strings.String.
Export String.StringSyntax.
From S2P Require Import Prelude.

(** String literals of the source. *)
Definition str (s : string) : list byte := String.list_byte_of_string s.
Arguments str s%_string_scope.

(** Scalar values: the values of type [char]. *)
Definition scalar (c : Z) : Prop := 0 <= c < 0xD800 \/ 0xE000 <= c < 0x110000.

(** Continuation bytes. *)
Definition cont (b : Z) : bool := (0x80 <=? b) && (b <=? 0xBF).

Definition lead3 (a b : Z) : bool :=
  ((a =? 0xE0) && (0xA0 <=? b) && (b <=? 0xBF)) ||
  ((0xE1 <=? a) && (a <=? 0xEC) && cont b) ||
  ((a =? 0xED) && (0x80 <=? b) && (b <=? 0x9F)) ||
  ((0xEE <=? a) && (a <=? 0xEF) && cont b).

Definition lead4 (a b : Z) : bool :=
  ((a =? 0xF0) && (0x90 <=? b) && (b <=? 0xBF)) ||
  ((0xF1 <=? a) && (a <=? 0xF3) && cont b) ||
  ((a =? 0xF4) && (0x80 <=? b) && (b <=? 0x8F)).

(** The characters of a byte string, [None] when it is not valid UTF-8. *)
Fixpoint decode (bs : list byte) : option (list Z) :=
  match bs with
  | [] => Some []
  | b0 :: r0 =>
    let a := u8 b0 in
    if a <? 0x80 then cons a <$> decode r0 else
    match r0 with
    | [] => None
    | b1 :: r1 =>
      let b := u8 b1 in
      if (0xC2 <=? a) && (a <=? 0xDF) && cont b
      then cons ((a - 0xC0) * 64 + (b - 0x80)) <$> decode r1 else
      match r1 with
      | [] => None
      | b2 :: r2 =>
        let c := u8 b2 in
        if lead3 a b && cont c
        then cons ((a - 0xE0) * 4096 + (b - 0x80) * 64 + (c - 0x80)) <$> decode r2 else
        match r2 with
        | [] => None
        | b3 :: r3 =>
          let d := u8 b3 in
          if lead4 a b && cont c && cont d
          then cons ((a - 0xF0) * 262144 + (b - 0x80) * 4096 + (c - 0x80) * 64 + (d - 0x80))
                 <$> decode r3
          else None
        end
      end
    end
  end.

(** [core::str::from_utf8(bs).ok()]. *)
Definition from_utf8 (bs : list byte) : option (list byte) :=
  match decode bs with Some _ => Some bs | None => None end.

(** [core::str::from_utf8(bs).unwrap_or(d)]. *)
Definition utf8_or (bs d : list byte) : list byte := default d (from_utf8 bs).

Definition encode_char (c : Z) : list byte :=
  if c <? 0x80 then [byte_of c]
  else if c <? 0x800 then [byte_of (0xC0 + c / 64); byte_of (0x80 + c mod 64)]
  else if c <? 0x10000 then
    [byte_of (0xE0 + c / 4096); byte_of (0x80 + c / 64 mod 64); byte_of (0x80 + c mod 64)]
  else
    [byte_of (0xF0 + c / 262144); byte_of (0x80 + c / 4096 mod 64);
     byte_of (0x80 + c / 64 mod 64); byte_of (0x80 + c mod 64)].

(** The bytes of a string given by its characters. *)
Definition encode (cs : list Z) : list byte := concat (map encode_char cs).

(** [char::is_control]: the Unicode category Cc. *)
Definition is_control (c : Z) : bool :=
  ((0 <=? c) && (c <=? 0x1F)) || ((0x7F <=? c) && (c <=? 0x9F)).

(** ** Lemmas *)

Lemma u8_byte_of_small z : 0 <= z < 256 -> u8 (byte_of z) = z.
Proof. intros. rewrite u8_byte_of. by apply Z.mod_small. Qed.

Lemma decode_encode_char c bs :
  scalar c -> decode (encode_char c ++ bs) = cons c <$> decode bs.
Proof.
  intros Hc. unfold scalar in Hc. unfold encode_char, lead3, lead4, cont.
  repeat case_if; cbn [app decode]; unfold lead3, lead4, cont;
    rewrite !u8_byte_of_small by (Z.div_mod_to_equations; lia).
  - by rewrite E.
  - case_if; [Z.div_mod_to_equations; lia|].
    case_if; [|Z.div_mod_to_equations; lia].
    f_equal. f_equal. Z.div_mod_to_equations; lia.
  - do 2 (case_if; [exfalso; Z.div_mod_to_equations; lia|]).
    case_if; [|exfalso; Z.div_mod_to_equations; lia].
    f_equal. f_equal. Z.div_mod_to_equations; lia.
  - do 3 (case_if; [exfalso; Z.div_mod_to_equations; lia|]).
    case_if; [|exfalso; Z.div_mod_to_equations; lia].
    f_equal. f_equal. Z.div_mod_to_equations; lia.
Qed.

Lemma decode_encode cs : Forall scalar cs -> decode (encode cs) = Some cs.
Proof.
  induction 1 as [|c cs Hc _ IH]; [done|].
  unfold encode in *. cbn [map concat]. rewrite decode_encode_char, IH by done. done.
Qed.

Lemma encode_app cs ds : encode (cs ++ ds) = encode cs ++ encode ds.
Proof. unfold encode. by rewrite map_app, concat_app. Qed.

Lemma from_utf8_encode cs : Forall scalar cs -> from_utf8 (encode cs) = Some (encode cs).
Proof. intros. unfold from_utf8. by rewrite decode_encode. Qed.

Lemma from_utf8_Some bs s : from_utf8 bs = Some s -> s = bs.
Proof. unfold from_utf8. destruct (decode bs); naive_solver. Qed.

(** Decoding gives scalar values. *)
Lemma decode_scalar_lt (n : nat) bs cs : (length bs < n)%nat -> decode bs = Some cs -> Forall scalar cs.
Proof.
  revert bs cs. induction n as [|n IH]; intros bs cs Hn Hd; [lia|].
  destruct bs as [|b0 r0]; [by injection Hd as <-|]. cbn [decode length] in *.
  pose proof (u8_bound b0).
  assert (forall c r, (length r < n)%nat -> scalar c -> cons c <$> decode r = Some cs -> Forall scalar cs) as Hcons.
  { intros c r Hr Hc (ds & Hds & ->)%fmap_Some. constructor; [done|]. by apply (IH r). }
  case_if; [apply (Hcons _ r0) in Hd; [done|lia|unfold scalar; lia]|].
  destruct r0 as [|b1 r1]; [done|]. cbn [length] in *.
  case_if; [apply (Hcons _ r1) in Hd; [done|lia|unfold cont, scalar in *; lia]|].
  destruct r1 as [|b2 r2]; [done|]. cbn [length] in *.
  case_if; [apply (Hcons _ r2) in Hd; [done|lia|unfold lead3, cont, scalar in *; lia]|].
  destruct r2 as [|b3 r3]; [done|]. cbn [length] in *.
  case_if; [apply (Hcons _ r3) in Hd; [done|lia|unfold lead4, cont, scalar in *; lia]|done].
Qed.

Lemma decode_scalar bs cs : decode bs = Some cs -> Forall scalar cs.
Proof. apply (decode_scalar_lt (S (length bs))). lia. Qed.

(** Encoding gives the bytes back. *)
Lemma byte_is z b : z = u8 b -> byte_of z = b.
Proof. intros ->. apply byte_of_u8. Qed.

Lemma encode_decode_lt (n : nat) bs cs : (length bs < n)%nat -> decode bs = Some cs -> encode cs = bs.
Proof.
  revert bs cs. induction n as [|n IH]; intros bs cs Hn Hd; [lia|].
  destruct bs as [|b0 r0]; [by injection Hd as <-|]. cbn [decode length] in *. pose proof (u8_bound b0).
  assert (forall c r pre, (length r < n)%nat -> encode_char c = pre -> cons c <$> decode r = Some cs -> encode cs = pre ++ r) as Hcons.
  { intros c r pre Hr <- (ds & Hds & ->)%fmap_Some. unfold encode. cbn [map concat]. f_equal. by apply (IH r). }
  unfold encode_char in Hcons.
  case_if; [apply (Hcons _ r0 [b0]) in Hd; [done|lia|rewrite E; by rewrite byte_of_u8]|].
  destruct r0 as [|b1 r1]; [done|]. cbn [length] in *. pose proof (u8_bound b1).
  case_if; [apply (Hcons _ r1 [b0; b1]) in Hd; [done|lia|]|].
  { unfold cont in *. do 2 (case_if; [try lia|try lia]). f_equal; [|f_equal]; apply byte_is; Z.div_mod_to_equations; lia. }
  destruct r1 as [|b2 r2]; [done|]. cbn [length] in *. pose proof (u8_bound b2).
  case_if; [apply (Hcons _ r2 [b0; b1; b2]) in Hd; [done|lia|]|].
  { unfold lead3, cont in *. do 3 (case_if; [try lia|try lia]).
    f_equal; [|f_equal; [|f_equal]]; apply byte_is; Z.div_mod_to_equations; lia. }
  destruct r2 as [|b3 r3]; [done|]. cbn [length] in *. pose proof (u8_bound b3).
  case_if; [apply (Hcons _ r3 [b0; b1; b2; b3]) in Hd; [done|lia|]|done].
  unfold lead4, cont in *. do 3 (case_if; [lia|]).
  f_equal; [|f_equal; [|f_equal; [|f_equal]]]; apply byte_is; Z.div_mod_to_equations; lia.
Qed.

Lemma encode_decode bs cs : decode bs = Some cs -> encode cs = bs.
Proof. apply (encode_decode_lt (S (length bs))). lia. Qed.

(** ** White space *)

(** [char::is_whitespace]. *)
Definition is_whitespace (c : Z) : bool :=
  ((9 <=? c) && (c <=? 13)) || (c =? 0x20) || (c =? 0x85) || (c =? 0xA0) || (c =? 0x1680) ||
  ((0x2000 <=? c) && (c <=? 0x200A)) || (c =? 0x2028) || (c =? 0x2029) || (c =? 0x202F) ||
  (c =? 0x205F) || (c =? 0x3000).

Fixpoint skip_whitespace (cs : list Z) : list Z :=
  match cs with
  | c :: cs' => if is_whitespace c then skip_whitespace cs' else cs
  | [] => []
  end.

(** [s.trim()]: where it starts in [s], and its bytes. *)
Definition trim (s : list byte) : Z * list byte :=
  let cs := default [] (decode s) in
  let tail := skip_whitespace cs in
  (len (encode (take (length cs - length tail) cs)), encode (rev (skip_whitespace (rev tail)))).

Lemma skip_whitespace_suffix cs : exists ws, cs = ws ++ skip_whitespace cs /\ Forall (fun c => is_whitespace c = true) ws.
Proof.
  induction cs as [|c cs (ws & Hcs & Hws)]; [by exists []|]. cbn [skip_whitespace]. destruct (is_whitespace c) eqn:E.
  - exists (c :: ws). split; [cbn [app]; by rewrite <- Hcs|by apply Forall_cons].
  - by exists [].
Qed.

(** The trimmed text is the part of the string at the given offset, and
    what is cut off is white space. *)
Lemma trim_encode cs start text : Forall scalar cs -> trim (encode cs) = (start, text) ->
  exists lead mid trail, cs = lead ++ mid ++ trail /\ text = encode mid /\ start = len (encode lead) /\
    Forall (fun c => is_whitespace c = true) (lead ++ trail).
Proof.
  intros Hcs Ht. unfold trim in Ht. rewrite decode_encode in Ht by done. cbv zeta in Ht. change (default [] (Some cs)) with cs in Ht.
  destruct (skip_whitespace_suffix cs) as (lead & Hl & Hlw). set (tail := skip_whitespace cs) in *.
  clearbody tail. subst cs. destruct (skip_whitespace_suffix (rev tail)) as (trail & Hr & Hrw). injection Ht as <- <-.
  exists lead, (rev (skip_whitespace (rev tail))), (rev trail). split_and!.
  - f_equal. rewrite <- rev_app_distr, <- Hr. by rewrite rev_involutive.
  - done.
  - do 2 f_equal. rewrite length_app. replace (length lead + length tail - length tail)%nat with (length lead) by lia.
    apply take_app_length.
  - apply Forall_app. split; [done|]. rewrite Forall_forall in *. intros c Hc. apply Hrw.
    by rewrite list_elem_of_In, <- in_rev, <- list_elem_of_In in Hc.
Qed.

(** [String::from_utf8_lossy], as characters: each maximal prefix of a
    character that is not completed becomes U+FFFD. *)
Fixpoint lossy (bs : list byte) : list Z :=
  match bs with
  | [] => []
  | b0 :: r0 =>
    let a := u8 b0 in
    if a <? 0x80 then a :: lossy r0 else
    match r0 with
    | [] => [0xFFFD]
    | b1 :: r1 =>
      let b := u8 b1 in
      if (0xC2 <=? a) && (a <=? 0xDF) && cont b then ((a - 0xC0) * 64 + (b - 0x80)) :: lossy r1 else
      if lead3 a b then
        match r1 with
        | [] => [0xFFFD]
        | b2 :: r2 =>
            if cont (u8 b2) then ((a - 0xE0) * 4096 + (b - 0x80) * 64 + (u8 b2 - 0x80)) :: lossy r2
            else 0xFFFD :: lossy r1
        end
      else if lead4 a b then
        match r1 with
        | [] => [0xFFFD]
        | b2 :: r2 =>
            if cont (u8 b2) then
              match r2 with
              | [] => [0xFFFD]
              | b3 :: r3 =>
                  if cont (u8 b3)
                  then ((a - 0xF0) * 262144 + (b - 0x80) * 4096 + (u8 b2 - 0x80) * 64 + (u8 b3 - 0x80)) :: lossy r3
                  else 0xFFFD :: lossy r2
              end
            else 0xFFFD :: lossy r1
        end
      else 0xFFFD :: lossy r0
    end
  end.

(** Valid text is decoded as it is. *)
Lemma lossy_decode bs cs : decode bs = Some cs -> lossy bs = cs.
Proof.
  revert cs. induction bs as [bs IH] using (induction_ltof1 _ (@length byte)). unfold ltof in IH.
  intros cs. destruct bs as [|b0 r0]; [by intros [= <-]|].
  assert (forall r x cs, (length r < length (b0 :: r0))%nat -> cons x <$> decode r = Some cs -> x :: lossy r = cs) as Hrec.
  { intros r x cs' Hlt Hd. destruct (decode r) as [l|] eqn:E; [|done]. injection Hd as <-. by rewrite (IH r Hlt l E). }
  cbn [decode lossy]. set (a := u8 b0). case_if; [by apply Hrec; cbn [length]; lia|].
  destruct r0 as [|b1 r1]; [done|]. set (b := u8 b1). case_if; [by apply Hrec; cbn [length]; lia|].
  destruct r1 as [|b2 r2]; [done|]. set (c := u8 b2). destruct (lead3 a b) eqn:E3; cbn [andb].
  - destruct (cont c); [by apply Hrec; cbn [length]; lia|]. destruct r2 as [|b3 r3]; [done|].
    replace (lead4 a b) with false; [done|]. unfold lead3 in E3. unfold lead4. lia.
  - destruct r2 as [|b3 r3]; [done|]. destruct (lead4 a b); [|done]. cbn [andb].
    destruct (cont c); [|done]. cbn [andb]. destruct (cont (u8 b3)); [|done]. by apply Hrec; cbn [length]; lia.
Qed.
