(* ===== verification/Serial.v ===== *)
(** * Serial output ([shared/serial/src/lib.rs], [kernel/src/serial.rs]) and
    the integer formatting of [core::fmt] the kernel prints with

    The serial line is the list of bytes sent; the driver that sends them is
    [SerialPort]. *)

From S2P Require Import Prelude Utf8.

(** [SerialWriter::write_str]: a newline is sent as CR LF. *)
Fixpoint write_str (value : list byte) : list byte :=
  match value with
  | [] => []
  | b :: rest => if bool_decide (b = x0a) then x0d :: x0a :: write_str rest else b :: write_str rest
  end.

(** [print!] of the formatted text. *)
Definition print (line text : list byte) : list byte := line ++ write_str text.

Definition ascii_digit (d : Z) : byte := byte_of (48 + d).
Definition hex_digit (d : Z) : byte := if d <? 10 then byte_of (48 + d) else byte_of (87 + d).

(** The digits of [n] in [base], most significant first. *)
Fixpoint digits (base : Z) (digit : Z -> byte) (fuel : nat) (n : Z) (acc : list byte) : list byte :=
  match fuel with
  | O => acc
  | S fuel' =>
      let acc := digit (n mod base) :: acc in
      if n <? base then acc else digits base digit fuel' (n / base) acc
  end.

(** ["{}"] of an unsigned integer of at most 64 bits: at most 20 digits. *)
Definition dec (n : Z) : list byte := digits 10 ascii_digit 20 n [].

(** ["{}"] of a signed integer. *)
Definition dec_signed (n : Z) : list byte := if n <? 0 then x2d :: dec (- n) else dec n.

(** ["{:#x}"]. *)
Definition hex (n : Z) : list byte := str "0x" ++ digits 16 hex_digit 16 n [].

(** ** Lemmas *)

(** Reading decimal digits back. *)
Definition undec (bs : list byte) : Z := fold_left (fun n b => n * 10 + (u8 b - 48)) bs 0.

Lemma undec_digits fuel n acc :
  0 <= n < 10 ^ Z.of_nat fuel -> (0 < fuel)%nat ->
  fold_left (fun n b => n * 10 + (u8 b - 48)) (digits 10 ascii_digit fuel n acc) 0 =
  fold_left (fun n b => n * 10 + (u8 b - 48)) acc n.
Proof.
  revert n acc. induction fuel as [|fuel IH]; intros n acc Hn Hf; [lia|]. cbn [digits].
  pose proof (Z.mod_pos_bound n 10 ltac:(lia)) as Hm. pose proof (Z.div_mod n 10 ltac:(lia)) as Hd.
  assert (u8 (ascii_digit (n mod 10)) = 48 + n mod 10) as Hdig.
  { unfold ascii_digit. rewrite u8_byte_of. apply Z.mod_small. lia. }
  case_if.
  - cbn [fold_left]. rewrite Hdig. f_equal. rewrite Z.mod_small by lia. lia.
  - destruct fuel as [|fuel]; [change (10 ^ Z.of_nat 1) with 10 in Hn; lia|].
    rewrite IH; [|rewrite Nat2Z.inj_succ, Z.pow_succ_r in Hn by lia; lia|lia].
    cbn [fold_left]. rewrite Hdig. f_equal. lia.
Qed.

Lemma undec_dec n : 0 <= n < 10 ^ 20 -> undec (dec n) = n.
Proof. intros Hn. unfold undec, dec. rewrite undec_digits by (done || lia). done. Qed.

(** Undoing the newline expansion. *)
Fixpoint strip_cr (bs : list byte) : list byte :=
  match bs with
  | [] => []
  | b :: rest => if bool_decide (b = x0d) then strip_cr rest else b :: strip_cr rest
  end.

Lemma strip_cr_write_str s : x0d ∉ s -> strip_cr (write_str s) = s.
Proof.
  induction s as [|b s IH]; [done|]. intros [Hb Hs]%not_elem_of_cons. cbn [write_str].
  case_bool_decide as E.
  - subst. cbn [strip_cr]. rewrite bool_decide_eq_true_2, bool_decide_eq_false_2 by done. by rewrite IH.
  - cbn [strip_cr]. rewrite bool_decide_eq_false_2 by congruence. by rewrite IH.
Qed.
