(* ===== verification/Elf.v ===== *)
(** * The kernel's ELF parser ([kernel/src/elf.rs])

    [parse_header] and [parse_program_header] with their bounds checks,
    overflow checks and indexing panics, and the reference reading of an ELF
    file they are proved equal to. *)

From S2P Require Import Prelude.

Definition ELF_MAGIC : list byte := [x7f; x45; x4c; x46].
Definition ELF_CLASS_64 : byte := x02.
Definition ELF_DATA_LITTLE_ENDIAN : byte := x01.
Definition ELF_TYPE_EXEC : Z := 2.
Definition ELF_TYPE_DYN : Z := 3.
Definition ELF_MACHINE_X86_64 : Z := 62.
Definition PROGRAM_HEADER_LOAD : Z := 1.
Definition PF_X : Z := 1.
Definition PF_W : Z := 2.
Definition PF_R : Z := 4.

Record ElfHeader := mkElfHeader {
  entry : Z;
  program_header_offset : Z;
  program_header_entry_size : Z;
  program_header_count : Z }.

Record ProgramHeader := mkProgramHeader {
  file_offset : Z;
  virtual_address : Z;
  physical_address : Z;
  file_size : Z;
  memory_size : Z;
  ph_flags : Z;
  align : Z }.

Inductive ParseError :=
| FileTooSmall
| BadMagic
| UnsupportedClass
| UnsupportedEndian
| UnsupportedType
| UnsupportedMachine
| InvalidProgramHeaderSize
| ProgramHeaderOutOfBounds.

#[global] Instance ParseError_eq_dec : EqDecision ParseError.
Proof. solve_decision. Defined.

(** [uN::from_le_bytes([data[off], .., data[off + n - 1]])]. *)
Definition from_le (data : list byte) (off : Z) (n : nat) : outcome Z :=
  bs ← map_out (idx data) (seqZ off (Z.of_nat n));
  Ret (le_val bs).

(** [uN::from_le_bytes([data[start + k], .., data[start + k + n - 1]])], the
    index sums overflow-checked. *)
Definition from_le_at (data : list byte) (start k : Z) (n : nat) : outcome Z :=
  bs ← map_out (fun j => i ← add_u 64 start j; idx data i) (seqZ k (Z.of_nat n));
  Ret (le_val bs).

Definition parse_header (data : list byte) : outcome (result ParseError ElfHeader) :=
  if len data <? 64 then Ret (Err FileTooSmall) else
  magic ← slice data 0 4;
  if negb (bool_decide (magic = ELF_MAGIC)) then Ret (Err BadMagic) else
  class ← idx data 4;
  if negb (bool_decide (class = ELF_CLASS_64)) then Ret (Err UnsupportedClass) else
  endian ← idx data 5;
  if negb (bool_decide (endian = ELF_DATA_LITTLE_ENDIAN))
  then Ret (Err UnsupportedEndian) else
  e_type ← from_le data 16 2;
  if negb (e_type =? ELF_TYPE_EXEC) && negb (e_type =? ELF_TYPE_DYN)
  then Ret (Err UnsupportedType) else
  e_machine ← from_le data 18 2;
  if negb (e_machine =? ELF_MACHINE_X86_64) then Ret (Err UnsupportedMachine) else
  e_phoff ← from_le data 32 8;
  e_phentsize ← from_le data 54 2;
  e_phnum ← from_le data 56 2;
  if e_phentsize <? 56 then Ret (Err InvalidProgramHeaderSize) else
  entry ← from_le data 24 8;
  Ret (Ok (mkElfHeader entry e_phoff e_phentsize e_phnum)).

Definition parse_program_header (data : list byte) (header : ElfHeader) (index : Z)
    : outcome (result ParseError (option ProgramHeader)) :=
  let entry_size := program_header_entry_size header in
  let offset := program_header_offset header in
  product ←? Ret (ok_or (checked_mul 64 index entry_size) ProgramHeaderOutOfBounds);
  start ←? Ret (ok_or (checked_add 64 offset product) ProgramHeaderOutOfBounds);
  stop ←? Ret (ok_or (checked_add 64 start entry_size) ProgramHeaderOutOfBounds);
  if (len data <=? start) || (len data <? stop)
  then Ret (Err ProgramHeaderOutOfBounds) else
  p_type ← from_le_at data start 0 4;
  if negb (p_type =? PROGRAM_HEADER_LOAD) then Ret (Ok None) else
  flags ← from_le_at data start 4 4;
  file_offset ← from_le_at data start 8 8;
  virtual_address ← from_le_at data start 16 8;
  physical_address ← from_le_at data start 24 8;
  file_size ← from_le_at data start 32 8;
  memory_size ← from_le_at data start 40 8;
  align ← from_le_at data start 48 8;
  if memory_size <? file_size then Ret (Err ProgramHeaderOutOfBounds) else
  Ret (Ok (Some (mkProgramHeader file_offset virtual_address physical_address
                   file_size memory_size flags align))).

(** ** Reference reading of the file format *)

(** The conditions of the ELF64 header, in the order in which the first one
    that fails decides the error. *)
Definition header_checks (data : list byte) : list (bool * ParseError) :=
  [ (64 <=? len data, FileTooSmall);
    (bool_decide (sub_list data 0 4 = ELF_MAGIC), BadMagic);
    (bool_decide (zget data 4 = Some ELF_CLASS_64), UnsupportedClass);
    (bool_decide (zget data 5 = Some ELF_DATA_LITTLE_ENDIAN), UnsupportedEndian);
    (bool_decide (field data 16 2 ∈ [ELF_TYPE_EXEC; ELF_TYPE_DYN]), UnsupportedType);
    (field data 18 2 =? ELF_MACHINE_X86_64, UnsupportedMachine);
    (56 <=? field data 54 2, InvalidProgramHeaderSize) ].

Definition header_fields (data : list byte) : ElfHeader :=
  {| entry := field data 24 8; program_header_offset := field data 32 8;
     program_header_entry_size := field data 54 2; program_header_count := field data 56 2 |}.

Definition header_verdict (data : list byte) : result ParseError ElfHeader :=
  match find (fun c => negb c.1) (header_checks data) with
  | Some (_, e) => Err e
  | None => Ok (header_fields data)
  end.

(** Where entry [index] of the program-header table starts (unbounded). *)
Definition entry_start (h : ElfHeader) (index : Z) : Z :=
  program_header_offset h + index * program_header_entry_size h.

Definition segment_fields (data : list byte) (start : Z) : ProgramHeader :=
  {| ph_flags := field data (start + 4) 4; file_offset := field data (start + 8) 8;
     virtual_address := field data (start + 16) 8; physical_address := field data (start + 24) 8;
     file_size := field data (start + 32) 8; memory_size := field data (start + 40) 8;
     align := field data (start + 48) 8 |}.

Definition segment_verdict (data : list byte) (h : ElfHeader) (index : Z)
    : result ParseError (option ProgramHeader) :=
  let start := entry_start h index in
  let ph := segment_fields data start in
  if len data <? start + program_header_entry_size h then Err ProgramHeaderOutOfBounds
  else if negb (field data start 4 =? PROGRAM_HEADER_LOAD) then Ok None
  else if memory_size ph <? file_size ph then Err ProgramHeaderOutOfBounds
  else Ok (Some ph).

(** A header whose fields have the widths of the struct. *)
Definition header_typed (h : ElfHeader) : Prop :=
  in_u64 (entry h) /\ in_u64 (program_header_offset h) /\
  in_u16 (program_header_entry_size h) /\ in_u16 (program_header_count h).

(** ** Lemmas *)

Lemma map_out_idx (data : list byte) off (n : nat) :
  0 <= off -> off + Z.of_nat n <= len data ->
  map_out (idx data) (seqZ off (Z.of_nat n)) = Ret (sub_list data off (Z.of_nat n)).
Proof.
  revert off. induction n as [|n IH]; intros off Hoff Hn; [done|].
  rewrite (seqZ_cons off) by lia. replace (Z.pred (Z.of_nat (S n))) with (Z.of_nat n) by lia.
  destruct (zget_is_Some data off) as [b Hb]; [lia|].
  change (map_out (idx data) (off :: ?l)) with
    (y ← idx data off; ys ← map_out (idx data) l; Ret (y :: ys)).
  assert (idx data off = Ret b) as -> by (by apply unwrap_Ret). simpl.
  rewrite IH by lia. simpl. f_equal.
  replace (Z.of_nat (S n)) with (1 + Z.of_nat n) by lia.
  rewrite sub_list_split by lia. unfold sub_list at 2.
  rewrite zget_lookup in Hb by lia.
  erewrite drop_S by done. done.
Qed.

Lemma from_le_field data off (n : nat) :
  0 <= off -> off + Z.of_nat n <= len data ->
  from_le data off n = Ret (field data off (Z.of_nat n)).
Proof. intros. unfold from_le. by rewrite map_out_idx. Qed.

Lemma from_le_at_field data start k (n : nat) :
  0 <= start -> 0 <= k -> start + k + Z.of_nat n <= len data -> len data < 2 ^ 64 ->
  from_le_at data start k n = Ret (field data (start + k) (Z.of_nat n)).
Proof.
  intros Hs Hk Hn Hlen. unfold from_le_at.
  assert (map_out (fun j => i ← add_u 64 start j; idx data i) (seqZ k (Z.of_nat n)) =
          map_out (idx data) (seqZ (start + k) (Z.of_nat n))) as ->.
  { rewrite <- fmap_add_seqZ.
    assert (forall j, j ∈ seqZ k (Z.of_nat n) -> start + j < 2 ^ 64) as Hj.
    { intros j. rewrite elem_of_seqZ. lia. }
    revert Hj. generalize (seqZ k (Z.of_nat n)) as l.
    induction l as [|j l IH]; intros Hj; [done|]. simpl.
    rewrite add_u_Ret by (apply Hj; set_solver). simpl. rewrite IH by set_solver. done. }
  by rewrite map_out_idx by lia.
Qed.

Lemma header_fields_typed data : header_typed (header_fields data).
Proof.
  unfold header_typed, in_range. simpl.
  change (2 ^ 64) with (256 ^ 8). change (2 ^ 16) with (256 ^ 2).
  split_and!; apply field_bound; lia.
Qed.

Lemma idx_zget (data : list byte) i :
  0 <= i < len data -> exists b, zget data i = Some b /\ idx data i = Ret b.
Proof. intros [b Hb]%zget_is_Some. exists b. split; [done|]. by apply unwrap_Ret. Qed.

Lemma header_verdict_Ok data h :
  header_verdict data = Ok h <->
  Forall (fun c => c.1 = true) (header_checks data) /\ h = header_fields data.
Proof.
  unfold header_verdict. destruct (find _ _) as [[b e]|] eqn:E.
  - apply find_some in E as [Hin Hb]. apply list_elem_of_In in Hin.
    split; [done|]. intros [Hall _]. rewrite Forall_forall in Hall.
    specialize (Hall _ Hin). simpl in *. by subst.
  - apply find_none_iff in E.
    split; [intros [= <-]|intros [_ ->]]; [|done]. split; [|done].
    eapply Forall_impl; [done|]. intros []; simpl. by destruct b.
Qed.

Lemma type_check_mem t :
  negb (t =? ELF_TYPE_EXEC) && negb (t =? ELF_TYPE_DYN) =
  negb (bool_decide (t ∈ [ELF_TYPE_EXEC; ELF_TYPE_DYN])).
Proof.
  unfold ELF_TYPE_EXEC, ELF_TYPE_DYN. case_bool_decide as H; simpl.
  - rewrite !elem_of_cons, elem_of_nil in H. lia.
  - rewrite !elem_of_cons, elem_of_nil in H. lia.
Qed.

Lemma parse_header_eq data : parse_header data = Ret (header_verdict data).
Proof.
  unfold parse_header, header_verdict, header_checks.
  destruct (len data <? 64) eqn:E64; [simpl; by replace (64 <=? len data) with false by lia|].
  replace (64 <=? len data) with true by lia.
  destruct (idx_zget data 4) as (b4 & H4 & ->); [lia|].
  destruct (idx_zget data 5) as (b5 & H5 & ->); [lia|].
  rewrite slice_Ret, !from_le_field by lia. rewrite H4, H5. simpl.
  change (4 - 0) with 4. change (Z.of_nat 2) with 2. change (Z.of_nat 8) with 8.
  rewrite type_check_mem.
  rewrite (bool_decide_ext (Some b4 = Some _) (b4 = ELF_CLASS_64)) by naive_solver.
  rewrite (bool_decide_ext (Some b5 = Some _) (b5 = ELF_DATA_LITTLE_ENDIAN)) by naive_solver.
  do 4 (case_bool_decide; simpl; [|done]). destruct (field data 18 2 =? _); simpl; [|done].
  rewrite Z.ltb_antisym. case_if; done.
Qed.

Lemma parse_program_header_eq data h index :
  len data <= isize_max -> header_typed h ->
  56 <= program_header_entry_size h -> in_u16 index ->
  parse_program_header data h index = Ret (segment_verdict data h index).
Proof.
  intros Hlen (_ & Hoff & Hes & _) Hmin Hi. unfold isize_max, in_range in *.
  unfold parse_program_header, segment_verdict, entry_start.
  unfold checked_mul. case_if; [|nia]. simpl.
  unfold checked_add at 1. case_if; simpl; [|case_if; [done|nia]].
  unfold checked_add. case_if; simpl; [|case_if; [done|lia]].
  case_if; [by replace (len data <? _) with true by nia|].
  replace (len data <? _) with false by nia.
  rewrite !from_le_at_field by nia. simpl. rewrite Z.add_0_r.
  change (Z.of_nat 4) with 4. change (Z.of_nat 8) with 8.
  repeat (case_if; [done|]). done.
Qed.

(** [parse_header] never panics, and on every input returns exactly what
    the reference reading says: the error of the first failing condition of
    the ELF64 header, or the four fields. *)
Theorem parse_header_verdict data : parse_header data = Ret (header_verdict data).
Proof. apply parse_header_eq. Qed.

(** scanning the whole program-header table of any file whose header
    parses never panics: for every 16-bit index the parser returns the
    reference reading of that table entry, out of bounds exactly when the
    entry leaves the file (also when the offset arithmetic would overflow),
    [None] for a segment that is not loaded, an error when the file size
    exceeds the memory size. *)
Theorem parse_program_header_verdict data h index :
  len data <= isize_max -> parse_header data = Ret (Ok h) -> in_u16 index ->
  parse_program_header data h index = Ret (segment_verdict data h index).
Proof.
  intros Hlen Hh Hi. rewrite parse_header_eq in Hh. inv_out.
  apply header_verdict_Ok in Hh as [Hc ->].
  apply parse_program_header_eq; [done|apply header_fields_typed| |done].
  unfold header_checks in Hc. rewrite !Forall_cons in Hc. simpl in *. lia.
Qed.

(** ** Round trip with an ELF image

    An executable with entry point [e] whose table follows the file header,
    as the linker lays it out. *)

Definition header_record (e : Z) (count : Z) : list (nat * Z) :=
  [ (4%nat, 0x464c457f); (1%nat, 2); (1%nat, 1); (1%nat, 1); (9%nat, 0);
    (2%nat, ELF_TYPE_EXEC); (2%nat, ELF_MACHINE_X86_64); (4%nat, 1);
    (8%nat, e); (8%nat, 64); (8%nat, 0); (4%nat, 0); (2%nat, 64);
    (2%nat, 56); (2%nat, count); (6%nat, 0) ].

Definition segment_record (ph : ProgramHeader) : list (nat * Z) :=
  [ (4%nat, PROGRAM_HEADER_LOAD); (4%nat, ph_flags ph); (8%nat, file_offset ph);
    (8%nat, virtual_address ph); (8%nat, physical_address ph); (8%nat, file_size ph);
    (8%nat, memory_size ph); (8%nat, align ph) ].

Definition elf_image (e : Z) (phs : list ProgramHeader) (rest : list byte) : list byte :=
  enc (header_record e (len phs)) ++ concat (map (fun ph => enc (segment_record ph)) phs) ++ rest.

Definition segment_typed (ph : ProgramHeader) : Prop :=
  in_u32 (ph_flags ph) /\ in_u64 (file_offset ph) /\ in_u64 (virtual_address ph) /\
  in_u64 (physical_address ph) /\ in_u64 (file_size ph) /\ in_u64 (memory_size ph) /\
  in_u64 (align ph) /\ file_size ph <= memory_size ph.

Lemma header_image_fields e count rest :
  in_u64 e -> in_u16 count ->
  header_verdict (enc (header_record e count) ++ rest) = Ok (mkElfHeader e 64 56 count).
Proof.
  intros He Hc. set (d := enc (header_record e count) ++ rest).
  assert (forall (k n : nat) z off, header_record e count !! k = Some (n, z) ->
    off = widths (take k (header_record e count)) -> 0 <= z < 256 ^ Z.of_nat n ->
    field d off (Z.of_nat n) = z) as Hf.
  { intros k n z off Hk -> Hz. unfold d. rewrite (field_enc _ k n z) by done.
    by apply Z.mod_small. }
  pose proof (Hf 5%nat 2%nat _ 16 eq_refl eq_refl ltac:(done)) as Ht.
  pose proof (Hf 6%nat 2%nat _ 18 eq_refl eq_refl ltac:(done)) as Hm.
  pose proof (Hf 8%nat 8%nat _ 24 eq_refl eq_refl He) as Hentry.
  pose proof (Hf 9%nat 8%nat _ 32 eq_refl eq_refl ltac:(done)) as Hphoff.
  pose proof (Hf 13%nat 2%nat _ 54 eq_refl eq_refl ltac:(done)) as Hes.
  pose proof (Hf 14%nat 2%nat _ 56 eq_refl eq_refl Hc) as Hn.
  apply header_verdict_Ok. split; [|unfold header_fields; f_equal; done].
  assert (64 <= len d) as Hlen.
  { unfold d. rewrite len_app, len_enc. pose proof (len_nonneg rest). simpl. lia. }
  unfold header_checks. change (Z.of_nat 2) with 2 in *.
  rewrite Ht, Hm, Hes, !zget_lookup, !Forall_cons by lia. split_and!; try done. simpl. lia.
Qed.

Lemma segment_image_fields ph pre rest :
  segment_typed ph ->
  field (pre ++ enc (segment_record ph) ++ rest) (len pre) 4 = PROGRAM_HEADER_LOAD /\
  segment_fields (pre ++ enc (segment_record ph) ++ rest) (len pre) = ph.
Proof.
  intros (Hfl & Hfo & Hva & Hpa & Hfs & Hms & Hal & _).
  assert (forall (k n : nat) z off, segment_record ph !! k = Some (n, z) ->
    off = widths (take k (segment_record ph)) -> 0 <= z < 256 ^ Z.of_nat n ->
    field (pre ++ enc (segment_record ph) ++ rest) (len pre + off) (Z.of_nat n) = z) as Hf.
  { intros k n z off Hk -> Hz. unfold field.
    rewrite sub_list_app_skip by apply widths_nonneg. fold (field (enc (segment_record ph) ++ rest) (widths (take k (segment_record ph))) (Z.of_nat n)).
    rewrite (field_enc _ k n z) by done. by apply Z.mod_small. }
  split.
  - pose proof (Hf 0%nat 4%nat _ 0 eq_refl eq_refl ltac:(done)) as H0. by rewrite Z.add_0_r in H0.
  - destruct ph. unfold segment_fields. cbn in *. f_equal;
    [ apply (Hf 2%nat 8%nat) | apply (Hf 3%nat 8%nat) | apply (Hf 4%nat 8%nat) |
      apply (Hf 5%nat 8%nat) | apply (Hf 6%nat 8%nat) | apply (Hf 1%nat 4%nat) |
      apply (Hf 7%nat 8%nat) ]; done.
Qed.

Lemma len_segments phs :
  len (concat (map (fun ph => enc (segment_record ph)) phs)) = 56 * len phs.
Proof.
  unfold len. induction phs as [|ph phs IH]; [done|]. cbn [map concat].
  rewrite length_app, Nat2Z.inj_add, IH.
  assert (Z.of_nat (length (enc (segment_record ph))) = 56) as -> by apply len_enc.
  simpl length. lia.
Qed.

(** C35: an executable image round trips: the kernel's parser recovers the
    entry point, the table layout and every loadable segment exactly as they
    were written. *)
Theorem elf_image_roundtrip e phs rest :
  in_u64 e -> in_u16 (len phs) -> Forall segment_typed phs ->
  len (elf_image e phs rest) <= isize_max ->
  let h := mkElfHeader e 64 56 (len phs) in
  parse_header (elf_image e phs rest) = Ret (Ok h) /\
  forall (i : nat) ph, phs !! i = Some ph ->
    parse_program_header (elf_image e phs rest) h (Z.of_nat i) = Ret (Ok (Some ph)).
Proof.
  intros He Hn Hphs Hlen h. split.
  { rewrite parse_header_eq. unfold elf_image. by rewrite header_image_fields. }
  intros i ph Hi.
  assert (Z.of_nat i < len phs) as Hlt by (unfold len; apply lookup_lt_Some in Hi; lia).
  assert (segment_typed ph) as Hty by (rewrite Forall_lookup in Hphs; eauto).
  rewrite parse_program_header_eq; [|done| |done|unfold in_range in *; lia].
  2: { unfold header_typed, in_range in *. simpl. lia. }
  f_equal. unfold segment_verdict, entry_start.
  cbn [program_header_entry_size program_header_offset h].
  assert (elf_image e phs rest =
    (enc (header_record e (len phs)) ++ concat (map (fun ph => enc (segment_record ph)) (take i phs)))
      ++ enc (segment_record ph) ++ concat (map (fun ph => enc (segment_record ph)) (drop (S i) phs)) ++ rest) as Himg.
  { unfold elf_image. rewrite <- (take_drop_middle phs i ph Hi) at 2.
    rewrite map_app, concat_app. simpl. by rewrite <- !app_assoc. }
  set (pre := enc (header_record e (len phs)) ++ _) in Himg.
  assert (len pre = 64 + Z.of_nat i * 56) as Hpre.
  { unfold pre. rewrite len_app, len_enc, len_segments. unfold len at 2.
    rewrite length_take_le by (unfold len in Hlt; lia). simpl. lia. }
  rewrite Himg. rewrite <- Hpre.
  destruct (segment_image_fields ph pre (concat (map (fun ph => enc (segment_record ph)) (drop (S i) phs)) ++ rest) Hty) as [H4 Hf].
  rewrite H4, Hf. destruct Hty as (_ & _ & _ & _ & _ & _ & _ & Hle).
  rewrite (len_app pre), len_app, len_enc.
  match goal with |- context [len (?l ++ rest)] => pose proof (len_nonneg (l ++ rest)) end.
  replace (widths (segment_record ph)) with 56 by done.
  rewrite Z.eqb_refl. cbn [negb].
  case_if; [lia|]. by case_if; [lia|].
Qed.

(** ** Concrete inputs *)

(** The segment of the parser's unit test. *)
Definition sample_segment : ProgramHeader :=
  {| ph_flags := Z.lor PF_R PF_X; file_offset := 0x100; virtual_address := 0x400000;
     physical_address := 0x400000; file_size := 0x1000; memory_size := 0x1000;
     align := 0x1000 |}.

Lemma parse_program_header_verdict_witness :
  parse_program_header (elf_image 0x1000 [sample_segment] []) (mkElfHeader 0x1000 64 56 1) 0 =
    Ret (Ok (Some sample_segment)) /\
  parse_program_header (elf_image 0x1000 [sample_segment] []) (mkElfHeader 0x1000 64 56 1) 1 =
    Ret (Err ProgramHeaderOutOfBounds).
Proof.
  split.
  - rewrite parse_program_header_verdict;
      [vm_compute; reflexivity|vm_compute; intuition congruence|reflexivity|vm_compute; intuition congruence].
  - rewrite parse_program_header_verdict;
      [vm_compute; reflexivity|vm_compute; intuition congruence|reflexivity|vm_compute; intuition congruence].
Defined.

Lemma elf_image_roundtrip_witness :
  parse_header (elf_image 0x1000 [sample_segment] []) = Ret (Ok (mkElfHeader 0x1000 64 56 1)).
Proof.
  apply (elf_image_roundtrip 0x1000 [sample_segment] []).
  - vm_compute; intuition congruence.
  - vm_compute; intuition congruence.
  - repeat constructor; vm_compute; intuition congruence.
  - vm_compute; intuition congruence.
Defined.
