(* ===== verification/LoaderElf.v ===== *)
(** * The boot loader's kernel loader ([boot/uefi-loader/src/elf.rs])

    The loader's own ELF parser, and [load_kernel], which measures the
    loadable segments, asks the firmware for pages, clears them and copies
    the segments.  The firmware's page allocator is an interface; physical
    memory is explicit. *)

From S2P Require Import Prelude Elf.

Definition ELF_VERSION_CURRENT : byte := x01.

(** Statuses of the firmware, as the [uefi] crate's [Status] number. *)
Definition Status : Type := Z.

Record LoadedKernel := mkLoadedKernel {
  lk_entry_point : Z;
  lk_virtual_base : Z;
  lk_physical_base : Z;
  lk_image_size : Z }.

Inductive LoadError :=
| LFileTooSmall
| LBadMagic
| LUnsupportedClass (c : byte)
| LUnsupportedEndian (e : byte)
| LUnsupportedVersion (v : byte)
| LUnsupportedType (t : Z)
| LUnsupportedMachine (m : Z)
| LInvalidProgramHeaderSize (s : Z)
| LProgramHeaderOutOfBounds
| LSegmentOutOfBounds
| LSegmentAlignment (a : Z)
| LSegmentAddressOverflow
| LNoLoadSegments
| LAllocationFailed (s : Status).

(** The loader's [ElfHeader] has the fields of the kernel's. *)
Definition LHeader : Type := ElfHeader.

Record LProgramHeader := mkLPh {
  l_file_offset : Z;
  l_virtual_address : Z;
  l_physical_address : Z;
  l_file_size : Z;
  l_memory_size : Z }.

(** [bytes.get(a..b)]. *)
Definition get_range {A} (l : list A) (a b : Z) : option (list A) :=
  if (a <=? b) && (b <=? len l) then Some (sub_list l a (b - a)) else None.

(** [read_u16], [read_u32], [read_u64]. *)
Definition read_le (n : nat) (bytes : list byte) (offset : Z) : result LoadError Z :=
  stop ← ok_or (checked_add 64 offset (Z.of_nat n)) LProgramHeaderOutOfBounds;
  sl ← ok_or (get_range bytes offset stop) LProgramHeaderOutOfBounds;
  Ok (le_val sl).
Definition read_u16 := read_le 2.
Definition read_u32 := read_le 4.
Definition read_u64 := read_le 8.

Definition parse_header (image : list byte) : outcome (result LoadError LHeader) :=
  if len image <? 64 then Ret (Err LFileTooSmall) else
  magic ← slice image 0 4;
  if negb (bool_decide (magic = ELF_MAGIC)) then Ret (Err LBadMagic) else
  class ← idx image 4;
  if negb (bool_decide (class = ELF_CLASS_64)) then Ret (Err (LUnsupportedClass class)) else
  endian ← idx image 5;
  if negb (bool_decide (endian = ELF_DATA_LITTLE_ENDIAN))
  then Ret (Err (LUnsupportedEndian endian)) else
  version ← idx image 6;
  if negb (bool_decide (version = ELF_VERSION_CURRENT))
  then Ret (Err (LUnsupportedVersion version)) else
  elf_type ←? Ret (read_u16 image 16);
  if negb (elf_type =? ELF_TYPE_EXEC) && negb (elf_type =? ELF_TYPE_DYN)
  then Ret (Err (LUnsupportedType elf_type)) else
  machine ←? Ret (read_u16 image 18);
  if negb (machine =? ELF_MACHINE_X86_64) then Ret (Err (LUnsupportedMachine machine)) else
  entry_size ←? Ret (read_u16 image 54);
  if entry_size <? 56 then Ret (Err (LInvalidProgramHeaderSize entry_size)) else
  entry_point ←? Ret (read_u64 image 24);
  offset ←? Ret (read_u64 image 32);
  count ←? Ret (read_u16 image 56);
  Ret (Ok (mkElfHeader entry_point offset entry_size count)).

Definition parse_program_header (image : list byte) (header : LHeader) (index : Z)
    : outcome (result LoadError (option LProgramHeader)) :=
  let entry_size := program_header_entry_size header in
  product ←? Ret (ok_or (checked_mul 64 index entry_size) LProgramHeaderOutOfBounds);
  start ←? Ret (ok_or (checked_add 64 (program_header_offset header) product)
                  LProgramHeaderOutOfBounds);
  stop ←? Ret (ok_or (checked_add 64 start entry_size) LProgramHeaderOutOfBounds);
  if len image <? stop then Ret (Err LProgramHeaderOutOfBounds) else
  program_header ← slice image start stop;
  p_type ←? Ret (read_u32 program_header 0);
  if negb (p_type =? PROGRAM_HEADER_LOAD) then Ret (Ok None) else
  virtual_address ←? Ret (read_u64 program_header 16);
  physical_address ←? Ret (read_u64 program_header 24);
  if negb (Z.land virtual_address 0xFFF =? 0)
  then Ret (Err (LSegmentAlignment virtual_address)) else
  file_size ←? Ret (read_u64 program_header 32);
  memory_size ←? Ret (read_u64 program_header 40);
  if memory_size <? file_size then Ret (Err LSegmentOutOfBounds) else
  file_offset ←? Ret (read_u64 program_header 8);
  Ret (Ok (Some (mkLPh file_offset virtual_address physical_address file_size memory_size))).

(** The first loop of [load_kernel]: (segments, lowest address, highest
    address). *)
Definition measure_step (image : list byte) (header : LHeader)
    (acc : result LoadError (Z * Z * Z)) (index : Z) : outcome (result LoadError (Z * Z * Z)) :=
  match acc with
  | Err e => Ret (Err e)
  | Ok (loadable, virtual_base, virtual_end) =>
      ph ←? parse_program_header image header index;
      match ph with
      | Some ph =>
          loadable ← add_u 64 loadable 1;
          let virtual_base := Z.min virtual_base (l_virtual_address ph) in
          segment_end ←? Ret (ok_or (checked_add 64 (l_virtual_address ph) (l_memory_size ph))
                                LSegmentAddressOverflow);
          Ret (Ok (loadable, virtual_base, Z.max virtual_end segment_end))
      | None => Ret (Ok (loadable, virtual_base, virtual_end))
      end
  end.

(** The second loop: copy one segment to its place. *)
Definition copy_step (image : list byte) (header : LHeader) (virtual_base physical_base : Z)
    (acc : result LoadError unit * mem) (index : Z) : outcome (result LoadError unit * mem) :=
  let '(r, m) := acc in
  match r with
  | Err e => Ret (Err e, m)
  | Ok _ =>
      ph ← parse_program_header image header index;
      match ph with
      | Err e => Ret (Err e, m)
      | Ok None => Ret (Ok tt, m)
      | Ok (Some ph) =>
          match checked_add 64 (l_file_offset ph) (l_file_size ph) with
          | None => Ret (Err LSegmentOutOfBounds, m)
          | Some source_end =>
              if len image <? source_end then Ret (Err LSegmentOutOfBounds, m) else
              offset ← sub_u (l_virtual_address ph) virtual_base;
              dest_physical ← add_u 64 physical_base offset;
              Ret (Ok tt, write_mem m dest_physical
                            (sub_list image (l_file_offset ph) (l_file_size ph)))
          end
      end
  end.

(** [boot::allocate_pages(AnyPages, kernel_memory_type(), n)]: what the
    firmware answers, and the part of its contract the loader relies on: a
    successful answer is a page-aligned, non-null run of pages of physical
    memory, whose addresses have at most 52 bits on x86-64. *)
Class PageAllocator := {
  allocate_pages : Z -> result Status Z;
  allocate_pages_sound : forall n base, allocate_pages n = Ok base ->
    0 < base /\ base mod 4096 = 0 /\ base + n * 4096 <= 2 ^ 52 }.

Definition indices (header : LHeader) : list Z := seqZ 0 (program_header_count header).

Definition load_kernel `{PageAllocator} (image : list byte) (m : mem)
    : outcome (result LoadError LoadedKernel * mem) :=
  rh ← parse_header image;
  match rh with
  | Err e => Ret (Err e, m)
  | Ok header =>
    measured ← for_each (measure_step image header) (indices header) (Ok (0, u64_max, 0));
    match measured with
    | Err e => Ret (Err e, m)
    | Ok (loadable, virtual_base, virtual_end) =>
      if loadable =? 0 then Ret (Err LNoLoadSegments, m) else
      if negb (Z.land virtual_base 0xFFF =? 0) then Ret (Err (LSegmentAlignment virtual_base), m) else
      match checked_sub virtual_end virtual_base with
      | None => Ret (Err LSegmentAddressOverflow, m)
      | Some image_size =>
        let page_count := div_ceil image_size 4096 in
        match allocate_pages page_count with
        | Err status => Ret (Err (LAllocationFailed status), m)
        | Ok physical_base =>
          total ← mul_u 64 page_count 4096;
          let m := write_mem m physical_base (replicate (Z.to_nat total) x00) in
          copied ← for_each (copy_step image header virtual_base physical_base)
                     (indices header) (Ok tt, m);
          let '(r, m) := copied in
          match r with
          | Err e => Ret (Err e, m)
          | Ok _ => Ret (Ok (mkLoadedKernel (entry header) virtual_base physical_base image_size), m)
          end
        end
      end
    end
  end.

(** ** The parser against the reference reading of the file format *)

Definition page_aligned (a : Z) : bool := Z.land a 0xFFF =? 0.

Definition loader_view (ph : ProgramHeader) : LProgramHeader :=
  mkLPh (file_offset ph) (virtual_address ph) (physical_address ph) (file_size ph) (memory_size ph).

(** What the loader reads at table index [index]. *)
Definition l_segment_verdict (image : list byte) (h : LHeader) (index : Z)
    : result LoadError (option LProgramHeader) :=
  let start := entry_start h index in
  let ph := segment_fields image start in
  if len image <? start + program_header_entry_size h then Err LProgramHeaderOutOfBounds
  else if negb (field image start 4 =? PROGRAM_HEADER_LOAD) then Ok None
  else if negb (page_aligned (virtual_address ph)) then Err (LSegmentAlignment (virtual_address ph))
  else if memory_size ph <? file_size ph then Err LSegmentOutOfBounds
  else Ok (Some (loader_view ph)).

Lemma read_le_Ok (n : nat) bytes off :
  0 <= off -> off + Z.of_nat n <= len bytes -> len bytes < 2 ^ 64 ->
  read_le n bytes off = Ok (field bytes off (Z.of_nat n)).
Proof.
  intros Hoff Hn Hlen. unfold read_le, checked_add.
  replace (off + Z.of_nat n <? 2 ^ 64) with true by lia. cbn [ok_or mbind result_bind].
  unfold get_range. replace (_ && _) with true by lia. cbn [ok_or mbind result_bind].
  unfold field. do 3 f_equal. lia.
Qed.

Lemma parse_header_agrees image :
  len image <= isize_max ->
  exists r, parse_header image = Ret r /\
    forall h, r = Ok h <-> header_verdict image = Ok h /\ zget image 6 = Some ELF_VERSION_CURRENT.
Proof.
  intros Hlen. unfold isize_max in Hlen. unfold parse_header, header_verdict, header_checks.
  destruct (len image <? 64) eqn:E64.
  { eexists. split; [done|]. simpl. replace (64 <=? len image) with false by lia. naive_solver. }
  replace (64 <=? len image) with true by lia.
  destruct (idx_zget image 4) as (b4 & H4 & ->); [lia|].
  destruct (idx_zget image 5) as (b5 & H5 & ->); [lia|].
  destruct (idx_zget image 6) as (b6 & H6 & ->); [lia|].
  unfold read_u16, read_u64. rewrite slice_Ret, !read_le_Ok by lia. rewrite H4, H5, H6. simpl.
  change (4 - 0) with 4. change (Z.of_nat 2) with 2. change (Z.of_nat 8) with 8.
  rewrite type_check_mem.
  rewrite (bool_decide_ext (Some b4 = Some _) (b4 = ELF_CLASS_64)) by naive_solver.
  rewrite (bool_decide_ext (Some b5 = Some _) (b5 = ELF_DATA_LITTLE_ENDIAN)) by naive_solver.
  do 3 (case_bool_decide; simpl; [|eexists; split; [done|naive_solver]]).
  destruct (decide (b6 = ELF_VERSION_CURRENT)) as [->|Hv].
  - rewrite bool_decide_eq_true_2 by done. simpl.
    case_bool_decide; simpl; [|eexists; split; [done|naive_solver]].
    destruct (field image 18 2 =? _); simpl; [|eexists; split; [done|naive_solver]].
    rewrite Z.ltb_antisym. case_if; simpl; eexists; (split; [done|naive_solver]).
  - rewrite bool_decide_eq_false_2 by done. simpl. eexists. split; [done|]. naive_solver.
Qed.

Lemma field_sub_list data a n k w :
  0 <= a -> 0 <= k -> 0 <= w -> k + w <= n -> field (sub_list data a n) k w = field data (a + k) w.
Proof.
  intros. unfold field. f_equal. unfold sub_list.
  rewrite skipn_firstn_comm, take_take, drop_drop. f_equal; [lia|f_equal; lia].
Qed.

Lemma parse_program_header_view image h index :
  len image <= isize_max -> header_typed h ->
  56 <= program_header_entry_size h -> in_u16 index ->
  parse_program_header image h index = Ret (l_segment_verdict image h index).
Proof.
  intros Hlen (_ & Hoff & Hes & _) Hmin Hi. unfold isize_max, in_range in *.
  unfold parse_program_header, l_segment_verdict, entry_start.
  unfold checked_mul. case_if; [|nia]. cbn [ok_or try_bind].
  unfold checked_add at 1. case_if; cbn [ok_or try_bind]; [|case_if; [done|nia]].
  unfold checked_add. case_if; cbn [ok_or try_bind]; [|case_if; [done|lia]].
  set (start := program_header_offset h + index * program_header_entry_size h) in *.
  assert (0 <= start) by nia.
  case_if; [done|]. rewrite slice_Ret by lia. cbn [mbind outcome_bind].
  replace (start + program_header_entry_size h - start) with (program_header_entry_size h) by lia.
  unfold read_u32, read_u64. rewrite !read_le_Ok by (rewrite ?len_sub_list by lia; lia).
  cbn [try_bind]. rewrite !field_sub_list by lia. rewrite Z.add_0_r.
  change (Z.of_nat 4) with 4. change (Z.of_nat 8) with 8. unfold page_aligned, segment_fields, loader_view.
  cbn [virtual_address physical_address memory_size file_size file_offset].
  repeat (case_if; [done|]). done.
Qed.

(** The segments the file asks to load, as the kernel's own ELF parser reads
    them. *)
Definition load_segments (image : list byte) (h : LHeader) (l : list Z) : list ProgramHeader :=
  omap (fun i => match segment_verdict image h i with Ok o => o | Err _ => None end) l.

(** An entry the loader accepts is one the kernel's parser accepts, with the
    same fields. *)
Lemma l_segment_verdict_Ok image h index o :
  l_segment_verdict image h index = Ok o ->
  exists o', segment_verdict image h index = Ok o' /\ o = loader_view <$> o' /\
    match o' with
    | Some ph => page_aligned (virtual_address ph) = true /\ file_size ph <= memory_size ph /\
                 in_u64 (virtual_address ph) /\ in_u64 (file_offset ph) /\
                 0 <= file_size ph
    | None => True
    end.
Proof.
  unfold l_segment_verdict, segment_verdict. case_if; [done|]. case_if.
  { intros [= <-]. by exists None. }
  case_if; [done|]. case_if; [done|]. intros [= <-]. eexists. split; [done|]. split; [done|].
  split; [by apply negb_false_iff|]. split; [lia|].
  unfold in_range. change (2 ^ 64) with (256 ^ 8).
  split_and!; apply field_bound; lia.
Qed.

(** The byte the segments put at virtual address [va]; a later segment wins
    over an earlier one, [dflt] is the byte before copying. *)
Fixpoint kernel_byte (image : list byte) (phs : list ProgramHeader) (va : Z) (dflt : byte) : byte :=
  match phs with
  | [] => dflt
  | ph :: phs' =>
      let here := if (virtual_address ph <=? va) && (va <? virtual_address ph + file_size ph)
                  then zget image (file_offset ph + (va - virtual_address ph)) else None in
      kernel_byte image phs' va (default dflt here)
  end.

Lemma len_omap {A B} (f : A -> option B) l : len (omap f l) <= len l.
Proof.
  unfold len. induction l as [|x l IH]; [done|].
  change (omap f (x :: l)) with (match f x with Some y => y :: omap f l | None => omap f l end).
  destruct (f x); simpl length; lia.
Qed.

Section Loops.
Context (image : list byte) (h : LHeader).
Context (Hlen : len image <= isize_max) (Hty : header_typed h).
Context (Hmin : 56 <= program_header_entry_size h).

Let segs := load_segments image h.

(** The bounds found so far enclose the segments seen so far. *)
Definition measures (l : list Z) (n b e : Z) : Prop :=
  n = len (segs l) /\ e < 2 ^ 64 /\
  (forall ph, ph ∈ segs l -> b <= virtual_address ph /\ virtual_address ph + memory_size ph <= e) /\
  Forall (fun i => exists o, l_segment_verdict image h i = Ok o) l /\
  (segs l = [] /\ b = u64_max /\ e = 0 \/
   exists ph ph', ph ∈ segs l /\ ph' ∈ segs l /\ virtual_address ph = b /\
     virtual_address ph' + memory_size ph' = e).

Lemma load_segments_snoc l i :
  segs (l ++ [i]) = segs l ++ segs [i].
Proof. unfold segs, load_segments. by rewrite omap_app. Qed.

Lemma measure_step_spec l i n b e :
  in_u16 i -> len l < 2 ^ 16 -> measures l n b e ->
  exists r, measure_step image h (Ok (n, b, e)) i = Ret r /\
    match r with
    | Ok (n', b', e') => measures (l ++ [i]) n' b' e'
    | Err _ => True
    end.
Proof.
  intros Hi Hl (Hn & He & Hin & Hall & Hex). unfold measure_step.
  rewrite parse_program_header_view by done.
  destruct (l_segment_verdict image h i) as [o|err] eqn:Hv; cbn [try_bind];
    [|by eexists].
  pose proof Hv as Hv0. apply l_segment_verdict_Ok in Hv as (o' & Hs & -> & Ho).
  assert (segs [i] = match o' with Some ph => [ph] | None => [] end) as Hsi.
  { unfold segs, load_segments. simpl. rewrite Hs. by destruct o'. }
  assert (Forall (fun i => exists o, l_segment_verdict image h i = Ok o) (l ++ [i])) as Hall'.
  { apply Forall_app; split; [done|]. apply Forall_singleton. eauto. }
  assert (len (segs l) <= len l) as Hcount.
  { apply len_omap. }
  destruct o' as [ph|]; simpl.
  - rewrite add_u_Ret by lia. cbn [mbind outcome_bind].
    unfold checked_add. case_if; cbn [ok_or try_bind]; [|by eexists].
    eexists. split; [done|]. unfold measures. rewrite load_segments_snoc, Hsi, len_app.
    destruct Ho as (_ & Hsz & Hva & _ & Hfs). unfold in_range, u64_max in *.
    split_and!; [by rewrite Hn|lia| |done|].
    + intros ph' [Hp| ->%list_elem_of_singleton]%elem_of_app; [|lia]. specialize (Hin _ Hp). lia.
    + right. destruct Hex as [(-> & -> & ->)|(p1 & p2 & Hp1 & Hp2 & Hb1 & He1)].
      * exists ph, ph. split_and!; try set_solver; lia.
      * exists (if b <? virtual_address ph then p1 else ph),
          (if virtual_address ph + memory_size ph <? e then p2 else ph).
        split_and!; case_if; rewrite ?elem_of_app, ?list_elem_of_singleton; auto; lia.
  - eexists. split; [done|]. unfold measures. by rewrite load_segments_snoc, Hsi, app_nil_r.
Qed.

Lemma measure_err l e : for_each (measure_step image h) l (Err e) = Ret (Err e).
Proof. by induction l. Qed.

Lemma measure_spec l l0 n b e :
  Forall in_u16 l -> len (l0 ++ l) <= 2 ^ 16 -> measures l0 n b e ->
  exists r, for_each (measure_step image h) l (Ok (n, b, e)) = Ret r /\
    match r with Ok (n', b', e') => measures (l0 ++ l) n' b' e' | Err _ => True end.
Proof.
  revert l0 n b e. induction l as [|i l IH]; intros l0 n b e Hl Hlt Hm.
  { rewrite app_nil_r. by eexists. }
  apply Forall_cons in Hl as [Hi Hl]. rewrite len_app in Hlt.
  pose proof (len_nonneg l). replace (len (i :: l)) with (1 + len l) in Hlt by (unfold len; simpl; lia).
  destruct (measure_step_spec l0 i n b e) as (r & Hr & Hm'); [done|lia|done|].
  cbn [for_each]. rewrite Hr. cbn [mbind outcome_bind].
  destruct r as [[[n' b'] e']|err].
  - replace (l0 ++ i :: l) with ((l0 ++ [i]) ++ l) by (by rewrite <- app_assoc).
    apply IH; [done| |done]. rewrite !len_app. unfold len in *. simpl. lia.
  - rewrite measure_err. by eexists.
Qed.

Context (vb pb size : Z).
Context (Htop : pb + size < 2 ^ 64).

(** The segments of [l] lie in [[vb, vb + size]]. *)
Definition enclosed (l : list Z) : Prop :=
  Forall (fun i => exists o, l_segment_verdict image h i = Ok o) l /\
  forall ph, ph ∈ segs l -> vb <= virtual_address ph /\
    virtual_address ph + memory_size ph <= vb + size.

Lemma copy_err l e m :
  for_each (copy_step image h vb pb) l (Err e, m) = Ret (Err e, m).
Proof. by induction l. Qed.

Lemma copy_spec l m :
  Forall in_u16 l -> enclosed l ->
  exists r m', for_each (copy_step image h vb pb) l (Ok tt, m) = Ret (r, m') /\
    (forall x, x < pb \/ pb + size <= x -> m' x = m x) /\
    (r = Ok tt -> forall va, vb <= va < vb + size ->
       m' (pb + (va - vb)) = kernel_byte image (segs l) va (m (pb + (va - vb)))).
Proof.
  revert m. induction l as [|i l IH]; intros m Hl [Hall Hin]; [by do 2 eexists|].
  apply Forall_cons in Hl as [Hi Hl]. apply Forall_cons in Hall as [[o Ho] Hall].
  cbn [for_each copy_step]. rewrite parse_program_header_view by done. rewrite Ho.
  cbn [mbind outcome_bind].
  pose proof Ho as (o' & Hs & -> & Hph)%l_segment_verdict_Ok.
  assert (segs (i :: l) = match o' with Some ph => [ph] | None => [] end ++ segs l) as Hsi.
  { change (segs (i :: l)) with (match (match segment_verdict image h i with Ok o => o | Err _ => None end)
      with Some y => y :: segs l | None => segs l end). rewrite Hs. by destruct o'. }
  rewrite Hsi in *.
  assert (enclosed l) as Hen.
  { split; [done|]. intros ph Hp. apply Hin, elem_of_app. by right. }
  destruct o' as [ph|]; simpl; [|by apply IH].
  destruct Hph as (_ & Hsz & Hva & Hfo & Hfs). unfold in_range in *.
  assert (vb <= virtual_address ph /\ virtual_address ph + memory_size ph <= vb + size) as Hb.
  { apply Hin, elem_of_app. left. by apply list_elem_of_singleton. }
  unfold checked_add at 1. case_if; cbn [mbind outcome_bind].
  2: { rewrite copy_err. do 2 eexists. split; [done|]. done. }
  case_if; cbn [mbind outcome_bind].
  { rewrite copy_err. do 2 eexists. split; [done|]. done. }
  rewrite sub_u_Ret by lia. cbn [mbind outcome_bind]. rewrite add_u_Ret by lia.
  cbn [mbind outcome_bind].
  set (src := sub_list image (file_offset ph) (file_size ph)).
  assert (len src = file_size ph) as Hsrc by (apply len_sub_list; lia).
  destruct (IH (write_mem m (pb + (virtual_address ph - vb)) src) Hl Hen)
    as (r & m' & Hr & Hout & Hdata).
  exists r, m'. split; [exact Hr|]. split.
  - intros x Hx. rewrite Hout by done. apply write_mem_out. lia.
  - intros Hok va Hv. rewrite Hdata by done. f_equal. unfold write_mem.
    replace (pb + (va - vb) - (pb + (virtual_address ph - vb))) with (va - virtual_address ph) by lia.
    destruct ((virtual_address ph <=? va) && (va <? virtual_address ph + file_size ph)) eqn:Ein.
    + unfold src. rewrite zget_sub_list by lia. by destruct (zget image _).
    + destruct (zget src (va - virtual_address ph)) eqn:Eg; [|done].
      apply zget_Some_bound in Eg. lia.
Qed.
End Loops.

Lemma header_verdict_typed image h :
  header_verdict image = Ok h -> header_typed h /\ 56 <= program_header_entry_size h.
Proof.
  intros [Hc ->]%header_verdict_Ok. split; [apply header_fields_typed|].
  unfold header_checks in Hc. rewrite !Forall_cons in Hc. simpl in *. lia.
Qed.

Lemma indices_typed h : header_typed h -> Forall in_u16 (indices h) /\ len (indices h) <= 2 ^ 16.
Proof.
  intros (_ & _ & _ & Hc). unfold indices, in_range in *. split.
  - apply Forall_forall. intros i. rewrite elem_of_seqZ. lia.
  - unfold len. rewrite length_seqZ. lia.
Qed.

(** What it means that the kernel [k] described by [image] is in memory. *)
Record loaded (image : list byte) (m : mem) (k : LoadedKernel) (h : LHeader) : Prop := {
  ld_header : header_verdict image = Ok h;
  ld_entry : lk_entry_point k = entry h;
  ld_virt_aligned : page_aligned (lk_virtual_base k) = true;
  ld_phys_aligned : lk_physical_base k mod 4096 = 0;
  ld_inside : forall ph, ph ∈ load_segments image h (indices h) ->
    lk_virtual_base k <= virtual_address ph /\
    virtual_address ph + memory_size ph <= lk_virtual_base k + lk_image_size k;
  ld_tight : exists ph ph', ph ∈ load_segments image h (indices h) /\
    ph' ∈ load_segments image h (indices h) /\ virtual_address ph = lk_virtual_base k /\
    virtual_address ph' + memory_size ph' = lk_virtual_base k + lk_image_size k;
  ld_bytes : forall va, lk_virtual_base k <= va < lk_virtual_base k + lk_image_size k ->
    m (lk_physical_base k + (va - lk_virtual_base k)) =
    kernel_byte image (load_segments image h (indices h)) va x00 }.

Lemma load_kernel_spec `{PageAllocator} image m :
  len image <= isize_max ->
  exists r m', load_kernel image m = Ret (r, m') /\
    (forall x, m' x <> m x -> exists n base,
       allocate_pages n = Ok base /\ base <= x < base + n * 4096) /\
    match r with Ok k => exists h, loaded image m' k h | Err _ => True end.
Proof.
  intros Hlen. unfold load_kernel.
  destruct (parse_header_agrees image Hlen) as (r & -> & Hagree). cbn [mbind outcome_bind].
  destruct r as [h|e]; [|by do 2 eexists].
  destruct (proj1 (Hagree h) eq_refl) as [Hh _].
  destruct (header_verdict_typed _ _ Hh) as [Hty Hmin].
  destruct (indices_typed h Hty) as [Hi16 Hcount].
  destruct (measure_spec image h Hlen Hty Hmin (indices h) [] 0 u64_max 0) as (r & -> & Hm);
    [done|done| |].
  { split_and!; try done; [intros ph Hp; by apply elem_of_nil in Hp|by left]. }
  cbn [mbind outcome_bind app] in *. destruct r as [[[n b] e]|err]; [|by do 2 eexists].
  destruct Hm as (Hn & He & Hin & Hall & Hex).
  case_if; [by do 2 eexists|]. case_if; [by do 2 eexists|].
  unfold checked_sub. case_if; [|by do 2 eexists].
  destruct (allocate_pages (div_ceil (e - b) 4096)) as [base|st] eqn:Ha; [|by do 2 eexists].
  destruct (allocate_pages_sound _ _ Ha) as (Hpos & Hal & Htop).
  pose proof (div_ceil_spec (e - b) 4096 ltac:(lia)) as Hceil.
  remember (div_ceil (e - b) 4096) as pages eqn:Hpages.
  rewrite mul_u_Ret by lia. cbn [mbind outcome_bind].
  set (m0 := write_mem m base _).
  destruct (copy_spec image h Hlen Hty Hmin b base (e - b)) with (l := indices h) (m := m0)
    as (r & m' & -> & Hout & Hdata); [lia|done| |].
  { split; [done|]. intros ph Hp. specialize (Hin _ Hp). lia. }
  assert (forall x, m' x <> m x -> base <= x < base + pages * 4096) as Hsafe.
  { intros x Hx. destruct (decide (base <= x < base + pages * 4096)) as [|Hno]; [done|]. exfalso.
    apply Hx. rewrite Hout by lia. apply write_mem_out. rewrite len_replicate, Z2Nat.id by lia. lia. }
  cbn [mbind outcome_bind]. destruct r as [[]|err]; (eexists _, m'; split; [done|split; [by eauto|]]); [|done].
  exists h. destruct Hex as [(Hnil & _)|(p1 & p2 & Hp1 & Hp2 & Hb1 & He1)].
  { rewrite Hnil in Hn. unfold len in Hn. simpl in Hn. lia. }
  split; cbn [lk_entry_point lk_virtual_base lk_physical_base lk_image_size]; try done.
  - by apply negb_false_iff.
  - intros ph Hp. specialize (Hin _ Hp). lia.
  - exists p1, p2. split_and!; [done..|lia].
  - intros va Hva. rewrite Hdata by done. f_equal. unfold m0, write_mem.
    rewrite zget_lookup by lia. rewrite lookup_replicate_2 by lia. done.
Qed.

(** C36: the loader accepts exactly the file headers the kernel's ELF parser
    accepts whose version byte is 1, and reads the same entry point and
    program-header table from them. *)
Theorem loader_header_agrees image h :
  len image <= isize_max ->
  LoaderElf.parse_header image = Ret (Ok h) <->
  Elf.parse_header image = Ret (Ok h) /\ zget image 6 = Some ELF_VERSION_CURRENT.
Proof.
  intros Hlen. destruct (parse_header_agrees image Hlen) as (r & Hr & Hagree).
  rewrite Hr, parse_header_eq. specialize (Hagree h).
  split; [|intros [[= Hh] Hv]; f_equal; by apply Hagree].
  intros [= ->]. destruct (proj1 Hagree eq_refl) as [-> ?]. done.
Qed.

(** C25: loading any file returns (no index, overflow or subtraction panic),
    and it writes to no byte of physical memory outside the pages the
    firmware handed out for the kernel. *)
Theorem load_kernel_memory_safe `{PageAllocator} image m :
  len image <= isize_max ->
  exists r m', load_kernel image m = Ret (r, m') /\
    forall x, m' x <> m x -> exists n base,
      allocate_pages n = Ok base /\ base <= x < base + n * 4096.
Proof. intros Hlen. destruct (load_kernel_spec image m Hlen) as (r & m' & ? & ? & _). eauto. Qed.

(** C8: when the loader reports a loaded kernel, physical memory holds its
    image: the reported range is the tight hull of the loadable segments, the
    bases are page aligned, and the byte for each virtual address of the
    range is the file byte of the last segment that covers it, or zero where
    no segment has file contents. *)
Theorem load_kernel_places_segments `{PageAllocator} image m k m' :
  len image <= isize_max -> load_kernel image m = Ret (Ok k, m') ->
  exists h, loaded image m' k h.
Proof.
  intros Hlen Hk. destruct (load_kernel_spec image m Hlen) as (r & m2 & Hr & _ & Hl).
  rewrite Hk in Hr. by simplify_eq.
Qed.

(** ** Concrete inputs *)

(** A firmware with one free run of pages at 2 MiB. *)
#[global] Instance demo_firmware : PageAllocator.
Proof.
  refine {| allocate_pages := fun n => if (0 <=? n) && (n <=? 512) then Ok 0x200000 else Err 9 |}.
  intros n base. case_if; [|done]. intros [= <-]. split; [lia|]. split; [done|lia].
Defined.

(** A kernel whose one segment has four bytes of file contents and eight bytes
    of memory. *)
Definition demo_kernel : list byte :=
  elf_image 0x400000 [mkProgramHeader 120 0x400000 0 4 8 5 0x1000] [x0a; x0b; x0c; x0d].

Lemma loader_header_agrees_witness :
  LoaderElf.parse_header demo_kernel = Ret (Ok (mkElfHeader 0x400000 64 56 1)).
Proof.
  apply loader_header_agrees; [by vm_compute|]. split; vm_compute; reflexivity.
Defined.

Lemma load_kernel_memory_safe_witness :
  exists r m', load_kernel demo_kernel (fun _ => xff) = Ret (r, m') /\
    forall x, m' x <> xff -> exists n base, allocate_pages n = Ok base /\ base <= x < base + n * 4096.
Proof. apply (load_kernel_memory_safe demo_kernel (fun _ => xff)). by vm_compute. Defined.

Lemma load_kernel_places_segments_witness :
  match load_kernel demo_kernel (fun _ => xff) with
  | Ret (Ok k, m') => k = mkLoadedKernel 0x400000 0x400000 0x200000 8 /\ m' 0x200001 = x0b /\ m' 0x200006 = x00
  | _ => False
  end.
Proof.
  assert (match load_kernel demo_kernel (fun _ => xff) with Ret (Ok k, _) => Some k | _ => None end =
    Some (mkLoadedKernel 0x400000 0x400000 0x200000 8)) as Hk by (by vm_compute).
  destruct (load_kernel demo_kernel (fun _ => xff)) as [[[k|] m']| |] eqn:E; try discriminate.
  injection Hk as ->. split; [done|].
  destruct (load_kernel_places_segments demo_kernel (fun _ => xff) _ _ ltac:(by vm_compute) E) as [h Hl].
  pose proof (ld_bytes _ _ _ _ Hl) as Hb. pose proof (ld_header _ _ _ _ Hl) as Hh.
  vm_compute in Hh. injection Hh as <-.
  split; [refine (eq_trans (Hb 0x400001 _) _)|refine (eq_trans (Hb 0x400006 _) _)]; by vm_compute.
Defined.
