(* ===== verification/Tty.v ===== *)
(** * The terminal line discipline ([kernel/src/tty/mod.rs]) and the keyboard
    buffer ([kernel/src/input/mod.rs])

    The terminal edits a line, queues finished lines and echoes to the text
    console, which it reaches only through the [Console] interface.  The heap
    is assumed to hold the line and the queue, which nothing bounds. *)

From S2P Require Import Prelude Utf8.

(** What the terminal uses of the text console. *)
Class Console (C : Type) := {
  con_write_char : C -> Z -> outcome C;
  con_backspace : C -> outcome C;
  con_write_str : C -> list byte -> outcome C }.

(** [if let Some(ref mut console) = *CONSOLE.lock() { f(console) }]. *)
Definition with_console {C} (con : option C) (f : C -> outcome C) : outcome (option C) :=
  match con with
  | Some c => c' ← f c; Ret (Some c')
  | None => Ret None
  end.

Record Tty := mkTty { line_buffer : list Z; input_queue : list (list Z) }.

Definition new : Tty := mkTty [] [].

(** [String::pop] on the characters. *)
Definition pop_char (s : list Z) : option (list Z) :=
  match rev s with [] => None | _ :: r => Some (rev r) end.

Definition is_newline (c : Z) : bool := (c =? 10) || (c =? 13).
Definition is_backspace (c : Z) : bool := (c =? 8) || (c =? 0x7F).

Section Operations.
Context {C : Type} `{Console C}.

Definition handle_input (t : Tty) (con : option C) (c : Z) : outcome (Tty * option C) :=
  if is_newline c then
    let line := line_buffer t ++ [10] in
    let t' := mkTty [] (input_queue t ++ [line]) in
    con' ← with_console con (fun k => con_write_char k 10);
    Ret (t', con')
  else if is_backspace c then
    match pop_char (line_buffer t) with
    | Some rest =>
        con' ← with_console con con_backspace;
        Ret (mkTty rest (input_queue t), con')
    | None => Ret (t, con)
    end
  else if negb (is_control c) then
    con' ← with_console con (fun k => con_write_char k c);
    Ret (mkTty (line_buffer t ++ [c]) (input_queue t), con')
  else Ret (t, con).

Definition read_line (t : Tty) : option (list Z) * Tty :=
  match input_queue t with
  | [] => (None, t)
  | l :: q => (Some l, mkTty (line_buffer t) q)
  end.

Definition write (t : Tty) (con : option C) (s : list byte) : outcome (option C) :=
  with_console con (fun k => con_write_str k s).
End Operations.

(** ** The keyboard character buffer *)

Definition add_char (buffer : list Z) (c : Z) : list Z :=
  if len buffer <? 128 then buffer ++ [c] else buffer.

Definition read_char (buffer : list Z) : option Z * list Z :=
  match buffer with [] => (None, []) | c :: b => (Some c, b) end.

(** The console calls of the keyboard path, for evaluation: a log. *)
Inductive con_event := EvChar (c : Z) | EvBackspace | EvStr (s : list byte).

#[global] Instance log_console : Console (list con_event) := {
  con_write_char l c := Ret (l ++ [EvChar c]);
  con_backspace l := Ret (l ++ [EvBackspace]);
  con_write_str l s := Ret (l ++ [EvStr s]) }.

(** What the terminal relies on: in the states of an invariant the console's
    operations return, and keep the invariant. *)
Class TotalConsole (C : Type) `{Console C} := {
  con_ok : C -> Prop;
  con_write_char_ok : forall k c, con_ok k -> scalar c -> exists k', con_write_char k c = Ret k' /\ con_ok k';
  con_backspace_ok : forall k, con_ok k -> exists k', con_backspace k = Ret k' /\ con_ok k';
  con_write_str_ok : forall k s, con_ok k -> exists k', con_write_str k s = Ret k' /\ con_ok k' }.

(** The global [CONSOLE], which is absent until the font is loaded. *)
Definition con_opt_ok {C} `{TotalConsole C} (con : option C) : Prop :=
  match con with Some k => con_ok k | None => True end.

#[global] Instance log_console_total : TotalConsole (list con_event).
Proof. exists (fun _ => True); intros; eexists; done. Defined.

(** ** The reference line discipline *)

(** The keys of one line, edited: a backspace removes the last character
    kept, other control characters are ignored. *)
Definition edit_key (kept : list Z) (c : Z) : list Z :=
  if is_backspace c then take (pred (length kept)) kept
  else if is_control c then kept else kept ++ [c].

Definition edit_line (keys : list Z) : list Z := foldl edit_key [] keys.

(** The keys between line ends: the finished lines and the pending one. *)
Fixpoint split_keys (keys : list Z) : list (list Z) * list Z :=
  match keys with
  | [] => ([], [])
  | c :: ks =>
      let '(lines, last) := split_keys ks in
      if is_newline c then ([] :: lines, last)
      else match lines with
           | [] => ([], c :: last)
           | l :: ls => ((c :: l) :: ls, last)
           end
  end.

(** Typing a sequence of keys. *)
Definition type_keys {C} `{Console C} (keys : list Z) (s : Tty * option C)
    : outcome (Tty * option C) :=
  for_each (fun s c => handle_input s.1 s.2 c) keys s.

(** ** Lemmas *)

Lemma pop_char_take s :
  pop_char s = match s with [] => None | _ => Some (take (pred (length s)) s) end.
Proof.
  unfold pop_char. destruct s as [|x s] using rev_ind; [done|].
  rewrite rev_app_distr. simpl. rewrite rev_involutive, length_app. simpl.
  replace (pred (length s + 1)) with (length s) by lia. rewrite take_app_length.
  by destruct s.
Qed.

Lemma with_console_ok {C} `{TotalConsole C} con f :
  con_opt_ok con -> (forall k, con_ok k -> exists k', f k = Ret k' /\ con_ok k') ->
  exists con', with_console con f = Ret con' /\ con_opt_ok con'.
Proof.
  intros Hc Hf. destruct con as [k|]; [|by exists None].
  destruct (Hf k Hc) as (k' & Hk & Hok). exists (Some k'). simpl. by rewrite Hk.
Qed.

Lemma handle_input_key {C} `{TotalConsole C} t con c :
  con_opt_ok con -> scalar c -> is_newline c = false ->
  exists con', handle_input t con c =
    Ret (mkTty (edit_key (line_buffer t) c) (input_queue t), con') /\ con_opt_ok con'.
Proof.
  intros Hok Hc Hn. unfold handle_input, edit_key. rewrite Hn.
  destruct t as [lb q]. simpl. destruct (is_backspace c).
  - rewrite pop_char_take. destruct lb as [|x lb]; [by eexists|].
    destruct (with_console_ok con con_backspace Hok) as (con' & -> & Hok'); [|by eexists].
    intros. by apply con_backspace_ok.
  - destruct (is_control c); simpl; [by eexists|].
    destruct (with_console_ok con (fun k => con_write_char k c) Hok) as (con' & -> & Hok'); [|by eexists].
    intros. by apply con_write_char_ok.
Qed.

Lemma handle_input_newline {C} `{TotalConsole C} t con c :
  con_opt_ok con -> is_newline c = true ->
  exists con', handle_input t con c =
    Ret (mkTty [] (input_queue t ++ [line_buffer t ++ [10]]), con') /\ con_opt_ok con'.
Proof.
  intros Hok Hn. unfold handle_input. rewrite Hn.
  destruct (with_console_ok con (fun k => con_write_char k 10) Hok) as (con' & -> & Hok'); [|by eexists].
  intros. apply con_write_char_ok; [done|]. unfold scalar. lia.
Qed.

Lemma type_keys_from {C} `{TotalConsole C} keys pre q con :
  con_opt_ok con -> Forall scalar keys ->
  exists con', type_keys keys (mkTty (edit_line pre) q, con) =
    (let '(lines, last) := split_keys keys in
    match lines with
    | [] => Ret (mkTty (edit_line (pre ++ last)) q, con')
    | l :: ls =>
        Ret (mkTty (edit_line last)
               (q ++ (edit_line (pre ++ l) ++ [10]) :: map (fun k => edit_line k ++ [10]) ls), con')
    end) /\ con_opt_ok con'.
Proof.
  intros Hok Hk. revert pre q con Hok. induction Hk as [|c keys Hc Hk IH]; intros pre q con Hok.
  { exists con. simpl. by rewrite app_nil_r. }
  unfold type_keys in *. cbn [for_each split_keys fst snd].
  destruct (split_keys keys) as [lines last]. destruct (is_newline c) eqn:Hn.
  - destruct (handle_input_newline (mkTty (edit_line pre) q) con c Hok Hn) as (con1 & -> & Hok1). simpl.
    destruct (IH [] (q ++ [edit_line pre ++ [10]]) con1 Hok1) as (con2 & Hcon & Hok2). exists con2.
    split; [|done]. change (edit_line []) with (@nil Z) in Hcon. rewrite Hcon, app_nil_r.
    destruct lines; simpl; by rewrite <- ?app_assoc.
  - destruct (handle_input_key (mkTty (edit_line pre) q) con c Hok Hc Hn) as (con1 & -> & Hok1). simpl.
    assert (edit_key (edit_line pre) c = edit_line (pre ++ [c])) as ->.
    { unfold edit_line. by rewrite foldl_app. }
    destruct (IH (pre ++ [c]) q con1 Hok1) as (con2 & -> & Hok2). exists con2. split; [|done].
    destruct lines; simpl; by rewrite <- ?app_assoc.
Qed.

(** whatever is typed, the terminal never fails (given a console that
    keeps its promise, which then still holds), its queue gains exactly the
    finished lines, each edited by its backspaces, stripped of control
    characters and ended by a newline, and the line being typed is the edited
    rest. *)
Theorem tty_line_discipline {C} `{TotalConsole C} keys con :
  con_opt_ok con -> Forall scalar keys ->
  exists con', type_keys keys (new, con) =
    (let '(lines, last) := split_keys keys in
     Ret (mkTty (edit_line last) (map (fun k => edit_line k ++ [10]) lines), con')) /\ con_opt_ok con'.
Proof.
  intros Hok Hk. destruct (type_keys_from keys [] [] con Hok Hk) as (con' & H' & Hok'). exists con'.
  split; [|done]. unfold new. change (@nil Z) with (edit_line []) at 1. rewrite H'.
  by destruct (split_keys keys) as [[|l ls] last].
Qed.

(** Typing [l], [x], backspace, [s], enter, then [p]. *)
Lemma tty_line_discipline_witness :
  exists log, type_keys [108; 120; 8; 115; 13; 112] (new, Some []) =
    Ret (mkTty [112] [[108; 115; 10]], Some log).
Proof.
  destruct (tty_line_discipline (C := list con_event) [108; 120; 8; 115; 13; 112] (Some []))
    as (con' & Hc & _); [done|repeat constructor; unfold scalar; lia|].
  vm_compute in Hc. vm_compute. eexists. reflexivity.
Defined.
