(* ===== verification/Vfs.v ===== *)
(** * The virtual file system ([kernel/src/vfs.rs])

    One flat table of named entries, a table of sixteen open descriptors
    shared by the whole system, and the working directory.  The operations
    are total functions with the panics of the code as outcomes, on a heap that
    serves every request; [VfsHeap] adds the heap.  The terminal device is
    reached through [Tty]. *)

From S2P Require Import Prelude Abi Utf8 Tty.

Definition MAX_OPEN_FILES : nat := 16.

Inductive FileType := Regular | Directory | Device | Pipe.

#[global] Instance FileType_eq_dec : EqDecision FileType.
Proof. solve_decision. Defined.

Record FileStat := mkFileStat { fs_size : Z; fs_type : FileType }.

Definition to_abi (s : FileStat) : Stat :=
  let abi_type := match fs_type s with
                  | Regular => FILE_TYPE_REGULAR
                  | Directory => FILE_TYPE_DIRECTORY
                  | Device => FILE_TYPE_DEVICE
                  | Pipe => FILE_TYPE_PIPE
                  end in
  mkStat (fs_size s) abi_type.

Record FileDescriptor := mkFd { fd_name : list byte; fd_type : FileType; fd_offset : Z }.

Record VfsEntry := mkEntry { e_name : list byte; e_type : FileType; e_data : option (list byte) }.

#[global] Instance FileDescriptor_eq_dec : EqDecision FileDescriptor.
Proof. solve_decision. Defined.
#[global] Instance VfsEntry_eq_dec : EqDecision VfsEntry.
Proof. solve_decision. Defined.

Record Vfs := mkVfs {
  entries : list VfsEntry;
  open_files : list (option FileDescriptor);
  cwd : list byte }.

(** [e.name == path]. *)
Definition named (path : list byte) (e : VfsEntry) : bool := bool_decide (e_name e = path).

Definition set_entries (v : Vfs) (es : list VfsEntry) : Vfs := mkVfs es (open_files v) (cwd v).
Definition set_open (v : Vfs) (fds : list (option FileDescriptor)) : Vfs :=
  mkVfs (entries v) fds (cwd v).

Definition new : Vfs := mkVfs [] (replicate MAX_OPEN_FILES None) (str "/").

Definition init_defaults (v : Vfs) : Vfs :=
  set_entries v (entries v ++
    [ mkEntry (str ".") Directory None;
      mkEntry (str "dev") Directory None;
      mkEntry (str "null") Device None;
      mkEntry (str "tty") Device None ]).

(** The archive loop of [init_from_ramdisk] at [offset]; each iteration
    consumes at least 72 bytes. *)
Fixpoint ramdisk_loop (fuel : nat) (data : list byte) (offset : Z) (es : list VfsEntry)
    : outcome (list VfsEntry) :=
  match fuel with
  | O => Loop
  | S fuel' =>
      hdr_end ← add_u 64 offset 72;
      if len data <? hdr_end then Ret es else
      name_end ← add_u 64 offset 64;
      name_bytes ← slice data offset name_end;
      let name_len := default 64%nat (position (fun b => bool_decide (b = x00)) name_bytes) in
      name_slice ← slice name_bytes 0 (Z.of_nat name_len);
      let name := utf8_or name_slice (str "unknown") in
      size_bytes ← slice data name_end hdr_end;
      let file_size := le_val size_bytes in
      stop ← add_u 64 hdr_end file_size;
      if stop <=? len data then
        file_data ← slice data hdr_end stop;
        ramdisk_loop fuel' data stop (es ++ [mkEntry name Regular (Some file_data)])
      else Ret es
  end.

Definition init_from_ramdisk (m : mem) (v : Vfs) (addr size : Z) : outcome Vfs :=
  let v := init_defaults v in
  if negb (addr =? 0) && (0 <? size) then
    data ← raw_slice m addr size;
    es ← ramdisk_loop (S (length data)) data 0 (entries v);
    Ret (set_entries v es)
  else Ret v.

(** The inner loop of [open]: the first free slot. *)
Definition free_slot (fds : list (option FileDescriptor)) : option nat :=
  position (fun s => bool_decide (s = None)) fds.

(** The outer loop of [open] over the entries. *)
Fixpoint open_loop (es : list VfsEntry) (path : list byte) (fds : list (option FileDescriptor))
    : option (nat * list (option FileDescriptor)) :=
  match es with
  | [] => None
  | e :: es' =>
      if named path e then
        match free_slot fds with
        | Some j => Some (j, <[j := Some (mkFd path (e_type e) 0)]> fds)
        | None => open_loop es' path fds
        end
      else open_loop es' path fds
  end.

Definition open (v : Vfs) (path : list byte) : option Z * Vfs :=
  match open_loop (entries v) path (open_files v) with
  | Some (j, fds) => (Some (Z.of_nat j), set_open v fds)
  | None => (None, v)
  end.

Definition close (v : Vfs) (fd_index : Z) : outcome (bool * Vfs) :=
  if len (open_files v) <=? fd_index then Ret (false, v) else
  slot ← idx (open_files v) fd_index;
  match slot with
  | Some _ => Ret (true, set_open v (<[Z.to_nat fd_index := None]> (open_files v)))
  | None => Ret (false, v)
  end.

Definition set_offset (v : Vfs) (fd_index : Z) (fd : FileDescriptor) (off : Z) : Vfs :=
  set_open v (<[Z.to_nat fd_index := Some (mkFd (fd_name fd) (fd_type fd) off)]> (open_files v)).

(** [buf[..len].copy_from_slice(src)]: the new buffer. *)
Definition copy_into (buf src : list byte) : list byte := src ++ drop (length src) buf.

(** Result, new state, new terminal, new buffer. *)
Definition read (v : Vfs) (tty : Tty) (fd_index : Z) (buf : list byte)
    : outcome (option Z * Vfs * Tty * list byte) :=
  if len (open_files v) <=? fd_index then Ret (None, v, tty, buf) else
  slot ← idx (open_files v) fd_index;
  match slot with
  | None => Ret (None, v, tty, buf)
  | Some fd =>
    if bool_decide (fd_name fd = str "tty") then
      let '(line, tty') := read_line tty in
      match line with
      | Some line =>
          let bytes := encode line in
          let n := Z.min (len buf) (len bytes) in
          src ← slice bytes 0 n;
          Ret (Some n, v, tty', copy_into buf src)
      | None => Ret (Some 0, v, tty', buf)
      end
    else
      match find (named (fd_name fd)) (entries v) with
      | None => Ret (None, v, tty, buf)
      | Some e =>
        match e_data e with
        | Some data =>
            let start := fd_offset fd in
            if len data <=? start then Ret (Some 0, v, tty, buf) else
            available ← sub_u (len data) start;
            let n := Z.min (len buf) available in
            stop ← add_u 64 start n;
            src ← slice data start stop;
            off ← add_u 64 (fd_offset fd) n;
            Ret (Some n, set_offset v fd_index fd off, tty, copy_into buf src)
        | None => Ret (None, v, tty, buf)
        end
      end
  end.

(** Replace the data of the first entry with this name. *)
Fixpoint update_data (es : list VfsEntry) (name : list byte) (d : list byte) : list VfsEntry :=
  match es with
  | [] => []
  | e :: es' =>
      if named name e then mkEntry (e_name e) (e_type e) (Some d) :: es'
      else e :: update_data es' name d
  end.

(** [data.resize(start, 0)] past the end, then [data.extend_from_slice(buf)];
    a vector of more than [isize::MAX] bytes is a capacity panic. *)
Definition extend_at (data : list byte) (start : Z) (buf : list byte) : outcome (list byte) :=
  data ← (if len data <? start then
            if isize_max <? start then Panic
            else Ret (data ++ replicate (Z.to_nat (start - len data)) x00)
          else Ret data);
  if isize_max <? len data + len buf then Panic else Ret (data ++ buf).

Definition write {C} `{Console C} (v : Vfs) (tty : Tty) (con : option C) (fd_index : Z)
    (buf : list byte) : outcome (option Z * Vfs * option C) :=
  if len (open_files v) <=? fd_index then Ret (None, v, con) else
  slot ← idx (open_files v) fd_index;
  match slot with
  | None => Ret (None, v, con)
  | Some fd =>
    if bool_decide (fd_name fd = str "tty") then
      match from_utf8 buf with
      | Some s => con' ← Tty.write tty con s; Ret (Some (len buf), v, con')
      | None => Ret (None, v, con)
      end
    else
      match find (named (fd_name fd)) (entries v) with
      | None => Ret (None, v, con)
      | Some e =>
        match e_data e with
        | Some data =>
            data' ← extend_at data (fd_offset fd) buf;
            off ← add_u 64 (fd_offset fd) (len buf);
            Ret (Some (len buf),
                 set_offset (set_entries v (update_data (entries v) (fd_name fd) data'))
                   fd_index fd off, con)
        | None => Ret (None, v, con)
        end
      end
  end.

Definition seek (v : Vfs) (fd_index offset : Z) : outcome (bool * Vfs) :=
  if len (open_files v) <=? fd_index then Ret (false, v) else
  slot ← idx (open_files v) fd_index;
  match slot with
  | Some fd => Ret (true, set_offset v fd_index fd offset)
  | None => Ret (false, v)
  end.

Definition stat (v : Vfs) (path : list byte) : option FileStat :=
  e ← find (named path) (entries v);
  Some (mkFileStat (match e_data e with Some d => len d | None => 0 end) (e_type e)).

Definition list_dir (v : Vfs) : list (list byte) := map e_name (entries v).

Definition getcwd (v : Vfs) : list byte := cwd v.

Definition chdir (v : Vfs) (path : list byte) : bool * Vfs :=
  if existsb (fun e => named path e && bool_decide (e_type e = Directory)) (entries v)
  then (true, mkVfs (entries v) (open_files v) path)
  else (false, v).

Definition mkdir (v : Vfs) (path : list byte) : bool * Vfs :=
  if existsb (named path) (entries v) then (false, v)
  else (true, set_entries v (entries v ++ [mkEntry path Directory (Some [])])).

(** The descriptor table after [unlink]: slots naming [path] are cleared. *)
Definition close_named (path : list byte) (s : option FileDescriptor) : option FileDescriptor :=
  match s with
  | Some f => if bool_decide (fd_name f = path) then None else Some f
  | None => None
  end.

Definition unlink (v : Vfs) (path : list byte) : bool * Vfs :=
  match position (named path) (entries v) with
  | Some index =>
      (true, mkVfs (list_delete index (entries v)) (map (close_named path) (open_files v)) (cwd v))
  | None => (false, v)
  end.

(** ** Invariant *)

Definition exists_named (v : Vfs) (path : list byte) : Prop := is_Some (find (named path) (entries v)).

(** The descriptor table has its sixteen slots, every open descriptor names
    an existing entry and has a 64-bit offset, and file contents fit in a
    vector. *)
Record wf (v : Vfs) : Prop := {
  wf_slots : length (open_files v) = MAX_OPEN_FILES;
  wf_fds : forall j fd, open_files v !! j = Some (Some fd) ->
    in_u64 (fd_offset fd) /\ exists_named v (fd_name fd);
  wf_data : forall e d, e ∈ entries v -> e_data e = Some d -> len d <= isize_max }.

(** ** The operations, as one step function *)

Inductive op :=
| OpOpen (path : list byte)
| OpClose (fd : Z)
| OpRead (fd : Z) (buf : list byte)
| OpWrite (fd : Z) (buf : list byte)
| OpSeek (fd offset : Z)
| OpChdir (path : list byte)
| OpMkdir (path : list byte)
| OpUnlink (path : list byte).

Definition op_typed (o : op) : Prop :=
  match o with
  | OpClose fd => in_usize fd
  | OpRead fd buf | OpWrite fd buf => in_usize fd /\ len buf <= isize_max
  | OpSeek fd off => in_usize fd /\ in_u64 off
  | OpOpen _ | OpChdir _ | OpMkdir _ | OpUnlink _ => True
  end.

Definition exec {C} `{Console C} (s : Vfs * Tty * option C) (o : op) : outcome (Vfs * Tty * option C) :=
  let '(v, tty, con) := s in
  match o with
  | OpOpen p => Ret ((open v p).2, tty, con)
  | OpClose fd => r ← close v fd; Ret (r.2, tty, con)
  | OpRead fd buf => r ← read v tty fd buf; let '(_, v', tty', _) := r in Ret (v', tty', con)
  | OpWrite fd buf => r ← write v tty con fd buf; let '(_, v', con') := r in Ret (v', tty, con')
  | OpSeek fd off => r ← seek v fd off; Ret (r.2, tty, con)
  | OpChdir p => Ret ((chdir v p).2, tty, con)
  | OpMkdir p => Ret ((mkdir v p).2, tty, con)
  | OpUnlink p => Ret ((unlink v p).2, tty, con)
  end.

(** ** Lemmas on the tables *)

Lemma named_true path e : named path e = true <-> e_name e = path.
Proof. unfold named. apply bool_decide_eq_true. Qed.

Lemma find_named path es e : find (named path) es = Some e -> e ∈ es /\ e_name e = path.
Proof. intros [Hin Hn]%find_some. apply named_true in Hn. by rewrite list_elem_of_In. Qed.

Lemma find_named_is_Some path es :
  is_Some (find (named path) es) <-> exists e, e ∈ es /\ e_name e = path.
Proof.
  split.
  - intros [e He]. exists e. by apply find_named.
  - intros (e & Hin & Hn). destruct (find _ _) eqn:E; [by eexists|].
    apply find_none_iff in E. rewrite Forall_forall in E. specialize (E _ Hin).
    apply named_true in Hn. congruence.
Qed.

Lemma free_slot_Some fds j : free_slot fds = Some j ->
  fds !! j = Some None /\ forall k s, (k < j)%nat -> fds !! k = Some s -> is_Some s.
Proof.
  intros (x & Hx & Hp & Hb)%position_Some. apply bool_decide_eq_true in Hp as ->.
  split; [done|]. intros k [s|] Hk Hs; [by eexists|].
  specialize (Hb k None Hk Hs). by apply bool_decide_eq_false in Hb.
Qed.

Lemma free_slot_None fds : free_slot fds = None <-> Forall is_Some fds.
Proof.
  unfold free_slot. rewrite position_None. apply Forall_iff. intros [s|].
  - split; [by eexists|by intros _; apply bool_decide_eq_false].
  - split; [by intros ?%bool_decide_eq_false|by intros [??]].
Qed.

(** The nested loops of [open] pick the first entry and the first slot. *)
Lemma open_loop_eq es path fds :
  open_loop es path fds =
  match find (named path) es, free_slot fds with
  | Some e, Some j => Some (j, <[j := Some (mkFd path (e_type e) 0)]> fds)
  | _, _ => None
  end.
Proof.
  induction es as [|e es IH]; [done|]. simpl.
  destruct (named path e); [|done]. destruct (free_slot fds); [done|].
  rewrite IH. by destruct (find _ _).
Qed.

Lemma idx_slot v i :
  length (open_files v) = MAX_OPEN_FILES -> 0 <= i ->
  (len (open_files v) <=? i) = true \/
  exists s, open_files v !! Z.to_nat i = Some s /\ idx (open_files v) i = Ret s /\
            (len (open_files v) <=? i) = false.
Proof.
  intros Hl Hi. destruct (Z.leb_spec (len (open_files v)) i) as [|Hlt]; [by left|right].
  destruct (zget_is_Some (open_files v) i) as [s Hs]; [lia|]. exists s.
  rewrite zget_lookup in Hs by lia. split_and!; [done| |done].
  apply unwrap_Ret. by rewrite zget_lookup by lia.
Qed.

Lemma find_update_data es name d path :
  find (named path) (update_data es name d) =
  match find (named path) es with
  | Some e => if bool_decide (path = name) then Some (mkEntry (e_name e) (e_type e) (Some d)) else Some e
  | None => None
  end.
Proof.
  induction es as [|e es IH]; [done|]. simpl.
  destruct (named name e) eqn:E1; simpl.
  - change (named path (mkEntry _ _ _)) with (named path e).
    apply named_true in E1. destruct (named path e) eqn:E2.
    + apply named_true in E2. by rewrite bool_decide_eq_true_2 by congruence.
    + assert (path <> name) by (intros ->; unfold named in E2; by apply bool_decide_eq_false in E2).
      rewrite bool_decide_eq_false_2 by done. by destruct (find _ es).
  - destruct (named path e) eqn:E2; [|done].
    apply named_true in E2. assert (path <> name).
    { intros ->. unfold named in E1. by apply bool_decide_eq_false in E1. }
    by rewrite bool_decide_eq_false_2.
Qed.

Lemma update_data_elem es name d e :
  e ∈ update_data es name d -> e ∈ es \/ e_data e = Some d.
Proof.
  induction es as [|e' es IH]; simpl; [by left|]. destruct (named name e').
  - rewrite elem_of_cons. intros [->|Hin]; [by right|left; set_solver].
  - rewrite elem_of_cons. intros [->|Hin]; [left; set_solver|].
    destruct (IH Hin); [left; set_solver|by right].
Qed.

Lemma extend_at_eq data start buf :
  len data <= isize_max ->
  extend_at data start buf =
  if isize_max <? Z.max (len data) start + len buf then Panic
  else Ret (data ++ replicate (Z.to_nat (start - len data)) x00 ++ buf).
Proof.
  intros Hd. pose proof (len_nonneg buf). unfold extend_at.
  destruct (len data <? start) eqn:E1.
  - destruct (isize_max <? start) eqn:E2.
    + simpl. by replace (isize_max <? _) with true by lia.
    + simpl. rewrite len_app. unfold len at 2. rewrite length_replicate, Z2Nat.id by lia.
      replace (len data + (start - len data) + len buf) with (Z.max (len data) start + len buf) by lia.
      case_if; [done|]. by rewrite <- app_assoc.
  - simpl. replace (Z.max (len data) start) with (len data) by lia.
    replace (Z.to_nat (start - len data)) with 0%nat by lia. done.
Qed.

(** A file write that would make the file larger than a vector can be. *)
Definition write_too_large (v : Vfs) (i : Z) (buf : list byte) : Prop :=
  exists fd e d, open_files v !! Z.to_nat i = Some (Some fd) /\ fd_name fd <> str "tty" /\
    find (named (fd_name fd)) (entries v) = Some e /\ e_data e = Some d /\
    isize_max < Z.max (len d) (fd_offset fd) + len buf.

(** ** The behaviour of each operation on an open descriptor *)

Section Descriptor.
Context (v : Vfs) (i : Z) (fd : FileDescriptor).
Context (Hwf : wf v) (Hi : 0 <= i).
Context (Hfd : open_files v !! Z.to_nat i = Some (Some fd)).

Lemma fd_in_table :
  (len (open_files v) <=? i) = false /\ idx (open_files v) i = Ret (Some fd).
Proof.
  pose proof (lookup_lt_Some _ _ _ Hfd) as Hlt.
  destruct (idx_slot v i (wf_slots _ Hwf) Hi) as [Hge|(s & Hs & Hidx & Hlt')].
  - unfold len in Hge. lia.
  - rewrite Hfd in Hs. simplify_eq. done.
Qed.

Lemma read_file tty buf e d :
  fd_name fd <> str "tty" -> find (named (fd_name fd)) (entries v) = Some e -> e_data e = Some d ->
  let n := Z.min (len buf) (Z.max 0 (len d - fd_offset fd)) in
  read v tty i buf =
  Ret (Some n, (if len d <=? fd_offset fd then v else set_offset v i fd (fd_offset fd + n)), tty,
       copy_into buf (sub_list d (fd_offset fd) n)).
Proof.
  intros Htty He Hd n. destruct fd_in_table as [Hlt Hidx].
  destruct (wf_fds _ Hwf _ _ Hfd) as [Hoff _].
  pose proof (wf_data _ Hwf e d (proj1 (find_named _ _ _ He)) Hd) as Hdl.
  pose proof (len_nonneg buf). pose proof (len_nonneg d).
  unfold in_range, isize_max in *.
  unfold read. rewrite Hlt, Hidx. cbn [mbind outcome_bind].
  rewrite bool_decide_eq_false_2, He, Hd by done.
  destruct (len d <=? fd_offset fd) eqn:E.
  - replace n with 0 by lia. done.
  - assert (n = Z.min (len buf) (len d - fd_offset fd)) as Hn by lia.
    rewrite sub_u_Ret by lia. cbn [mbind outcome_bind]. rewrite <- Hn.
    rewrite add_u_Ret by lia. cbn [mbind outcome_bind].
    rewrite slice_Ret by lia. cbn [mbind outcome_bind].
    by replace (fd_offset fd + n - fd_offset fd) with n by lia.
Qed.

Lemma write_file {C} `{Console C} tty (con : option C) buf e d :
  fd_name fd <> str "tty" -> find (named (fd_name fd)) (entries v) = Some e -> e_data e = Some d ->
  write v tty con i buf =
  if isize_max <? Z.max (len d) (fd_offset fd) + len buf then Panic
  else Ret (Some (len buf),
    set_offset (set_entries v (update_data (entries v) (fd_name fd)
      (d ++ replicate (Z.to_nat (fd_offset fd - len d)) x00 ++ buf)))
      i fd (fd_offset fd + len buf), con).
Proof.
  intros Htty He Hd. destruct fd_in_table as [Hlt Hidx].
  pose proof (wf_data _ Hwf e d (proj1 (find_named _ _ _ He)) Hd) as Hdl.
  unfold write. rewrite Hlt, Hidx. cbn [mbind outcome_bind].
  rewrite bool_decide_eq_false_2, He, Hd by done.
  rewrite extend_at_eq by done. case_if; [done|]. cbn [mbind outcome_bind].
  unfold isize_max in *. rewrite add_u_Ret by lia. done.
Qed.

Lemma seek_file off : seek v i off = Ret (true, set_offset v i fd off).
Proof. destruct fd_in_table as [Hlt Hidx]. unfold seek. by rewrite Hlt, Hidx. Qed.

Lemma close_file : close v i = Ret (true, set_open v (<[Z.to_nat i := None]> (open_files v))).
Proof. destruct fd_in_table as [Hlt Hidx]. unfold close. by rewrite Hlt, Hidx. Qed.
End Descriptor.

(** ** Preservation of the invariant *)

Lemma wf_insert_slot v j s :
  wf v -> (forall fd, s = Some fd -> in_u64 (fd_offset fd) /\ exists_named v (fd_name fd)) ->
  wf (set_open v (<[j := s]> (open_files v))).
Proof.
  intros [Hl Hf Hd] Hs. split; simpl; [by rewrite length_insert| |done].
  intros k fd [(<- & Hk & _)|[_ Hk]]%list_lookup_insert_Some; [by apply Hs|by apply (Hf k)].
Qed.

Lemma wf_same_entries v es c :
  wf v -> (forall p, exists_named v p -> is_Some (find (named p) es)) ->
  (forall e d, e ∈ es -> e_data e = Some d -> len d <= isize_max) ->
  wf (mkVfs es (open_files v) c).
Proof.
  intros [Hl Hf Hd] Hes Hdata. split; simpl; [done| |done].
  intros j fd Hj. destruct (Hf j fd Hj). split; [done|]. by apply Hes.
Qed.

Lemma wf_open v path : wf v -> wf (open v path).2.
Proof.
  intros Hwf. unfold open. rewrite open_loop_eq.
  destruct (find _ _) as [e|] eqn:He; [|done]. destruct (free_slot _) as [j|]; [|done].
  simpl. apply wf_insert_slot; [done|]. intros fd [= <-]. split; [done|]. by exists e.
Qed.

Lemma wf_set_offset v i fd off :
  wf v -> exists_named v (fd_name fd) -> in_u64 off -> wf (set_offset v i fd off).
Proof. intros. apply wf_insert_slot; [done|]. by intros ? [= <-]. Qed.

Lemma wf_update v name d :
  wf v -> len d <= isize_max -> wf (set_entries v (update_data (entries v) name d)).
Proof.
  intros Hwf Hd. apply wf_same_entries; [done| |].
  - intros p [e He]. rewrite find_update_data, He. case_bool_decide; by eexists.
  - intros e d' [Hin|Heq]%update_data_elem He.
    + by apply (wf_data _ Hwf e).
    + congruence.
Qed.

Lemma wf_write_file v i fd d start buf :
  wf v -> open_files v !! Z.to_nat i = Some (Some fd) -> 0 <= start ->
  Z.max (len d) start + len buf <= isize_max ->
  wf (set_offset (set_entries v (update_data (entries v) (fd_name fd)
        (d ++ replicate (Z.to_nat (start - len d)) x00 ++ buf))) i fd (start + len buf)).
Proof.
  intros Hwf Hfd Hs Hmax. pose proof (len_nonneg buf). pose proof (len_nonneg d).
  apply wf_set_offset.
  - apply wf_update; [done|]. rewrite !len_app. unfold len at 2. rewrite length_replicate. lia.
  - destruct (wf_fds _ Hwf _ _ Hfd) as [_ [e He]]. unfold exists_named. simpl.
    rewrite find_update_data, He. case_bool_decide; by eexists.
  - unfold in_range, isize_max in *. lia.
Qed.

Lemma wf_mkdir v path : wf v -> wf (mkdir v path).2.
Proof.
  intros Hwf. unfold mkdir. case_if; [done|]. simpl. apply wf_same_entries; [done| |].
  - intros p [e He]. apply find_named_is_Some. exists e.
    destruct (find_named _ _ _ He). split; [set_solver|done].
  - intros e d. rewrite elem_of_app, list_elem_of_singleton.
    intros [Hin| ->]; [by apply (wf_data _ Hwf)|]. simpl. by intros [= <-].
Qed.

Lemma lookup_close_named path (fds : list (option FileDescriptor)) j fd :
  map (close_named path) fds !! j = Some (Some fd) <->
  fds !! j = Some (Some fd) /\ fd_name fd <> path.
Proof.
  change (map ?f ?l) with (f <$> l). rewrite list_lookup_fmap.
  destruct (fds !! j) as [[f|]|]; simpl; [|naive_solver..].
  case_bool_decide; naive_solver.
Qed.

Lemma find_delete_other path index es p :
  position (named path) es = Some index -> p <> path ->
  find (named p) (delete index es) = find (named p) es.
Proof.
  revert index. induction es as [|e es IH]; intros index; simpl; [done|].
  destruct (named path e) eqn:E.
  - intros [= <-] Hp. simpl. replace (named p e) with false; [done|].
    symmetry. apply named_true in E. apply bool_decide_eq_false. congruence.
  - destruct (position _ es) as [k|]; simpl; [|done]. intros [= <-] Hp. simpl.
    by rewrite (IH k).
Qed.

Lemma wf_unlink v path : wf v -> wf (unlink v path).2.
Proof.
  intros Hwf. unfold unlink. destruct (position _ _) as [index|] eqn:E; [|done]. simpl.
  split; simpl.
  - rewrite length_map. apply Hwf.
  - intros j fd [Hj Hn]%lookup_close_named. destruct (wf_fds _ Hwf _ _ Hj) as [Ho He].
    split; [done|]. unfold exists_named in *. simpl.
    change (list_delete index (entries v)) with (delete index (entries v)).
    by rewrite (find_delete_other path).
  - intros e d Hin. apply (wf_data _ Hwf). revert Hin.
    change (list_delete index (entries v)) with (delete index (entries v)).
    intros (k & Hk)%list_elem_of_lookup. apply list_elem_of_lookup.
    destruct (decide (k < index)%nat).
    + exists k. rewrite list_lookup_delete_lt in Hk by done. done.
    + exists (S k). rewrite list_lookup_delete_ge in Hk by lia. done.
Qed.

Lemma wf_chdir v path : wf v -> wf (chdir v path).2.
Proof. intros [Hl Hf Hd]. unfold chdir. case_if; [|done]. by split. Qed.

(** A descriptor index is out of range, free, or open. *)
Lemma fd_cases v i :
  wf v -> 0 <= i ->
  (len (open_files v) <=? i) = true \/
  ((len (open_files v) <=? i) = false /\ idx (open_files v) i = Ret None) \/
  exists fd, open_files v !! Z.to_nat i = Some (Some fd).
Proof.
  intros Hwf Hi.
  destruct (idx_slot v i (wf_slots _ Hwf) Hi) as [Hge|([fd|] & Hs & Hidx & Hlt)]; eauto.
Qed.

Lemma close_wf v i :
  wf v -> 0 <= i -> exists b v', close v i = Ret (b, v') /\ wf v'.
Proof.
  intros Hwf Hi. destruct (fd_cases v i Hwf Hi) as [Hge|[[Hlt Hidx]|[fd Hfd]]].
  - unfold close. rewrite Hge. eauto.
  - unfold close. rewrite Hlt, Hidx. eauto.
  - rewrite (close_file v i fd) by done. do 2 eexists. split; [done|]. by apply wf_insert_slot.
Qed.

Lemma seek_wf v i off :
  wf v -> 0 <= i -> in_u64 off -> exists b v', seek v i off = Ret (b, v') /\ wf v'.
Proof.
  intros Hwf Hi Hoff. destruct (fd_cases v i Hwf Hi) as [Hge|[[Hlt Hidx]|[fd Hfd]]].
  - unfold seek. rewrite Hge. eauto.
  - unfold seek. rewrite Hlt, Hidx. eauto.
  - rewrite (seek_file v i fd) by done. do 2 eexists. split; [done|].
    destruct (wf_fds _ Hwf _ _ Hfd). by apply wf_set_offset.
Qed.

(** Reading the terminal takes one queued line and copies what fits. *)
Lemma read_tty v i fd tty buf :
  wf v -> 0 <= i -> open_files v !! Z.to_nat i = Some (Some fd) -> fd_name fd = str "tty" ->
  read v tty i buf =
  match read_line tty with
  | (Some line, tty') =>
      let n := Z.min (len buf) (len (encode line)) in
      Ret (Some n, v, tty', copy_into buf (sub_list (encode line) 0 n))
  | (None, tty') => Ret (Some 0, v, tty', buf)
  end.
Proof.
  intros Hwf Hi Hfd Ht. destruct (fd_in_table v i fd Hwf Hi Hfd) as [Hlt Hidx].
  unfold read. rewrite Hlt, Hidx. cbn [mbind outcome_bind].
  rewrite bool_decide_eq_true_2 by done. destruct (read_line tty) as [[line|] tty']; [|done].
  pose proof (len_nonneg buf). pose proof (len_nonneg (encode line)).
  rewrite slice_Ret by lia. by rewrite Z.sub_0_r.
Qed.

Lemma read_wf v tty i buf :
  wf v -> 0 <= i -> exists r v' tty' buf', read v tty i buf = Ret (r, v', tty', buf') /\ wf v'.
Proof.
  intros Hwf Hi. destruct (fd_cases v i Hwf Hi) as [Hge|[[Hlt Hidx]|[fd Hfd]]].
  - unfold read. rewrite Hge. eauto 6.
  - unfold read. rewrite Hlt, Hidx. eauto 6.
  - destruct (wf_fds _ Hwf _ _ Hfd) as [Hoff [e He]].
    destruct (decide (fd_name fd = str "tty")) as [Ht|Ht].
    + rewrite (read_tty v i fd) by done. destruct (read_line tty) as [[line|] tty']; eauto 6.
    + destruct (e_data e) as [d|] eqn:Hd.
      * rewrite (read_file v i fd) with (e := e) (d := d) by done.
        do 4 eexists. split; [done|]. case_if; [done|].
        pose proof (wf_data _ Hwf e d (proj1 (find_named _ _ _ He)) Hd).
        apply wf_set_offset; [done|by exists e|]. unfold in_range, isize_max in *. 
        pose proof (len_nonneg buf). lia.
      * destruct (fd_in_table v i fd Hwf Hi Hfd) as [Hlt Hidx]. unfold read.
        rewrite Hlt, Hidx. cbn [mbind outcome_bind].
        rewrite bool_decide_eq_false_2, He, Hd by done. eauto 6.
Qed.

Lemma write_wf {C} `{TotalConsole C} v tty (con : option C) i buf :
  wf v -> con_opt_ok con -> 0 <= i ->
  (exists r v' con', write v tty con i buf = Ret (r, v', con') /\ wf v' /\ con_opt_ok con') \/
  (write_too_large v i buf /\ write v tty con i buf = Panic).
Proof.
  intros Hwf Hcon Hi. destruct (fd_cases v i Hwf Hi) as [Hge|[[Hlt Hidx]|[fd Hfd]]].
  - left. unfold write. rewrite Hge. eauto 6.
  - left. unfold write. rewrite Hlt, Hidx. eauto 6.
  - destruct (wf_fds _ Hwf _ _ Hfd) as [Hoff [e He]].
    destruct (fd_in_table v i fd Hwf Hi Hfd) as [Hlt Hidx].
    destruct (decide (fd_name fd = str "tty")) as [Ht|Ht].
    + left. unfold write. rewrite Hlt, Hidx. cbn [mbind outcome_bind].
      rewrite bool_decide_eq_true_2 by done. destruct (from_utf8 buf) as [s|]; [|eauto 6].
      unfold Tty.write. destruct (with_console_ok con (fun k => con_write_str k s) Hcon)
        as (con' & -> & Hok); [intros; by apply con_write_str_ok|].
      cbn [mbind outcome_bind]. eauto 6.
    + destruct (e_data e) as [d|] eqn:Hd.
      * rewrite (write_file v i fd) with (e := e) (d := d) by done. case_if.
        -- right. split; [|done]. exists fd, e, d. split_and!; done || lia.
        -- left. do 3 eexists. split; [done|]. unfold in_range in Hoff.
           split; [|done]. apply wf_write_file; done || lia.
      * left. unfold write. rewrite Hlt, Hidx. cbn [mbind outcome_bind].
        rewrite bool_decide_eq_false_2, He, Hd by done. eauto 6.
Qed.

(** Every operation, on any typed argument, keeps the file system well formed
    and the console within its promise; it panics only if a write would make
    the file larger than [isize::MAX] bytes. *)
Lemma exec_wf {C} `{TotalConsole C} v tty (con : option C) o :
  wf v -> con_opt_ok con -> op_typed o ->
  (exists v' tty' con', exec (v, tty, con) o = Ret (v', tty', con') /\ wf v' /\ con_opt_ok con') \/
  (exists i buf, o = OpWrite i buf /\ write_too_large v i buf /\ exec (v, tty, con) o = Panic).
Proof.
  intros Hwf Hcon Ho. destruct o as [p|i|i buf|i buf|i off|p|p|p]; simpl in Ho; unfold in_range in Ho;
    cbn [exec].
  - left. do 3 eexists. split; [done|]. split; [by apply wf_open|done].
  - left. destruct (close_wf v i) as (b & v' & -> & Hv'); [done|lia|]. by do 3 eexists.
  - left. destruct (read_wf v tty i buf) as (r & v' & tty' & buf' & -> & Hv'); [done|lia|].
    by do 3 eexists.
  - destruct (write_wf v tty con i buf) as [(r & v' & con' & -> & Hv')|[Hbig ->]]; [done|done|lia| |].
    + left. by do 3 eexists.
    + right. by do 2 eexists.
  - left. destruct (seek_wf v i off) as (b & v' & -> & Hv');
      [done|lia|unfold in_range; lia|]. by do 3 eexists.
  - left. do 3 eexists. split; [done|]. split; [by apply wf_chdir|done].
  - left. do 3 eexists. split; [done|]. split; [by apply wf_mkdir|done].
  - left. do 3 eexists. split; [done|]. split; [by apply wf_unlink|done].
Qed.

(** ** Opening *)

(** [open] gives the lowest free descriptor, positioned at the start and
    carrying the entry's type; it fails exactly when no entry has this name
    or all sixteen descriptors are in use, and changes nothing then. *)
Theorem open_lowest_free v path :
  wf v ->
  (exists e j, find (named path) (entries v) = Some e /\ (j < MAX_OPEN_FILES)%nat /\
     open_files v !! j = Some None /\
     (forall k s, (k < j)%nat -> open_files v !! k = Some s -> is_Some s) /\
     open v path = (Some (Z.of_nat j),
       set_open v (<[j := Some (mkFd path (e_type e) 0)]> (open_files v)))) \/
  (open v path = (None, v) /\
   (Forall (fun e => e_name e <> path) (entries v) \/ Forall is_Some (open_files v))).
Proof.
  intros Hwf. unfold open. rewrite open_loop_eq.
  destruct (find (named path) (entries v)) as [e|] eqn:He.
  - destruct (free_slot (open_files v)) as [j|] eqn:Hj.
    + left. destruct (free_slot_Some _ _ Hj) as [Hnone Hlow]. exists e, j. split_and!; try done.
      rewrite <- (wf_slots _ Hwf). by eapply lookup_lt_Some.
    + right. split; [done|right]. by apply free_slot_None.
  - right. split; [done|left]. apply find_none_iff in He.
    eapply Forall_impl; [done|]. intros x Hx. unfold named in Hx. by apply bool_decide_eq_false in Hx.
Qed.

(** ** Reading a file as a stream *)

(** The contents of the file a descriptor refers to. *)
Definition contents (v : Vfs) (name : list byte) : option (list byte) :=
  e ← find (named name) (entries v); e_data e.

(** Successive reads with buffers of the given sizes: the bytes returned. *)
Fixpoint read_chunks (v : Vfs) (tty : Tty) (i : Z) (sizes : list nat) : outcome (list byte * Vfs) :=
  match sizes with
  | [] => Ret ([], v)
  | n :: sizes' =>
      r ← read v tty i (replicate n x00);
      let '(got, v', tty', buf) := r in
      match got with
      | Some k => rest ← read_chunks v' tty' i sizes'; Ret (take (Z.to_nat k) buf ++ rest.1, rest.2)
      | None => Ret ([], v')
      end
  end.

Definition sum_sizes (sizes : list nat) : Z := foldr (fun n s => Z.of_nat n + s) 0 sizes.

Lemma contents_Some v name d :
  contents v name = Some d <-> exists e, find (named name) (entries v) = Some e /\ e_data e = Some d.
Proof. unfold contents. destruct (find _ _); simpl; naive_solver. Qed.

Lemma set_offset_lookup v i fd off :
  open_files v !! Z.to_nat i = Some (Some fd) ->
  open_files (set_offset v i fd off) !! Z.to_nat i = Some (Some (mkFd (fd_name fd) (fd_type fd) off)).
Proof. intros H. simpl. apply list_lookup_insert_eq. by eapply lookup_lt_Some. Qed.

Lemma take_copy_into buf src :
  take (length src) (copy_into buf src) = src.
Proof. unfold copy_into. by rewrite take_app_length. Qed.

(** One read: the bytes, and the descriptor after it. *)
Lemma read_step v tty i fd d n :
  wf v -> 0 <= i -> open_files v !! Z.to_nat i = Some (Some fd) ->
  fd_name fd <> str "tty" -> contents v (fd_name fd) = Some d ->
  exists v' buf, let k := Z.min (Z.of_nat n) (Z.max 0 (len d - fd_offset fd)) in
    read v tty i (replicate n x00) = Ret (Some k, v', tty, buf) /\ wf v' /\
    take (Z.to_nat k) buf = take n (drop (Z.to_nat (fd_offset fd)) d) /\
    open_files v' !! Z.to_nat i = Some (Some (mkFd (fd_name fd) (fd_type fd) (fd_offset fd + k))) /\
    contents v' (fd_name fd) = Some d.
Proof.
  intros Hwf Hi Hfd Ht (e & He & Hd)%contents_Some.
  destruct (wf_fds _ Hwf _ _ Hfd) as [Hoff Hex].
  pose proof (wf_data _ Hwf e d (proj1 (find_named _ _ _ He)) Hd) as Hdl.
  unfold in_range, isize_max in *. pose proof (len_nonneg d).
  pose proof (read_file v i fd Hwf Hi Hfd tty (replicate n x00) e d Ht He Hd) as Hr.
  cbv zeta in Hr. rewrite !len_replicate in Hr.
  remember (Z.min (Z.of_nat n) (Z.max 0 (len d - fd_offset fd))) as k eqn:Hk.
  do 2 eexists. cbv zeta. split; [exact Hr|].
  assert (0 <= k) by lia. split; [|split].
  - case_if; [done|]. apply wf_set_offset; [done..|]. unfold in_range. lia.
  - destruct (decide (len d <= fd_offset fd)).
    + replace k with 0 by lia. simpl. symmetry. rewrite drop_ge by (unfold len in *; lia).
      by rewrite take_nil.
    + assert (length (sub_list d (fd_offset fd) k) = Z.to_nat k) as Hlk.
      { apply length_sub_list; lia. }
      rewrite <- Hlk at 1. rewrite take_copy_into. unfold sub_list.
      destruct (decide (Z.of_nat n <= len d - fd_offset fd)).
      * f_equal. lia.
      * rewrite !take_ge; [done|rewrite length_drop; unfold len in *; lia..].
  - split; [|unfold contents; case_if; simpl; by rewrite He].
    case_if; [|by apply set_offset_lookup].
    replace k with 0 by lia. rewrite Z.add_0_r. by destruct fd.
Qed.

(** C21: reads are a stream: whatever the buffer sizes, successive reads of an
    open file return its bytes from the current offset on, in order, none
    twice and none skipped, until the end of the file; so buffers that cover
    the rest of the file return all of it. *)
Theorem read_stream v tty i fd d sizes :
  wf v -> 0 <= i -> open_files v !! Z.to_nat i = Some (Some fd) ->
  fd_name fd <> str "tty" -> contents v (fd_name fd) = Some d ->
  exists v', read_chunks v tty i sizes =
    Ret (take (Z.to_nat (sum_sizes sizes)) (drop (Z.to_nat (fd_offset fd)) d), v').
Proof.
  revert v fd. induction sizes as [|n sizes IH]; intros v fd Hwf Hi Hfd Ht Hd; [by eexists|].
  cbn [read_chunks]. change (sum_sizes (n :: sizes)) with (Z.of_nat n + sum_sizes sizes).
  destruct (read_step v tty i fd d n) as (v1 & buf & Hr & Hwf1 & Hbuf & Hfd1 & Hd1); [done..|].
  rewrite Hr. cbn [mbind outcome_bind].
  destruct (IH v1 _ Hwf1 Hi Hfd1 Ht Hd1) as [v' ->]. cbn [mbind outcome_bind fst snd].
  exists v'. do 2 f_equal. rewrite Hbuf. cbn [fd_offset].
  destruct (wf_fds _ Hwf _ _ Hfd) as [Hoff _]. unfold in_range in Hoff. pose proof (len_nonneg d).
  assert (0 <= sum_sizes sizes) as Hs.
  { unfold sum_sizes. clear. induction sizes; simpl; lia. }
  rewrite (Z2Nat.inj_add (Z.of_nat n) (sum_sizes sizes)), Nat2Z.id by lia.
  rewrite <- take_take_drop, drop_drop. f_equal.
  destruct (decide (Z.of_nat n <= len d - fd_offset fd)).
  - f_equal. f_equal. lia.
  - rewrite !drop_ge by (unfold len in *; lia). by rewrite !take_nil.
Qed.

(** ** Writing *)

(** What [write] does to a file: the bytes go to the end of the file,
    after zeros up to the descriptor's offset when that lies past the end;
    the offset advances by the length; the result is the length, or a
    capacity panic when the file would exceed [isize::MAX] bytes. *)
Theorem write_appends {C} `{Console C} v tty (con : option C) i fd d buf :
  wf v -> 0 <= i -> open_files v !! Z.to_nat i = Some (Some fd) ->
  fd_name fd <> str "tty" -> contents v (fd_name fd) = Some d ->
  if isize_max <? Z.max (len d) (fd_offset fd) + len buf
  then write v tty con i buf = Panic
  else exists v', write v tty con i buf = Ret (Some (len buf), v', con) /\
    contents v' (fd_name fd) = Some (d ++ replicate (Z.to_nat (fd_offset fd - len d)) x00 ++ buf) /\
    open_files v' !! Z.to_nat i =
      Some (Some (mkFd (fd_name fd) (fd_type fd) (fd_offset fd + len buf))).
Proof.
  intros Hwf Hi Hfd Ht (e & He & Hd)%contents_Some.
  pose proof (write_file v i fd Hwf Hi Hfd tty con buf e d Ht He Hd) as Hw.
  case_if; [done|]. eexists. split; [exact Hw|]. split.
  - apply contents_Some. simpl. rewrite find_update_data, He, bool_decide_eq_true_2 by done.
    by eexists.
  - apply (set_offset_lookup (set_entries v _)). done.
Qed.

(** C32: bytes written at or past the end of a file read back: after seeking
    to the offset of such a write, one read with a large enough buffer
    returns exactly what was written. *)
Theorem write_seek_read {C} `{Console C} v tty (con : option C) i fd d buf (n : nat) :
  wf v -> 0 <= i -> open_files v !! Z.to_nat i = Some (Some fd) ->
  fd_name fd <> str "tty" -> contents v (fd_name fd) = Some d ->
  len d <= fd_offset fd -> fd_offset fd + len buf <= isize_max -> len buf <= Z.of_nat n ->
  exists v1 v2 v3 out,
    write v tty con i buf = Ret (Some (len buf), v1, con) /\
    seek v1 i (fd_offset fd) = Ret (true, v2) /\
    read v2 tty i (replicate n x00) = Ret (Some (len buf), v3, tty, out) /\
    take (length buf) out = buf.
Proof.
  intros Hwf Hi Hfd Ht Hd Hend Hmax Hn.
  pose proof (len_nonneg d). pose proof (len_nonneg buf).
  pose proof Hd as (e & He & Hde)%contents_Some.
  destruct (wf_fds _ Hwf _ _ Hfd) as [Hoff Hex].
  pose proof (write_file v i fd Hwf Hi Hfd tty con buf e d Ht He Hde) as Hw.
  replace (isize_max <? _) with false in Hw by lia.
  set (data := d ++ _) in Hw.
  pose proof (wf_write_file v i fd d (fd_offset fd) buf Hwf Hfd ltac:(lia) ltac:(lia)) as Hwf1.
  fold data in Hwf1. set (v1 := set_offset _ _ _ _) in Hw, Hwf1.
  assert (open_files v1 !! Z.to_nat i =
    Some (Some (mkFd (fd_name fd) (fd_type fd) (fd_offset fd + len buf)))) as Hfd1.
  { apply (set_offset_lookup (set_entries v _)). done. }
  pose proof (seek_file v1 i _ Hwf1 Hi Hfd1 (fd_offset fd)) as Hs.
  set (v2 := set_offset v1 _ _ _) in Hs.
  assert (wf v2) as Hwf2.
  { apply wf_set_offset; [done| |done]. by destruct (wf_fds _ Hwf1 _ _ Hfd1). }
  assert (contents v2 (fd_name fd) = Some data) as Hc2.
  { apply contents_Some. simpl. rewrite find_update_data, He, bool_decide_eq_true_2 by done. by eexists. }
  destruct (read_step v2 tty i _ data n Hwf2 Hi (set_offset_lookup _ _ _ _ Hfd1) Ht Hc2)
    as (v3 & out & Hr & _ & Hout & _ & _).
  simpl in Hr, Hout.
  assert (len data = fd_offset fd + len buf) as Hdata.
  { unfold data. rewrite !len_app, len_replicate. lia. }
  replace (Z.min _ _) with (len buf) in Hr, Hout by lia.
  exists v1, v2, v3, out. split_and!; [done..|].
  replace (length buf) with (Z.to_nat (len buf)) by (unfold len; lia).
  rewrite Hout. unfold data. rewrite app_assoc, drop_app_length'.
  - apply take_ge. unfold len in Hn. lia.
  - rewrite length_app, length_replicate. unfold len in *. lia.
Qed.

(** ** Isolation of descriptors *)

Definition on_descriptor (i : Z) (o : op) : Prop :=
  match o with
  | OpClose j | OpRead j _ | OpWrite j _ | OpSeek j _ => j = i
  | _ => False
  end.

Lemma update_data_names es name d : map e_name (update_data es name d) = map e_name es.
Proof. induction es as [|e es IH]; simpl; [done|]. case_if; simpl; congruence. Qed.

Lemma set_offset_other v i fd off j :
  j <> Z.to_nat i -> open_files (set_offset v i fd off) !! j = open_files v !! j.
Proof. intros. simpl. by rewrite list_lookup_insert_ne. Qed.

(** C33: closing, reading, writing or seeking through one descriptor leaves
    every other descriptor, the contents of every other file, the directory
    listing and the working directory as they were. *)
Theorem descriptor_isolation {C} `{Console C} v tty (con : option C) i fd o v' tty' con' :
  wf v -> 0 <= i -> open_files v !! Z.to_nat i = Some (Some fd) -> on_descriptor i o ->
  exec (v, tty, con) o = Ret (v', tty', con') ->
  (forall j, j <> Z.to_nat i -> open_files v' !! j = open_files v !! j) /\
  (forall p, p <> fd_name fd -> contents v' p = contents v p) /\
  list_dir v' = list_dir v /\ cwd v' = cwd v.
Proof.
  intros Hwf Hi Hfd Ho Hx.
  destruct (fd_in_table v i fd Hwf Hi Hfd) as [Hlt Hidx].
  destruct o as [|i'|i' buf|i' buf|i' off| | |]; simpl in Ho; try done; subst i'; cbn [exec] in Hx.
  - rewrite (close_file v i fd) in Hx by done. simpl in Hx. inv_out. simplify_eq.
    split_and!; try done. intros. simpl. by rewrite list_lookup_insert_ne.
  - unfold read in Hx. rewrite Hlt, Hidx in Hx. cbn [mbind outcome_bind] in Hx.
    repeat case_match; inv_out; simplify_eq; try done; inv_out; simplify_eq; split_and!; try done;
      intros; by apply set_offset_other.
  - unfold write in Hx. rewrite Hlt, Hidx in Hx. cbn [mbind outcome_bind] in Hx.
    repeat case_match; inv_out; simplify_eq; try done; inv_out; simplify_eq; split_and!; try done.
    + intros. by apply (set_offset_other (set_entries v _)).
    + intros p Hp. unfold contents. simpl. rewrite find_update_data.
      destruct (find (named p) _); [|done]. by rewrite bool_decide_eq_false_2.
    + unfold list_dir. simpl. apply update_data_names.
  - rewrite (seek_file v i fd) in Hx by done. simpl in Hx. inv_out. simplify_eq.
    split_and!; try done. intros. by apply set_offset_other.
Qed.

(** ** Directory operations *)

Definition names_unique (v : Vfs) : Prop := NoDup (map e_name (entries v)).

Lemma existsb_named es path : existsb (named path) es = true <-> is_Some (find (named path) es).
Proof.
  rewrite existsb_exists, find_named_is_Some.
  split; intros (e & Hin & Hn); exists e.
  - split; [by apply list_elem_of_In|by apply named_true].
  - split; [by apply list_elem_of_In|by apply named_true].
Qed.

Lemma find_delete_same path index es :
  NoDup (map e_name es) -> position (named path) es = Some index ->
  find (named path) (delete index es) = None.
Proof.
  revert index. induction es as [|e es IH]; intros index; simpl; [done|].
  intros [Hnot Hnd]%NoDup_cons. destruct (named path e) eqn:E.
  - intros [= <-]. simpl. apply find_none_iff, Forall_forall. intros x Hx.
    apply bool_decide_eq_false. intros Hn. apply named_true in E. apply Hnot.
    apply list_elem_of_In. rewrite E, <- Hn. apply list_elem_of_In in Hx. apply (in_map e_name _ _ Hx).
  - destruct (position _ es) as [k|] eqn:Ek; simpl; [|done]. intros [= <-]. simpl. rewrite E. by apply IH.
Qed.

Lemma find_app_none {A} (f : A -> bool) l k : find f l = None -> find f (l ++ k) = find f k.
Proof. induction l as [|x l IH]; simpl; [done|]. by destruct (f x). Qed.

Lemma position_snoc {A} (f : A -> bool) l x :
  find f l = None -> f x = true -> position f (l ++ [x]) = Some (length l).
Proof.
  intros Hl Hx. induction l as [|y l IH]; simpl in *; [by rewrite Hx|].
  destruct (f y); [done|]. by rewrite IH.
Qed.

Lemma position_named_None path es :
  position (named path) es = None <-> find (named path) es = None.
Proof. by rewrite position_None, find_none_iff. Qed.

(** [unlink] of an existing name in a file system with unique names makes
    the name disappear for [stat] and [open], closes every descriptor on it,
    and leaves every other descriptor and file alone; unlinking a missing
    name fails and changes nothing. *)
Theorem unlink_removes v path :
  names_unique v ->
  if decide (exists_named v path) then
    exists v', unlink v path = (true, v') /\ stat v' path = None /\ open v' path = (None, v') /\
      (forall j fd, open_files v' !! j = Some (Some fd) <->
         open_files v !! j = Some (Some fd) /\ fd_name fd <> path) /\
      (forall p, p <> path -> contents v' p = contents v p /\ stat v' p = stat v p)
  else unlink v path = (false, v).
Proof.
  intros Hu. unfold unlink, exists_named. case_decide as Hex.
  - destruct (position (named path) (entries v)) as [k|] eqn:Hk.
    2: { apply position_named_None in Hk. rewrite Hk in Hex. by destruct Hex. }
    eexists. split; [done|]. change (list_delete k (entries v)) with (delete k (entries v)).
    pose proof (find_delete_same path k (entries v) Hu Hk) as Hgone.
    split; [unfold stat; simpl; by rewrite Hgone|].
    split; [unfold open; rewrite open_loop_eq; simpl; by rewrite Hgone|].
    split; [intros; apply lookup_close_named|].
    intros p Hp. unfold contents, stat. simpl. by rewrite (find_delete_other path).
  - destruct (position (named path) (entries v)) as [k|] eqn:Hk; [|done].
    exfalso. apply Hex. destruct (find (named path) (entries v)) eqn:Hf; [by eexists|].
    apply position_named_None in Hf. congruence.
Qed.

(** [mkdir] of a new name creates an empty directory that [stat] sees and
    [chdir] enters; of an existing name it fails; and removing the new
    directory again restores the file system exactly. *)
Theorem mkdir_unlink_roundtrip v path :
  wf v ->
  if decide (exists_named v path) then mkdir v path = (false, v)
  else exists v', mkdir v path = (true, v') /\
    stat v' path = Some (mkFileStat 0 Directory) /\ (chdir v' path).1 = true /\
    unlink v' path = (true, v).
Proof.
  intros Hwf. unfold mkdir, exists_named. case_decide as Hex.
  - apply existsb_named in Hex. by rewrite Hex.
  - destruct (existsb (named path) (entries v)) eqn:E; [by apply existsb_named in E|].
    eexists. split; [done|].
    assert (find (named path) (entries v) = None) as Hnone.
    { destruct (find _ _) eqn:Ef; [|done]. exfalso. apply Hex. by eexists. }
    assert (named path (mkEntry path Directory (Some [])) = true) as Hself by (by apply named_true).
    split; [|split].
    + unfold stat. simpl. rewrite find_app_none by done. simpl. by rewrite Hself.
    + unfold chdir. simpl. rewrite existsb_app. simpl. rewrite Hself.
      by rewrite orb_true_r.
    + unfold unlink. simpl.
      assert (position (named path) (entries v ++ [mkEntry path Directory (Some [])]) =
              Some (length (entries v))) as ->.
      { by apply position_snoc. }
      f_equal. destruct v as [es fds c]. simpl in *. f_equal.
      * change (list_delete ?k ?l) with (delete k l).
        rewrite delete_middle with (l2 := []). by rewrite app_nil_r.
      * rewrite <- (map_id fds) at 2. apply map_ext_in. intros [f|] Hf; [|done]. simpl.
        rewrite bool_decide_eq_false_2; [done|]. intros <-.
        apply list_elem_of_In, list_elem_of_lookup in Hf as [j Hj].
        apply Hex. by destruct (wf_fds _ Hwf _ _ Hj).
Qed.

(** The operations through descriptors and [open], [chdir] keep the names. *)
Lemma exec_names {C} `{Console C} v tty (con : option C) o v' tty' con' :
  exec (v, tty, con) o = Ret (v', tty', con') ->
  match o with
  | OpMkdir p => list_dir v' = list_dir v \/ (p ∉ list_dir v /\ list_dir v' = list_dir v ++ [p])
  | OpUnlink _ => list_dir v' `sublist_of` list_dir v
  | _ => list_dir v' = list_dir v
  end.
Proof.
  intros Hx. unfold list_dir.
  destruct o; cbn [exec] in Hx;
    [unfold open in Hx|unfold close in Hx|unfold read in Hx|unfold write in Hx
    |unfold seek in Hx|unfold chdir in Hx|unfold mkdir in Hx|unfold unlink in Hx];
    repeat (first [progress inv_out | case_match | progress simplify_eq/=]); try done; try by left.
  - apply update_data_names.
  - right. rewrite map_app. split; [|done]. intros Hin. apply not_true_iff_false in H0. apply H0.
    apply existsb_named, find_named_is_Some. rewrite list_elem_of_In in Hin.
    apply in_map_iff in Hin as (e & He & Hin). exists e. by rewrite list_elem_of_In.
  - change (list_delete ?k ?l) with (delete k l). change (map ?f ?l) with (f <$> l).
    apply fmap_sublist, sublist_delete.
Qed.

(** No operation ever creates a second entry with the name of an existing
    one: a file system with unique names keeps them unique. *)
Theorem names_unique_preserved {C} `{Console C} v tty (con : option C) o v' tty' con' :
  names_unique v -> exec (v, tty, con) o = Ret (v', tty', con') -> names_unique v'.
Proof.
  unfold names_unique. intros Hu Hx. apply exec_names in Hx. unfold list_dir in Hx.
  destruct o; try (by rewrite Hx).
  - destruct Hx as [->|[Hp ->]]; [done|]. apply NoDup_app. split_and!; [done| |apply NoDup_singleton].
    intros x Hx Hs. apply list_elem_of_singleton in Hs as ->. done.
  - by eapply sublist_NoDup.
Qed.

(** ** A concrete file system *)

Definition demo_fd (off : Z) : FileDescriptor := mkFd (str "a") Regular off.

(** The default entries and a file [a] of three bytes, open twice: at its
    start and at its end. *)
Definition demo : Vfs :=
  let v := init_defaults new in
  mkVfs (entries v ++ [mkEntry (str "a") Regular (Some (str "abc"))])
    (Some (demo_fd 0) :: Some (demo_fd 3) :: replicate 14 None) (cwd v).

Lemma demo_wf : wf demo.
Proof.
  split; [done| |].
  - intros [|[|j]] fd; simpl; intros; simplify_eq; [by split; [|eexists]..|].
    apply (lookup_replicate 14 None) in H as [? _]. done.
  - intros e d He Hd. simpl in He. rewrite !elem_of_cons in He.
    destruct He as [->|[->|[->|[->|[->|Hn]]]]]; simplify_eq/=; [by vm_compute|].
    by apply elem_of_nil in Hn.
Qed.

Lemma demo_unique : names_unique demo.
Proof. apply (bool_decide_unpack _). by vm_compute. Qed.

Lemma open_lowest_free_witness : (open demo (str "null")).1 = Some 2.
Proof.
  destruct (open_lowest_free demo (str "null") demo_wf)
    as [(e & j & He & Hj & Hf & Hlow & Ho)|[Ho _]]; [|by vm_compute in Ho].
  vm_compute. reflexivity.
Defined.

Lemma read_stream_witness :
  exists v', read_chunks demo Tty.new 0 [2; 0; 7]%nat = Ret (str "abc", v').
Proof.
  destruct (read_stream demo Tty.new 0 (demo_fd 0) (str "abc") [2; 0; 7]%nat demo_wf) as [v' Hv'];
    [lia|done..|].
  exists v'. rewrite Hv'. by vm_compute.
Defined.

Lemma write_appends_witness :
  exists v', write demo Tty.new (None : option (list con_event)) 0 (str "X") = Ret (Some 1, v', None) /\
    contents v' (str "a") = Some (str "abcX").
Proof.
  destruct (write_appends (C := list con_event) demo Tty.new None 0 (demo_fd 0) (str "abc") (str "X")
    demo_wf) as (v' & Hw & Hc & _); [lia|done..|].
  exists v'. split; [exact Hw|]. exact Hc.
Defined.

Lemma write_seek_read_witness :
  exists v1 v2 v3 out,
    write demo Tty.new (None : option (list con_event)) 1 (str "de") = Ret (Some 2, v1, None) /\
    seek v1 1 3 = Ret (true, v2) /\
    read v2 Tty.new 1 (replicate 8 x00) = Ret (Some 2, v3, Tty.new, out) /\ take 2 out = str "de".
Proof.
  apply (write_seek_read (C := list con_event) demo Tty.new None 1 (demo_fd 3) (str "abc") (str "de") 8
    demo_wf); by vm_compute.
Defined.

Lemma descriptor_isolation_witness :
  exists v' tty' (con' : option (list con_event)),
    exec (demo, Tty.new, None) (OpRead 1 (str "xx")) = Ret (v', tty', con') /\
    open_files v' !! 0%nat = Some (Some (demo_fd 0)).
Proof.
  eexists _, _, _. split; [by vm_compute|].
  match goal with |- open_files ?v' !! _ = _ =>
    destruct (descriptor_isolation (C := list con_event) demo Tty.new None 1 (demo_fd 3)
      (OpRead 1 (str "xx")) v' Tty.new None demo_wf) as (Hother & _); [by vm_compute..|] end.
  rewrite Hother; by vm_compute.
Defined.

Lemma unlink_removes_witness : stat (unlink demo (str "a")).2 (str "a") = None.
Proof.
  pose proof (unlink_removes demo (str "a") demo_unique) as H.
  rewrite decide_True in H by (by eexists). destruct H as (v' & -> & Hs & _). exact Hs.
Defined.

Lemma mkdir_unlink_roundtrip_witness :
  exists v', mkdir demo (str "d") = (true, v') /\ unlink v' (str "d") = (true, demo).
Proof.
  pose proof (mkdir_unlink_roundtrip demo (str "d") demo_wf) as H.
  rewrite decide_False in H by (intros [e He]; by vm_compute in He).
  destruct H as (v' & Hm & _ & _ & Hu). by exists v'.
Defined.

Lemma names_unique_preserved_witness : names_unique (mkdir demo (str "d")).2.
Proof.
  apply (names_unique_preserved (C := list con_event) demo Tty.new None (OpMkdir (str "d")) _ Tty.new None
    demo_unique). reflexivity.
Defined.

(** Writing at offset 0 of the file [abc] does not overwrite: the byte is
    appended, and reading back at offset 0 returns the old contents. *)
Lemma write_ignores_offset :
  exists v1 v2 v3,
    write demo Tty.new (None : option (list con_event)) 0 (str "X") = Ret (Some 1, v1, None) /\
    seek v1 0 0 = Ret (true, v2) /\
    read v2 Tty.new 0 [x00] = Ret (Some 1, v3, Tty.new, str "a").
Proof.
  eexists _, _, _. split; [by vm_compute|]. split; [by vm_compute|]. by vm_compute.
Qed.
