(* ===== verification/Ramdisk.v ===== *)
(** * The initial ramdisk

    The archive writer of the build tool ([add_file] in
    [tools/xtask/src/main.rs]) and its agreement with the archive reader of
    the kernel ([Vfs::init_from_ramdisk]). *)

From S2P Require Import Prelude Abi Utf8 Tty Vfs.

(** [add_file(name, data)]: a 64-byte name field, the size, the contents. *)
Definition add_file (ramdisk : list byte) (name data : list byte) : list byte :=
  let name_len := Nat.min (length name) 63 in
  let header := take name_len name ++ replicate (64 - name_len) x00 in
  ramdisk ++ header ++ le_bytes 8 (len data) ++ data.

(** The archive of a list of files, in order. *)
Definition pack (files : list (list byte * list byte)) : list byte :=
  foldl (fun r f => add_file r f.1 f.2) [] files.

(** The glyph of [create_minimal_psf2_font]: empty for the space, a box
    border otherwise. *)
Definition box_glyph (i : Z) : list byte :=
  if i =? 32 then replicate 16 x00
  else [xff] ++ replicate 14 x81 ++ [xff].

Definition create_minimal_psf2_font : list byte :=
  [x72; xb5; x4a; x86] ++ le_bytes 4 0 ++ le_bytes 4 32 ++ le_bytes 4 0 ++
  le_bytes 4 256 ++ le_bytes 4 16 ++ le_bytes 4 16 ++ le_bytes 4 8 ++
  concat (map box_glyph (seqZ 0 256)).

(** The archive staged by [build_kernel_image], from the three binaries. *)
Definition initramfs (init_data shell_data fault_tester_data : list byte) : list byte :=
  let r := add_file [] (str "initramfs.txt")
             (str "Hello from Initramfs!" ++ [x0a] ++ str "This is a kernel experiment." ++ [x0a]) in
  let r := add_file r (str "init") init_data in
  let r := add_file r (str "shell") shell_data in
  let r := add_file r (str "fault-tester") fault_tester_data in
  add_file r (str "font.psf") create_minimal_psf2_font.

(** ** Lemmas *)

(** File names the archive represents faithfully. *)
Definition name_ok (name : list byte) : Prop :=
  (len name <= 63) /\ (x00 ∉ name) /\ is_Some (decode name).

Definition record (f : list byte * list byte) : list byte :=
  f.1 ++ replicate (64 - length f.1) x00 ++ le_bytes 8 (len f.2) ++ f.2.

Lemma add_file_record r f : name_ok f.1 -> add_file r f.1 f.2 = r ++ record f.
Proof.
  intros (Hn & _). unfold add_file, record, len in *.
  rewrite Nat.min_l by lia. rewrite firstn_all. by rewrite <- !app_assoc.
Qed.

Lemma pack_records files :
  Forall (fun f => name_ok f.1) files -> pack files = concat (map record files).
Proof.
  unfold pack. intros Hf. rewrite <- (app_nil_l (concat _)). generalize (@nil byte) as r.
  induction Hf as [|f files Hok _ IH]; intros r; simpl; [by rewrite app_nil_r|].
  rewrite add_file_record, IH by done. by rewrite <- app_assoc.
Qed.

Lemma position_name name k :
  x00 ∉ name -> position (fun b => bool_decide (b = x00)) (name ++ replicate (S k) x00) = Some (length name).
Proof.
  induction name as [|b name IH]; intros Hn; [done|].
  cbn [app position]. case_bool_decide; [set_solver|]. rewrite IH by set_solver. done.
Qed.

Lemma len_record f : name_ok f.1 -> len (record f) = 72 + len f.2.
Proof.
  intros (Hn & _). unfold record, len in *.
  rewrite !length_app, length_replicate, length_le_bytes. lia.
Qed.

(** The three parts of a record, at the offsets the reader uses. *)
Lemma record_name f rest :
  name_ok f.1 -> sub_list (record f ++ rest) 0 64 = f.1 ++ replicate (S (63 - length f.1)) x00.
Proof.
  intros (Hn & _). unfold record, sub_list, len in *. rewrite drop_0.
  replace (S (63 - length f.1)) with (64 - length f.1)%nat by lia.
  rewrite <- !app_assoc, app_assoc. rewrite take_app_length'; [done|].
  rewrite length_app, length_replicate. lia.
Qed.

Lemma record_size f rest :
  name_ok f.1 -> sub_list (record f ++ rest) 64 8 = le_bytes 8 (len f.2).
Proof.
  intros (Hn & _). unfold record. rewrite <- !app_assoc, app_assoc.
  rewrite sub_list_app_at by (unfold len in *; rewrite length_app, length_replicate; lia).
  rewrite take_app_length'; [done|]. by rewrite length_le_bytes.
Qed.

Lemma record_data f rest :
  name_ok f.1 -> sub_list (record f ++ rest) 72 (len f.2) = f.2.
Proof.
  intros (Hn & _). unfold record.
  rewrite <- !app_assoc, !(app_assoc f.1), (app_assoc (f.1 ++ _)).
  rewrite sub_list_app_at
    by (unfold len in *; rewrite !length_app, length_replicate, length_le_bytes; lia).
  unfold len. by rewrite Nat2Z.id, take_app_length.
Qed.

(** Reading the name field back. *)
Lemma record_name_slice (f : list byte * list byte) :
  name_ok f.1 ->
  slice (f.1 ++ replicate (S (63 - length f.1)) x00) 0 (Z.of_nat (length f.1)) = Ret f.1 /\
  utf8_or f.1 (str "unknown") = f.1.
Proof.
  intros (_ & _ & [cs Hcs]). split; [|unfold utf8_or, from_utf8; by rewrite Hcs].
  rewrite slice_Ret; [|lia|rewrite len_app; unfold len; lia].
  unfold sub_list. rewrite Z.sub_0_r, Nat2Z.id, drop_0. by rewrite take_app_length.
Qed.

(** One iteration of the reader consumes one record of the writer. *)
Lemma ramdisk_loop_record fuel pre f rest es :
  name_ok f.1 -> len (pre ++ record f ++ rest) <= isize_max ->
  ramdisk_loop (S fuel) (pre ++ record f ++ rest) (len pre) es =
  ramdisk_loop fuel (pre ++ record f ++ rest) (len (pre ++ record f))
    (es ++ [mkEntry f.1 Regular (Some f.2)]).
Proof.
  intros Hok Hlen. pose proof (len_record f Hok) as Hrec.
  pose proof Hok as (Hn & H0 & _).
  pose proof (len_nonneg pre). pose proof (len_nonneg rest). pose proof (len_nonneg f.2).
  set (data := pre ++ record f ++ rest) in *.
  assert (len data = len pre + (72 + len f.2) + len rest) as Hd.
  { unfold data. rewrite !len_app, Hrec. lia. }
  unfold isize_max in *.
  assert (forall a b a' n, a = len pre + a' -> 0 <= a' -> b = a + n -> 0 <= n -> b <= len data ->
    slice data a b = Ret (sub_list (record f ++ rest) a' n)) as Hslice.
  { intros a b a' n -> Ha' -> Hn' Hb. rewrite slice_Ret by lia. f_equal.
    replace (_ - _) with n by lia. unfold data. by apply sub_list_app_skip. }
  cbn [ramdisk_loop]. rewrite (add_u_Ret _ _ 72), (add_u_Ret _ _ 64) by lia.
  cbn [mbind outcome_bind]. replace (len data <? len pre + 72) with false by lia.
  rewrite (Hslice (len pre) _ 0 64) by lia. rewrite (Hslice (len pre + 64) _ 64 8) by lia.
  cbn [mbind outcome_bind]. rewrite record_name, position_name by done.
  change (default 64%nat (Some (length f.1))) with (length f.1).
  destruct (record_name_slice f Hok) as [-> Hutf]. cbn [mbind outcome_bind]. rewrite Hutf.
  rewrite record_size by done.
  rewrite le_val_le_bytes, Z.mod_small by (change (256 ^ Z.of_nat 8) with (2 ^ 64); lia).
  rewrite add_u_Ret by lia. cbn [mbind outcome_bind].
  replace (_ <=? len data) with true by lia.
  rewrite (Hslice _ _ 72 (len f.2)) by lia. cbn [mbind outcome_bind].
  rewrite record_data by done. f_equal. rewrite len_app, Hrec. lia.
Qed.

Definition file_entry (f : list byte * list byte) : VfsEntry := mkEntry f.1 Regular (Some f.2).

Lemma ramdisk_loop_records fuel pre files es :
  Forall (fun f => name_ok f.1) files ->
  len (pre ++ concat (map record files)) <= isize_max -> (length files < fuel)%nat ->
  ramdisk_loop fuel (pre ++ concat (map record files)) (len pre) es =
  Ret (es ++ map file_entry files).
Proof.
  intros Hf. revert fuel pre es.
  induction Hf as [|f files Hok _ IH]; intros [|fuel] pre es Hlen Hfuel; try (simpl in *; lia).
  - cbn [map concat] in *. rewrite !app_nil_r in *. cbn [ramdisk_loop].
    unfold isize_max in *. rewrite (add_u_Ret _ _ 72) by lia. cbn [mbind outcome_bind].
    by replace (len pre <? len pre + 72) with true by lia.
  - cbn [map concat] in *. rewrite ramdisk_loop_record by done.
    rewrite app_assoc in Hlen |- *. rewrite IH; [|done|simpl in Hfuel; lia].
    by rewrite <- app_assoc.
Qed.

Lemma length_records files :
  Forall (fun f => name_ok f.1) files -> (length files <= length (concat (map record files)))%nat.
Proof.
  induction 1 as [|f files Hok _ IH]; [done|]. cbn [map concat length].
  pose proof (len_record f Hok). pose proof (len_nonneg f.2).
  rewrite length_app. unfold len in *. lia.
Qed.

(** The entries every system starts with. *)
Definition default_entries : list VfsEntry := entries (init_defaults Vfs.new).

Lemma mount_pack m addr files :
  Forall (fun f => name_ok f.1) files -> len (pack files) <= isize_max ->
  addr <> 0 -> read_mem m addr (len (pack files)) = pack files ->
  init_from_ramdisk m Vfs.new addr (len (pack files)) =
  Ret (mkVfs (default_entries ++ map file_entry files) (replicate MAX_OPEN_FILES None) (str "/")).
Proof.
  intros Hf Hlen Ha Hread. pose proof (len_nonneg (pack files)). unfold init_from_ramdisk.
  rewrite raw_slice_ok, Hread by lia. cbn [mbind outcome_bind].
  pose proof (length_records files Hf) as Hn. rewrite <- (pack_records files Hf) in Hn.
  case_if.
  - rewrite pack_records in * by done.
    pose proof (ramdisk_loop_records (S (length (concat (map record files)))) [] files
                  (entries (init_defaults Vfs.new)) Hf) as Hl.
    cbn [app] in Hl. change (len (@nil byte)) with 0 in Hl.
    rewrite Hl by (done || lia). done.
  - assert (pack files = []) as Hp.
    { destruct (pack files); [done|]. unfold len in E. apply andb_false_iff in E as [E|E]; [by rewrite negb_false_iff, Z.eqb_eq in E|cbn [length] in E; apply Z.ltb_ge in E; lia]. }
    rewrite Hp in Hn. destruct files; [|simpl in Hn; lia]. done.
Qed.

(** the archive round trips from the build tool to the kernel: mounting
    the packed files at boot gives the default entries followed by exactly
    these files, in order, with their names and contents, an empty
    descriptor table and the root directory. *)
Theorem ramdisk_roundtrip m addr files :
  Forall (fun f => name_ok f.1) files -> len (pack files) <= isize_max ->
  addr <> 0 -> read_mem m addr (len (pack files)) = pack files ->
  init_from_ramdisk m Vfs.new addr (len (pack files)) =
  Ret (mkVfs (default_entries ++ map file_entry files) (replicate MAX_OPEN_FILES None) (str "/")).
Proof. apply mount_pack. Qed.

(** A memory holding [bs] at [a]. *)
Definition mem_at (a : Z) (bs : list byte) : mem := write_mem (fun _ => x00) a bs.

Definition sample_files : list (list byte * list byte) :=
  [(str "init", [x7f; x45; x4c]); (str "initramfs.txt", []); (str "a", [x00])].

Ltac solve_name_ok :=
  split; [vm_compute; congruence|];
  split; [apply (bool_decide_unpack _); vm_compute; exact I|vm_compute; eexists; reflexivity].

Lemma ramdisk_roundtrip_witness :
  init_from_ramdisk (mem_at 0x1000 (pack sample_files)) Vfs.new 0x1000 (len (pack sample_files)) =
  Ret (mkVfs (default_entries ++ map file_entry sample_files)
         (replicate MAX_OPEN_FILES None) (str "/")).
Proof.
  apply ramdisk_roundtrip.
  - unfold sample_files. repeat (apply Forall_cons; split; [solve_name_ok|]). by apply Forall_nil.
  - vm_compute. intuition congruence.
  - intuition congruence.
  - vm_compute. reflexivity.
Defined.

(** *** Arbitrary archives *)

(** The name field: up to the first zero byte, or a replacement. *)
Definition name_field (data : list byte) (off : Z) : list byte :=
  let field := sub_list data off 64 in
  utf8_or (take (default 64%nat (position (fun b => bool_decide (b = x00)) field)) field) (str "unknown").

Definition size_field (data : list byte) (off : Z) : Z := field data (off + 64) 8.

(** What an archive holds from [off] on: whole records, up to the first
    header or contents that do not fit. *)
Inductive archive (data : list byte) : Z -> list (list byte * list byte) -> Prop :=
| archive_end off : len data < off + 72 \/ len data < off + 72 + size_field data off -> archive data off []
| archive_file off files : off + 72 + size_field data off <= len data ->
    archive data (off + 72 + size_field data off) files ->
    archive data off ((name_field data off, sub_list data (off + 72) (size_field data off)) :: files).

(** Where the headers of the records are. *)
Inductive header_at (data : list byte) : Z -> Prop :=
| header_first : header_at data 0
| header_next off : header_at data off -> off + 72 + size_field data off <= len data ->
    header_at data (off + 72 + size_field data off).

(** A header whose size overflows the address arithmetic. *)
Definition overflowing (data : list byte) (off : Z) : Prop :=
  off + 72 <= len data /\ 2 ^ 64 <= off + 72 + size_field data off.

Lemma position_bound {A} (p : A -> bool) l n : position p l = Some n -> (n < length l)%nat.
Proof. intros (x & Hx & _)%position_Some. by eapply lookup_lt_Some. Qed.

Lemma size_field_bound data off : 0 <= off -> 0 <= size_field data off < 2 ^ 64.
Proof. intros Ho. exact (field_bound data (off + 64) 8 ltac:(lia)). Qed.

Lemma ramdisk_loop_step fuel data offset es :
  len data <= isize_max -> 0 <= offset -> offset + 72 <= len data ->
  ramdisk_loop (S fuel) data offset es =
    let n := size_field data offset in
    if 2 ^ 64 <=? offset + 72 + n then Panic else
    if offset + 72 + n <=? len data
    then ramdisk_loop fuel data (offset + 72 + n)
           (es ++ [file_entry (name_field data offset, sub_list data (offset + 72) n)])
    else Ret es.
Proof.
  intros Hlen Hoff Hhdr. unfold isize_max in *. pose proof (size_field_bound data offset Hoff) as Hn.
  cbn [ramdisk_loop]. rewrite (add_u_Ret _ _ 72), (add_u_Ret _ _ 64) by lia.
  cbn [mbind outcome_bind]. replace (len data <? _) with false by lia.
  rewrite (slice_Ret data offset), (slice_Ret data (offset + 64)) by lia.
  cbn [mbind outcome_bind].
  replace (offset + 72 - (offset + 64)) with 8 by lia.
  replace (offset + 64 - offset) with 64 by lia.
  set (k := default 64%nat _).
  assert (Z.of_nat k <= 64) as Hk.
  { unfold k. destruct (position _ _) as [n|] eqn:Ep; simpl; [|lia].
    apply position_bound in Ep. rewrite length_sub_list in Ep; lia. }
  rewrite slice_Ret by (rewrite ?len_sub_list; lia). cbn [mbind outcome_bind].
  fold (field data (offset + 64) 8). fold (size_field data offset). cbv zeta.
  destruct (Z.leb_spec (2 ^ 64) (offset + 72 + size_field data offset)) as [Hbig|Hsmall].
  { unfold add_u, checked_add. by replace (offset + 72 + size_field data offset <? 2 ^ 64) with false by lia. }
  rewrite add_u_Ret by lia. cbn [mbind outcome_bind]. case_if; [|reflexivity].
  rewrite slice_Ret by lia. cbn [mbind outcome_bind].
  replace (_ - (offset + 72)) with (size_field data offset) by lia. unfold file_entry, name_field. fold k. cbn [fst snd].
  replace (sub_list (sub_list data offset 64) 0 (Z.of_nat k - 0)) with (take k (sub_list data offset 64)); [done|].
  unfold sub_list at 2. by rewrite drop_0, Z.sub_0_r, Nat2Z.id.
Qed.

(** The loop reads the archive, or panics at a header it reaches. *)
Lemma ramdisk_loop_archive data (fuel : nat) es off :
  len data <= isize_max -> header_at data off -> 0 <= off <= len data -> (Z.to_nat (len data - off) < fuel)%nat ->
  (exists files, archive data off files /\ ramdisk_loop fuel data off es = Ret (es ++ map file_entry files)) \/
  (exists h, header_at data h /\ overflowing data h /\ ramdisk_loop fuel data off es = Panic).
Proof.
  intros Hlen. revert es off. induction fuel as [|fuel IH]; intros es off Hh Hoff Hfuel; [lia|].
  destruct (decide (off + 72 <= len data)) as [Hin|Hout].
  - rewrite ramdisk_loop_step by lia. cbv zeta. pose proof (size_field_bound data off ltac:(lia)) as Hn.
    destruct (Z.leb_spec (2 ^ 64) (off + 72 + size_field data off)) as [Hbig|Hsmall]; [right; by exists off|].
    destruct (Z.leb_spec (off + 72 + size_field data off) (len data)) as [Hfit|Hcut].
    + destruct (IH (es ++ [file_entry (name_field data off, sub_list data (off + 72) (size_field data off))])
        (off + 72 + size_field data off)) as [(files & Ha & ->)|Hp]; [by apply header_next|lia|lia| |by right].
      left. eexists. split; [by apply archive_file|]. cbn [map]. by rewrite <- app_assoc.
    + left. exists []. split; [apply archive_end; by right|]. by rewrite app_nil_r.
  - left. exists []. split; [apply archive_end; left; lia|]. rewrite app_nil_r. cbn [ramdisk_loop]. unfold isize_max in *.
    rewrite (add_u_Ret _ _ 72) by lia. cbn [mbind outcome_bind].
    by replace (len data <? off + 72) with true by lia.
Qed.

(** The contents of an archive are part of it. *)
Lemma archive_inside data off files : archive data off files -> 0 <= off ->
  Forall (fun f => len f.2 <= len data) files.
Proof.
  induction 1 as [off _|off files Hfit _ IH]; intros Ho; [done|]. pose proof (size_field_bound data off Ho).
  constructor; [|apply IH; lia]. cbn [snd]. rewrite len_sub_list; lia.
Qed.

(** A header that declares [2^64 - 1] bytes makes the reader's overflow check
    panic at boot, where the bounds test was meant to end the archive. *)
Theorem ramdisk_size_overflow_panics :
  init_from_ramdisk (mem_at 0x1000 (replicate 64 x00 ++ le_bytes 8 u64_max)) Vfs.new 0x1000 72 = Panic.
Proof. vm_compute. reflexivity. Qed.
