(* ===== verification/VfsHeap.v ===== *)
(** * The file system on the kernel's heap ([kernel/src/vfs.rs])

    What the operations of [Vfs] ask of the allocator, and what each of them
    does on a heap that may refuse. *)

From S2P Require Import Prelude Alloc Abi Utf8 Tty Vfs Ramdisk.

(** [open] makes the descriptor, with its copy of the name, for every entry of
    that name until it finds a free slot. *)
Definition open_requests (v : Vfs) (path : list byte) : list Request :=
  let matching := List.filter (named path) (entries v) in
  map (fun _ => Text (len path)) (match free_slot (open_files v) with Some _ => take 1 matching | None => matching end).

Definition write_requests {C} (v : Vfs) (con : option C) (fd_index : Z) (buf : list byte) : list Request :=
  match zget (open_files v) fd_index with
  | Some (Some fd) =>
      if bool_decide (fd_name fd = str "tty") then
        match from_utf8 buf, con with Some s, Some _ => [Draw s] | _, _ => [] end
      else
        match contents v (fd_name fd) with
        | Some data =>
            (if len data <? fd_offset fd then [Extend (len data) (fd_offset fd - len data)] else []) ++
            [Extend (Z.max (len data) (fd_offset fd)) (len buf)]
        | None => []
        end
  | _ => []
  end.

Definition chdir_requests (v : Vfs) (path : list byte) : list Request :=
  if (chdir v path).1 then [Text (len path)] else [].

Definition mkdir_requests (v : Vfs) (path : list byte) : list Request :=
  if (mkdir v path).1 then [Text (len path); Push (len (entries v))] else [].

Definition list_dir_requests (v : Vfs) : list Request :=
  Collect (len (entries v)) :: map (fun e => Text (len (e_name e))) (entries v).

Definition op_requests {C} (v : Vfs) (con : option C) (o : op) : list Request :=
  match o with
  | OpOpen path => open_requests v path
  | OpWrite fd buf => write_requests v con fd buf
  | OpChdir path => chdir_requests v path
  | OpMkdir path => mkdir_requests v path
  | OpClose _ | OpRead _ _ | OpSeek _ _ | OpUnlink _ => []
  end.

(** The entries [init_defaults] and [init_from_ramdisk] push, the first of
    them on a vector of [n]. *)
Definition entry_requests (n : Z) (i : nat) (e : VfsEntry) : list Request :=
  Text (len (e_name e)) :: match e_data e with Some d => [Bytes (len d)] | None => [] end ++ [Push (n + Z.of_nat i)].

Definition mount_requests (v v' : Vfs) : list Request :=
  concat (imap (entry_requests (len (entries v))) (drop (length (entries v)) (entries v'))).

(** [init_from_ramdisk] on the heap. *)
Definition mount `{KernelHeap} (m : mem) (v : Vfs) (addr size : Z) : outcome Vfs :=
  v' ← init_from_ramdisk m v addr size; on_heap (mount_requests v v') (Ret v').

(** Everything that changes the file system. *)
Inductive request := Op (o : op) | Mount (m : mem) (addr size : Z).

Definition perform `{KernelHeap} {C} `{Console C} (s : Vfs * Tty * option C) (r : request) : outcome (Vfs * Tty * option C) :=
  let '(v, tty, con) := s in
  match r with
  | Op o => on_heap (op_requests v con o) (exec s o)
  | Mount m addr size => v' ← mount m v addr size; Ret (v', tty, con)
  end.

Definition request_typed (r : request) : Prop :=
  match r with Op o => op_typed o | Mount _ addr size => in_u64 addr /\ in_u64 size end.

(** Why an operation may panic. *)
Inductive refusal `{KernelHeap} {C} (v : Vfs) (con : option C) : request -> Prop :=
| heap_refuses o : serves (op_requests v con o) = false -> refusal v con (Op o)
| write_overflows i buf : write_too_large v i buf -> refusal v con (Op (OpWrite i buf))
| slice_too_long m addr size : isize_max < size -> refusal v con (Mount m addr size)
| header_overflows m addr size off : header_at (read_mem m addr size) off -> overflowing (read_mem m addr size) off ->
    refusal v con (Mount m addr size)
| heap_refuses_files m addr size v' : init_from_ramdisk m v addr size = Ret v' -> serves (mount_requests v v') = false ->
    refusal v con (Mount m addr size).

(** ** Mounting *)

(** The file system with more entries. *)
Definition with_files (v : Vfs) (files : list (list byte * list byte)) : Vfs :=
  set_entries v (entries (init_defaults v) ++ map file_entry files).

Lemma init_from_ramdisk_cases m v addr size : in_u64 addr -> in_u64 size ->
  (exists files, init_from_ramdisk m v addr size = Ret (with_files v files) /\
    if negb (addr =? 0) && (0 <? size) then archive (read_mem m addr size) 0 files /\ size <= isize_max else files = []) \/
  (init_from_ramdisk m v addr size = Panic /\
    (isize_max < size \/ exists off, header_at (read_mem m addr size) off /\ overflowing (read_mem m addr size) off)).
Proof.
  unfold in_range. intros Ha Hs. unfold init_from_ramdisk. destruct (negb (addr =? 0) && (0 <? size)) eqn:E.
  2: { left. exists []. split; [|done]. unfold with_files. cbn [map]. by rewrite app_nil_r. }
  unfold raw_slice. destruct (Z.ltb_spec isize_max size) as [Hbig|Hok]; [right; split; [done|by left]|].
  cbn [mbind outcome_bind]. set (data := read_mem m addr size).
  assert (len data = size) as Hl by (apply len_read_mem; lia).
  destruct (ramdisk_loop_archive data (S (length data)) (entries (init_defaults v)) 0)
    as [(files & Hf & ->)|(off & Hh & Ho & ->)]; [lia|constructor|lia|unfold len in *; lia| |].
  - left. exists files. split; [|done]. done.
  - right. split; [done|]. right. by exists off.
Qed.

Lemma wf_entries v es : wf v -> (forall e d, e ∈ es -> e_data e = Some d -> len d <= isize_max) ->
  wf (set_entries v (entries v ++ es)).
Proof.
  intros [Hs Hf Hd] Hes. split; cbn [open_files set_entries entries]; [done| |].
  - intros j fd Hj. destruct (Hf j fd Hj) as [Ho [e He]]. split; [done|]. exists e. cbn [entries set_entries].
    clear -He. induction (entries v) as [|x l IH]; [done|]. cbn [find app] in *. by destruct (named _ x); [|apply IH].
  - intros e d He Hed. apply elem_of_app in He as [He|He]; [by apply (Hd e)|by apply (Hes e)].
Qed.

Lemma with_files_wf v files : wf v -> Forall (fun f => len f.2 <= isize_max) files -> wf (with_files v files).
Proof.
  intros Hv Hf. unfold with_files. change (entries (init_defaults v)) with (entries v ++ default_entries).
  rewrite <- app_assoc. apply wf_entries; [done|]. intros e d He Hd. apply elem_of_app in He as [He|He].
  - exfalso. unfold default_entries, init_defaults, Vfs.new in He. cbn in He.
    repeat (apply elem_of_cons in He as [->|He]; [done|]). by apply elem_of_nil in He.
  - apply list_elem_of_fmap in He as (f & -> & Hin). injection Hd as <-. rewrite Forall_forall in Hf. by apply Hf.
Qed.

Section Heap.
Context `{KernelHeap}.

Lemma mount_cases m v addr size : in_u64 addr -> in_u64 size -> wf v ->
  (exists v', mount m v addr size = Ret v' /\ wf v') \/
  (mount m v addr size = Panic /\ forall C (con : option C), refusal v con (Mount m addr size)).
Proof.
  intros Ha Hs Hv. unfold mount.
  destruct (init_from_ramdisk_cases m v addr size Ha Hs) as [(files & Hi & Hf)|[Hi Hp]]; rewrite Hi; cbn [mbind outcome_bind].
  - unfold on_heap. destruct (serves (mount_requests v (with_files v files))) eqn:E.
    + left. eexists. split; [done|]. apply with_files_wf; [done|]. case_if; [|by subst files].
      destruct Hf as [Hf Hm]. unfold in_range in *. pose proof (archive_inside _ _ _ Hf ltac:(lia)) as Hin.
      eapply Forall_impl; [exact Hin|]. intros f Hlen. cbv beta in Hlen. rewrite len_read_mem in Hlen by lia. lia.
    + right. split; [done|]. intros C con. by apply (heap_refuses_files v con m addr size (with_files v files)).
  - right. split; [done|]. intros C con. destruct Hp as [Hp|(off & Hh & Ho)]; [by apply slice_too_long|].
    by apply (header_overflows v con m addr size off).
Qed.
End Heap.


(** C37: mounting any bytes at all, truncated or garbage, gives exactly the
    records of the archive: the default entries and then, for each record
    from the start whose header and contents fit, a regular file with its
    name and contents.  It panics instead if a header that is reached
    declares a size that overflows the address arithmetic, or if the heap
    refuses to hold the files.  *)
Theorem ramdisk_any_archive `{KernelHeap} m addr size :
  in_u64 addr -> 0 < size <= isize_max -> addr <> 0 ->
  (exists files, archive (read_mem m addr size) 0 files /\
     mount m Vfs.new addr size = on_heap (mount_requests Vfs.new (with_files Vfs.new files)) (Ret (with_files Vfs.new files))) \/
  (mount m Vfs.new addr size = Panic /\
   exists off, header_at (read_mem m addr size) off /\ overflowing (read_mem m addr size) off).
Proof.
  intros Ha Hs Hn. unfold mount. assert (in_u64 size) as Hsz by (unfold in_range, isize_max in *; lia).
  destruct (init_from_ramdisk_cases m Vfs.new addr size Ha Hsz) as [(files & -> & Hf)|[-> Hp]]; cbn [mbind outcome_bind].
  - left. exists files. split; [|done]. case_if; [by destruct Hf|lia].
  - right. split; [done|]. destruct Hp as [Hp|Hp]; [lia|done].
Qed.

(** ** Concrete inputs *)

(** A heap that holds a limited number of bytes of text and data. *)
Definition bytes_of (r : Request) : Z :=
  match r with Text n | Bytes n => n | Extend n more => n + more | _ => 64 end.
Definition small_heap (limit : Z) : KernelHeap := {| serves rs := foldr (fun r n => bytes_of r + n) 0 rs <=? limit |}.


(** Cut off in the last header: the records before it are mounted. *)
Definition cut_archive : list byte := take 216 (pack sample_files).

Lemma ramdisk_any_archive_witness :
  @mount (small_heap 2000) (mem_at 0x1000 cut_archive) Vfs.new 0x1000 216 = Ret (with_files Vfs.new (take 2 sample_files)) /\
  archive cut_archive 0 (take 2 sample_files).
Proof.
  destruct (@ramdisk_any_archive (small_heap 2000) (mem_at 0x1000 cut_archive) 0x1000 216) as [(files & Ha & Hr)|[Hp _]];
    [by vm_compute|by vm_compute|done| |vm_compute in Hp; discriminate].
  assert (files = take 2 sample_files) as ->.
  { assert (init_from_ramdisk (mem_at 0x1000 cut_archive) Vfs.new 0x1000 216 = Ret (with_files Vfs.new (take 2 sample_files))) as Hi
      by (vm_compute; reflexivity).
    unfold mount in Hr. rewrite Hi in Hr. cbn [mbind outcome_bind] in Hr.
    assert (on_heap (H := small_heap 2000) (mount_requests Vfs.new (with_files Vfs.new (take 2 sample_files)))
      (Ret (with_files Vfs.new (take 2 sample_files))) = Ret (with_files Vfs.new (take 2 sample_files))) as E by (vm_compute; reflexivity).
    rewrite E in Hr. unfold on_heap in Hr. case_if; [|done]. injection Hr as Hr.
    destruct files as [|[n1 d1] [|[n2 d2] [|f files]]]; try discriminate Hr. injection Hr as <- <- <- <-. reflexivity. }
  split; [rewrite Hr; vm_compute; reflexivity|exact Ha].
Defined.
