(* ===== verification/XTask.v ===== *)
(** * The build tool ([tools/xtask/src/main.rs])

    The tool runs on a host with files, directories, environment variables and
    programs, prints lines, and ends by returning, by an exit code or by a
    panic.  What a program does when it is run is a parameter; everything else
    is the tool's own code over the standard library's file operations.  The
    host keeps a log of what the tool does to it: the commands it runs, the
    directories it makes, the files it writes, the lines it prints. *)

From S2P Require Import Prelude Utf8 Serial Tty Vfs Ramdisk.

(** ** The host *)

(** A path as its components; the first is [root_dir] on an absolute one. *)
Definition path : Type := list (list byte).

Definition root_dir : list byte := str "/".

Inductive target_os := Windows | MacOs | OtherOs.

Record Cmd := mkCmd {
  program : list byte; args : list (list byte); current_dir : option path; envs : list (list byte * list byte) }.

#[global] Instance cmd_eq_dec : EqDecision Cmd.
Proof. solve_decision. Defined.

Inductive action := Ran (c : Cmd) | Made (p : path) | Wrote (p : path) (data : list byte) | Said (line : list byte).

Record Host := mkHost {
  files : path -> option (list byte);
  dirs : path -> bool;
  env_var : list byte -> option (list byte);
  log : list action }.

(** How a part of the tool ends. *)
Inductive ended (A : Type) := Returned (a : A) | Exited (code : Z) | Panicked.
Arguments Returned {_} _.
Arguments Exited {_} _.
Arguments Panicked {_}.

Definition tool (A : Type) : Type := Host -> ended A * Host.

#[global] Instance tool_ret : MRet tool := fun A a h => (Returned a, h).
#[global] Instance tool_bind : MBind tool := fun A B f m h =>
  match m h with
  | (Returned a, h) => f a h
  | (Exited c, h) => (Exited c, h)
  | (Panicked, h) => (Panicked, h)
  end.

Definition exit {A} (code : Z) : tool A := fun h => (Exited code, h).
Definition expect {A} (o : option A) : tool A := fun h =>
  match o with Some a => (Returned a, h) | None => (Panicked, h) end.
Definition println (line : list byte) : tool unit := fun h =>
  (Returned tt, mkHost (files h) (dirs h) (env_var h) (log h ++ [Said line])).
Definition env (name : list byte) : tool (option (list byte)) := fun h => (Returned (env_var h name), h).

(** ** Paths *)

(** The components of a text, separated by one of [seps]; empty ones are
    dropped. *)
Fixpoint split_on (seps : list byte) (s acc : list byte) : list (list byte) :=
  match s with
  | [] => if bool_decide (acc = []) then [] else [acc]
  | c :: s' =>
      if bool_decide (c ∈ seps)
      then (if bool_decide (acc = []) then [] else [acc]) ++ split_on seps s' []
      else split_on seps s' (acc ++ [c])
  end.

Definition separators (os : target_os) : list byte := match os with Windows => [x2f; x5c] | _ => [x2f] end.

(** [PathBuf::from]. *)
Definition PathBuf_from (os : target_os) (s : list byte) : path :=
  (match s with c :: _ => if bool_decide (c ∈ separators os) then [root_dir] else [] | [] => [] end) ++
  split_on (separators os) s [].

(** [path.join(name)], for a plain name. *)
Definition join (p : path) (name : list byte) : path := p ++ [name].

Definition parent (p : path) : option path :=
  match rev p with
  | [] => None
  | c :: r => if bool_decide (c = root_dir) then None else Some (rev r)
  end.

(** [.and_then(Path::parent)]. *)
Definition and_then_parent (o : option path) : option path := match o with Some p => parent p | None => None end.

(** [path.display()], and [to_string_lossy] of a path that is valid text. *)
Fixpoint with_separator (sep : byte) (p : path) : list byte :=
  match p with
  | [] => []
  | [c] => c
  | c :: p' => (if bool_decide (c = root_dir) then [sep] else c ++ [sep]) ++ with_separator sep p'
  end.
Definition display (os : target_os) (p : path) : list byte :=
  with_separator (match os with Windows => x5c | _ => x2f end) p.

Definition normalize_for_qemu_path (os : target_os) (p : path) : list byte :=
  map (fun c => if bool_decide (c = x5c) then x2f else c) (display os p).

(** ** Files *)

Definition exists_path (h : Host) (p : path) : bool := bool_decide (is_Some (files h p)) || dirs h p.
Definition path_exists (p : path) : tool bool := fun h => (Returned (exists_path h p), h).

Definition put_file (p : path) (data : list byte) (h : Host) : Host :=
  mkHost (fun q => if bool_decide (q = p) then Some data else files h q) (dirs h) (env_var h) (log h ++ [Wrote p data]).

(** The path and everything above it. *)
Definition prefixes (p : path) : list path := map (fun n => take n p) (seq 1 (length p)).

(** [fs::create_dir_all]: fails where a file is in the way. *)
Definition create_dir_all (p : path) : tool unit := fun h =>
  if existsb (fun q => bool_decide (is_Some (files h q))) (prefixes p) then (Panicked, h)
  else (Returned tt, mkHost (files h) (fun q => dirs h q || bool_decide (q ∈ prefixes p)) (env_var h) (log h ++ [Made p])).

Definition read_file (p : path) : tool (list byte) := fun h => expect (files h p) h.

(** [fs::write]: into an existing directory, not over a directory. *)
Definition write_file (p : path) (data : list byte) : tool unit := fun h =>
  if dirs h (removelast p) && negb (dirs h p) then (Returned tt, put_file p data h) else (Panicked, h).

Definition copy (src dst : path) : tool unit := data ← read_file src; write_file dst data.

(** ** Programs *)

(** Running a command: nothing if it cannot be started, otherwise the exit
    code ([None]: ended by a signal) and what it wrote to its output. *)
Class Programs := { run_program : Cmd -> Host -> option (option Z * list byte) * Host }.

Definition success (code : option Z) : bool := bool_decide (code = Some 0).

(** [path.exists()] picks the first of the candidates. *)
Fixpoint find_existing (candidates : list path) : tool (option path) :=
  match candidates with
  | [] => mret None
  | p :: rest => e ← path_exists p; if (e : bool) then mret (Some p) else find_existing rest
  end.

Section XTask.
Context `{Programs} (os : target_os).

(** The program may change files; the tool's environment and what it did stay. *)
Definition run (c : Cmd) : tool (option (option Z * list byte)) := fun h =>
  let '(r, h') := run_program c h in
  (Returned r, mkHost (files h') (dirs h') (env_var h) (log h ++ [Ran c])).

Definition run_or_die_with_env (program : list byte) (args : list (list byte)) (workspace_root : path)
    (env_vars : list (list byte * list byte)) : tool unit :=
  r ← run (mkCmd program args (Some workspace_root) env_vars);
  status ← expect r;
  if success status.1 then mret tt else exit (default 1 status.1).

Definition run_or_die (program : list byte) (args : list (list byte)) (workspace_root : path) : tool unit :=
  run_or_die_with_env program args workspace_root [].

Definition command_works (program : list byte) (args : list (list byte)) : tool bool :=
  r ← run (mkCmd program args None []);
  mret (match r with Some (code, _) => success code | None => false end).

(** [text.contains(expected)]. *)
Fixpoint contains (expected text : list Z) : bool :=
  bool_decide (take (length expected) text = expected) ||
  match text with [] => false | _ :: text' => contains expected text' end.

Definition output_contains (program : list byte) (args : list (list byte)) (expected : list byte) : tool bool :=
  r ← run (mkCmd program args None []);
  mret (match r with Some (_, out) => contains (default [] (decode expected)) (lossy out) | None => false end).

(** The first line of [lines()]. *)
Fixpoint until_newline (cs : list Z) : list Z :=
  match cs with [] => [] | c :: cs' => if c =? 10 then [] else c :: until_newline cs' end.
Definition strip_return (cs : list Z) : list Z :=
  match rev cs with c :: r => if c =? 13 then rev r else cs | [] => cs end.
Definition first_line (cs : list Z) : option (list Z) :=
  match cs with [] => None | _ => Some (strip_return (until_newline cs)) end.

Definition find_command_path (command : list byte) : tool (option path) :=
  r ← run (mkCmd (match os with Windows => str "where.exe" | _ => str "which" end) [command] None []);
  match r with
  | None => mret None
  | Some (code, out) =>
      if negb (success code) then mret None else
      match first_line (lossy out) with
      | None => mret None
      | Some line => mret (Some (PathBuf_from os (trim (encode line)).2))
      end
  end.

(** ** Building *)

Definition none_target : list byte := str "x86_64-unknown-none".
Definition uefi_target : list byte := str "x86_64-unknown-uefi".

(** [workspace_root.join("target").join(target).join(profile).join(name)]. *)
Definition artifact (root : path) (target profile name : list byte) : path :=
  join (join (join (join root (str "target")) target) profile) name.

Definition program_args (name : list byte) : list (list byte) :=
  [str "+nightly"; str "build"; str "-p"; name; str "--target"; none_target; str "--release"].
Definition program_flags : list (list byte * list byte) :=
  [(str "RUSTFLAGS", str "-C link-arg=-Tuserland/init/linker.ld")].

(** The three user programs are built alike. *)
Definition build_program (workspace_root : path) (name : list byte) : tool path :=
  _ ← run_or_die_with_env (str "cargo") (program_args name) workspace_root program_flags;
  let built_bin := artifact workspace_root none_target (str "release") name in
  e ← path_exists built_bin;
  if negb e then
    _ ← println (str "Expected userland " ++ name ++ str " binary was not produced: " ++ display os built_bin);
    exit 1
  else mret built_bin.

Definition build_userland (workspace_root : path) : tool path := build_program workspace_root (str "init").
Definition build_shell (workspace_root : path) : tool path := build_program workspace_root (str "shell").
Definition build_fault_tester (workspace_root : path) : tool path := build_program workspace_root (str "fault-tester").

Definition kernel_args : list (list byte) :=
  [str "+nightly"; str "build"; str "-p"; str "turnix-kernel"; str "--bin"; str "turnix-kernel-image";
   str "--target"; none_target].
Definition kernel_flags : list (list byte * list byte) :=
  [(str "RUSTFLAGS",
    str "-C link-arg=-Tkernel/linker.ld -C link-arg=-z -C link-arg=max-page-size=0x1000 -C relocation-model=static")].

Definition staged_dir (root : path) : path := join (join (join root (str "out")) (str "esp")) (str "turnix").

(** The archive of the programs, built in turn. *)
Definition package_initramfs (workspace_root staged_dir : path) : tool unit :=
  init_bin ← build_userland workspace_root;
  init_data ← read_file init_bin;
  shell_bin ← build_shell workspace_root;
  shell_data ← read_file shell_bin;
  fault_tester_bin ← build_fault_tester workspace_root;
  fault_tester_data ← read_file fault_tester_bin;
  let ramdisk := initramfs init_data shell_data fault_tester_data in
  let initramfs_path := join staged_dir (str "initramfs.img") in
  _ ← write_file initramfs_path ramdisk;
  println (str "Initramfs created at " ++ display os initramfs_path ++ str " (" ++ dec (len ramdisk) ++
           str " bytes, including 'init')").

Definition build_kernel_image (workspace_root : path) : tool path :=
  _ ← run_or_die_with_env (str "cargo") kernel_args workspace_root kernel_flags;
  let built_image := artifact workspace_root none_target (str "debug") (str "turnix-kernel-image") in
  e ← path_exists built_image;
  if negb e then
    _ ← println (str "Expected freestanding kernel image was not produced: " ++ display os built_image);
    exit 1
  else
  let staged_dir := staged_dir workspace_root in
  _ ← create_dir_all staged_dir;
  let staged_image := join staged_dir (str "kernel.elf") in
  _ ← copy built_image staged_image;
  _ ← package_initramfs workspace_root staged_dir;
  mret staged_image.

Definition loader_args : list (list byte) :=
  [str "+nightly"; str "build"; str "-p"; str "turnix-uefi-loader"; str "--target"; uefi_target].

Definition esp_boot_dir (root : path) : path :=
  join (join (join (join root (str "out")) (str "esp")) (str "EFI")) (str "BOOT").

Definition build_uefi (workspace_root : path) : tool path :=
  staged_kernel ← build_kernel_image workspace_root;
  _ ← run_or_die (str "cargo") loader_args workspace_root;
  let built_image := artifact workspace_root uefi_target (str "debug") (str "turnix-uefi-loader.efi") in
  e ← path_exists built_image;
  if negb e then
    _ ← println (str "Expected EFI image was not produced: " ++ display os built_image);
    exit 1
  else
  let esp_boot_dir := esp_boot_dir workspace_root in
  _ ← create_dir_all esp_boot_dir;
  let staged_image := join esp_boot_dir (str "BOOTX64.EFI") in
  _ ← copy built_image staged_image;
  _ ← println (str "Kernel image staged at " ++ display os staged_kernel);
  mret staged_image.

(** ** Firmware *)

(** The directory [share] beside the directory of the emulator. *)
Definition near_qemu (names : list (list (list byte))) : tool (list path) :=
  qemu_path ← find_command_path (str "qemu-system-x86_64");
  mret (match qemu_path with
        | Some q =>
            match and_then_parent (parent q) with
            | Some base => map (fun n => foldl join (join base (str "share")) n) names
            | None => []
            end
        | None => []
        end).

Definition find_ovmf (variable : list byte) (near : list (list (list byte))) (fixed : list (list byte))
    : tool (option path) :=
  v ← env variable;
  let given := match v with Some text => [PathBuf_from os text] | None => [] end in
  g ← find_existing given;
  match g with
  | Some p => mret (Some p)
  | None =>
      candidates ← near_qemu near;
      find_existing (candidates ++ map (PathBuf_from os) fixed)
  end.

Definition find_ovmf_code : tool (option path) :=
  find_ovmf (str "TURNIX_OVMF_CODE")
    [[str "qemu"; str "edk2-x86_64-code.fd"]; [str "ovmf"; str "OVMF.fd"]]
    [str "/usr/share/ovmf/OVMF.fd"; str "/usr/share/ovmf/x64/OVMF_CODE.fd"; str "/usr/share/OVMF/OVMF_CODE.fd";
     str "C:\msys64\ucrt64\share\qemu\edk2-x86_64-code.fd"; str "C:\Program Files\qemu\share\qemu\edk2-x86_64-code.fd"].

Definition find_ovmf_vars : tool (option path) :=
  find_ovmf (str "TURNIX_OVMF_VARS")
    [[str "qemu"; str "edk2-x86_64-vars.fd"]; [str "qemu"; str "edk2-i386-vars.fd"]; [str "ovmf"; str "OVMF.fd"]]
    [str "/usr/share/ovmf/OVMF.fd"; str "/usr/share/ovmf/x64/OVMF_VARS.fd"; str "/usr/share/OVMF/OVMF_VARS.fd";
     str "C:\msys64\ucrt64\share\qemu\edk2-x86_64-vars.fd"; str "C:\msys64\ucrt64\share\qemu\edk2-i386-vars.fd";
     str "C:\Program Files\qemu\share\qemu\edk2-x86_64-vars.fd";
     str "C:\Program Files\qemu\share\qemu\edk2-i386-vars.fd"].

Definition firmware_dir (root : path) : path := join (join root (str "out")) (str "firmware").

Definition stage_ovmf_code (workspace_root source : path) : tool path :=
  let firmware_dir := firmware_dir workspace_root in
  _ ← create_dir_all firmware_dir;
  let destination := join firmware_dir (str "edk2-x86_64-code.fd") in
  _ ← copy source destination;
  mret destination.

Definition stage_ovmf_vars (workspace_root source : path) : tool path :=
  let firmware_dir := firmware_dir workspace_root in
  _ ← create_dir_all firmware_dir;
  let destination := join firmware_dir (str "edk2-x86_64-vars.fd") in
  _ ← copy source destination;
  mret destination.

(** ** Running *)

Definition handle_qemu_status (code : option Z) : tool unit :=
  match code with
  | Some code =>
      if code =? 33 then println (str "QEMU exited after the Turnix success path.")
      else _ ← println (str "QEMU exited with code " ++ dec_signed code ++ str "."); exit code
  | None => _ ← println (str "QEMU terminated without an exit code."); exit 1
  end.

Definition find_or_die (found : option path) (message : list byte) : tool path :=
  match found with
  | Some p => mret p
  | None => _ ← println message; exit 1
  end.

Definition machine_args : list (list byte) :=
  [str "-machine"; str "q35"; str "-m"; str "512M"; str "-serial"; str "stdio"; str "-monitor"; str "none";
   str "-display"; str "sdl,gl=on"; str "-no-reboot"; str "-device"; str "isa-debug-exit,iobase=0xf4,iosize=0x04";
   str "-device"; str "qemu-xhci,id=xhci"; str "-device"; str "usb-kbd"].

Definition accel_args (accel : option (list byte)) : list (list byte) :=
  match accel with
  | Some a => [str "-accel"; a]
  | None => [str "-accel"; match os with Windows => str "whpx" | MacOs => str "hvf" | OtherOs => str "kvm" end;
             str "-accel"; str "tcg"]
  end.

Definition drive_args (code vars fat_root : list byte) : list (list byte) :=
  [str "-drive"; str "if=pflash,format=raw,readonly=on,file=" ++ code;
   str "-drive"; str "if=pflash,format=raw,file=" ++ vars;
   str "-drive"; str "format=raw,file=fat:rw:" ++ fat_root].

Definition run_uefi (workspace_root : path) : tool unit :=
  staged_image ← build_uefi workspace_root;
  c ← find_ovmf_code;
  ovmf_code ← find_or_die c (str "Could not find an EDK2 firmware image. Set TURNIX_OVMF_CODE to point to it.");
  v ← find_ovmf_vars;
  ovmf_vars ← find_or_die v (str "Could not find an EDK2 vars image. Set TURNIX_OVMF_VARS to point to it.");
  staged_ovmf_code ← stage_ovmf_code workspace_root ovmf_code;
  staged_ovmf_vars ← stage_ovmf_vars workspace_root ovmf_vars;
  esp ← expect (and_then_parent (and_then_parent (parent staged_image)));
  accel ← env (str "TURNIX_QEMU_ACCEL");
  let qemu := machine_args ++ accel_args accel ++
    drive_args (normalize_for_qemu_path os staged_ovmf_code) (normalize_for_qemu_path os staged_ovmf_vars)
      (normalize_for_qemu_path os esp) in
  r ← run (mkCmd (str "qemu-system-x86_64") qemu (Some workspace_root) []);
  status ← expect r;
  handle_qemu_status status.1.

(** ** Commands *)

Definition print_check (label : list byte) (ok : bool) : tool unit :=
  println (str "[" ++ (if ok then str "ok" else str "missing") ++ str "] " ++ label).

Definition installed_args : list (list byte) :=
  [str "target"; str "list"; str "--installed"; str "--toolchain"; str "nightly"].

Definition print_doctor : tool unit :=
  q ← command_works (str "qemu-system-x86_64") [str "--version"];
  _ ← print_check (str "qemu-system-x86_64 on PATH") q;
  n ← output_contains (str "rustup") [str "toolchain"; str "list"] (str "nightly");
  _ ← print_check (str "nightly toolchain available") n;
  u ← output_contains (str "rustup") installed_args uefi_target;
  _ ← print_check (str "x86_64-unknown-uefi target installed") u;
  b ← output_contains (str "rustup") installed_args none_target;
  _ ← print_check (str "x86_64-unknown-none target installed") b;
  c ← find_ovmf_code;
  _ ← match c with
      | Some p => println (str "[ok] EDK2 firmware found at " ++ display os p)
      | None => println (str "[missing] EDK2 firmware image not found. Set TURNIX_OVMF_CODE if needed.")
      end;
  v ← find_ovmf_vars;
  match v with
  | Some p => println (str "[ok] EDK2 vars image found at " ++ display os p)
  | None => println (str "[missing] EDK2 vars image not found. Set TURNIX_OVMF_VARS if needed.")
  end.

Definition print_status (workspace_root : path) : tool unit :=
  _ ← println (str "Turnix workspace is ready at " ++ display os workspace_root ++ str ".");
  _ ← println (str "Current milestone: stabilized higher-half kernel bring-up.");
  _ ← println (str "Useful commands: cargo xtask doctor, cargo xtask build-uefi, cargo xtask run-uefi");
  println (str "Compatibility alias: cargo xtask uefi-loader").

Inductive Command := Status | Doctor | BuildUefi | RunUefi.

Definition parse_command (raw : option (list byte)) : tool Command :=
  match raw with
  | None => mret Status
  | Some s =>
      if bool_decide (s = str "doctor") then mret Doctor
      else if bool_decide (s = str "build-uefi") then mret BuildUefi
      else if bool_decide (s = str "run-uefi") then mret RunUefi
      else if bool_decide (s = str "uefi-loader") then
        _ ← println (str "`cargo xtask uefi-loader` is kept as a compatibility alias for `cargo xtask run-uefi`.");
        mret RunUefi
      else if bool_decide (s = str "status") then mret Status
      else
        _ ← println (str "Unknown xtask command: " ++ s);
        _ ← println (str "Available commands: status, doctor, build-uefi, run-uefi, uefi-loader");
        exit 2
  end.

(** [main], with the directory two levels above the tool's own
    ([CARGO_MANIFEST_DIR]) as the workspace. *)
Definition workspace_root (manifest_dir : path) : tool path := expect (and_then_parent (parent manifest_dir)).

Definition main (manifest_dir : path) (arg : option (list byte)) : tool unit :=
  workspace_root ← workspace_root manifest_dir;
  c ← parse_command arg;
  match c with
  | Status => print_status workspace_root
  | Doctor => print_doctor
  | BuildUefi =>
      image ← build_uefi workspace_root;
      println (str "UEFI image staged at " ++ display os image)
  | RunUefi => run_uefi workspace_root
  end.
End XTask.

(** ** What a build stages *)

(** The compilations of [build_uefi], in order: the command, and where its
    result appears. *)
Definition builds (root : path) : list (Cmd * path) :=
  [(mkCmd (str "cargo") kernel_args (Some root) kernel_flags,
    artifact root none_target (str "debug") (str "turnix-kernel-image"));
   (mkCmd (str "cargo") (program_args (str "init")) (Some root) program_flags,
    artifact root none_target (str "release") (str "init"));
   (mkCmd (str "cargo") (program_args (str "shell")) (Some root) program_flags,
    artifact root none_target (str "release") (str "shell"));
   (mkCmd (str "cargo") (program_args (str "fault-tester")) (Some root) program_flags,
    artifact root none_target (str "release") (str "fault-tester"));
   (mkCmd (str "cargo") loader_args (Some root) [],
    artifact root uefi_target (str "debug") (str "turnix-uefi-loader.efi"))].

(** What cargo leaves alone: the directory [out] of the workspace and the
    directories above it.  It works below [target], on [Cargo.lock], and in its
    registry, none of which is there. *)
Definition kept (root p : path) : Prop := root ++ [str "out"] `prefix_of` p \/ p `prefix_of` root ++ [str "out"].

(** A compilation that succeeds puts its result in its place. *)
Definition succeeds `{Programs} (root : path) (binary : path -> list byte) (b : Cmd * path) : Prop :=
  forall h, exists out h', run_program b.1 h = (Some (Some 0, out), h') /\ files h' b.2 = Some (binary b.2) /\
    forall p, kept root p -> files h' p = files h p /\ dirs h' p = dirs h p.

(** One that fails ends with another status. *)
Definition fails `{Programs} (root : path) (status : option Z) (b : Cmd * path) : Prop :=
  status <> Some 0 /\ forall h, exists out h', run_program b.1 h = (Some (status, out), h') /\
    forall p, kept root p -> files h' p = files h p /\ dirs h' p = dirs h p.

(** What the tool does apart from printing. *)
Definition effect (a : action) : bool := match a with Said _ => false | _ => true end.
Definition effects (h : Host) : list action := List.filter effect (log h).

(** Paths below the workspace. *)
Definition kernel_elf (root : path) : path := join (staged_dir root) (str "kernel.elf").
Definition initramfs_img (root : path) : path := join (staged_dir root) (str "initramfs.img").
Definition bootx64_efi (root : path) : path := join (esp_boot_dir root) (str "BOOTX64.EFI").

(** Nothing is in the way of the staged files: no file where a directory is
    needed, no directory where a file is. *)
Record stageable (root : path) (h : Host) : Prop := mkStageable {
  sg_dirs : forall q, q ∈ prefixes (staged_dir root) ++ prefixes (esp_boot_dir root) -> files h q = None;
  sg_files : forall q, q ∈ [kernel_elf root; initramfs_img root; bootx64_efi root] -> dirs h q = false }.

(** ** Lemmas *)

Lemma elem_of_prefixes q p : q ∈ prefixes p <-> q <> [] /\ q `prefix_of` p.
Proof.
  unfold prefixes. change (map ?f ?l) with (f <$> l). rewrite list_elem_of_fmap. split.
  - intros (n & -> & [Hn1 Hn2]%elem_of_seq). split; [|exists (drop n p); by rewrite take_drop].
    intros E. apply (f_equal length) in E. rewrite length_take in E. cbn [length] in E. lia.
  - intros [Hne [k ->]]. exists (length q). rewrite take_app_length. split; [done|].
    apply elem_of_seq. rewrite length_app. destruct q; [done|]. cbn [length]. lia.
Qed.

Lemma join_app root l name : join (root ++ l) name = root ++ (l ++ [name]).
Proof. unfold join. by rewrite <- app_assoc. Qed.

(** Below a directory the components decide. *)
Lemma below_neq (root l1 l2 : path) : bool_decide (l1 = l2) = false -> root ++ l1 <> root ++ l2.
Proof. intros Hb%bool_decide_eq_false He%app_inv_head. done. Qed.

Lemma below_not_prefix (root l1 l2 : path) : bool_decide (l1 `prefix_of` l2) = false -> ~ root ++ l1 `prefix_of` root ++ l2.
Proof. intros Hb%bool_decide_eq_false Hp%prefix_app_inv. done. Qed.

Lemma tool_step {A B} (m : tool A) (f : A -> tool B) h a h' : m h = (Returned a, h') -> (m ≫= f) h = f a h'.
Proof. intros E. unfold mbind, tool_bind. by rewrite E. Qed.

Lemma tool_exit {A B} (m : tool A) (f : A -> tool B) h c h' : m h = (Exited c, h') -> (m ≫= f) h = (Exited c, h').
Proof. intros E. unfold mbind, tool_bind. by rewrite E. Qed.

Lemma staged_dir_below root : staged_dir root = root ++ [str "out"; str "esp"; str "turnix"].
Proof. unfold staged_dir, join. by rewrite <- !app_assoc. Qed.

Lemma esp_boot_dir_below root : esp_boot_dir root = root ++ [str "out"; str "esp"; str "EFI"; str "BOOT"].
Proof. unfold esp_boot_dir, join. by rewrite <- !app_assoc. Qed.

Section Staging.
Context `{Programs} (os : target_os) (root : path) (binary : path -> list byte).

(** In the places cargo leaves alone the host has these files and directories,
    and the tool did this. *)
Definition has (fs : path -> option (list byte)) (ds : path -> bool) (l : list action) (h : Host) : Prop :=
  (forall p, kept root p -> files h p = fs p /\ dirs h p = ds p) /\ effects h = l.

Definition fs_put (p : path) (data : list byte) (fs : path -> option (list byte)) : path -> option (list byte) :=
  fun q => if bool_decide (q = p) then Some data else fs q.
Definition ds_add (p : path) (ds : path -> bool) : path -> bool := fun q => ds q || bool_decide (q ∈ prefixes p).

(** A path below [out]. *)
Definition aside (l : path) : Prop := bool_decide ([str "out"] `prefix_of` l) = true.

Lemma aside_kept l : aside l -> kept root (root ++ l).
Proof. intros Ha%bool_decide_eq_true. left. by apply prefix_app. Qed.

Lemma prefixes_kept l q : aside l -> q ∈ prefixes (root ++ l) -> kept root q.
Proof.
  intros Ha%bool_decide_eq_true [_ Hq]%elem_of_prefixes.
  destruct (prefix_weak_total q (root ++ [str "out"]) (root ++ l) Hq) as [Hp|Hp]; [by apply prefix_app|by right|by left].
Qed.

Lemma effects_app h h' a : log h' = log h ++ [a] -> effects h' = effects h ++ (if effect a then [a] else []).
Proof. intros Hl. unfold effects. rewrite Hl, List.filter_app. cbn [List.filter]. by destruct (effect a). Qed.

Lemma build_step program args envs result fs ds l h : let c := mkCmd program args (Some root) envs in
  succeeds root binary (c, result) -> has fs ds l h ->
  exists h', run_or_die_with_env program args root envs h = (Returned tt, h') /\ has fs ds (l ++ [Ran c]) h' /\
    files h' result = Some (binary result) /\ exists_path h' result = true.
Proof.
  intros c Hs [Hh Hl]. destruct (Hs h) as (out & h' & Hr & Hf & Hk). cbn [fst snd] in *.
  exists (mkHost (files h') (dirs h') (env_var h) (log h ++ [Ran c])).
  unfold run_or_die_with_env, run, mbind, tool_bind. fold c. rewrite Hr. split; [done|].
  split_and!; [|done|unfold exists_path; cbn [files]; by rewrite Hf]. split.
  - intros p Hp. cbn [files dirs]. destruct (Hk p Hp) as [-> ->]. by apply Hh.
  - rewrite <- Hl. by rewrite (effects_app h _ (Ran c)).
Qed.

Lemma build_step_fails program args envs result status fs ds l h : let c := mkCmd program args (Some root) envs in
  fails root status (c, result) -> has fs ds l h ->
  exists h', run_or_die_with_env program args root envs h = (Exited (default 1 status), h') /\ has fs ds (l ++ [Ran c]) h'.
Proof.
  intros c [Hne Hs] [Hh Hl]. destruct (Hs h) as (out & h' & Hr & Hk). cbn [fst] in Hr.
  exists (mkHost (files h') (dirs h') (env_var h) (log h ++ [Ran c])).
  unfold run_or_die_with_env, run, mbind, tool_bind. fold c. rewrite Hr. cbn [expect fst].
  unfold success. rewrite bool_decide_eq_false_2 by done. split; [done|]. split.
  - intros p Hp. cbn [files dirs]. destruct (Hk p Hp) as [-> ->]. by apply Hh.
  - rewrite <- Hl. by rewrite (effects_app h _ (Ran c)).
Qed.

Lemma create_dir_step l fs ds acts h : aside l -> has fs ds acts h -> (forall q, q ∈ prefixes (root ++ l) -> fs q = None) ->
  exists h', create_dir_all (root ++ l) h = (Returned tt, h') /\ has fs (ds_add (root ++ l) ds) (acts ++ [Made (root ++ l)]) h' /\
    files h' = files h.
Proof.
  intros Ha [Hh Hl] Hno. unfold create_dir_all. destruct (existsb _ _) eqn:E.
  - apply existsb_exists in E as (q & Hq & Hb%bool_decide_eq_true). apply list_elem_of_In in Hq.
    destruct (Hh q (prefixes_kept l q Ha Hq)) as [Hf _]. rewrite Hf, Hno in Hb by done. by destruct Hb.
  - eexists. split; [done|]. split; [|done]. split; [|rewrite <- Hl; by rewrite (effects_app h _ (Made (root ++ l)))].
    intros p Hp. destruct (Hh p Hp) as [Hf Hd]. cbn [files dirs]. unfold ds_add. by rewrite Hd.
Qed.

Lemma write_step l name data fs ds acts h : aside (l ++ [name]) -> aside l -> has fs ds acts h ->
  ds (root ++ l) = true -> ds (root ++ (l ++ [name])) = false ->
  exists h', write_file (root ++ (l ++ [name])) data h = (Returned tt, h') /\
    has (fs_put (root ++ (l ++ [name])) data fs) ds (acts ++ [Wrote (root ++ (l ++ [name])) data]) h'.
Proof.
  intros Ha1 Ha2 [Hh Hl] Hd1 Hd2. unfold write_file.
  replace (removelast (root ++ (l ++ [name]))) with (root ++ l) by (by rewrite app_assoc, removelast_last).
  destruct (Hh _ (aside_kept l Ha2)) as [_ ->]. destruct (Hh _ (aside_kept _ Ha1)) as [_ ->].
  rewrite Hd1, Hd2. eexists. split; [done|]. split.
  - intros p Hp. destruct (Hh p Hp) as [Hf Hd]. cbn [put_file files dirs]. unfold fs_put. by rewrite Hf, Hd.
  - rewrite <- Hl. by rewrite (effects_app h _ (Wrote (root ++ (l ++ [name])) data)).
Qed.

Lemma println_step line fs ds acts h : has fs ds acts h -> exists h', println line h = (Returned tt, h') /\ has fs ds acts h'.
Proof.
  intros [Hh Hl]. eexists. split; [done|]. split; [done|]. rewrite <- Hl. rewrite (effects_app h _ (Said line)) by done.
  by rewrite app_nil_r.
Qed.

(** A user program is built and found. *)
Definition program_cmd (name : list byte) : Cmd := mkCmd (str "cargo") (program_args name) (Some root) program_flags.

Lemma build_program_step name fs ds l h : let p := artifact root none_target (str "release") name in
  succeeds root binary (program_cmd name, p) -> has fs ds l h ->
  exists h', build_program os root name h = (Returned p, h') /\ has fs ds (l ++ [Ran (program_cmd name)]) h' /\
    files h' p = Some (binary p).
Proof.
  intros p Hs Hh. destruct (build_step _ _ _ _ fs ds l h Hs Hh) as (h' & Hr & Hh' & Hf & He). exists h'.
  unfold build_program. rewrite (tool_step _ _ _ _ _ Hr). unfold path_exists, mbind, tool_bind. fold p in He |- *.
  by rewrite He.
Qed.

Lemma read_file_step {B} (f : list byte -> tool B) p data h : files h p = Some data -> (read_file p ≫= f) h = f data h.
Proof. intros Hf. apply tool_step. unfold read_file. by rewrite Hf. Qed.

Definition kernel_image : path := artifact root none_target (str "debug") (str "turnix-kernel-image").
Definition release (name : list byte) : path := artifact root none_target (str "release") name.
Definition loader_image : path := artifact root uefi_target (str "debug") (str "turnix-uefi-loader.efi").

(** The archive of the programs just built. *)
Definition built_archive : list byte :=
  initramfs (binary (release (str "init"))) (binary (release (str "shell"))) (binary (release (str "fault-tester"))).

Lemma ds_add_self l ds : l <> [] -> ds_add (root ++ l) ds (root ++ l) = true.
Proof.
  intros Hl. unfold ds_add. rewrite (bool_decide_eq_true_2 (_ ∈ _)); [by rewrite orb_true_r|]. apply elem_of_prefixes.
  split; [|done]. by intros [-> ->]%app_eq_nil.
Qed.

Lemma ds_add_other l l' ds : bool_decide (l' `prefix_of` l) = false -> ds (root ++ l') = false ->
  ds_add (root ++ l) ds (root ++ l') = false.
Proof.
  intros Hb Hd. unfold ds_add. rewrite Hd, bool_decide_eq_false_2; [done|].
  intros [_ Hp]%elem_of_prefixes. by apply (below_not_prefix root l' l Hb).
Qed.

Lemma copy_step src dst data h : files h src = Some data -> copy src dst h = write_file dst data h.
Proof. apply read_file_step. Qed.

(** The packaging, from where the kernel is staged. *)
Abbreviation staged := [str "out"; str "esp"; str "turnix"].

Definition kernel_cmd : Cmd := mkCmd (str "cargo") kernel_args (Some root) kernel_flags.
Definition loader_cmd : Cmd := mkCmd (str "cargo") loader_args (Some root) [].

(** All that [build_uefi] does. *)
Definition script : list action :=
  [Ran kernel_cmd; Made (staged_dir root); Wrote (kernel_elf root) (binary kernel_image);
   Ran (program_cmd (str "init")); Ran (program_cmd (str "shell")); Ran (program_cmd (str "fault-tester"));
   Wrote (initramfs_img root) built_archive;
   Ran loader_cmd; Made (esp_boot_dir root); Wrote (bootx64_efi root) (binary loader_image)].

Lemma package_steps fs ds l h : Forall (succeeds root binary) (take 3 (drop 1 (builds root))) -> has fs ds l h ->
  ds (root ++ staged) = true -> ds (initramfs_img root) = false ->
  exists h', package_initramfs os root (root ++ staged) h = (Returned tt, h') /\
    has (fs_put (initramfs_img root) built_archive fs) ds (l ++ take 4 (drop 3 script)) h'.
Proof.
  intros Hs Hh Hin Hd. cbn [builds take drop] in Hs. rewrite !Forall_cons in Hs. destruct Hs as (Hs2 & Hs3 & Hs4 & _).
  cbn [script take drop]. unfold initramfs_img in *. rewrite staged_dir_below, join_app in *. unfold package_initramfs. rewrite !join_app.
  destruct (build_program_step (str "init") _ _ _ h Hs2 Hh) as (h4 & Hr4 & Hh4 & Hf4).
  unfold build_userland. rewrite (tool_step _ _ _ _ _ Hr4), (read_file_step _ _ _ _ Hf4).
  destruct (build_program_step (str "shell") _ _ _ h4 Hs3 Hh4) as (h5 & Hr5 & Hh5 & Hf5).
  unfold build_shell. rewrite (tool_step _ _ _ _ _ Hr5), (read_file_step _ _ _ _ Hf5).
  destruct (build_program_step (str "fault-tester") _ _ _ h5 Hs4 Hh5) as (h6 & Hr6 & Hh6 & Hf6).
  unfold build_fault_tester. rewrite (tool_step _ _ _ _ _ Hr6), (read_file_step _ _ _ _ Hf6).
  destruct (write_step staged (str "initramfs.img") built_archive _ _ _ h6 eq_refl eq_refl Hh6 Hin Hd) as (h7 & Hr7 & Hh7).
  change (initramfs _ _ _) with built_archive. cbv zeta. rewrite (tool_step _ _ _ _ _ Hr7).
  destruct (println_step (str "Initramfs created at " ++ display os (root ++ (staged ++ [str "initramfs.img"])) ++ str " (" ++
    dec (len built_archive) ++ str " bytes, including 'init')") _ _ _ h7 Hh7) as (h8 & Hr8 & Hh8).
  exists h8. split; [exact Hr8|]. by rewrite <- !app_assoc in Hh8.
Qed.

Lemma build_program_fails name status fs ds l h :
  fails root status (program_cmd name, artifact root none_target (str "release") name) -> has fs ds l h ->
  exists h', build_program os root name h = (Exited (default 1 status), h') /\ has fs ds (l ++ [Ran (program_cmd name)]) h'.
Proof.
  intros Hf Hh. destruct (build_step_fails _ _ _ _ _ fs ds l h Hf Hh) as (h' & Hr & Hh'). exists h'. split; [|done].
  unfold build_program. by apply tool_exit.
Qed.

Lemma package_fails i b status fs ds l h : Forall (succeeds root binary) (take i (take 3 (drop 1 (builds root)))) ->
  take 3 (drop 1 (builds root)) !! i = Some b -> fails root status b -> has fs ds l h ->
  exists h', package_initramfs os root (root ++ staged) h = (Exited (default 1 status), h') /\
    has fs ds (l ++ take (i + 1) (drop 3 script)) h'.
Proof.
  intros Hs Hi Hf Hh. unfold package_initramfs, build_userland, build_shell, build_fault_tester. cbn [builds take drop] in Hi.
  destruct i as [|i]; [injection Hi as <-|].
  { destruct (build_program_fails _ _ _ _ _ h Hf Hh) as (h' & Hr & Hh'). exists h'. split; [by apply tool_exit|done]. }
  cbn [builds take drop] in Hs. apply Forall_cons in Hs as [Hs2 Hs].
  destruct (build_program_step (str "init") _ _ _ h Hs2 Hh) as (h4 & Hr4 & Hh4 & Hf4).
  rewrite (tool_step _ _ _ _ _ Hr4), (read_file_step _ _ _ _ Hf4). destruct i as [|i]; [injection Hi as <-|].
  { destruct (build_program_fails _ _ _ _ _ h4 Hf Hh4) as (h' & Hr & Hh'). exists h'. split; [by apply tool_exit|].
    by rewrite <- !app_assoc in Hh'. }
  cbn [take] in Hs. apply Forall_cons in Hs as [Hs3 Hs].
  destruct (build_program_step (str "shell") _ _ _ h4 Hs3 Hh4) as (h5 & Hr5 & Hh5 & Hf5).
  rewrite (tool_step _ _ _ _ _ Hr5), (read_file_step _ _ _ _ Hf5). destruct i as [|i]; [injection Hi as <-|done].
  destruct (build_program_fails _ _ _ _ _ h5 Hf Hh5) as (h' & Hr & Hh'). exists h'. split; [by apply tool_exit|].
  by rewrite <- !app_assoc in Hh'.
Qed.

(** Up to the packaging. *)
Lemma stage_kernel fs ds l h : succeeds root binary (kernel_cmd, kernel_image) -> has fs ds l h ->
  (forall q, q ∈ prefixes (staged_dir root) -> fs q = None) -> ds (kernel_elf root) = false ->
  exists h', build_kernel_image os root h = (_ ← package_initramfs os root (root ++ staged); mret (kernel_elf root)) h' /\
    has (fs_put (kernel_elf root) (binary kernel_image) fs) (ds_add (root ++ staged) ds) (l ++ take 3 script) h'.
Proof.
  intros Hs1 Hh Hno Hd1. cbn [script take]. unfold build_kernel_image, kernel_elf in *. rewrite staged_dir_below, !join_app in *.
  destruct (build_step _ _ _ _ fs ds l h Hs1 Hh) as (h1 & Hr1 & Hh1 & Hf1 & He1). rewrite (tool_step _ _ _ _ _ Hr1).
  fold kernel_image.
  rewrite (tool_step (path_exists kernel_image) _ h1 true h1) by (unfold path_exists; by rewrite He1). cbn [negb]. cbv zeta.
  destruct (create_dir_step staged fs ds _ h1 eq_refl Hh1 Hno) as (h2 & Hr2 & Hh2 & Hf2). rewrite (tool_step _ _ _ _ _ Hr2).
  rewrite <- Hf2 in Hf1. pose proof (copy_step _ (root ++ (staged ++ [str "kernel.elf"])) _ _ Hf1) as Hcopy.
  destruct (write_step staged (str "kernel.elf") (binary kernel_image) fs _ _ h2 eq_refl eq_refl Hh2
    (ds_add_self staged ds ltac:(done)) (ds_add_other staged (staged ++ [str "kernel.elf"]) ds eq_refl Hd1)) as (h3 & Hr3 & Hh3).
  rewrite <- Hcopy in Hr3. rewrite (tool_step _ _ _ _ _ Hr3). exists h3. split; [done|]. by rewrite <- !app_assoc in Hh3.
Qed.

Lemma not_in_prefixes l l' q : bool_decide (l' `prefix_of` l) = false -> q ∈ prefixes (root ++ l) -> q <> root ++ l'.
Proof. intros Hb [_ Hp]%elem_of_prefixes ->. by apply (below_not_prefix root l' l Hb). Qed.

Abbreviation boot := [str "out"; str "esp"; str "EFI"; str "BOOT"].

(** The files of the host after a build. *)
Definition kernel_files (fs : path -> option (list byte)) : path -> option (list byte) :=
  fs_put (initramfs_img root) built_archive (fs_put (kernel_elf root) (binary kernel_image) fs).
Definition staged_files (fs : path -> option (list byte)) : path -> option (list byte) :=
  fs_put (bootx64_efi root) (binary loader_image) (kernel_files fs).

(** The first four compilations: what holds before the loader is built. *)
Lemma kernel_steps h : Forall (succeeds root binary) (take 4 (builds root)) -> stageable root h ->
  exists h', build_kernel_image os root h = (Returned (kernel_elf root), h') /\
    has (kernel_files (files h)) (ds_add (root ++ staged) (dirs h)) (effects h ++ take 7 script) h'.
Proof.
  intros Hs [Hno Hfree]. assert (has (files h) (dirs h) (effects h) h) as Hh by done.
  pose proof (Forall_inv Hs) as Hs1. assert (Forall (succeeds root binary) (take 3 (drop 1 (builds root)))) as Hs2 by exact (Forall_inv_tail Hs).
  destruct (stage_kernel _ _ _ h Hs1 Hh) as (h1 & -> & Hh1); [intros q Hq; apply Hno; set_solver|apply Hfree; set_solver|].
  assert (dirs h (initramfs_img root) = false) as Hd by (apply Hfree; set_solver).
  destruct (package_steps _ _ _ h1 Hs2 Hh1) as (h2 & Hr2 & Hh2); [by apply ds_add_self| |].
  { unfold initramfs_img in *. rewrite staged_dir_below, join_app in *. by apply ds_add_other. }
  exists h2. split; [by rewrite (tool_step _ _ _ _ _ Hr2)|]. by rewrite <- app_assoc in Hh2.
Qed.

Lemma build_uefi_steps h : Forall (succeeds root binary) (builds root) -> stageable root h ->
  exists h', build_uefi os root h = (Returned (bootx64_efi root), h') /\ effects h' = effects h ++ script /\
    forall p, kept root p -> files h' p = staged_files (files h) p.
Proof.
  intros Hs Hst. pose proof (Forall_take _ 4 _ Hs) as Hs4. rewrite Forall_forall in Hs.
  assert (succeeds root binary (loader_cmd, loader_image)) as Hs5 by (apply Hs; unfold builds; set_solver).
  destruct (kernel_steps h Hs4 Hst) as (h1 & Hr1 & Hh1). destruct Hst as [Hno Hfree].
  assert (dirs h (bootx64_efi root) = false) as Hd by (apply Hfree; set_solver).
  unfold build_uefi. rewrite (tool_step _ _ _ _ _ Hr1). unfold run_or_die.
  destruct (build_step _ _ _ _ _ _ _ h1 Hs5 Hh1) as (h2 & Hr2 & Hh2 & Hf2 & He2). rewrite (tool_step _ _ _ _ _ Hr2).
  fold loader_image.
  rewrite (tool_step (path_exists loader_image) _ h2 true h2) by (unfold path_exists; by rewrite He2). cbn [negb]. cbv zeta.
  unfold staged_files, kernel_files in *. cbn [script take app] in *. unfold bootx64_efi, kernel_elf, initramfs_img in *.
  rewrite esp_boot_dir_below, staged_dir_below, !join_app in *.
  destruct (create_dir_step boot _ _ _ h2 eq_refl Hh2) as (h3 & Hr3 & Hh3 & Hf3).
  { intros q Hq. unfold fs_put. rewrite !bool_decide_eq_false_2 by (revert Hq; by apply not_in_prefixes).
    apply Hno. set_solver. }
  rewrite (tool_step _ _ _ _ _ Hr3). rewrite <- Hf3 in Hf2.
  pose proof (copy_step _ (root ++ (boot ++ [str "BOOTX64.EFI"])) _ _ Hf2) as Hcopy.
  destruct (write_step boot (str "BOOTX64.EFI") (binary loader_image) _ _ _ h3 eq_refl eq_refl Hh3) as (h4 & Hr4 & Hh4).
  { by apply ds_add_self. }
  { apply ds_add_other; [done|]. by apply ds_add_other. }
  rewrite <- Hcopy in Hr4. rewrite (tool_step _ _ _ _ _ Hr4).
  destruct (println_step (str "Kernel image staged at " ++ display os (root ++ (staged ++ [str "kernel.elf"]))) _ _ _ h4 Hh4)
    as (h5 & Hr5 & [Hh5 Hl5]).
  rewrite (tool_step _ _ _ _ _ Hr5). exists h5. split; [reflexivity|]. split; [|intros p Hp; exact (proj1 (Hh5 p Hp))].
  rewrite Hl5, <- !app_assoc. unfold script, bootx64_efi, kernel_elf, initramfs_img.
  by rewrite esp_boot_dir_below, staged_dir_below, !join_app.
Qed.

(** How far the script gets when compilation [i] fails: that command is the
    last thing the tool does. *)
Definition until (i : nat) : list action := take (nth i [1; 4; 5; 6; 8]%nat 0%nat) script.

(** The first compilation that fails ends the tool with its code. *)
Lemma build_uefi_fails i b status h : Forall (succeeds root binary) (take i (builds root)) -> builds root !! i = Some b ->
  fails root status b -> stageable root h ->
  exists h', build_uefi os root h = (Exited (default 1 status), h') /\ effects h' = effects h ++ until i /\
    forall p, kept root p -> p ∉ [kernel_elf root; initramfs_img root] -> files h' p = files h p.
Proof.
  intros Hs Hi Hf Hst. unfold build_uefi. destruct (decide (i = 4)%nat) as [->|Hne].
  - injection Hi as <-. destruct (kernel_steps h Hs Hst) as (h1 & Hr1 & Hh1). rewrite (tool_step _ _ _ _ _ Hr1).
    destruct (build_step_fails _ _ _ _ _ _ _ _ h1 Hf Hh1) as (h2 & Hr2 & Hh2 & Hl2). exists h2. split; [by apply tool_exit|].
    split; [by rewrite Hl2, <- app_assoc|]. intros p Hp Hn. rewrite (proj1 (Hh2 p Hp)). rewrite !not_elem_of_cons in Hn.
    unfold kernel_files, fs_put. destruct Hn as (Hn1 & Hn2 & _). by rewrite !bool_decide_eq_false_2.
  - destruct i as [|i].
    { injection Hi as <-. destruct (build_step_fails _ _ _ _ _ (files h) (dirs h) (effects h) h Hf ltac:(done)) as (h2 & Hr2 & Hh2 & Hl2).
      exists h2. split; [apply tool_exit; unfold build_kernel_image; by apply tool_exit|]. split; [done|]. intros p Hp _. apply Hh2, Hp. }
    destruct Hst as [Hno Hfree]. pose proof (Forall_inv Hs) as Hs1. pose proof (Forall_inv_tail Hs) as Hs2.
    destruct (stage_kernel (files h) (dirs h) (effects h) h Hs1 ltac:(done)) as (h1 & Hr1 & Hh1);
      [intros q Hq; apply Hno; set_solver|apply Hfree; set_solver|].
    assert (i < 3)%nat as Hi3.
    { apply lookup_lt_Some in Hi. cbn [builds length] in Hi. lia. }
    assert (Forall (succeeds root binary) (take i (take 3 (drop 1 (builds root))))) as Hs3.
    { rewrite take_take, Nat.min_l by lia. exact Hs2. }
    assert (take 3 (drop 1 (builds root)) !! i = Some b) as Hi' by (by rewrite lookup_take_lt, lookup_drop).
    destruct (package_fails i b status _ _ _ h1 Hs3 Hi' Hf Hh1) as (h2 & Hr2 & Hh2 & Hl2).
    exists h2. split; [apply tool_exit; rewrite Hr1; by apply tool_exit|]. split.
    + rewrite Hl2, <- app_assoc. f_equal. destruct i as [|[|[|]]]; [done..|lia].
    + intros p Hp Hn. rewrite (proj1 (Hh2 p Hp)). rewrite !not_elem_of_cons in Hn. destruct Hn as (Hn1 & _). unfold fs_put. by rewrite bool_decide_eq_false_2.
Qed.
End Staging.

(** The files the archive of the build holds. *)
Definition archive_files (init_data shell_data fault_tester_data : list byte) : list (list byte * list byte) :=
  [(str "initramfs.txt", str "Hello from Initramfs!" ++ [x0a] ++ str "This is a kernel experiment." ++ [x0a]);
   (str "init", init_data); (str "shell", shell_data); (str "fault-tester", fault_tester_data);
   (str "font.psf", create_minimal_psf2_font)].

Lemma initramfs_pack a b c : initramfs a b c = pack (archive_files a b c).
Proof. done. Qed.

Lemma archive_names_ok a b c : Forall (fun f => name_ok f.1) (archive_files a b c).
Proof. unfold archive_files. repeat (apply Forall_cons; split; [solve_name_ok|]). by apply Forall_nil. Qed.

(** ** Properties *)

(** C18: when the five compilations succeed, [build_uefi] returns the path of
    the boot loader, and apart from printing it does exactly what [script]
    says: the kernel is built and staged, the three programs are built and
    packed, the loader is built and staged, each command run once and in this
    order, and no other file written.  The boot partition then holds the three
    binaries the machine starts from: the loader as [EFI/BOOT/BOOTX64.EFI], the
    kernel as [turnix/kernel.elf], and as [turnix/initramfs.img] an archive
    which the kernel, mounting it from memory at boot, sees as the default
    entries and exactly the text file, [init], [shell], [fault-tester] and the
    font; the other files in [out], which cargo leaves alone, are as before. *)
Theorem build_stages_boot_partition `{Programs} os root binary h :
  Forall (succeeds root binary) (builds root) -> stageable root h ->
  exists h', build_uefi os root h = (Returned (bootx64_efi root), h') /\
    effects h' = effects h ++ script root binary /\
    files h' (bootx64_efi root) = Some (binary (loader_image root)) /\
    files h' (kernel_elf root) = Some (binary (kernel_image root)) /\
    (forall p, kept root p -> p ∉ [bootx64_efi root; kernel_elf root; initramfs_img root] ->
       files h' p = files h p) /\
    exists archive, files h' (initramfs_img root) = Some archive /\
      forall m addr, len archive <= isize_max -> addr <> 0 -> read_mem m addr (len archive) = archive ->
        init_from_ramdisk m Vfs.new addr (len archive) =
        Ret (mkVfs (default_entries ++ map file_entry
              (archive_files (binary (release root (str "init"))) (binary (release root (str "shell")))
                 (binary (release root (str "fault-tester")))))
              (replicate MAX_OPEN_FILES None) (str "/")).
Proof.
  intros Hs Hst. destruct (build_uefi_steps os root binary h Hs Hst) as (h' & Hr & He & Hf). exists h'. split; [exact Hr|]. split; [exact He|].
  assert (forall l, aside l -> files h' (root ++ l) = staged_files root binary (files h) (root ++ l)) as Hl.
  { intros l Ha. by apply Hf, aside_kept. }
  unfold staged_files, kernel_files, bootx64_efi, kernel_elf, initramfs_img, fs_put in *.
  rewrite esp_boot_dir_below, staged_dir_below, !join_app in *.
  split_and!.
  - rewrite Hl by done. by rewrite bool_decide_eq_true_2.
  - rewrite Hl by done. rewrite !(bool_decide_eq_false_2 (root ++ _ = _)) by (by apply below_neq). by rewrite bool_decide_eq_true_2.
  - intros p Hp Hn. rewrite !not_elem_of_cons in Hn. destruct Hn as (Hn1 & Hn2 & Hn3 & _). rewrite Hf by done.
    by rewrite !bool_decide_eq_false_2.
  - eexists. split.
    + rewrite Hl by done. rewrite (bool_decide_eq_false_2 (root ++ _ = _)) by (by apply below_neq). by rewrite bool_decide_eq_true_2.
    + unfold built_archive. rewrite initramfs_pack. intros m addr Hlen Ha Hm. by apply mount_pack; [apply archive_names_ok|..].
Qed.

(** C19: for each of the five compilations, if it is the first to fail, the
    tool exits with its code (1 when a signal ended it), and the failing
    command is the last thing the tool did: its effects are the steps of
    [script] up to that command.  The loader is not staged, and of the files
    in [out] only the kernel and the archive may have changed. *)
Theorem build_reports_first_failure `{Programs} os root binary h i b status :
  Forall (succeeds root binary) (take i (builds root)) -> builds root !! i = Some b -> fails root status b -> stageable root h ->
  exists h', build_uefi os root h = (Exited (default 1 status), h') /\
    effects h' = effects h ++ until root binary i /\ last (until root binary i) = Some (Ran b.1) /\
    forall p, kept root p -> p ∉ [kernel_elf root; initramfs_img root] -> files h' p = files h p.
Proof.
  intros Hs Hi Hf Hst. destruct (build_uefi_fails os root binary i b status h Hs Hi Hf Hst) as (h' & Hr & He & Hk).
  exists h'. split_and!; [exact Hr|exact He| |exact Hk].
  destruct i as [|[|[|[|[|i]]]]]; [injection Hi as <-; reflexivity..|done].
Qed.

(** A kernel that reports success or failure through the emulator's debug
    port (value 0x10 or 0x11, exit status twice the value plus one) makes the
    tool return or exit with 35. *)
Lemma debug_exit_reported (exit_status : Z -> Z) h : (forall v, exit_status v = Z.lor (Z.shiftl v 1) 1) ->
  (exists h', handle_qemu_status (Some (exit_status 0x10)) h = (Returned tt, h')) /\
  (exists h', handle_qemu_status (Some (exit_status 0x11)) h = (Exited 35, h')).
Proof. intros Hx. rewrite !Hx. split; by eexists. Qed.

(** ** Concrete inputs *)

Definition demo_root : path := [root_dir; str "w"].
Definition demo_binary (p : path) : list byte := default [] (last p).

(** A host whose cargo builds everything, or all but the last. *)
Definition demo_run (bs : list (Cmd * path)) (c : Cmd) (h : Host) : option (option Z * list byte) * Host :=
  match list_find (fun b => b.1 = c) bs with
  | Some (_, b) => (Some (Some 0, []), put_file b.2 (demo_binary b.2) h)
  | None => (Some (Some 101, []), h)
  end.
Definition demo_programs (n : nat) : Programs := {| run_program := demo_run (take n (builds demo_root)) |}.

Definition demo_host : Host := mkHost (fun _ => None) (fun p => bool_decide (p ∈ prefixes demo_root)) (fun _ => None) [].

Lemma demo_stageable : stageable demo_root demo_host.
Proof.
  split; [done|]. intros q Hq. rewrite !elem_of_cons in Hq. destruct Hq as [->|[->|[->|Hq]]]; [by vm_compute..|].
  by apply elem_of_nil in Hq.
Qed.

Lemma demo_succeeds n b : (n <= 5)%nat -> b ∈ take n (builds demo_root) -> @succeeds (demo_programs n) demo_root demo_binary b.
Proof.
  intros Hn Hb h. cbn [run_program demo_programs]. unfold demo_run.
  destruct (list_find _ _) as [[i b']|] eqn:E.
  - apply list_find_Some in E as (Hi & He & _).
    assert (b' = b) as ->.
    { assert (NoDup (map fst (builds demo_root))) as Hnd by (apply (bool_decide_unpack _); by vm_compute).
      apply list_elem_of_lookup in Hb as [j Hj]. rewrite lookup_take_Some in Hi, Hj. destruct Hi as [Hi _], Hj as [Hj _].
      assert (i = j) as ->; [|congruence]. apply (NoDup_lookup (map fst (builds demo_root)) i j b.1 Hnd).
      - change (map ?f ?l) with (f <$> l). rewrite list_lookup_fmap, Hi. cbn. by rewrite He.
      - change (map ?f ?l) with (f <$> l). by rewrite list_lookup_fmap, Hj. }
    eexists _, _. split; [done|]. cbn [put_file files dirs env_var]. split; [by rewrite bool_decide_eq_true_2|].
    intros p Hp. split; [|done]. rewrite bool_decide_eq_false_2; [done|]. intros ->.
    assert (Forall (fun b => ~ kept demo_root b.2) (builds demo_root)) as Ht.
    { unfold kept. apply (bool_decide_unpack _). by vm_compute. }
    rewrite Forall_forall in Ht. apply (Ht b); [|done]. rewrite <- (take_drop n (builds demo_root)). apply elem_of_app. by left.
  - apply list_find_None in E. rewrite Forall_forall in E. by destruct (E b Hb).
Qed.

Lemma build_stages_boot_partition_witness :
  exists h', @build_uefi (demo_programs 5) OtherOs demo_root demo_host = (Returned (bootx64_efi demo_root), h') /\
    files h' (kernel_elf demo_root) = Some (str "turnix-kernel-image").
Proof.
  destruct (@build_stages_boot_partition (demo_programs 5) OtherOs demo_root demo_binary demo_host) as (h' & Hr & _ & _ & Hk & _).
  - apply Forall_forall. intros b Hb. by apply (demo_succeeds 5).
  - exact demo_stageable.
  - exists h'. split; [exact Hr|exact Hk].
Defined.

Lemma build_reports_first_failure_witness :
  exists h', @build_uefi (demo_programs 4) OtherOs demo_root demo_host = (Exited 101, h') /\
    files h' (bootx64_efi demo_root) = None /\ length (effects h') = 8%nat.
Proof.
  destruct (@build_reports_first_failure (demo_programs 4) OtherOs demo_root demo_binary demo_host 4
    (mkCmd (str "cargo") loader_args (Some demo_root) [], loader_image demo_root) (Some 101)) as (h' & Hr & He & _ & Hk).
  - apply Forall_forall. intros b Hb. apply (demo_succeeds 4); [lia|done].
  - reflexivity.
  - split; [done|]. intros h. eexists _, _. split; [by vm_compute|done].
  - exact demo_stageable.
  - exists h'. split; [exact Hr|]. split; [|by rewrite He].
    rewrite Hk; [done| |apply (bool_decide_unpack _); by vm_compute]. left. apply (bool_decide_unpack _). by vm_compute.
Defined.
