(* ===== verification/Video.v ===== *)
(** * The framebuffer console ([kernel/src/drivers/video])

    [psf.rs]: the PSF2 font; [mod.rs]: the framebuffer and the text console
    drawn on it, which is the console behind the terminal.  Video memory is a
    map from (four-byte aligned) addresses to the 32-bit word stored there:
    every access of the driver is a whole number of aligned words. *)

From S2P Require Import Prelude Abi Utf8 Tty Ramdisk.

(** ** The font *)

Record Psf2Header := mkPsf2Header {
  magic : list byte; version : Z; header_size : Z; psf_flags : Z; psf_length : Z;
  char_size : Z; height : Z; width : Z }.

Record Psf2Font := mkPsf2Font { header : Psf2Header; glyphs : list byte }.

(** [size_of::<Psf2Header>()]. *)
Definition size_of_header : Z := 32.

(** The [repr(C)] header at the start of the data. *)
Definition read_header (data : list byte) : Psf2Header :=
  mkPsf2Header (sub_list data 0 4) (field data 4 4) (field data 8 4) (field data 12 4)
    (field data 16 4) (field data 20 4) (field data 24 4) (field data 28 4).

(** [Psf2Font::new] on a slice at address [addr]; the reference to the header
    must be aligned. *)
Definition Psf2Font_new (addr : Z) (data : list byte) : outcome (option Psf2Font) :=
  if len data <? size_of_header then Ret None else
  _ ← assert_b (addr mod 4 =? 0);
  let h := read_header data in
  if negb (bool_decide (magic h = [x72; xb5; x4a; x86])) then Ret None else
  let glyphs_start := header_size h in
  size ← mul_u 32 (psf_length h) (char_size h);
  glyphs_end ← add_u 64 glyphs_start size;
  if len data <? glyphs_end then Ret None else
  g ← slice data glyphs_start glyphs_end;
  Ret (Some (mkPsf2Font h g)).

Definition get_glyph (f : Psf2Font) (c : Z) : outcome (option (list byte)) :=
  if psf_length (header f) <=? c then Ret None else
  start ← mul_u 64 c (char_size (header f));
  stop ← add_u 64 start (char_size (header f));
  g ← slice (glyphs f) start stop;
  Ret (Some g).

(** ** The framebuffer *)

Record Framebuffer := mkFramebuffer {
  addr : Z; fbwidth : Z; fbheight : Z; pitch : Z; format : Z }.

Definition Framebuffer_new (fb : BootFramebuffer) : Framebuffer :=
  mkFramebuffer (fb_addr fb) (fb_width fb) (fb_height fb) (fb_pitch fb) (fb_format fb).

Definition vram : Type := Z -> Z.

(** [(a as *mut u32).write_volatile(v)]: the address is checked for null and
    alignment. *)
Definition write_volatile (m : vram) (a v : Z) : outcome vram :=
  _ ← assert_b (negb (a =? 0) && (a mod 4 =? 0));
  Ret (fun x => if x =? a then v else m x).

(** The word stored for a colour 0xRRGGBB. *)
Definition encode_color (format color : Z) : Z :=
  if format =? 1 then color else
  let red := Z.shiftr (Z.land color 0x00ff0000) 16 in
  let green := Z.land color 0x0000ff00 in
  let blue := Z.shiftl (Z.land color 0x000000ff) 16 in
  Z.lor (Z.lor blue green) red.

Definition set_pixel (fb : Framebuffer) (m : vram) (x y color : Z) : outcome vram :=
  if (fbwidth fb <=? x) || (fbheight fb <=? y) then Ret m else
  row ← mul_u 32 y (pitch fb);
  cell ← add_u 32 row x;
  pixel_offset ← mul_u 64 cell 4;
  a ← add_u 64 (addr fb) pixel_offset;
  write_volatile m a (encode_color (format fb) color).

(** [(self.addr + (i as u64 * 4)) as *mut u32], written with [color] for
    every [i] below [n]. *)
Definition fill (m : vram) (base n color : Z) : outcome vram :=
  for_each (fun m i => o ← mul_u 64 i 4; a ← add_u 64 base o; write_volatile m a color) (seqZ 0 n) m.

Definition clear (fb : Framebuffer) (m : vram) (color : Z) : outcome vram :=
  n ← mul_u 32 (fbheight fb) (pitch fb);
  fill m (addr fb) n color.

(** The cells of [for i in ys { for j in xs { .. } }]. *)
Definition for_cells {S} (f : S -> Z -> Z -> outcome S) (ys xs : list Z) (s : S) : outcome S :=
  for_each (fun s i => for_each (fun s j => f s i j) xs s) ys s.

Definition draw_rect (fb : Framebuffer) (m : vram) (x y w h color : Z) : outcome vram :=
  bottom ← add_u 32 y h;
  for_each (fun m i =>
    right ← add_u 32 x w;
    for_each (fun m j => set_pixel fb m j i color) (seqZ x (right - x)) m) (seqZ y (bottom - y)) m.

(** ** The text console *)

Record TextConsole := mkTextConsole {
  font : Psf2Font; cursor_x : Z; cursor_y : Z; foreground : Z; background : Z }.

Definition TextConsole_new (f : Psf2Font) : TextConsole := mkTextConsole f 0 0 0xFFFFFF 0x001a2a.

(** The globals [CONSOLE] (when present) and [FRAMEBUFFER], and video memory. *)
Record Screen := mkScreen { con : TextConsole; framebuffer : option Framebuffer; pixels : vram }.

Definition set_cursor (c : TextConsole) (x y : Z) : TextConsole :=
  mkTextConsole (font c) x y (foreground c) (background c).

Definition fheight (c : TextConsole) : Z := height (header (font c)).
Definition fwidth (c : TextConsole) : Z := width (header (font c)).

(** [core::ptr::copy(src, dest, n)] on bytes, [n] and both addresses whole
    words. *)
Definition copy (m : vram) (src dest n : Z) : vram :=
  fun a => if (dest <=? a) && (a <? dest + n) then m (a - dest + src) else m a.

Definition scroll (c : TextConsole) (fb : Framebuffer) (m : vram) : outcome (TextConsole * vram) :=
  l ← mul_u 32 (pitch fb) (fheight c);
  line_size ← mul_u 64 l 4;
  t ← mul_u 32 (pitch fb) (fbheight fb);
  total_size ← mul_u 64 t 4;
  src ← add_u 64 (addr fb) line_size;
  n ← sub_u total_size line_size;
  _ ← assert_b ((n =? 0) || negb (addr fb =? 0));
  let m := copy m src (addr fb) n in
  last_line_ptr ← add_u 64 (addr fb) n;
  m ← fill m last_line_ptr (line_size / 4) (background c);
  y ← sub_u (fbheight fb) (fheight c);
  Ret (set_cursor c (cursor_x c) y, m).

Definition newline_locked (c : TextConsole) (fb : Framebuffer) (m : vram) : outcome (TextConsole * vram) :=
  let c := set_cursor c 0 (cursor_y c) in
  two ← mul_u 32 2 (fheight c);
  bottom ← add_u 32 (cursor_y c) two;
  if fbheight fb <? bottom then scroll c fb m
  else y ← add_u 32 (cursor_y c) (fheight c); Ret (set_cursor c 0 y, m).

Definition newline (s : Screen) : outcome Screen :=
  match framebuffer s with
  | Some fb => r ← newline_locked (con s) fb (pixels s); Ret (mkScreen r.1 (Some fb) r.2)
  | None => Ret s
  end.

(** The bit of a glyph for a pixel. *)
Definition glyph_bit (glyph : list byte) (bytes_per_line row col : Z) : outcome bool :=
  r ← mul_u 32 row bytes_per_line;
  byte_idx ← add_u 32 r (col / 8);
  let bit_idx := 7 - col mod 8 in
  b ← idx glyph byte_idx;
  Ret (Z.land (Z.shiftr (u8 b) bit_idx) 1 =? 1).

Definition draw_cell (c : TextConsole) (fb : Framebuffer) (glyph : list byte) (bytes_per_line : Z)
    (m : vram) (row col : Z) : outcome vram :=
  is_set ← glyph_bit glyph bytes_per_line row col;
  let color := if (is_set : bool) then foreground c else background c in
  x ← add_u 32 (cursor_x c) col;
  y ← add_u 32 (cursor_y c) row;
  set_pixel fb m x y color.

Definition write_char (s : Screen) (ch : Z) : outcome Screen :=
  if ch =? 10 then newline s else
  g ← get_glyph (font (con s)) ch;
  match g with
  | None => Ret s
  | Some glyph =>
    b ← add_u 32 (fwidth (con s)) 7;
    let bytes_per_line := b / 8 in
    match framebuffer s with
    | None => Ret s
    | Some fb =>
      right ← add_u 32 (cursor_x (con s)) (fwidth (con s));
      r ← (if fbwidth fb <? right then newline_locked (con s) fb (pixels s)
           else Ret (con s, pixels s));
      let c := r.1 in
      m ← for_cells (draw_cell c fb glyph bytes_per_line) (seqZ 0 (fheight c)) (seqZ 0 (fwidth c)) r.2;
      x ← add_u 32 (cursor_x c) (fwidth c);
      Ret (mkScreen (set_cursor c x (cursor_y c)) (Some fb) m)
    end
  end.

Definition backspace (s : Screen) : outcome Screen :=
  let c := con s in
  if fwidth c <=? cursor_x c then
    x ← sub_u (cursor_x c) (fwidth c);
    let c := set_cursor c x (cursor_y c) in
    match framebuffer s with
    | Some fb =>
        m ← draw_rect fb (pixels s) (cursor_x c) (cursor_y c) (fwidth c) (fheight c) (background c);
        Ret (mkScreen c (Some fb) m)
    | None => Ret (mkScreen c None (pixels s))
    end
  else Ret s.

(** [s.chars()] of a string slice. *)
Definition chars (s : list byte) : list Z := default [] (decode s).

Definition write_str (s : Screen) (text : list byte) : outcome Screen :=
  for_each write_char (chars text) s.

#[global] Instance screen_console : Console Screen := {
  con_write_char := write_char;
  con_backspace := backspace;
  con_write_str := write_str }.

(** [init]: the framebuffer is used when its address is not null; it is
    cleared and three rectangles are drawn. *)
Definition init (fb_info : BootFramebuffer) (m : vram) : outcome (option Framebuffer * vram) :=
  if fb_addr fb_info =? 0 then Ret (None, m) else
  let f := Framebuffer_new fb_info in
  m ← clear f m 0x001a2a;
  m ← draw_rect f m 20 20 100 100 0x00aaff;
  m ← draw_rect f m 140 20 100 100 0xffaa00;
  m ← draw_rect f m 260 20 100 100 0x00ffaa;
  Ret (Some f, m).

(** [init_console], with the font data leaked at address [a]. *)
Definition init_console (a : Z) (data : list byte) (fb : option Framebuffer) (m : vram)
    : outcome (option Screen) :=
  f ← Psf2Font_new a data;
  Ret (match f with Some f => Some (mkScreen (TextConsole_new f) fb m) | None => None end).

(** ** Well-formed screens *)

Definition bytes_per_line (f : Psf2Font) : Z := (width (header f) + 7) / 8.

(** The glyph table has [length] glyphs of [char_size] bytes, each with a row
    of whole bytes per line. *)
Record font_ok (f : Psf2Font) : Prop := {
  font_length : in_u32 (psf_length (header f));
  font_size : in_u32 (char_size (header f));
  font_width : 0 <= width (header f) /\ width (header f) + 7 < 2 ^ 32;
  font_height : 0 <= height (header f);
  font_table : len (glyphs f) = psf_length (header f) * char_size (header f);
  font_rows : height (header f) * bytes_per_line f <= char_size (header f) }.

(** The geometry the firmware reports: an aligned buffer of [pitch] words per
    line, [width] of them visible. *)
Record fb_ok (fb : Framebuffer) : Prop := {
  fb_base : 0 < addr fb /\ addr fb mod 4 = 0;
  fb_lines : 0 <= fbheight fb < 2 ^ 31;
  fb_columns : 0 <= fbwidth fb <= pitch fb /\ fbwidth fb < 2 ^ 31;
  fb_words : pitch fb * fbheight fb < 2 ^ 32;
  fb_end : addr fb + 4 * (pitch fb * fbheight fb) < 2 ^ 64 }.

(** The font fits the screen and the cursor is on a whole text line. *)
Record cursor_ok (c : TextConsole) (fb : Framebuffer) : Prop := {
  cur_font : fwidth c <= fbwidth fb /\ fheight c <= fbheight fb;
  cur_x : 0 <= cursor_x c <= fbwidth fb;
  cur_y : 0 <= cursor_y c /\ cursor_y c + fheight c <= fbheight fb }.

Record screen_ok (s : Screen) : Prop := {
  sc_font : font_ok (font (con s));
  sc_fb : forall fb, framebuffer s = Some fb -> fb_ok fb /\ cursor_ok (con s) fb }.

Definition in_frame (fb : Framebuffer) (a : Z) : Prop :=
  addr fb <= a < addr fb + 4 * (pitch fb * fbheight fb).

(** The address of a pixel. *)
Definition cell (fb : Framebuffer) (x y : Z) : Z := addr fb + 4 * (y * pitch fb + x).

(** The reference bit of a glyph: most significant bit first, rows padded to
    whole bytes. *)
Definition glyph_pixel (f : Psf2Font) (ch row col : Z) : bool :=
  let k := ch * char_size (header f) + row * bytes_per_line f + col / 8 in
  Z.testbit (u8 (default x00 (zget (glyphs f) k))) (7 - col mod 8).

(** ** Loops of stores *)

Lemma for_each_stores {A} (f : vram -> A -> outcome vram) (at_ val : A -> Z) l m :
  (forall m x, x ∈ l -> f m x = Ret (fun a => if a =? at_ x then val x else m a)) ->
  exists m', for_each f l m = Ret m' /\
    (forall a, a ∉ map at_ l -> m' a = m a) /\
    ((forall x y, x ∈ l -> y ∈ l -> at_ x = at_ y -> val x = val y) ->
     forall x, x ∈ l -> m' (at_ x) = val x).
Proof.
  revert m. induction l as [|x l IH]; intros m Hf; cbn [for_each].
  { exists m. split_and!; [done|done|]. intros _ y Hy. by apply elem_of_nil in Hy. }
  rewrite Hf by left. cbn [mbind outcome_bind].
  destruct (IH (fun a => if a =? at_ x then val x else m a)) as (m' & -> & Hout & Hin).
  { intros m0 y Hy. apply Hf. by right. }
  exists m'. split; [done|]. split.
  - intros a Ha. cbn [map] in Ha. apply not_elem_of_cons in Ha as [Hne Ha].
    rewrite Hout by done. case_if; [lia|done].
  - intros Hsame y Hy. destruct (decide (at_ y ∈ map at_ l)) as [Hmem|Hno].
    + apply list_elem_of_fmap in Hmem as (z & Hz & Hzl). assert (val z = val y) as <- by (apply Hsame; [by right|done|done]).
      rewrite Hz. apply Hin; [|done]. intros u w Hu Hw. apply Hsame; by right.
    + rewrite Hout by done. apply elem_of_cons in Hy as [->|Hy].
      * by rewrite Z.eqb_refl.
      * destruct Hno. by apply list_elem_of_fmap_2.
Qed.

Lemma for_cells_flat {S} (f : S -> Z -> Z -> outcome S) ys xs s :
  for_cells f ys xs s = for_each (fun s p => f s p.1 p.2) (list_prod ys xs) s.
Proof.
  unfold for_cells. revert s. induction ys as [|y ys IH]; intros s; [done|]. cbn [for_each list_prod].
  rewrite for_each_app.
  assert (forall xs s, for_each (fun s j => f s y j) xs s =
            for_each (fun s p => f s p.1 p.2) (map (fun x => (y, x)) xs) s) as H.
  { clear. intros xs. induction xs as [|x xs IH]; intros s; [done|]. cbn [for_each map fst snd].
    destruct (f s y x); [|done..]. apply IH. }
  rewrite H. destruct (for_each _ (map _ xs) s); [|done..]. apply IH.
Qed.

Lemma elem_of_cells (p : Z * Z) h w :
  p ∈ list_prod (seqZ 0 h) (seqZ 0 w) <-> 0 <= p.1 < h /\ 0 <= p.2 < w.
Proof.
  destruct p as [i j]. rewrite list_elem_of_In, in_prod_iff, <- !list_elem_of_In, !elem_of_seqZ. simpl. lia.
Qed.

(** ** Pixels *)

Lemma cell_inj fb x y x' y' :
  0 <= x < pitch fb -> 0 <= x' < pitch fb -> cell fb x y = cell fb x' y' -> x = x' /\ y = y'.
Proof. unfold cell. intros Hx Hx' H. assert (y = y') by nia. subst. lia. Qed.

Lemma cell_in_frame fb x y :
  fb_ok fb -> 0 <= x < fbwidth fb -> 0 <= y < fbheight fb -> in_frame fb (cell fb x y).
Proof. intros [? ? [? ?] ? ?] Hx Hy. unfold in_frame, cell. nia. Qed.

Lemma write_volatile_Ret m a v :
  0 < a -> a mod 4 = 0 -> write_volatile m a v = Ret (fun x => if x =? a then v else m x).
Proof.
  intros Ha Hm. unfold write_volatile. rewrite Hm. replace (a =? 0) with false by lia. done.
Qed.

Lemma aligned_add a k : a mod 4 = 0 -> (a + 4 * k) mod 4 = 0.
Proof. intros H. by rewrite (Z.mul_comm 4), Z_mod_plus_full. Qed.

Lemma set_pixel_in fb m x y color :
  fb_ok fb -> 0 <= x < fbwidth fb -> 0 <= y < fbheight fb ->
  set_pixel fb m x y color =
  Ret (fun a => if a =? cell fb x y then encode_color (format fb) color else m a).
Proof.
  intros Hfb Hx Hy. pose proof (cell_in_frame fb x y Hfb Hx Hy) as Hc.
  destruct Hfb as [[? ?] ? [? ?] ? ?]. unfold in_frame, cell in Hc. unfold set_pixel.
  replace (fbwidth fb <=? x) with false by lia. replace (fbheight fb <=? y) with false by lia. cbn [orb].
  rewrite mul_u_Ret by nia. cbn [mbind outcome_bind]. rewrite add_u_Ret by lia. cbn [mbind outcome_bind].
  rewrite mul_u_Ret by lia. cbn [mbind outcome_bind]. rewrite add_u_Ret by lia. cbn [mbind outcome_bind].
  rewrite (Z.mul_comm (y * pitch fb + x) 4). apply write_volatile_Ret; [unfold cell; lia|by apply aligned_add].
Qed.

(** Any pixel, visible or clipped: nothing outside the frame changes. *)
Lemma set_pixel_returns fb m x y color :
  fb_ok fb -> 0 <= x -> 0 <= y ->
  exists m', set_pixel fb m x y color = Ret m' /\ forall a, ~ in_frame fb a -> m' a = m a.
Proof.
  intros Hfb Hx Hy. destruct (decide (x < fbwidth fb /\ y < fbheight fb)) as [[Hxw Hyh]|Hout].
  - rewrite set_pixel_in by (done || lia). eexists. split; [done|]. intros a Ha. cbv beta. case_if; [|done].
    destruct Ha. assert (a = cell fb x y) as -> by lia. by apply cell_in_frame.
  - exists m. split; [|done]. unfold set_pixel. case_if; [done|lia].
Qed.

(** A rectangle of pixels, drawn cell by cell. *)
Lemma for_cells_pixels fb (f : vram -> Z -> Z -> outcome vram) (color : Z -> Z -> Z) x y w h m :
  fb_ok fb -> 0 <= x -> 0 <= w -> x + w <= fbwidth fb -> 0 <= y -> y + h <= fbheight fb ->
  (forall m i j, 0 <= i < h -> 0 <= j < w -> f m i j = set_pixel fb m (x + j) (y + i) (color i j)) ->
  exists m', for_cells f (seqZ 0 h) (seqZ 0 w) m = Ret m' /\
    (forall i j, 0 <= i < h -> 0 <= j < w ->
       m' (cell fb (x + j) (y + i)) = encode_color (format fb) (color i j)) /\
    (forall a, (forall i j, 0 <= i < h -> 0 <= j < w -> a <> cell fb (x + j) (y + i)) -> m' a = m a).
Proof.
  intros Hfb Hx Hw Hxw Hy Hyh Hf. rewrite for_cells_flat.
  destruct (for_each_stores (fun m p => f m p.1 p.2) (fun p => cell fb (x + p.2) (y + p.1))
              (fun p => encode_color (format fb) (color p.1 p.2)) (list_prod (seqZ 0 h) (seqZ 0 w)) m)
    as (m' & Hm & Hout & Hin).
  { intros m0 p [Hi Hj]%elem_of_cells. rewrite Hf by done. apply set_pixel_in; done || lia. }
  pose proof (fb_columns fb Hfb). exists m'. split_and!; [done| |].
  - intros i j Hi Hj. apply (Hin) with (x := (i, j)); [|by apply elem_of_cells].
    intros [i1 j1] [i2 j2] [Hi1 Hj1]%elem_of_cells [Hi2 Hj2]%elem_of_cells Heq. cbn [fst snd] in *.
    apply cell_inj in Heq as [Hjj Hii]; [|lia..]. by replace i2 with i1 by lia; replace j2 with j1 by lia.
  - intros a Ha. apply Hout. intros ([i j] & Hp & [Hi Hj]%elem_of_cells)%list_elem_of_fmap.
    by apply (Ha i j).
Qed.

Lemma for_cells_clipped fb (f : vram -> Z -> Z -> outcome vram) ys xs m :
  (forall m i j, i ∈ ys -> j ∈ xs ->
     exists m', f m i j = Ret m' /\ forall a, ~ in_frame fb a -> m' a = m a) ->
  exists m', for_cells f ys xs m = Ret m' /\ forall a, ~ in_frame fb a -> m' a = m a.
Proof.
  intros Hf. rewrite for_cells_flat.
  assert (forall p, p ∈ list_prod ys xs -> p.1 ∈ ys /\ p.2 ∈ xs) as Hp.
  { intros [i j]. rewrite list_elem_of_In, in_prod_iff, <- !list_elem_of_In. done. }
  revert m Hp. induction (list_prod ys xs) as [|p l IH]; intros m Hp; cbn [for_each]; [by exists m|].
  destruct (Hf m p.1 p.2) as (m1 & -> & H1); [apply Hp; left..|]. cbn [mbind outcome_bind].
  destruct (IH m1) as (m2 & -> & H2); [intros q Hq; apply Hp; by right|].
  exists m2. split; [done|]. intros a Ha. by rewrite H2, H1.
Qed.

Lemma draw_rect_cells fb m x y w h color :
  x + w < 2 ^ 32 -> y + h < 2 ^ 32 -> 
  draw_rect fb m x y w h color =
  for_cells (fun m i j => set_pixel fb m j i color) (seqZ y h) (seqZ x w) m.
Proof.
  intros Hx Hy. unfold draw_rect, for_cells.
  rewrite (add_u_Ret 32 y h), (add_u_Ret 32 x w) by done. cbn [mbind outcome_bind].
  by replace (y + h - y) with h by lia; replace (x + w - x) with w by lia.
Qed.

Lemma draw_rect_returns fb m x y w h color :
  fb_ok fb -> 0 <= x -> 0 <= y -> x + w < 2 ^ 32 -> y + h < 2 ^ 32 ->
  exists m', draw_rect fb m x y w h color = Ret m' /\ forall a, ~ in_frame fb a -> m' a = m a.
Proof.
  intros Hfb Hx Hy Hxw Hyh. rewrite draw_rect_cells by done. apply for_cells_clipped.
  intros m0 i j Hi%elem_of_seqZ Hj%elem_of_seqZ. apply set_pixel_returns; done || lia.
Qed.

Lemma fill_spec m base n color :
  0 < base -> base mod 4 = 0 -> base + 4 * n < 2 ^ 64 ->
  exists m', fill m base n color = Ret m' /\
    (forall i, 0 <= i < n -> m' (base + 4 * i) = color) /\
    (forall a, ~ base <= a < base + 4 * n -> m' a = m a).
Proof.
  intros Hb Hm Hn. unfold fill.
  destruct (for_each_stores (fun m i => o ← mul_u 64 i 4; a ← add_u 64 base o; write_volatile m a color)
              (fun i => base + 4 * i) (fun _ => color) (seqZ 0 n) m) as (m' & Hf & Hout & Hin).
  { intros m0 i Hi%elem_of_seqZ. rewrite mul_u_Ret by lia. cbn [mbind outcome_bind].
    rewrite add_u_Ret by lia. cbn [mbind outcome_bind]. rewrite (Z.mul_comm i).
    apply write_volatile_Ret; [lia|by apply aligned_add]. }
  exists m'. split_and!; [done| |].
  - intros i Hi. apply (Hin (fun _ _ _ _ _ => eq_refl)), elem_of_seqZ. lia.
  - intros a Ha. apply Hout. intros (i & -> & Hi%elem_of_seqZ)%list_elem_of_fmap. lia.
Qed.

(** ** Lines *)

(** A text scrolled up by one font height: what was visible moves up, the
    bottom is filled with the raw background word. *)
Definition scrolled (fb : Framebuffer) (h bg : Z) (m m' : vram) : Prop :=
  (forall x y, 0 <= x < pitch fb -> 0 <= y < fbheight fb - h -> m' (cell fb x y) = m (cell fb x (y + h))) /\
  (forall x y, 0 <= x < pitch fb -> fbheight fb - h <= y < fbheight fb -> m' (cell fb x y) = bg) /\
  (forall a, ~ in_frame fb a -> m' a = m a).

Lemma scroll_spec c fb m :
  fb_ok fb -> 0 <= fheight c <= fbheight fb ->
  exists m', scroll c fb m = Ret (set_cursor c (cursor_x c) (fbheight fb - fheight c), m') /\
    scrolled fb (fheight c) (background c) m m'.
Proof.
  intros Hfb Hh. destruct Hfb as [[Hb Hal] Hl [Hw _] Hwords Hend]. unfold scroll, scrolled, cell, in_frame.
  set (h := fheight c) in *.
  assert (pitch fb * h <= pitch fb * fbheight fb) by nia.
  assert (0 <= pitch fb * h) by nia.
  rewrite (mul_u_Ret 32 (pitch fb) h) by lia. cbn [mbind outcome_bind].
  rewrite (mul_u_Ret 64 (pitch fb * h) 4) by lia. cbn [mbind outcome_bind].
  rewrite (mul_u_Ret 32 (pitch fb) (fbheight fb)) by lia. cbn [mbind outcome_bind].
  rewrite (mul_u_Ret 64 (pitch fb * fbheight fb) 4) by lia. cbn [mbind outcome_bind].
  rewrite add_u_Ret by lia. cbn [mbind outcome_bind].
  rewrite (sub_u_Ret (pitch fb * fbheight fb * 4)), (sub_u_Ret (fbheight fb) h) by lia. cbn [mbind outcome_bind].
  replace (addr fb =? 0) with false by lia. cbn [negb]. rewrite orb_true_r. cbn [assert_b mbind outcome_bind].
  rewrite add_u_Ret by lia. cbn [mbind outcome_bind]. rewrite Z.div_mul by done.
  set (last := addr fb + (pitch fb * fbheight fb * 4 - pitch fb * h * 4)).
  assert (last = addr fb + 4 * (pitch fb * (fbheight fb - h))) as Hlast by (unfold last; ring).
  assert (0 <= pitch fb * (fbheight fb - h)) by nia.
  destruct (fill_spec (copy m (addr fb + pitch fb * h * 4) (addr fb) (pitch fb * fbheight fb * 4 - pitch fb * h * 4))
              last (pitch fb * h) (background c)) as (m' & -> & Hin & Hout);
    [lia|rewrite Hlast; by apply aligned_add|lia|].
  cbn [mbind outcome_bind]. exists m'. split; [done|]. split_and!.
  - intros x y Hx Hy. assert (y * pitch fb + x < pitch fb * (fbheight fb - h)) by nia.
    assert (0 <= y * pitch fb) by nia. rewrite Hout by lia. unfold copy.
    case_if; [|lia]. f_equal. lia.
  - intros x y Hx Hy. assert (0 <= (y - (fbheight fb - h)) * pitch fb) by nia.
    assert ((y - (fbheight fb - h)) * pitch fb + x < pitch fb * h) by nia.
    rewrite <- (Hin ((y - (fbheight fb - h)) * pitch fb + x)) by lia. f_equal. lia.
  - intros a Ha. rewrite Hout by lia. unfold copy. case_if; [lia|done].
Qed.

Lemma newline_locked_spec c fb m :
  fb_ok fb -> 0 <= fheight c -> cursor_ok c fb ->
  exists c' m', newline_locked c fb m = Ret (c', m') /\ cursor_ok c' fb /\
    (forall a, ~ in_frame fb a -> m' a = m a) /\
    if fbheight fb <? cursor_y c + 2 * fheight c
    then c' = set_cursor c 0 (fbheight fb - fheight c) /\ scrolled fb (fheight c) (background c) m m'
    else c' = set_cursor c 0 (cursor_y c + fheight c) /\ m' = m.
Proof.
  intros Hfb Hh [[Hw Hhb] Hx [Hy0 Hy]]. pose proof (fb_lines fb Hfb). pose proof (fb_columns fb Hfb).
  unfold newline_locked. change (fheight (set_cursor _ _ _)) with (fheight c).
  change (cursor_y (set_cursor c 0 (cursor_y c))) with (cursor_y c).
  rewrite mul_u_Ret by lia. cbn [mbind outcome_bind].
  rewrite (add_u_Ret 32 _ (2 * fheight c)) by lia. cbn [mbind outcome_bind]. case_if.
  - destruct (scroll_spec (set_cursor c 0 (cursor_y c)) fb m Hfb) as (m' & -> & Hs); [by split|].
    do 2 eexists. split; [done|]. split; [|split; [apply Hs|done]].
    split; unfold set_cursor, fheight, fwidth in *; simpl in *; lia.
  - rewrite add_u_Ret by lia. cbn [mbind outcome_bind]. do 2 eexists. split; [done|].
    split; [|done]. split; unfold set_cursor, fheight, fwidth in *; simpl in *; lia.
Qed.

(** ** Glyphs *)

Lemma get_glyph_spec f ch :
  font_ok f -> 0 <= ch ->
  get_glyph f ch =
  Ret (if psf_length (header f) <=? ch then None
       else Some (sub_list (glyphs f) (ch * char_size (header f)) (char_size (header f)))).
Proof.
  intros [Hl Hs _ _ Ht _] Hch. unfold get_glyph, in_range in *. case_if; [done|].
  rewrite mul_u_Ret by nia. cbn [mbind outcome_bind]. rewrite add_u_Ret by nia. cbn [mbind outcome_bind].
  rewrite slice_Ret by (rewrite ?Ht; nia). cbn [mbind outcome_bind]. do 3 f_equal. lia.
Qed.

Lemma land_1_testbit z : (Z.land z 1 =? 1) = Z.testbit z 0.
Proof.
  replace 1 with (Z.ones 1) at 1 by done. rewrite Z.land_ones, Z.bit0_odd by lia. change (2 ^ 1) with 2.
  rewrite Zmod_odd. by destruct (Z.odd z).
Qed.

Lemma glyph_bit_spec f ch row col :
  font_ok f -> 0 <= ch < psf_length (header f) ->
  0 <= row < height (header f) -> 0 <= col < width (header f) ->
  glyph_bit (sub_list (glyphs f) (ch * char_size (header f)) (char_size (header f)))
    (bytes_per_line f) row col = Ret (glyph_pixel f ch row col).
Proof.
  intros [Hl Hs Hw Hh Ht Hr] Hch Hrow Hcol. unfold glyph_bit, glyph_pixel, in_range in *.
  assert (0 <= col / 8 < bytes_per_line f) as Hb.
  { unfold bytes_per_line. split; [apply Z.div_pos; lia|]. apply Z.div_lt_upper_bound; [lia|].
    pose proof (Z.div_mod (width (header f) + 7) 8). pose proof (Z.mod_pos_bound (width (header f) + 7) 8). lia. }
  assert (row * bytes_per_line f + col / 8 < char_size (header f)) by nia.
  rewrite mul_u_Ret by nia. cbn [mbind outcome_bind]. rewrite add_u_Ret by nia. cbn [mbind outcome_bind].
  unfold idx. assert (0 <= row * bytes_per_line f) by nia. rewrite zget_sub_list by (rewrite ?Ht; nia).
  rewrite Z.add_assoc. destruct (zget_is_Some (glyphs f) (ch * char_size (header f) + row * bytes_per_line f + col / 8))
    as [b ->]; [rewrite Ht; nia|].
  cbn [unwrap mbind outcome_bind default]. f_equal. rewrite land_1_testbit, Z.shiftr_spec by lia. done.
Qed.

(** ** The console keeps its promise *)

(** Only video memory inside the frame changes. *)
Definition confined (s s' : Screen) : Prop :=
  framebuffer s' = framebuffer s /\
  match framebuffer s with
  | Some fb => forall a, ~ in_frame fb a -> pixels s' a = pixels s a
  | None => pixels s' = pixels s
  end.

Lemma confined_refl s : confined s s.
Proof. split; [done|]. by destruct (framebuffer s). Qed.

Lemma confined_trans s1 s2 s3 : confined s1 s2 -> confined s2 s3 -> confined s1 s3.
Proof.
  unfold confined. intros [H12 H] [H23 H']. rewrite H12 in *. split; [done|].
  destruct (framebuffer s1); [|congruence]. intros a Ha. rewrite H' by done. by apply H.
Qed.

(** The glyph of [ch] drawn at the cursor, and nothing else. *)
Definition glyph_at (c : TextConsole) (fb : Framebuffer) (ch : Z) (m m' : vram) : Prop :=
  (forall row col, 0 <= row < fheight c -> 0 <= col < fwidth c ->
     m' (cell fb (cursor_x c + col) (cursor_y c + row)) =
     encode_color (format fb) (if glyph_pixel (font c) ch row col then foreground c else background c)) /\
  (forall a, (forall row col, 0 <= row < fheight c -> 0 <= col < fwidth c ->
                a <> cell fb (cursor_x c + col) (cursor_y c + row)) -> m' a = m a).

Lemma glyph_at_frame c fb ch m m' :
  fb_ok fb -> cursor_ok c fb -> cursor_x c + fwidth c <= fbwidth fb -> glyph_at c fb ch m m' ->
  forall a, ~ in_frame fb a -> m' a = m a.
Proof.
  intros Hfb [? ? ?] Hx [_ Hout] a Ha. apply Hout. intros row col Hr Hc ->.
  apply Ha. apply cell_in_frame; done || lia.
Qed.

Lemma draw_glyph c fb ch m :
  font_ok (font c) -> fb_ok fb -> cursor_ok c fb -> 0 <= ch < psf_length (header (font c)) ->
  cursor_x c + fwidth c <= fbwidth fb ->
  exists m', for_cells
      (draw_cell c fb (sub_list (glyphs (font c)) (ch * char_size (header (font c))) (char_size (header (font c))))
         (bytes_per_line (font c))) (seqZ 0 (fheight c)) (seqZ 0 (fwidth c)) m = Ret m' /\
    glyph_at c fb ch m m'.
Proof.
  intros Hf Hfb [[Hw Hh] Hx [Hy0 Hy]] Hch Hright. pose proof (fb_lines fb Hfb). pose proof (fb_columns fb Hfb).
  pose proof (font_width _ Hf). pose proof (font_height _ Hf).
  unfold fwidth, fheight in *.
  destruct (for_cells_pixels fb
    (draw_cell c fb (sub_list (glyphs (font c)) (ch * char_size (header (font c))) (char_size (header (font c))))
       (bytes_per_line (font c)))
    (fun i j => if glyph_pixel (font c) ch i j then foreground c else background c)
    (cursor_x c) (cursor_y c) (width (header (font c))) (height (header (font c))) m)
    as (m' & Hm & Hin & Hout); try lia; [done| |].
  - intros m0 i j Hi Hj. unfold draw_cell. rewrite glyph_bit_spec by done. cbn [mbind outcome_bind].
    rewrite (add_u_Ret 32 (cursor_x c) j), (add_u_Ret 32 (cursor_y c) i) by lia. done.
  - exists m'. split; [done|]. by split.
Qed.

(** What [write_char] does with a character the font has: it goes to the next
    line first when there is no room, draws the glyph and moves right. *)
Lemma write_char_glyph s fb ch :
  screen_ok s -> framebuffer s = Some fb -> ch <> 10 -> 0 <= ch < psf_length (header (font (con s))) ->
  exists c0 m0 m',
    (if fbwidth fb <? cursor_x (con s) + fwidth (con s)
     then newline_locked (con s) fb (pixels s) = Ret (c0, m0)
     else c0 = con s /\ m0 = pixels s) /\
    font c0 = font (con s) /\ cursor_ok c0 fb /\ cursor_x c0 + fwidth c0 <= fbwidth fb /\
    (forall a, ~ in_frame fb a -> m0 a = pixels s a) /\
    write_char s ch = Ret (mkScreen (set_cursor c0 (cursor_x c0 + fwidth c0) (cursor_y c0)) (Some fb) m') /\
    glyph_at c0 fb ch m0 m'.
Proof.
  intros [Hf Hs] Hfb Hn Hch. destruct (Hs fb Hfb) as [Hok Hcur].
  pose proof (fb_columns fb Hok). pose proof (font_width _ Hf). pose proof (font_height _ Hf).
  pose proof (cur_font _ _ Hcur). pose proof (cur_x _ _ Hcur). pose proof (cur_y _ _ Hcur).
  unfold write_char. replace (ch =? 10) with false by lia.
  rewrite get_glyph_spec by (done || lia). cbn [mbind outcome_bind].
  replace (psf_length _ <=? ch) with false by lia. unfold fwidth in *.
  rewrite (add_u_Ret 32 _ 7) by lia. cbn [mbind outcome_bind]. rewrite Hfb.
  rewrite (add_u_Ret 32 (cursor_x (con s))) by lia. cbn [mbind outcome_bind].
  fold (bytes_per_line (font (con s))).
  assert (exists c0 m0,
    (if fbwidth fb <? cursor_x (con s) + width (header (font (con s)))
     then newline_locked (con s) fb (pixels s) = Ret (c0, m0)
     else c0 = con s /\ m0 = pixels s) /\
    (if fbwidth fb <? cursor_x (con s) + width (header (font (con s)))
     then newline_locked (con s) fb (pixels s) else Ret (con s, pixels s)) = Ret (c0, m0) /\
    font c0 = font (con s) /\ cursor_ok c0 fb /\ cursor_x c0 + width (header (font c0)) <= fbwidth fb /\
    (forall a, ~ in_frame fb a -> m0 a = pixels s a)) as (c0 & m0 & Hif & -> & Hfont & Hcur0 & Hx0 & Hm0).
  { case_if.
    - destruct (newline_locked_spec (con s) fb (pixels s) Hok) as (c0 & m0 & Hnl & Hc0 & Hm0 & Hform); [done|done|].
      exists c0, m0. rewrite Hnl.
      assert (c0 = set_cursor (con s) 0 (cursor_y c0)) as Hc0'.
      { destruct (fbheight fb <? _); destruct Hform as [-> _]; done. }
      split_and!; [done|done|by rewrite Hc0'|done| |done]. rewrite Hc0'. simpl. lia.
    - exists (con s), (pixels s). split_and!; done || lia. }
  cbn [mbind outcome_bind fst snd].
  destruct (draw_glyph c0 fb ch m0) as (m' & Hd & Hg); [by rewrite Hfont|done|done|by rewrite Hfont|done|].
  unfold fwidth, fheight in *. rewrite Hfont in Hd |- *. rewrite Hd. cbn [mbind outcome_bind].
  pose proof (cur_x _ _ Hcur0). rewrite Hfont in Hx0.
  rewrite add_u_Ret by lia. cbn [mbind outcome_bind].
  exists c0, m0, m'. rewrite Hfont. split_and!; done.
Qed.

Lemma newline_ok s : screen_ok s -> exists s', newline s = Ret s' /\ screen_ok s' /\ confined s s'.
Proof.
  intros Hs. unfold newline. destruct (framebuffer s) as [fb|] eqn:Hfb; [|by exists s; auto using confined_refl].
  destruct Hs as [Hf Hsf]. destruct (Hsf fb Hfb) as [Hok Hcur].
  destruct (newline_locked_spec (con s) fb (pixels s) Hok (font_height _ Hf) Hcur) as (c' & m' & -> & Hc' & Hm' & Hform).
  cbn [mbind outcome_bind fst snd]. eexists. split; [done|]. split.
  - assert (font c' = font (con s)) as Hfont by (destruct (fbheight fb <? _); by destruct Hform as [-> _]).
    split; simpl; [by rewrite Hfont|]. by intros ? [= <-].
  - split; simpl; rewrite Hfb; done.
Qed.

Lemma write_char_ok s ch :
  screen_ok s -> 0 <= ch -> exists s', write_char s ch = Ret s' /\ screen_ok s' /\ confined s s'.
Proof.
  intros Hs Hch. destruct (decide (ch = 10)) as [->|Hn]; [by apply newline_ok|].
  destruct (decide (ch < psf_length (header (font (con s))))) as [Hlt|Hge].
  - destruct (framebuffer s) as [fb|] eqn:Hfb.
    + destruct (write_char_glyph s fb ch Hs Hfb Hn) as (c0 & m0 & m' & _ & Hfont & Hcur & Hx & Hm0 & -> & Hg); [done|].
      destruct (sc_fb s Hs fb Hfb) as [Hok _]. eexists. split; [done|]. split.
      * split; simpl; [rewrite Hfont; apply Hs|]. intros ? [= <-]. split; [done|].
        pose proof (font_width _ (sc_font s Hs)) as Hw. rewrite <- Hfont in Hw.
        destruct Hcur. split; unfold set_cursor, fwidth, fheight in *; simpl; lia.
      * split; simpl; rewrite Hfb; [done|]. intros a Ha.
        by rewrite (glyph_at_frame c0 fb ch m0 m' Hok Hcur Hx Hg a Ha), Hm0.
    + exists s. split; [|split; [done|apply confined_refl]]. unfold write_char. replace (ch =? 10) with false by lia.
      pose proof (font_width _ (sc_font s Hs)). unfold fwidth.
      rewrite get_glyph_spec by (apply Hs || lia). cbn [mbind outcome_bind]. case_if; [lia|].
      rewrite Hfb, add_u_Ret by lia. cbn [mbind outcome_bind]. done.
  - exists s. split; [|split; [done|apply confined_refl]]. unfold write_char. replace (ch =? 10) with false by lia.
    rewrite get_glyph_spec by (apply Hs || lia). cbn [mbind outcome_bind]. case_if; [done|lia].
Qed.

Lemma backspace_ok s : screen_ok s -> exists s', backspace s = Ret s' /\ screen_ok s' /\ confined s s'.
Proof.
  intros Hs. unfold backspace. case_if; [|exists s; auto using confined_refl].
  rewrite sub_u_Ret by lia. cbn [mbind outcome_bind].
  destruct (framebuffer s) as [fb|] eqn:Hfb.
  - destruct (sc_fb s Hs fb Hfb) as [Hok Hcur]. destruct Hcur as [[? ?] ? [? ?]].
    pose proof (fb_columns fb Hok). pose proof (fb_lines fb Hok). pose proof (font_width _ (sc_font s Hs)).
    pose proof (font_height _ (sc_font s Hs)). unfold fwidth, fheight in *. cbn [set_cursor cursor_x cursor_y font background].
    destruct (draw_rect_returns fb (pixels s) (cursor_x (con s) - width (header (font (con s)))) (cursor_y (con s))
                (width (header (font (con s)))) (height (header (font (con s)))) (background (con s)) Hok)
      as (m' & -> & Hm'); [lia..|].
    cbn [mbind outcome_bind]. eexists. split; [done|]. split.
    + split; simpl; [apply Hs|]. intros ? [= <-]. split; [done|].
      split; unfold set_cursor, fwidth, fheight; simpl; lia.
    + split; simpl; rewrite Hfb; done.
  - eexists. split; [done|]. split; [|by split; simpl; rewrite Hfb]. split; simpl; [apply Hs|done].
Qed.

Lemma write_str_ok s text : screen_ok s -> exists s', write_str s text = Ret s' /\ screen_ok s' /\ confined s s'.
Proof.
  intros Hs. unfold write_str, chars.
  assert (Forall scalar (default [] (decode text))) as Hc.
  { destruct (decode text) eqn:E; [by apply (decode_scalar text)|by constructor]. }
  revert s Hs. induction Hc as [|ch cs Hch _ IH]; intros s Hs; cbn [for_each].
  { exists s. auto using confined_refl. }
  destruct (write_char_ok s ch Hs) as (s1 & -> & H1 & Hc1); [unfold scalar in Hch; lia|]. cbn [mbind outcome_bind].
  destruct (IH s1 H1) as (s2 & -> & H2 & Hc2). exists s2. eauto using confined_trans.
Qed.

#[global] Instance screen_total : TotalConsole Screen.
Proof.
  exists screen_ok.
  - intros s c Hs Hc. destruct (write_char_ok s c Hs) as (s' & ? & ? & _); [unfold scalar in Hc; lia|]. by exists s'.
  - intros s Hs. destruct (backspace_ok s Hs) as (s' & ? & ? & _). by exists s'.
  - intros s text Hs. destruct (write_str_ok s text Hs) as (s' & ? & ? & _). by exists s'.
Defined.

(** [init] draws its pattern, clipped to the screen. *)
Lemma init_ok fb m :
  fb_ok (Framebuffer_new fb) ->
  exists m', init fb m = Ret (Some (Framebuffer_new fb), m') /\
    forall a, ~ in_frame (Framebuffer_new fb) a -> m' a = m a.
Proof.
  intros Hok. pose proof (fb_base _ Hok) as Hb. unfold init. simpl in Hb.
  replace (fb_addr fb =? 0) with false by lia. unfold clear.
  rewrite mul_u_Ret by (rewrite Z.mul_comm; apply Hok). cbn [mbind outcome_bind].
  rewrite (Z.mul_comm (fbheight _)).
  destruct (fill_spec m (addr (Framebuffer_new fb)) (pitch (Framebuffer_new fb) * fbheight (Framebuffer_new fb)) 0x001a2a)
    as (m0 & -> & _ & H0); [apply Hb|apply Hb|apply Hok|]. cbn [mbind outcome_bind].
  do 3 (match goal with
        | |- context [draw_rect ?f ?m ?x ?y ?w ?h ?c ≫= _] =>
            let m1 := fresh "m" in let H1 := fresh "H" in
            destruct (draw_rect_returns f m x y w h c Hok) as (m1 & -> & H1); [lia..|]
        end; cbn [mbind outcome_bind]).
  eexists. split; [done|]. intros a Ha. by rewrite H2, H1, H, H0.
Qed.

(** ** Theorems *)

(** The calls the terminal makes. *)
Definition con_call (s : Screen) (e : con_event) : outcome Screen :=
  match e with
  | EvChar c => write_char s c
  | EvBackspace => backspace s
  | EvStr text => write_str s text
  end.

Definition event_ok (e : con_event) : Prop :=
  match e with EvChar c => scalar c | _ => True end.

(** C27: whatever is printed, the console never panics (no index, overflow or
    null-pointer check fails), keeps its cursor on a whole text line of the
    screen, and writes to no word outside the framebuffer. *)
Theorem console_safe s events :
  screen_ok s -> Forall event_ok events ->
  exists s', for_each con_call events s = Ret s' /\ screen_ok s' /\ confined s s'.
Proof.
  intros Hs He. revert s Hs. induction He as [|e es He _ IH]; intros s Hs; cbn [for_each].
  { exists s. auto using confined_refl. }
  assert (exists s1, con_call s e = Ret s1 /\ screen_ok s1 /\ confined s s1) as (s1 & -> & H1 & Hc1).
  { destruct e as [c| |text]; simpl in *; [|by apply backspace_ok|by apply write_str_ok].
    apply write_char_ok; [done|]. unfold scalar in He. lia. }
  cbn [mbind outcome_bind]. destruct (IH s1 H1) as (s2 & -> & H2 & Hc2). eauto using confined_trans.
Qed.

(** C28: a character of the font with room on the line is drawn at the cursor:
    the pixels of its cell show the glyph's bits, most significant first, in
    the foreground and background colours, every other word of memory is as
    before, and the cursor moves right by the font's width. *)
Theorem glyph_drawn s fb ch :
  screen_ok s -> framebuffer s = Some fb -> ch <> 10 -> 0 <= ch < psf_length (header (font (con s))) ->
  cursor_x (con s) + fwidth (con s) <= fbwidth fb ->
  exists m', write_char s ch =
      Ret (mkScreen (set_cursor (con s) (cursor_x (con s) + fwidth (con s)) (cursor_y (con s))) (Some fb) m') /\
    glyph_at (con s) fb ch (pixels s) m'.
Proof.
  intros Hs Hfb Hn Hch Hx.
  destruct (write_char_glyph s fb ch Hs Hfb Hn Hch) as (c0 & m0 & m' & Hif & _ & _ & _ & _ & Hw & Hg).
  replace (fbwidth fb <? cursor_x (con s) + fwidth (con s)) with false in Hif by lia.
  destruct Hif as [-> ->]. by exists m'.
Qed.

(** a newline moves to the start of the next text line; when that would
    leave the screen, the picture moves up by the font's height, the freed
    lines are filled with the background word, and the cursor stays on the
    last line that fits. *)
Theorem newline_scrolls s fb :
  screen_ok s -> framebuffer s = Some fb ->
  let c := con s in
  exists c' m', write_char s 10 = Ret (mkScreen c' (Some fb) m') /\
    if fbheight fb <? cursor_y c + 2 * fheight c
    then c' = set_cursor c 0 (fbheight fb - fheight c) /\ scrolled fb (fheight c) (background c) (pixels s) m'
    else c' = set_cursor c 0 (cursor_y c + fheight c) /\ m' = pixels s.
Proof.
  intros [Hf Hs] Hfb c. destruct (Hs fb Hfb) as [Hok Hcur].
  destruct (newline_locked_spec c fb (pixels s) Hok (font_height _ Hf) Hcur) as (c' & m' & Hn & _ & _ & Hform).
  exists c', m'. split; [|done]. cbn [write_char Z.eqb]. unfold write_char, newline. cbn [Z.eqb Pos.eqb].
  rewrite Hfb. fold c. by rewrite Hn.
Qed.

(** The font the build tool makes. *)
Definition built_font : Psf2Font :=
  mkPsf2Font (mkPsf2Header [x72; xb5; x4a; x86] 0 32 0 256 16 16 8)
    (concat (map box_glyph (seqZ 0 256))).

Lemma built_font_parses a : a mod 4 = 0 -> Psf2Font_new a create_minimal_psf2_font = Ret (Some built_font).
Proof.
  intros Ha. unfold Psf2Font_new. rewrite Ha. vm_compute. reflexivity.
Qed.

Lemma built_font_ok : font_ok built_font.
Proof. split; by vm_compute. Qed.

(** the font the build tool puts into the archive starts the console: on
    any framebuffer of at least 8 by 16 pixels (or without one) it is
    accepted, and the console starts well formed with its cursor at the top
    left. *)
Theorem built_font_boots a fb m :
  a mod 4 = 0 ->
  (forall f, fb = Some f -> fb_ok f /\ 8 <= fbwidth f /\ 16 <= fbheight f) ->
  exists s, init_console a create_minimal_psf2_font fb m = Ret (Some s) /\ screen_ok s /\
    framebuffer s = fb /\ pixels s = m /\ cursor_x (con s) = 0 /\ cursor_y (con s) = 0.
Proof.
  intros Ha Hfb. unfold init_console. rewrite built_font_parses by done. cbn [mbind outcome_bind].
  eexists. split; [done|]. split; [|done]. split; [exact built_font_ok|].
  simpl. intros f Hf. destruct (Hfb f Hf) as (Hok & Hw & Hh). split; [done|].
  pose proof (fb_columns f Hok). pose proof (fb_lines f Hok).
  split; unfold TextConsole_new, fwidth, fheight; simpl; lia.
Qed.

(** ** Colours

    A framebuffer of format 0 stores blue, green, red in ascending addresses,
    which is the little-endian word 0xRRGGBB itself; [set_pixel] exchanges
    red and blue for this format and keeps them for format 1. *)
Lemma bgr_channels_exchanged :
  le_bytes 3 (encode_color 1 0xffaa00) = [x00; xaa; xff] /\
  le_bytes 3 (encode_color 0 0xffaa00) = [xff; xaa; x00].
Proof. by vm_compute. Qed.

(** [scroll] and [clear] store the colour unencoded, so on format 0 the lines
    they fill do not have the background colour of a drawn space. *)
Lemma scroll_background_differs f :
  encode_color 0 (background (TextConsole_new f)) <> background (TextConsole_new f).
Proof. by vm_compute. Qed.

(** ** Concrete inputs: two lines of two characters. *)

Definition demo_fb : Framebuffer := mkFramebuffer 0x1000 16 32 16 1.

Lemma demo_fb_ok : fb_ok demo_fb.
Proof. split; by vm_compute. Qed.

Definition demo_screen (y : Z) : Screen :=
  mkScreen (set_cursor (TextConsole_new built_font) 0 y) (Some demo_fb) (fun a => a).

Lemma demo_screen_ok y : 0 <= y <= 16 -> screen_ok (demo_screen y).
Proof.
  intros Hy. split; [exact built_font_ok|]. intros fb [= <-]. split; [exact demo_fb_ok|].
  split; unfold demo_screen, fwidth, fheight; simpl; lia.
Qed.

Lemma console_safe_witness :
  exists s', for_each con_call [EvStr (str "ok"); EvChar 10; EvChar 65; EvBackspace] (demo_screen 16) = Ret s' /\
    screen_ok s' /\ pixels s' 0x900 = 0x900.
Proof.
  destruct (console_safe (demo_screen 16) [EvStr (str "ok"); EvChar 10; EvChar 65; EvBackspace])
    as (s' & Hs & Hok & Hc & Hpix).
  - by apply demo_screen_ok.
  - repeat (apply Forall_cons; split; [unfold event_ok, scalar; lia || done|]). by apply Forall_nil.
  - exists s'. split; [done|]. split; [done|]. cbn [demo_screen framebuffer] in Hpix.
    rewrite Hpix; [done|]. unfold in_frame. simpl. lia.
Defined.

(** The top left corner of the box is drawn in white, its inside in the
    background colour. *)
Lemma glyph_drawn_witness :
  exists m', write_char (demo_screen 0) 65 = Ret (mkScreen (set_cursor (con (demo_screen 0)) 8 0) (Some demo_fb) m') /\
    m' (cell demo_fb 0 0) = 0xFFFFFF /\ m' (cell demo_fb 3 5) = 0x001a2a.
Proof.
  destruct (glyph_drawn (demo_screen 0) demo_fb 65) as (m' & Hw & Hin & _);
    [by apply demo_screen_ok|done|done|by vm_compute|by vm_compute|].
  exists m'. split; [exact Hw|].
  assert (fheight (con (demo_screen 0)) = 16 /\ fwidth (con (demo_screen 0)) = 8) as [Hh Hw']
    by (split; reflexivity).
  split.
  - etransitivity; [exact (Hin 0 0 ltac:(lia) ltac:(lia))|by vm_compute].
  - etransitivity; [exact (Hin 5 3 ltac:(lia) ltac:(lia))|by vm_compute].
Defined.

Lemma newline_scrolls_witness :
  exists c' m', write_char (demo_screen 16) 10 = Ret (mkScreen c' (Some demo_fb) m') /\
    cursor_y c' = 16 /\ m' (cell demo_fb 2 3) = cell demo_fb 2 19.
Proof.
  destruct (newline_scrolls (demo_screen 16) demo_fb) as (c' & m' & Hw & Hif);
    [by apply demo_screen_ok|done|].
  change (fbheight demo_fb <? cursor_y (con (demo_screen 16)) + 2 * fheight (con (demo_screen 16))) with true in Hif.
  cbv iota in Hif. destruct Hif as [-> [Hup _]]. do 2 eexists. split; [exact Hw|]. split; [done|].
  change (fheight (con (demo_screen 16))) with 16 in Hup. cbn [fbheight pitch demo_fb] in Hup.
  exact (Hup 2 3 ltac:(lia) ltac:(lia)).
Defined.

Lemma built_font_boots_witness :
  exists s, init_console 0x2000 create_minimal_psf2_font (Some demo_fb) (fun _ => 0) = Ret (Some s) /\ screen_ok s.
Proof.
  destruct (built_font_boots 0x2000 (Some demo_fb) (fun _ => 0)) as (s & Hs & Hok & _).
  - done.
  - intros f [= <-]. split; [exact demo_fb_ok|by vm_compute].
  - by exists s.
Defined.
