(* ===== verification/FrameAlloc.v ===== *)
(** * The physical frame allocator ([kernel/src/memory.rs])

    A bump allocator over the usable descriptors of the boot memory map, and
    the interface ([FrameSource]) through which the page-table code obtains
    frames. *)

From S2P Require Import Prelude Abi.

Definition PAGE_SIZE : Z := 4096.
Definition LOW_MEMORY_CUTOFF : Z := 0x100000.

Record FrameAllocator := mkFrameAllocator { fa_boot_info : BootInfo; next_address : Z }.

Definition new (boot_info : BootInfo) : FrameAllocator :=
  mkFrameAllocator boot_info LOW_MEMORY_CUTOFF.

Record AddressRange := mkRange { range_start : Z; range_end : Z }.

Definition usable_range (d : BootMemoryDescriptor) : option AddressRange :=
  let start := phys_start d in
  length ← checked_mul 64 (page_count d) PAGE_SIZE;
  stop ← checked_add 64 start length;
  Some (mkRange start stop).

Definition align_up (value alignment : Z) : Z :=
  if alignment =? 0 then value else
  match checked_add 64 value (alignment - 1) with
  | Some adjusted => Z.land adjusted (not_u 64 (alignment - 1))
  | None => value
  end.

Definition is_usable (d : BootMemoryDescriptor) : bool :=
  if ty d =? MEMORY_TYPE_CONVENTIONAL then true
  else if ty d =? MEMORY_TYPE_BOOT_SERVICES_CODE then true
  else if ty d =? MEMORY_TYPE_BOOT_SERVICES_DATA then true
  else false.

(** The loop of [allocate_physical_frame] over the descriptors: the frame and
    the new [next_address]. *)
Fixpoint alloc_loop (ds : list BootMemoryDescriptor) (next : Z) : outcome (option Z * Z) :=
  match ds with
  | [] => Ret (None, next)
  | d :: ds' =>
      if negb (is_usable d) then alloc_loop ds' next else
      range ← unwrap (usable_range d);
      let candidate := align_up (Z.max next (range_start range)) PAGE_SIZE in
      if candidate <? range_end range then
        match checked_add 64 candidate PAGE_SIZE with
        | Some next' => Ret (Some candidate, next')
        | None => Ret (None, next)
        end
      else alloc_loop ds' next
  end.

Definition allocate_physical_frame (mm : mem) (a : FrameAllocator)
    : outcome (option Z * FrameAllocator) :=
  r ← alloc_loop (visited mm (memory_map (fa_boot_info a))) (next_address a);
  let '(frame, next) := r in
  Ret (frame, mkFrameAllocator (fa_boot_info a) next).

(** ** What a frame source promises

    [owned s f]: frame [f] can still be handed out in state [s]. *)

Class FrameSource (S : Type) := {
  allocate_frame : S -> outcome (option Z * S);
  source_ok : S -> Prop;
  owned : S -> Z -> Prop;
  allocate_frame_spec : forall s, source_ok s ->
    exists r s', allocate_frame s = Ret (r, s') /\ source_ok s' /\
      (forall f, owned s' f -> owned s f) /\
      match r with
      | Some f => owned s f /\ ~ owned s' f /\ f mod PAGE_SIZE = 0
      | None => forall f, ~ owned s f
      end }.

(** [n] requests in a row; the answers in order. *)
Fixpoint requests {S} `{FrameSource S} (n : nat) (s : S) : outcome (list (option Z) * S) :=
  match n with
  | O => Ret ([], s)
  | Datatypes.S n' =>
      r ← allocate_frame s;
      rest ← requests n' r.2;
      Ret (r.1 :: rest.1, rest.2)
  end.

Definition granted (answers : list (option Z)) : list Z := omap (fun x => x) answers.

Section Clients.
Context {S : Type} `{FrameSource S}.

Lemma requests_spec (n : nat) (s : S) :
  source_ok s ->
  exists answers s', requests n s = Ret (answers, s') /\ source_ok s' /\ length answers = n /\
    NoDup (granted answers) /\
    (forall f, owned s' f -> owned s f) /\
    Forall (fun f => owned s f /\ ~ owned s' f /\ f mod PAGE_SIZE = 0) (granted answers).
Proof.
  revert s. induction n as [|n IH]; intros s Hs; cbn [requests].
  { exists [], s. split_and!; try done. apply NoDup_nil_2. }
  destruct (allocate_frame_spec s Hs) as (r & s1 & -> & Hs1 & Hsub & Hr).
  cbn [mbind outcome_bind fst snd].
  destruct (IH s1 Hs1) as (answers & s2 & -> & Hs2 & Hlen & Hnd & Hsub2 & Hall).
  cbn [mbind outcome_bind fst snd]. exists (r :: answers), s2.
  split_and!; [done|done|by simpl; f_equal| |by eauto|].
  - destruct r as [f|]; [|done]. change (granted (Some f :: answers)) with (f :: granted answers).
    apply NoDup_cons. split; [|done]. intros Hin. destruct Hr as (_ & Hno & _).
    rewrite Forall_forall in Hall. by destruct (Hall f Hin) as [? _].
  - assert (Forall (fun f => owned s f /\ ~ owned s2 f /\ f mod PAGE_SIZE = 0) (granted answers)) as Hrest.
    { eapply Forall_impl; [done|]. intros f (? & ? & ?). split_and!; eauto. }
    destruct r as [f|]; [|done]. change (granted (Some f :: answers)) with (f :: granted answers).
    apply Forall_cons. split; [|done]. destruct Hr as (? & ? & ?). split_and!; eauto.
Qed.
End Clients.

(** ** The bump allocator *)

(** Page [f] lies in a usable descriptor. *)
Definition usable_frame (ds : list BootMemoryDescriptor) (f : Z) : Prop :=
  f mod PAGE_SIZE = 0 /\
  exists d, d ∈ ds /\ is_usable d = true /\
    phys_start d <= f /\ f + PAGE_SIZE <= phys_start d + page_count d * PAGE_SIZE.

(** The usable descriptors of the map are page aligned and inside the
    address space, as UEFI requires. *)
Definition map_ok (ds : list BootMemoryDescriptor) : Prop :=
  Forall (fun d => is_usable d = true ->
    0 <= phys_start d /\ phys_start d mod PAGE_SIZE = 0 /\ 0 <= page_count d /\
    phys_start d + page_count d * PAGE_SIZE < 2 ^ 64) ds.

Definition free_above (ds : list BootMemoryDescriptor) (next f : Z) : Prop :=
  next <= f /\ usable_frame ds f.

Lemma align_up_aligned v : 0 <= v < 2 ^ 64 -> v mod PAGE_SIZE = 0 -> align_up v PAGE_SIZE = v.
Proof.
  unfold PAGE_SIZE. intros Hv Hm. pose proof (Z.div_mod v 4096) as Hd.
  assert (v + 4095 < 2 ^ 64) as Hlt.
  { assert (v / 4096 < 2 ^ 52) by (apply Z.div_lt_upper_bound; lia). lia. }
  unfold align_up, checked_add. case_if; [lia|]. case_if; [|lia].
  change (4096 - 1) with (2 ^ 12 - 1). rewrite land_not_mask by (unfold in_range; lia).
  change (2 ^ 12) with 4096. replace (v + (4096 - 1)) with (4095 + v / 4096 * 4096) by lia.
  rewrite Z.div_add by lia. change (4095 / 4096) with 0. lia.
Qed.

Lemma usable_range_Some d :
  0 <= phys_start d -> 0 <= page_count d -> phys_start d + page_count d * PAGE_SIZE < 2 ^ 64 ->
  usable_range d = Some (mkRange (phys_start d) (phys_start d + page_count d * PAGE_SIZE)).
Proof.
  unfold PAGE_SIZE. intros. unfold usable_range, checked_mul, checked_add, PAGE_SIZE.
  case_if; [|lia]. simpl. case_if; [done|lia].
Qed.

Lemma free_above_cons d ds next g :
  free_above (d :: ds) next g <-> free_above [d] next g \/ free_above ds next g.
Proof.
  unfold free_above, usable_frame. split.
  - intros (Hg & Hm & e & [->|He]%elem_of_cons & Hrest); [left|right]; split_and!; try done.
    + exists d. split; [by apply list_elem_of_singleton|done].
    + by exists e.
  - intros [(Hg & Hm & e & He & Hrest)|(Hg & Hm & e & He & Hrest)]; split_and!; try done; exists e;
      (split; [|done]); [apply list_elem_of_singleton in He as ->; by left|by right].
Qed.

Lemma free_above_nil next g : ~ free_above [] next g.
Proof. intros (_ & _ & d & Hin & _). by apply elem_of_nil in Hin. Qed.

Lemma free_above_unusable d next g : is_usable d = false -> ~ free_above [d] next g.
Proof. intros Hu (_ & _ & e & ->%list_elem_of_singleton & Hu' & _). congruence. Qed.

Section Candidate.
Context (d : BootMemoryDescriptor) (next : Z).
Context (Hs : 0 <= phys_start d) (Hsm : phys_start d mod PAGE_SIZE = 0) (Hpc : 0 <= page_count d).
Context (Hlt : phys_start d + page_count d * PAGE_SIZE < 2 ^ 64).
Context (Hn : 0 <= next) (Hm : next mod PAGE_SIZE = 0).

Let limit := phys_start d + page_count d * PAGE_SIZE.
Let candidate := Z.max next (phys_start d).

Lemma candidate_aligned : candidate mod PAGE_SIZE = 0.
Proof. unfold candidate. by destruct (Z.max_spec next (phys_start d)) as [[_ ->]|[_ ->]]. Qed.

Lemma candidate_fits :
  is_usable d = true -> candidate < limit ->
  align_up candidate PAGE_SIZE = candidate /\ candidate + PAGE_SIZE <= limit /\
  free_above [d] next candidate.
Proof.
  intros Hu Hin. pose proof candidate_aligned as Ha.
  assert (candidate + PAGE_SIZE <= limit) as Hfit.
  { unfold limit, PAGE_SIZE in *. pose proof (Z.div_mod candidate 4096).
    pose proof (Z.div_mod (phys_start d) 4096). lia. }
  split_and!; [apply align_up_aligned; [unfold limit in *; lia|done]|done|].
  unfold free_above, usable_frame. split_and!; [lia|done|].
  exists d. split_and!; [by apply list_elem_of_singleton|done|lia|done].
Qed.

Lemma candidate_beyond :
  limit <= candidate ->
  limit <= align_up candidate PAGE_SIZE /\ forall g, ~ free_above [d] next g.
Proof.
  intros Hout. split.
  - unfold align_up, checked_add, PAGE_SIZE in *. case_if; [lia|]. case_if; [|done].
    change (4096 - 1) with (2 ^ 12 - 1). rewrite land_not_mask by (unfold in_range; lia).
    change (2 ^ 12) with 4096.
    pose proof (Z.div_mod (candidate + (4096 - 1)) 4096).
    pose proof (Z.mod_pos_bound (candidate + (4096 - 1)) 4096). lia.
  - intros g (Hg & Hgm & e & ->%list_elem_of_singleton & _ & Hl & Hr).
    unfold limit, PAGE_SIZE in *. lia.
Qed.
End Candidate.

(** The loop takes the first descriptor that still has a frame at or above
    [next], and the lowest such frame in it. *)
Lemma alloc_loop_spec ds next :
  map_ok ds -> 0 <= next -> next mod PAGE_SIZE = 0 ->
  (exists f, alloc_loop ds next = Ret (Some f, f + PAGE_SIZE) /\ free_above ds next f /\
     exists ds1 d ds2, ds = ds1 ++ d :: ds2 /\ (forall g, ~ free_above ds1 next g) /\
       is_usable d = true /\ f = Z.max next (phys_start d) /\
       f + PAGE_SIZE <= phys_start d + page_count d * PAGE_SIZE) \/
  (alloc_loop ds next = Ret (None, next) /\ forall f, ~ free_above ds next f).
Proof.
  intros Hok Hn Hm. induction Hok as [|d ds Hd Hok IH]; cbn [alloc_loop].
  { right. split; [done|]. apply free_above_nil. }
  assert ((forall g, ~ free_above [d] next g) ->
    alloc_loop (d :: ds) next = alloc_loop ds next ->
    (exists f, alloc_loop (d :: ds) next = Ret (Some f, f + PAGE_SIZE) /\ free_above (d :: ds) next f /\
       exists ds1 e ds2, d :: ds = ds1 ++ e :: ds2 /\ (forall g, ~ free_above ds1 next g) /\
         is_usable e = true /\ f = Z.max next (phys_start e) /\
         f + PAGE_SIZE <= phys_start e + page_count e * PAGE_SIZE) \/
    (alloc_loop (d :: ds) next = Ret (None, next) /\ forall f, ~ free_above (d :: ds) next f)) as Hskip.
  { intros Hnone ->. destruct IH as [(f & -> & Hf & ds1 & e & ds2 & -> & Hnot & Hmax)|[-> Hnot]].
    - left. exists f. split; [done|]. split; [apply free_above_cons; by right|].
      exists (d :: ds1), e, ds2. split; [done|]. split; [|done].
      intros g [Hg|Hg]%free_above_cons; [by apply (Hnone g)|by apply (Hnot g)].
    - right. split; [done|]. intros g [Hg|Hg]%free_above_cons; [by apply (Hnone g)|by apply (Hnot g)]. }
  cbn [alloc_loop] in Hskip. destruct (is_usable d) eqn:Hu; cbn [negb] in *.
  2: { apply Hskip; [|done]. intros g. by apply free_above_unusable. }
  destruct (Hd eq_refl) as (Hs & Hsm & Hpc & Hlt). rewrite usable_range_Some in * by done.
  cbn [unwrap mbind outcome_bind range_start range_end] in *.
  destruct (decide (Z.max next (phys_start d) < phys_start d + page_count d * PAGE_SIZE)) as [Hin|Hout].
  - destruct (candidate_fits d next) as (Heq & Hfit & Hfree); [done..|].
    rewrite Heq in *. left. exists (Z.max next (phys_start d)). case_if; [|lia].
    unfold checked_add. case_if; [|lia]. split; [done|]. split; [apply free_above_cons; by left|].
    exists [], d, ds. split_and!; try done. apply free_above_nil.
  - destruct (candidate_beyond d next) as [Hbig Hnone]; [done..|lia|].
    case_if; [lia|]. by apply Hskip.
Qed.

Section Bump.
Context (mm : mem).

Definition descriptors_of (a : FrameAllocator) : list BootMemoryDescriptor :=
  visited mm (memory_map (fa_boot_info a)).

Definition bump_ok (a : FrameAllocator) : Prop :=
  map_ok (descriptors_of a) /\ LOW_MEMORY_CUTOFF <= next_address a /\
  next_address a mod PAGE_SIZE = 0.

(** One request in terms of the map. *)
Lemma allocate_physical_frame_spec a :
  bump_ok a ->
  exists r a', allocate_physical_frame mm a = Ret (r, a') /\ bump_ok a' /\
    descriptors_of a' = descriptors_of a /\
    match r with
    | Some f => next_address a' = f + PAGE_SIZE /\ free_above (descriptors_of a) (next_address a) f /\
        exists ds1 d ds2, descriptors_of a = ds1 ++ d :: ds2 /\
          (forall g, ~ free_above ds1 (next_address a) g) /\
          is_usable d = true /\ f = Z.max (next_address a) (phys_start d) /\
          f + PAGE_SIZE <= phys_start d + page_count d * PAGE_SIZE
    | None => a' = a /\ forall f, ~ free_above (descriptors_of a) (next_address a) f
    end.
Proof.
  intros (Hok & Hlow & Hm). unfold allocate_physical_frame. fold (descriptors_of a).
  unfold LOW_MEMORY_CUTOFF in *.
  destruct (alloc_loop_spec (descriptors_of a) (next_address a))
    as [(f & -> & Hf & Hrest)|[-> Hnot]]; [done|lia|done| |]; cbn [mbind outcome_bind].
  - eexists _, _. split; [done|]. split_and!; try done; simpl.
    destruct Hf as (Hf & Hfm & _). split_and!; [done| |].
    + unfold PAGE_SIZE, LOW_MEMORY_CUTOFF in *. simpl. lia.
    + unfold PAGE_SIZE in *. simpl. rewrite <- (Z.mul_1_l 4096) at 1. by rewrite Z_mod_plus_full.
  - exists None, a. destruct a. done.
Qed.

#[global] Instance bump_source : FrameSource FrameAllocator.
Proof.
  refine {| allocate_frame := allocate_physical_frame mm; source_ok := bump_ok;
            owned a f := free_above (descriptors_of a) (next_address a) f |}.
  intros a Ha. destruct (allocate_physical_frame_spec a Ha) as (r & a' & Hr & Ha' & Hds & Hspec).
  exists r, a'. split; [done|]. split; [done|]. rewrite Hds. unfold PAGE_SIZE in *.
  destruct r as [f|].
  - destruct Hspec as (Hnext & [Hf1 Hf2] & _). rewrite Hnext. split.
    + intros g [Hg Hu]. split; [lia|done].
    + split; [done|]. split; [intros [Hbad _]; lia|apply Hf2].
  - destruct Hspec as [-> Hnot]. done.
Defined.
End Bump.

(** C13: a fresh allocator over a memory map of aligned, in-range usable
    descriptors answers any number of requests without panicking; the frames
    it grants are pairwise distinct, page aligned, at or above 1 MiB, and
    each lies entirely in a usable descriptor. *)
Theorem frames_never_reused mm (b : BootInfo) (n : nat) :
  map_ok (visited mm (memory_map b)) ->
  exists answers a', requests (H := bump_source mm) n (new b) = Ret (answers, a') /\
    length answers = n /\ NoDup (granted answers) /\
    Forall (fun f => LOW_MEMORY_CUTOFF <= f /\ usable_frame (visited mm (memory_map b)) f)
      (granted answers).
Proof.
  intros Hok.
  destruct (requests_spec (H := bump_source mm) n (new b)) as (answers & a' & Hr & _ & Hlen & Hnd & _ & Hall).
  { split_and!; done. }
  exists answers, a'. split_and!; try done.
  eapply Forall_impl; [done|]. intros f ([Hf Hu] & _). done.
Qed.

(** ** A sorted map is used completely *)

Definition map_sorted (ds : list BootMemoryDescriptor) : Prop :=
  forall i j d e, (i < j)%nat -> ds !! i = Some d -> ds !! j = Some e ->
    is_usable d = true -> is_usable e = true ->
    phys_start d + page_count d * PAGE_SIZE <= phys_start e.

Section Sorted.
Context (mm : mem).

Lemma allocate_least a r a' :
  bump_ok mm a -> map_sorted (descriptors_of mm a) ->
  allocate_physical_frame mm a = Ret (r, a') ->
  forall g, free_above (descriptors_of mm a) (next_address a) g ->
    r = Some g \/ free_above (descriptors_of mm a') (next_address a') g.
Proof.
  intros Ha Hsort Hr g Hg.
  destruct (allocate_physical_frame_spec mm a Ha) as (r' & a2 & Hr' & _ & Hds & Hspec).
  rewrite Hr in Hr'. simplify_eq. destruct r' as [f|]; [|by destruct Hspec as [_ []%(fun H => H g Hg)]].
  destruct Hspec as (Hnext & [_ [Hfm _]] & ds1 & d & ds2 & Heq & Hnot & Hu & -> & Hfit).
  rewrite Hds, Hnext. destruct Hg as (Hg & Hgm & e & He & Hue & Hl & Hh).
  destruct (decide (g = Z.max (next_address a) (phys_start d))) as [->|Hne]; [by left|right].
  assert (Z.max (next_address a) (phys_start d) <= g) as Hle.
  { rewrite Heq in He, Hsort. apply elem_of_app in He as [He|[->|He]%elem_of_cons].
    - exfalso. apply (Hnot g). split; [done|]. split; [done|]. by exists e.
    - lia.
    - apply list_elem_of_lookup in He as [j Hj].
      assert (phys_start d + page_count d * PAGE_SIZE <= phys_start e); [|unfold PAGE_SIZE in *; lia].
      apply (Hsort (length ds1) (S (length ds1) + j)%nat); [lia| | |done..].
      + by rewrite list_lookup_middle.
      + rewrite lookup_app_r by lia. by replace (S (length ds1) + j - length ds1)%nat with (S j) by lia. }
  split; [|split; [done|by exists e]]. unfold PAGE_SIZE in *.
  pose proof (Z.div_mod g 4096). pose proof (Z.div_mod (Z.max (next_address a) (phys_start d)) 4096). lia.
Qed.

Lemma requests_cover (n : nat) a answers a' :
  bump_ok mm a -> map_sorted (descriptors_of mm a) ->
  requests (H := bump_source mm) n a = Ret (answers, a') ->
  descriptors_of mm a' = descriptors_of mm a /\
  (forall g, free_above (descriptors_of mm a) (next_address a) g ->
     g ∈ granted answers \/ free_above (descriptors_of mm a') (next_address a') g) /\
  (None ∈ answers -> forall g, ~ free_above (descriptors_of mm a') (next_address a') g).
Proof.
  revert a answers a'. induction n as [|n IH]; intros a answers a' Ha Hsort Hr; cbn [requests] in Hr.
  { simplify_eq. split; [done|]. split; [by right|]. intros Hn. by apply elem_of_nil in Hn. }
  destruct (allocate_physical_frame_spec mm a Ha) as (r & a1 & Hr1 & Ha1 & Hds & Hspec).
  pose proof (allocate_least a r a1 Ha Hsort Hr1) as Hleast.
  change (allocate_frame a) with (allocate_physical_frame mm a) in Hr.
  rewrite Hr1 in Hr. cbn [mbind outcome_bind fst snd] in Hr. inv_out. destruct a0 as [rest a2].
  cbn [fst snd]. rewrite <- Hds in Hsort.
  destruct (IH a1 rest _ Ha1 Hsort Ha0) as (Hds' & Hcover & Hnone).
  assert (granted (r :: rest) = match r with Some f => f :: granted rest | None => granted rest end)
    as Hgr by (by destruct r).
  split; [congruence|]. split.
  - intros g Hg. rewrite Hgr. destruct (Hleast g Hg) as [->|Hg']; [left; by left|].
    destruct (Hcover g Hg') as [Hin|]; [left|by right]. destruct r; [by right|done].
  - intros [<-|Hin]%elem_of_cons; [|by apply Hnone].
    destruct Hspec as [-> Hno]. intros g Hg. destruct (requests_spec (H := bump_source mm) n a Ha)
      as (? & ? & Heq & _ & _ & _ & Hback & _). rewrite Ha0 in Heq. simplify_eq.
    by apply (Hno g), Hback.
Qed.
End Sorted.

(** when the usable descriptors are in address order, no memory is lost:
    by the time the allocator first answers that it has none left, it has
    granted exactly the usable page frames at or above 1 MiB. *)
Theorem sorted_map_exhausted mm (b : BootInfo) (n : nat) answers a' :
  map_ok (visited mm (memory_map b)) -> map_sorted (visited mm (memory_map b)) ->
  requests (H := bump_source mm) n (new b) = Ret (answers, a') -> None ∈ answers ->
  forall f, f ∈ granted answers <->
    LOW_MEMORY_CUTOFF <= f /\ usable_frame (visited mm (memory_map b)) f.
Proof.
  intros Hok Hsort Hr Hnone f.
  assert (bump_ok mm (new b)) as Hb by (split_and!; done).
  destruct (requests_cover mm n (new b) answers a' Hb Hsort Hr) as (Hds & Hcover & Hno).
  specialize (Hno Hnone). split.
  - destruct (requests_spec (H := bump_source mm) n (new b) Hb) as (? & ? & Heq & _ & _ & _ & _ & Hall).
    rewrite Hr in Heq. simplify_eq. rewrite Forall_forall in Hall. intros Hin.
    destruct (Hall f Hin) as ([Hf Hu] & _). done.
  - intros [Hf Hu]. destruct (Hcover f) as [Hin|Hbad]; [done|done|]. by destruct (Hno f).
Qed.

(** ** Concrete inputs *)

Definition desc (t start pages : Z) : list (nat * Z) :=
  [(4%nat, t); (4%nat, 0); (8%nat, start); (8%nat, 0); (8%nat, pages); (8%nat, 0)].

(** A boot block whose memory map is the given table, at address 0x1000. *)
Definition demo_boot (table : list (list (nat * Z))) : mem * BootInfo :=
  (write_mem (fun _ => x00) 0x1000 (concat (map enc table)),
   {| abi_version := 3; environment := EnvUefi; loader := UefiLoader; flags := 1;
      kernel_image_base := 0; kernel_image_size := 0; physical_memory_offset := 0;
      ramdisk_addr := 0; ramdisk_size := 0;
      memory_map := mkMemoryMap 0x1000 (40 * len table) 40 1;
      framebuffer := mkBootFramebuffer 0 0 0 0 0 0; rsdp_addr := 0 |}).

(** The map of the allocator's unit test, with a loader-data entry. *)
Definition demo_map := demo_boot [desc 7 0 256; desc 2 0x200000 4; desc 7 0x100000 2; desc 3 0x300000 1].

Lemma demo_map_visited : visited demo_map.1 (memory_map demo_map.2) =
  [mkDescriptor 7 0 0 0 256 0; mkDescriptor 2 0 0x200000 0 4 0; mkDescriptor 7 0 0x100000 0 2 0;
   mkDescriptor 3 0 0x300000 0 1 0].
Proof. vm_compute. reflexivity. Qed.

Lemma demo_map_ok : map_ok (visited demo_map.1 (memory_map demo_map.2)).
Proof.
  rewrite demo_map_visited.
  repeat (apply Forall_cons; split; [by vm_compute|]). by apply Forall_nil.
Qed.

Lemma demo_map_sorted : map_sorted (visited demo_map.1 (memory_map demo_map.2)).
Proof.
  rewrite demo_map_visited.
  intros [|[|[|[|i]]]] [|[|[|[|j]]]] d e Hij Hd He; try lia; simplify_eq/=; by vm_compute.
Qed.

Lemma frames_never_reused_witness :
  exists a', requests (H := bump_source demo_map.1) 4 (new demo_map.2) =
    Ret ([Some 0x100000; Some 0x101000; Some 0x300000; None], a').
Proof.
  destruct (frames_never_reused demo_map.1 demo_map.2 4 demo_map_ok) as (answers & a' & Hr & _).
  exists a'. rewrite Hr. assert (match requests (H := bump_source demo_map.1) 4 (new demo_map.2)
    with Ret (l, _) => l | _ => [] end = answers) as <- by (by rewrite Hr).
  vm_compute. reflexivity.
Defined.

Lemma sorted_map_exhausted_witness :
  match requests (H := bump_source demo_map.1) 4 (new demo_map.2) with
  | Ret (answers, _) => forall f, f ∈ granted answers <->
      LOW_MEMORY_CUTOFF <= f /\ usable_frame (visited demo_map.1 (memory_map demo_map.2)) f
  | _ => False
  end.
Proof.
  assert (match requests (H := bump_source demo_map.1) 4 (new demo_map.2)
    with Ret (l, _) => Some l | _ => None end = Some [Some 0x100000; Some 0x101000; Some 0x300000; None])
    as Hl by (vm_compute; reflexivity).
  destruct (requests (H := bump_source demo_map.1) 4 (new demo_map.2)) as [[answers a']| |] eqn:E;
    [injection Hl as ->|discriminate Hl..].
  apply (sorted_map_exhausted demo_map.1 demo_map.2 4 _ a' demo_map_ok demo_map_sorted); [exact E|apply list_elem_of_lookup; by exists 3%nat].
Defined.

(** With an unsorted map, which UEFI allows, memory below a frame once granted
    is lost: the second descriptor here is never used. *)
Lemma unsorted_map_loses_memory :
  let '(mm, b) := demo_boot [desc 7 0x300000 1; desc 7 0x100000 2] in
  exists a', requests (H := bump_source mm) 2 (new b) = Ret ([Some 0x300000; None], a').
Proof. eexists. vm_compute. reflexivity. Qed.
