(* ===== verification/Heap.v ===== *)
(** * The kernel heap ([kernel/src/memory/allocator])

    [mod.rs]: [align_up]; [linked_list.rs]: the first-fit free-list allocator;
    [fixed_size_block.rs]: the size-class allocator in front of it, which is
    the kernel's global allocator ([memory/heap.rs]).  An intrusive list is
    represented by the list of its nodes: [(address, size)] for free regions,
    addresses for free blocks, first node first. *)

From S2P Require Import Prelude.

Definition HEAP_START : Z := 0xFFFFA00000000000.
Definition HEAP_SIZE : Z := 100 * 1024.

(** ** [core::alloc::Layout] *)

Record Layout := mkLayout { lsize : Z; lalign : Z }.

Definition is_power_of_two (n : Z) : bool := (0 <? n) && (Z.land n (n - 1) =? 0).

Definition from_size_align (size align : Z) : option Layout :=
  if is_power_of_two align && (size <=? 2 ^ 63 - align) then Some (mkLayout size align) else None.

Definition align_to (l : Layout) (align : Z) : option Layout :=
  from_size_align (lsize l) (Z.max (lalign l) align).

Definition pad_to_align (l : Layout) : Layout :=
  mkLayout (div_ceil (lsize l) (lalign l) * lalign l) (lalign l).

(** ** [mod.rs] *)

Definition align_up (addr align : Z) : outcome Z :=
  sum ← add_u 64 addr align;
  last ← sub_u sum 1;
  mask ← sub_u align 1;
  Ret (Z.land last (not_u 64 mask)).

(** ** [linked_list.rs] *)

(** [size_of] and [align_of] of the free-list node. *)
Definition NODE_SIZE : Z := 16.
Definition NODE_ALIGN : Z := 8.

Definition region : Type := Z * Z.
Definition LinkedListAllocator : Type := list region.

Definition end_addr (r : region) : outcome Z := add_u 64 r.1 r.2.

Definition add_free_region (l : LinkedListAllocator) (addr size : Z) : outcome LinkedListAllocator :=
  a ← align_up addr NODE_ALIGN;
  _ ← assert_b (a =? addr);
  _ ← assert_b (NODE_SIZE <=? size);
  Ret ((addr, size) :: l).

Definition ll_init (heap_start heap_size : Z) : outcome LinkedListAllocator :=
  add_free_region [] heap_start heap_size.

Definition alloc_from_region (r : region) (size align : Z) : outcome (result unit Z) :=
  alloc_start ← align_up r.1 align;
  alloc_end ←? Ret (ok_or (checked_add 64 alloc_start size) tt);
  region_end ← end_addr r;
  if region_end <? alloc_end then Ret (Err tt) else
  excess_size ← sub_u region_end alloc_end;
  if (0 <? excess_size) && (excess_size <? NODE_SIZE) then Ret (Err tt) else
  Ret (Ok alloc_start).

(** The region taken out of the list, the start of the allocation in it, and
    the list without it. *)
Fixpoint find_region (l : LinkedListAllocator) (size align : Z)
    : outcome (option (region * Z * LinkedListAllocator)) :=
  match l with
  | [] => Ret None
  | r :: rest =>
      a ← alloc_from_region r size align;
      match a with
      | Ok alloc_start => Ret (Some (r, alloc_start, rest))
      | Err _ =>
          res ← find_region rest size align;
          match res with
          | Some (r', s, rest') => Ret (Some (r', s, r :: rest'))
          | None => Ret None
          end
      end
  end.

Definition size_align (layout : Layout) : outcome (Z * Z) :=
  l ← unwrap (align_to layout NODE_ALIGN);
  let l := pad_to_align l in
  Ret (Z.max (lsize l) NODE_SIZE, lalign l).

(** The pointer, 0 when null. *)
Definition allocate (l : LinkedListAllocator) (layout : Layout) : outcome (Z * LinkedListAllocator) :=
  sa ← size_align layout;
  let '(size, align) := sa in
  res ← find_region l size align;
  match res with
  | Some (r, alloc_start, rest) =>
      alloc_end ← unwrap (checked_add 64 alloc_start size);
      region_end ← end_addr r;
      excess_size ← sub_u region_end alloc_end;
      l' ← (if 0 <? excess_size then add_free_region rest alloc_end excess_size else Ret rest);
      Ret (alloc_start, l')
  | None => Ret (0, l)
  end.

Definition deallocate (l : LinkedListAllocator) (ptr : Z) (layout : Layout)
    : outcome LinkedListAllocator :=
  sa ← size_align layout;
  add_free_region l ptr sa.1.

(** ** [fixed_size_block.rs] *)

Definition BLOCK_SIZES : list Z := [8; 16; 32; 64; 128; 256; 512; 1024; 2048].

(** [size_of] of the block-list node. *)
Definition BLOCK_NODE_SIZE : Z := 8.

Record FixedSizeBlockAllocator := mkFsb {
  list_heads : list (list Z);
  fallback_allocator : LinkedListAllocator }.

Definition fsb_new : FixedSizeBlockAllocator := mkFsb (replicate (length BLOCK_SIZES) []) [].

Definition fsb_init (heap_start heap_size : Z) : outcome FixedSizeBlockAllocator :=
  l ← ll_init heap_start heap_size;
  Ret (mkFsb (list_heads fsb_new) l).

Definition list_index (layout : Layout) : option nat :=
  let required_block_size := Z.max (lsize layout) (lalign layout) in
  position (fun s => required_block_size <=? s) BLOCK_SIZES.

Definition fallback_alloc (a : FixedSizeBlockAllocator) (layout : Layout)
    : outcome (Z * FixedSizeBlockAllocator) :=
  r ← allocate (fallback_allocator a) layout;
  Ret (r.1, mkFsb (list_heads a) r.2).

Definition fsb_alloc (a : FixedSizeBlockAllocator) (layout : Layout)
    : outcome (Z * FixedSizeBlockAllocator) :=
  match list_index layout with
  | Some index =>
      blocks ← idx (list_heads a) (Z.of_nat index);
      match blocks with
      | node :: next => Ret (node, mkFsb (<[index := next]> (list_heads a)) (fallback_allocator a))
      | [] =>
          block_size ← idx BLOCK_SIZES (Z.of_nat index);
          layout ← unwrap (from_size_align block_size block_size);
          fallback_alloc a layout
      end
  | None => fallback_alloc a layout
  end.

Definition fsb_dealloc (a : FixedSizeBlockAllocator) (ptr : Z) (layout : Layout)
    : outcome FixedSizeBlockAllocator :=
  match list_index layout with
  | Some index =>
      blocks ← idx (list_heads a) (Z.of_nat index);
      block_size ← idx BLOCK_SIZES (Z.of_nat index);
      _ ← assert_b (BLOCK_NODE_SIZE <=? block_size);
      Ret (mkFsb (<[index := ptr :: blocks]> (list_heads a)) (fallback_allocator a))
  | None =>
      l ← deallocate (fallback_allocator a) ptr layout;
      Ret (mkFsb (list_heads a) l)
  end.

(** ** The [GlobalAlloc] trait and what it promises

    [live] are the allocations handed out and not yet returned. *)

Class GlobalAlloc (A : Type) := {
  alloc : A -> Layout -> outcome (Z * A);
  dealloc : A -> Z -> Layout -> outcome A }.

#[global] Instance linked_list_alloc : GlobalAlloc LinkedListAllocator :=
  {| alloc := allocate; dealloc := deallocate |}.
#[global] Instance fixed_size_block_alloc : GlobalAlloc FixedSizeBlockAllocator :=
  {| alloc := fsb_alloc; dealloc := fsb_dealloc |}.

(** A layout a client may pass: what [Layout] guarantees, and not empty. *)
Definition layout_ok (l : Layout) : Prop :=
  0 < lsize l /\ from_size_align (lsize l) (lalign l) = Some l.

(** A request the allocator can work with: it still is a layout when its
    alignment is raised to that of a node, and aligning an address of the
    kernel's heap to it stays within 64 bits. *)
Definition servable (l : Layout) : Prop :=
  0 < lsize l /\ exists k, (0 <= k <= 46 /\ lsize l <= 2 ^ 63 - 2 ^ Z.max k 3) /\ lalign l = 2 ^ k.

(** The other layouts. *)
Definition hopeless (l : Layout) : bool := (2 ^ 63 - 8 <? lsize l) || (2 ^ 47 <=? lalign l).

(** Two regions do not overlap. *)
Definition apart (r s : region) : Prop := r.1 + r.2 <= s.1 \/ s.1 + s.2 <= r.1.

Fixpoint separated (l : list region) : Prop :=
  match l with
  | [] => True
  | r :: l' => Forall (apart r) l' /\ separated l'
  end.

Definition live_region (x : Z * Layout) : region := (x.1, lsize x.2).

Class SafeHeap (A : Type) `{GlobalAlloc A} (lo hi : Z) := {
  heap_inv : A -> list (Z * Layout) -> Prop;
  heap_inv_live : forall a live, heap_inv a live ->
    separated (map live_region live) /\
    Forall (fun x => x.1 mod lalign x.2 = 0 /\ lo <= x.1 /\ x.1 + lsize x.2 <= hi) live;
  alloc_safe : forall a live l, heap_inv a live -> servable l ->
    exists p a', alloc a l = Ret (p, a') /\
      if p =? 0 then a' = a else heap_inv a' ((p, l) :: live);
  dealloc_safe : forall a live1 p l live2, heap_inv a (live1 ++ (p, l) :: live2) ->
    exists a', dealloc a p l = Ret a' /\ heap_inv a' (live1 ++ live2) }.

(** ** Separation *)

Lemma apart_sym r s : apart r s -> apart s r.
Proof. unfold apart. tauto. Qed.

#[global] Instance separated_perm : Proper (Permutation ==> iff) separated.
Proof.
  assert (forall l k, Permutation l k -> separated l -> separated k) as H.
  { intros l k Hp. induction Hp as [|r l k Hp IH|r s l|l k j _ IH1 _ IH2]; simpl; auto.
    - intros [Hr Hl]. split; [|auto]. by rewrite <- Hp.
    - rewrite !Forall_cons. intros ([Hsr Hs] & Hr & Hl). split_and!; auto using apart_sym. }
  intros l k Hp. split; apply H; [done|by symmetry].
Qed.

Lemma separated_app_r l k : separated (l ++ k) -> separated k.
Proof. induction l; simpl; tauto. Qed.

Lemma separated_drop r s l : separated (r :: s :: l) -> separated (r :: l).
Proof. simpl. rewrite Forall_cons. tauto. Qed.

(** A region may be replaced by a part of it. *)
Lemma separated_shrink r s l :
  r.1 <= s.1 -> s.1 + s.2 <= r.1 + r.2 -> separated (r :: l) -> separated (s :: l).
Proof.
  intros H1 H2 [Hr Hl]. split; [|done]. eapply Forall_impl; [done|].
  intros t. unfold apart. lia.
Qed.

(** A region may be split in two. *)
Lemma separated_split a n b m l :
  a <= b -> 0 <= m -> b + m <= a + n ->
  separated ((a, n) :: l) -> separated ((b, m) :: (b + m, a + n - (b + m)) :: l).
Proof.
  intros H1 Hm H2 Hs.
  pose proof (separated_shrink (a, n) (b, m) l ltac:(simpl; lia) ltac:(simpl; lia) Hs) as [Hb Hl].
  pose proof (separated_shrink (a, n) (b + m, a + n - (b + m)) l ltac:(simpl; lia) ltac:(simpl; lia) Hs).
  simpl in *. rewrite Forall_cons. split_and!; try tauto. unfold apart. simpl. lia.
Qed.

Lemma separated_map_shrink {X} (f g : X -> region) l :
  (forall x, x ∈ l -> (f x).1 <= (g x).1 /\ (g x).1 + (g x).2 <= (f x).1 + (f x).2) ->
  separated (map f l) -> separated (map g l).
Proof.
  induction l as [|x l IH]; intros Hfg; simpl; [done|]. intros [Hx Hl]. split.
  - rewrite Forall_forall in *. intros r (y & -> & Hy)%list_elem_of_fmap.
    specialize (Hx (f y)). pose proof (Hfg x ltac:(by left)). pose proof (Hfg y ltac:(by right)).
    unfold apart in *. destruct Hx; [by apply list_elem_of_fmap_2|lia..].
  - apply IH; [|done]. intros y Hy. apply Hfg. by right.
Qed.

(** ** Alignment *)

Lemma align_up_spec addr k :
  0 <= k <= 62 -> 0 <= addr -> addr + 2 ^ k < 2 ^ 64 ->
  exists a, align_up addr (2 ^ k) = Ret a /\ addr <= a < addr + 2 ^ k /\ a mod 2 ^ k = 0.
Proof.
  intros Hk Ha Hlt. pose proof (Z.pow_pos_nonneg 2 k ltac:(lia) ltac:(lia)) as Hpos.
  unfold align_up. rewrite add_u_Ret by done. cbn [mbind outcome_bind].
  rewrite !sub_u_Ret by lia. cbn [mbind outcome_bind].
  eexists. split; [done|]. rewrite land_not_mask by (unfold in_range; lia).
  pose proof (Z.div_mod (addr + 2 ^ k - 1) (2 ^ k)). pose proof (Z.mod_pos_bound (addr + 2 ^ k - 1) (2 ^ k)).
  split; [lia|]. apply Z.mod_mul. lia.
Qed.

(** A window of [p] integers holds one multiple of [p]. *)
Lemma multiple_unique lo p a b :
  lo <= a < lo + p -> lo <= b < lo + p -> a mod p = 0 -> b mod p = 0 -> a = b.
Proof.
  intros Ha Hb [c ->]%Z.mod_divide [d ->]%Z.mod_divide; [|lia..].
  assert (c = d) as ->; [|done]. destruct (Z.lt_trichotomy c d) as [|[|]]; [nia|done|nia].
Qed.

Lemma align_up_id addr k :
  0 <= k <= 62 -> 0 <= addr -> addr + 2 ^ k < 2 ^ 64 -> addr mod 2 ^ k = 0 ->
  align_up addr (2 ^ k) = Ret addr.
Proof.
  intros Hk Ha Hlt Hm. destruct (align_up_spec addr k Hk Ha Hlt) as (a & -> & Hr & Ham). f_equal.
  pose proof (Z.pow_pos_nonneg 2 k ltac:(lia) ltac:(lia)).
  by apply (multiple_unique addr (2 ^ k)); [lia..| |].
Qed.

Lemma is_power_of_two_pow k : 0 <= k -> is_power_of_two (2 ^ k) = true.
Proof.
  intros Hk. pose proof (Z.pow_pos_nonneg 2 k ltac:(lia) Hk).
  unfold is_power_of_two. replace (0 <? 2 ^ k) with true by lia. simpl.
  rewrite Z.sub_1_r, <- Z.ones_equiv, Z.land_ones by done.
  by rewrite Z_mod_same_full.
Qed.

Lemma mod_pow_le a k j : 0 <= j <= k -> a mod 2 ^ k = 0 -> a mod 2 ^ j = 0.
Proof.
  intros Hj Hm. pose proof (Z.pow_pos_nonneg 2 k ltac:(lia) ltac:(lia)).
  apply Z.mod_divide in Hm as [c ->]; [|lia].
  replace k with (k - j + j) by lia. rewrite Z.pow_add_r, Z.mul_assoc by lia.
  apply Z.mod_mul. pose proof (Z.pow_pos_nonneg 2 j ltac:(lia) ltac:(lia)). lia.
Qed.

(** What [size_align] asks of the free list for a request. *)
Lemma size_align_spec l k :
  0 < lsize l -> 0 <= k <= 46 /\ lsize l <= 2 ^ 63 - 2 ^ Z.max k 3 -> lalign l = 2 ^ k ->
  exists size, size_align l = Ret (size, 2 ^ Z.max k 3) /\
    lsize l <= size < 2 ^ 63 + 2 ^ 46 /\ NODE_SIZE <= size /\ size mod 8 = 0.
Proof.
  intros Hs Hk Ha. unfold size_align, align_to, NODE_ALIGN, NODE_SIZE. rewrite Ha.
  assert (Z.max (2 ^ k) 8 = 2 ^ Z.max k 3) as ->.
  { change 8 with (2 ^ 3). destruct (Z.max_spec k 3) as [[Hlt ->]|[Hge ->]].
    - assert (2 ^ k < 2 ^ 3) by (apply Z.pow_lt_mono_r; lia). lia.
    - assert (2 ^ 3 <= 2 ^ k) by (apply Z.pow_le_mono_r; lia). lia. }
  set (j := Z.max k 3) in *. assert (3 <= j <= 46) as Hj by lia.
  assert (2 ^ j <= 2 ^ 46) as Hle by (apply Z.pow_le_mono_r; lia).
  pose proof (Z.pow_pos_nonneg 2 j ltac:(lia) ltac:(lia)) as Hpos.
  unfold from_size_align. rewrite is_power_of_two_pow by lia.
  replace (lsize l <=? 2 ^ 63 - 2 ^ j) with true by lia. cbn [andb unwrap mbind outcome_bind].
  unfold pad_to_align. cbn [lsize lalign].
  pose proof (div_ceil_spec (lsize l) (2 ^ j) Hpos) as Hc.
  eexists. split; [done|]. split_and!; try lia.
  destruct (Z.max_spec (div_ceil (lsize l) (2 ^ j) * 2 ^ j) 16) as [[_ ->]|[_ ->]]; [done|].
  change 8 with (2 ^ 3). apply (mod_pow_le _ j); [lia|]. apply Z.mod_mul. lia.
Qed.

(** ** The free-list allocator *)

Section FreeList.
Context (lo hi : Z) (Hlo : 0 < lo) (Hhi : hi + 2 ^ 46 < 2 ^ 64).

(** A node of the free list: in the heap, large and aligned enough to hold
    the node itself. *)
Definition node_ok (r : region) : Prop :=
  r.1 mod 8 = 0 /\ NODE_SIZE <= r.2 /\ lo <= r.1 /\ r.1 + r.2 <= hi.

Lemma add_free_region_ok l addr size :
  node_ok (addr, size) -> add_free_region l addr size = Ret ((addr, size) :: l).
Proof.
  intros (Hm & Hs & Hl & Hh). unfold NODE_SIZE in *. simpl in *.
  unfold add_free_region, NODE_ALIGN, NODE_SIZE. change 8 with (2 ^ 3) in *.
  rewrite align_up_id by lia. cbn [mbind outcome_bind]. rewrite Z.eqb_refl. cbn [assert_b mbind outcome_bind].
  by replace (16 <=? size) with true by lia.
Qed.

(** Whether a request fits in a free region without leaving an unusable
    rest. *)
Definition fits (r : region) (size k a : Z) : Prop :=
  r.1 <= a < r.1 + 2 ^ k /\ a mod 2 ^ k = 0 /\ a + size <= r.1 + r.2 /\
  (r.1 + r.2 = a + size \/ a + size + NODE_SIZE <= r.1 + r.2).

Lemma alloc_from_region_spec r size k :
  node_ok r -> 0 <= k <= 46 -> 0 < size < 2 ^ 63 + 2 ^ 46 ->
  (exists a, alloc_from_region r size (2 ^ k) = Ret (Ok a) /\ fits r size k a) \/
  (alloc_from_region r size (2 ^ k) = Ret (Err tt) /\ forall a, ~ fits r size k a).
Proof.
  intros (Hm & Hs & Hl & Hh) Hk Hsz. unfold NODE_SIZE in *.
  assert (2 ^ k <= 2 ^ 46) by (apply Z.pow_le_mono_r; lia).
  destruct (align_up_spec r.1 k) as (a & Ha & Hr & Ham); [lia..|].
  assert (forall b, fits r size k b -> b = a) as Huniq.
  { intros b (Hb & Hbm & _). by apply (multiple_unique r.1 (2 ^ k)). }
  unfold alloc_from_region. rewrite Ha. cbn [mbind outcome_bind].
  unfold checked_add. case_if; cbn [ok_or try_bind].
  2: { right. split; [done|]. intros b Hb. pose proof (Huniq b Hb) as ->. unfold fits in Hb. lia. }
  unfold end_addr. rewrite add_u_Ret by lia. cbn [mbind outcome_bind].
  case_if.
  { right. split; [done|]. intros b Hb. pose proof (Huniq b Hb) as ->. unfold fits in Hb. lia. }
  rewrite sub_u_Ret by lia. cbn [mbind outcome_bind]. unfold NODE_SIZE. case_if.
  - right. split; [done|]. intros b Hb. pose proof (Huniq b Hb) as ->. unfold fits, NODE_SIZE in Hb. lia.
  - left. exists a. split; [done|]. unfold fits, NODE_SIZE. lia.
Qed.

Lemma find_region_spec l size k :
  Forall node_ok l -> 0 <= k <= 46 -> 0 < size < 2 ^ 63 + 2 ^ 46 ->
  (exists r a rest, find_region l size (2 ^ k) = Ret (Some (r, a, rest)) /\
     fits r size k a /\ l ≡ₚ r :: rest) \/
  (find_region l size (2 ^ k) = Ret None /\ forall r a, r ∈ l -> ~ fits r size k a).
Proof.
  intros Hl Hk Hs. induction Hl as [|r l Hr Hl IH]; cbn [find_region].
  { right. split; [done|]. intros r a Hin. by apply elem_of_nil in Hin. }
  destruct (alloc_from_region_spec r size k Hr Hk Hs) as [(a & -> & Hfit)|[-> Hno]];
    cbn [mbind outcome_bind].
  - left. by exists r, a, l.
  - destruct IH as [(r' & a & rest & -> & Hfit & Hp)|[-> Hnone]]; cbn [mbind outcome_bind].
    + left. exists r', a, (r :: rest). split_and!; [done..|]. rewrite Hp. apply perm_swap.
    + right. split; [done|]. intros s a [->|Hin]%elem_of_cons; [apply Hno|by apply Hnone].
Qed.

(** The allocation is aligned, cut out of the free regions, and apart from
    everything ([others]) they were apart from. *)
Lemma allocate_spec l others layout :
  Forall node_ok l -> separated (l ++ others) -> servable layout ->
  exists size k, size_align layout = Ret (size, 2 ^ k) /\ lsize layout <= size /\ 3 <= k /\
    NODE_SIZE <= size /\ (forall p, p mod 2 ^ k = 0 -> p mod lalign layout = 0) /\
    ((exists p l', allocate l layout = Ret (p, l') /\ p mod 2 ^ k = 0 /\ lo <= p /\ p + size <= hi /\
        Forall node_ok l' /\ separated ((p, size) :: l' ++ others)) \/
     (allocate l layout = Ret (0, l) /\ forall r a, r ∈ l -> ~ fits r size k a)).
Proof.
  intros Hl Hsep (Hs & k0 & Hk0 & Hal).
  destruct (size_align_spec layout k0 Hs Hk0 Hal) as (size & Hsa & Hsize & Hmin & Hm8).
  exists size, (Z.max k0 3). unfold NODE_SIZE in Hmin.
  split_and!; [done|lia|lia|done| |].
  { intros p Hp. rewrite Hal. apply (mod_pow_le p (Z.max k0 3)); [lia|done]. }
  set (k := Z.max k0 3) in *. assert (3 <= k <= 46) as Hk by lia.
  unfold allocate. rewrite Hsa. cbn [mbind outcome_bind].
  destruct (find_region_spec l size k) as [(r & p & rest & -> & Hfit & Hp)|[-> Hno]];
    [done|lia|lia| |]; cbn [mbind outcome_bind]; [left|by right].
  destruct Hfit as (Hp1 & Hpm & Hp2 & Hp3).
  rewrite Hp in Hl, Hsep. apply Forall_cons in Hl as [Hr Hrest].
  pose proof Hr as (Hr8 & Hr16 & Hrlo & Hrhi). unfold NODE_SIZE in *.
  unfold checked_add. case_if; [|lia]. cbn [unwrap mbind outcome_bind].
  unfold end_addr. rewrite add_u_Ret by lia. cbn [mbind outcome_bind].
  rewrite sub_u_Ret by lia. cbn [mbind outcome_bind].
  destruct r as [ra rn]. simpl in *.
  pose proof (separated_split ra rn p size _ ltac:(lia) ltac:(lia) ltac:(lia) Hsep) as Hcut.
  case_if.
  - assert (node_ok (p + size, ra + rn - (p + size))) as Hnode.
    { unfold node_ok, NODE_SIZE. simpl. split_and!; try lia.
      assert (p mod 8 = 0) by (apply (mod_pow_le p k 3); [lia|done]).
      rewrite Zplus_mod, Hm8. by replace (p mod 8) with 0. }
    rewrite add_free_region_ok by done. cbn [mbind outcome_bind].
    eexists _, _. do 4 (split; [done || lia|]). split; [by apply Forall_cons|exact Hcut].
  - cbn [mbind outcome_bind]. eexists _, _. do 5 (split; [done || lia|]).
    by apply separated_drop in Hcut.
Qed.
End FreeList.

(** ** Both allocators keep the trait's promise *)

(** The bytes the free list gives up for a request. *)
Definition ll_footprint (l : Layout) : Z :=
  match size_align l with Ret (size, _) => size | _ => 0 end.

Definition block_class (l : Layout) : option Z := i ← list_index l; BLOCK_SIZES !! i.

Definition footprint (l : Layout) : Z :=
  match block_class l with Some b => b | None => ll_footprint l end.

(** The alignment an allocation has beyond the one requested. *)
Definition grain (l : Layout) : Z :=
  match block_class l with Some b => b | None => NODE_ALIGN end.

Definition block_regions (sizes : list Z) (heads : list (list Z)) : list region :=
  concat (zip_with (fun b blocks => map (fun p => (p, b)) blocks) sizes heads).

Lemma block_regions_push sizes heads i b p next :
  sizes !! i = Some b -> (i < length heads)%nat ->
  block_regions sizes (<[i := p :: next]> heads) ≡ₚ (p, b) :: block_regions sizes (<[i := next]> heads).
Proof.
  unfold block_regions. revert heads i. induction sizes as [|c sizes IH]; intros [|h heads] [|i] Hb Hi;
    simpl in *; try done; try lia.
  - by simplify_eq.
  - rewrite (IH heads i Hb) by lia. symmetry. apply Permutation_middle.
Qed.

Lemma BLOCK_SIZES_pow i b : BLOCK_SIZES !! i = Some b -> b = 2 ^ (Z.of_nat i + 3) /\ (i < 9)%nat.
Proof. do 9 (destruct i as [|i]; [intros [= <-]; split; [done|lia]|]). done. Qed.

Lemma list_index_Some l i :
  list_index l = Some i -> exists b, BLOCK_SIZES !! i = Some b /\ block_class l = Some b /\
    lsize l <= b /\ lalign l <= b.
Proof.
  intros H. unfold block_class. rewrite H.
  apply position_Some in H as (b & Hb & Hle & _). exists b. simpl. split_and!; try done; lia.
Qed.

Lemma list_index_None l : list_index l = None -> block_class l = None.
Proof. intros H. unfold block_class. by rewrite H. Qed.

Lemma pow2_divides k j p : 0 <= k -> 0 <= j -> 2 ^ k <= 2 ^ j -> p mod 2 ^ j = 0 -> p mod 2 ^ k = 0.
Proof.
  intros Hk Hj Hle. apply mod_pow_le. apply Z.pow_le_mono_r_iff in Hle; lia.
Qed.

Section Safe.
Context (lo hi : Z) (Hlo : 0 < lo) (Hhi : hi + 2 ^ 46 < 2 ^ 64).

Definition live_ok (x : Z * Layout) : Prop :=
  servable x.2 /\ x.1 mod lalign x.2 = 0 /\ x.1 mod grain x.2 = 0 /\
  lo <= x.1 /\ x.1 + footprint x.2 <= hi /\ lsize x.2 <= footprint x.2.

Definition held (x : Z * Layout) : region := (x.1, footprint x.2).

Definition block_ok (b p : Z) : Prop := p mod b = 0 /\ lo <= p /\ p + b <= hi.

Record fsb_inv (a : FixedSizeBlockAllocator) (live : list (Z * Layout)) : Prop := {
  inv_heads : Forall2 (fun b => Forall (block_ok b)) BLOCK_SIZES (list_heads a);
  inv_nodes : Forall (node_ok lo hi) (fallback_allocator a);
  inv_live : Forall live_ok live;
  inv_apart : separated (fallback_allocator a ++
                (block_regions BLOCK_SIZES (list_heads a) ++ map held live)) }.

Lemma fsb_inv_live a live : fsb_inv a live ->
  separated (map live_region live) /\
  Forall (fun x => x.1 mod lalign x.2 = 0 /\ lo <= x.1 /\ x.1 + lsize x.2 <= hi) live.
Proof.
  intros [_ _ Hlive Hsep]. split.
  - apply separated_app_r, separated_app_r in Hsep.
    apply (separated_map_shrink held); [|done]. intros x Hx. rewrite Forall_forall in Hlive.
    destruct (Hlive x Hx) as (_ & _ & _ & _ & _ & Hf). simpl. lia.
  - eapply Forall_impl; [done|]. intros x (_ & ? & _ & ? & ? & ?). split_and!; [done|lia|lia].
Qed.

(** Serving a request of class [b] from the free list. *)
Lemma fallback_inv a live l0 l :
  fsb_inv a live -> servable l0 -> servable l ->
  lsize l <= footprint l ->
  (forall size k, size_align l0 = Ret (size, 2 ^ k) -> lsize l0 <= size -> 3 <= k ->
     (forall p, p mod 2 ^ k = 0 -> p mod lalign l0 = 0) ->
     footprint l <= size /\ forall p, p mod 2 ^ k = 0 -> p mod lalign l = 0 /\ p mod grain l = 0) ->
  exists p a', fallback_alloc a l0 = Ret (p, a') /\
    if p =? 0 then a' = a else fsb_inv a' ((p, l) :: live).
Proof.
  intros [Hh Hn Hl Hs] Hl0 Hok Hfoot Himp. unfold fallback_alloc.
  destruct (allocate_spec lo hi Hlo Hhi (fallback_allocator a)
    (block_regions BLOCK_SIZES (list_heads a) ++ map held live) l0 Hn Hs Hl0)
    as (size & k & Hsa & Hsz & Hk & _ & Hdiv & Hcase).
  destruct (Himp size k Hsa Hsz Hk Hdiv) as [Hfit Hal].
  destruct Hcase as [(p & l' & -> & Hpm & Hp1 & Hp2 & Hn' & Hs')|[-> _]]; cbn [mbind outcome_bind fst snd].
  - eexists _, _. split; [done|]. case_if; [lia|]. destruct (Hal p Hpm) as [Ha Hg].
    split; cbn [list_heads fallback_allocator]; try done.
    + apply Forall_cons. split; [|done]. unfold live_ok. cbn [fst snd]. split_and!; try done; lia.
    + apply (separated_shrink _ (p, footprint l)) in Hs'; [|simpl; lia..].
      revert Hs'. apply separated_perm. cbn [map]. by rewrite <- !Permutation_middle.
  - eexists _, _. split; [done|]. case_if; [|done]. by destruct a.
Qed.

Lemma heads_lookup a live i b :
  fsb_inv a live -> BLOCK_SIZES !! i = Some b ->
  exists blocks, list_heads a !! i = Some blocks /\ Forall (block_ok b) blocks /\
    idx (list_heads a) (Z.of_nat i) = Ret blocks /\ idx BLOCK_SIZES (Z.of_nat i) = Ret b.
Proof.
  intros Hinv Hb.
  destruct (Forall2_lookup_l _ _ _ _ _ (inv_heads _ _ Hinv) Hb) as (blocks & Hi & Hok).
  exists blocks. split_and!; try done; unfold idx; by rewrite zget_lookup, Nat2Z.id, ?Hi, ?Hb by lia.
Qed.

Lemma fsb_alloc_safe a live l :
  fsb_inv a live -> servable l ->
  exists p a', fsb_alloc a l = Ret (p, a') /\ if p =? 0 then a' = a else fsb_inv a' ((p, l) :: live).
Proof.
  intros Hinv Hl. pose proof Hl as (Hsz & k & Hk & Hal). unfold fsb_alloc.
  pose proof (Z.pow_pos_nonneg 2 k ltac:(lia) ltac:(lia)).
  destruct (list_index l) as [i|] eqn:Hi.
  - destruct (list_index_Some l i Hi) as (b & Hb & Hc & Hbs & Hba).
    destruct (BLOCK_SIZES_pow i b Hb) as [Hpow Hi9].
    destruct (heads_lookup a live i b Hinv Hb) as (blocks & Hlook & Hblocks & -> & ->).
    cbn [mbind outcome_bind].
    assert (forall p, p mod b = 0 -> p mod lalign l = 0) as Hdiv.
    { intros p Hp. rewrite Hal. apply (pow2_divides k (Z.of_nat i + 3)); [lia..|by rewrite <- Hpow]. }
    assert (footprint l = b /\ grain l = b) as [Hf Hg] by (unfold footprint, grain; by rewrite Hc).
    destruct blocks as [|p next].
    + assert (is_power_of_two b = true) as Hp2 by (rewrite Hpow; apply is_power_of_two_pow; lia).
      assert (8 <= b <= 2048) as Hrange.
      { rewrite Hpow. split; [apply (Z.pow_le_mono_r 2 3); lia|apply (Z.pow_le_mono_r 2 _ 11); lia]. }
      unfold from_size_align. rewrite Hp2. replace (b <=? _) with true by lia.
      cbn [andb unwrap mbind outcome_bind].
      apply (fallback_inv a live (mkLayout b b) l); [done| |done|by rewrite Hf|].
      { split; [simpl; lia|]. exists (Z.of_nat i + 3). simpl. split; [|done]. split; [lia|].
        rewrite Z.max_l, <- Hpow by lia. lia. }
      intros size j _ Hsize _ Hp. simpl in *. rewrite Hf, Hg. split; [done|].
      intros p Hpj. split; [apply Hdiv|]; by apply Hp.
    + apply Forall_cons in Hblocks as [(Hpm & Hp1 & Hp2) Hnext].
      eexists _, _. split; [done|]. case_if; [lia|]. destruct Hinv as [Hh Hn Hlv Hs].
      split; cbn [list_heads fallback_allocator]; try done.
      * rewrite <- (list_insert_id BLOCK_SIZES i b Hb). by apply Forall2_insert.
      * apply Forall_cons. split; [|done]. unfold live_ok. cbn [fst snd]. rewrite Hf, Hg.
        split_and!; try done; auto.
      * rewrite <- (list_insert_id (list_heads a) i _ Hlook) in Hs.
        rewrite (block_regions_push _ _ i b) in Hs by (done || by apply lookup_lt_Some in Hlook).
        revert Hs. apply separated_perm. cbn [map].
        change (held (p, l)) with (p, footprint l). rewrite Hf. cbn [app]. by rewrite <- !Permutation_middle.
  - pose proof (list_index_None l Hi) as Hc.
    assert (footprint l = ll_footprint l /\ grain l = NODE_ALIGN) as [Hf Hg]
      by (unfold footprint, grain; by rewrite Hc).
    apply (fallback_inv a live l l); [done..| |].
    + rewrite Hf. unfold ll_footprint.
      destruct (size_align_spec l k Hsz Hk Hal) as (size & -> & Hsize & _). lia.
    + intros size j Hsa Hsize Hj Hp. rewrite Hf, Hg. unfold ll_footprint. rewrite Hsa.
      split; [lia|]. intros p Hpj. split; [by apply Hp|]. apply (mod_pow_le p j 3); [lia|done].
Qed.

Lemma fsb_dealloc_safe a live1 p l live2 :
  fsb_inv a (live1 ++ (p, l) :: live2) ->
  exists a', fsb_dealloc a p l = Ret a' /\ fsb_inv a' (live1 ++ live2).
Proof.
  intros Hinv. pose proof (inv_live _ _ Hinv) as Hlv.
  rewrite <- Permutation_middle in Hlv. apply Forall_cons in Hlv as [Hp Hlv].
  destruct Hp as (Hok & _ & Hgr & Hp1 & Hp2 & _). cbn [fst snd] in *. unfold fsb_dealloc.
  pose proof (inv_apart _ _ Hinv) as Hs. rewrite map_app in Hs. cbn [map] in Hs.
  rewrite <- (Permutation_middle (map held live1)) in Hs.
  destruct (list_index l) as [i|] eqn:Hi.
  - destruct (list_index_Some l i Hi) as (b & Hb & Hc & Hbs & Hba).
    destruct (heads_lookup a _ i b Hinv Hb) as (blocks & Hlook & Hblocks & -> & ->).
    cbn [mbind outcome_bind]. destruct (BLOCK_SIZES_pow i b Hb) as [Hpow Hi9].
    assert (footprint l = b /\ grain l = b) as [Hf Hg] by (unfold footprint, grain; by rewrite Hc).
    assert (8 <= b) by (rewrite Hpow; apply (Z.pow_le_mono_r 2 3); lia).
    unfold BLOCK_NODE_SIZE. replace (8 <=? b) with true by lia. cbn [assert_b mbind outcome_bind].
    eexists. split; [done|]. destruct Hinv as [Hh Hn _ _]. rewrite Hf, Hg in *.
    split; cbn [list_heads fallback_allocator]; try done.
    + rewrite <- (list_insert_id BLOCK_SIZES i b Hb). apply Forall2_insert; [done|].
      apply Forall_cons. split; [|done]. by split_and!.
    + rewrite (block_regions_push _ _ i b) by (done || by apply lookup_lt_Some in Hlook).
      rewrite list_insert_id by done. rewrite map_app. revert Hs. apply separated_perm.
      change (held (p, l)) with (p, footprint l). rewrite Hf. cbn [app]. by rewrite <- !Permutation_middle.
  - pose proof (list_index_None l Hi) as Hc. pose proof Hok as (Hsz & k & Hk & Hal).
    assert (footprint l = ll_footprint l /\ grain l = NODE_ALIGN) as [Hf Hg]
      by (unfold footprint, grain; by rewrite Hc).
    destruct (size_align_spec l k Hsz Hk Hal) as (size & Hsa & Hsize & Hmin & _).
    assert (ll_footprint l = size) as Hll by (unfold ll_footprint; by rewrite Hsa).
    unfold deallocate. rewrite Hsa. cbn [mbind outcome_bind fst]. rewrite Hf, Hg, Hll in *.
    assert (node_ok lo hi (p, size)) as Hnode by (unfold node_ok; simpl; split_and!; done || lia).
    rewrite (add_free_region_ok lo hi Hlo Hhi) by done. cbn [mbind outcome_bind].
    eexists. split; [done|]. destruct Hinv as [Hh Hn _ _].
    split; cbn [list_heads fallback_allocator]; try done; [by apply Forall_cons|].
    rewrite map_app. revert Hs. apply separated_perm.
    change (held (p, l)) with (p, footprint l). rewrite Hf. cbn [app]. by rewrite <- !Permutation_middle.
Qed.

#[global] Instance fsb_safe : SafeHeap FixedSizeBlockAllocator lo hi :=
  {| heap_inv := fsb_inv; heap_inv_live := fsb_inv_live;
     alloc_safe := fsb_alloc_safe; dealloc_safe := fsb_dealloc_safe |}.
End Safe.

(** The free-list allocator on its own keeps the promise too. *)
Section SafeFreeList.
Context (lo hi : Z) (Hlo : 0 < lo) (Hhi : hi + 2 ^ 46 < 2 ^ 64).

Definition ll_held (x : Z * Layout) : region := (x.1, ll_footprint x.2).

Definition ll_live_ok (x : Z * Layout) : Prop :=
  servable x.2 /\ x.1 mod lalign x.2 = 0 /\ x.1 mod NODE_ALIGN = 0 /\
  lo <= x.1 /\ x.1 + ll_footprint x.2 <= hi /\ lsize x.2 <= ll_footprint x.2.

Record ll_inv (l : LinkedListAllocator) (live : list (Z * Layout)) : Prop := {
  ll_inv_nodes : Forall (node_ok lo hi) l;
  ll_inv_held : Forall ll_live_ok live;
  ll_inv_apart : separated (l ++ map ll_held live) }.

Lemma ll_inv_live l live : ll_inv l live ->
  separated (map live_region live) /\
  Forall (fun x => x.1 mod lalign x.2 = 0 /\ lo <= x.1 /\ x.1 + lsize x.2 <= hi) live.
Proof.
  intros [_ Hlive Hsep]. split.
  - apply separated_app_r in Hsep. apply (separated_map_shrink ll_held); [|done].
    intros x Hx. rewrite Forall_forall in Hlive.
    destruct (Hlive x Hx) as (_ & _ & _ & _ & _ & Hf). simpl. lia.
  - eapply Forall_impl; [done|]. intros x (_ & ? & _ & ? & ? & ?). split_and!; [done|lia|lia].
Qed.

Lemma ll_alloc_safe l live layout :
  ll_inv l live -> servable layout ->
  exists p l', allocate l layout = Ret (p, l') /\
    if p =? 0 then l' = l else ll_inv l' ((p, layout) :: live).
Proof.
  intros [Hn Hl Hs] Hok.
  destruct (allocate_spec lo hi Hlo Hhi l (map ll_held live) layout Hn Hs Hok)
    as (size & k & Hsa & Hsz & Hk & _ & Hdiv & Hcase).
  assert (ll_footprint layout = size) as Hf by (unfold ll_footprint; by rewrite Hsa).
  destruct Hcase as [(p & l' & -> & Hpm & Hp1 & Hp2 & Hn' & Hs')|[-> _]].
  - eexists _, _. split; [done|]. case_if; [lia|]. split; [done| |].
    + apply Forall_cons. split; [|done]. unfold ll_live_ok. cbn [fst snd]. rewrite Hf.
      split_and!; try done; [by apply Hdiv|]. apply (mod_pow_le p k 3); [lia|done].
    + revert Hs'. apply separated_perm. cbn [map]. change (ll_held (p, layout)) with (p, ll_footprint layout).
      rewrite Hf. by rewrite <- Permutation_middle.
  - eexists _, _. split; [done|]. by case_if.
Qed.

Lemma ll_dealloc_safe l live1 p layout live2 :
  ll_inv l (live1 ++ (p, layout) :: live2) ->
  exists l', deallocate l p layout = Ret l' /\ ll_inv l' (live1 ++ live2).
Proof.
  intros [Hn Hl Hs]. rewrite <- Permutation_middle in Hl. apply Forall_cons in Hl as [Hp Hl].
  destruct Hp as (Hok & _ & Hgr & Hp1 & Hp2 & _). cbn [fst snd] in *.
  pose proof Hok as (Hsz & k & Hk & Hal).
  destruct (size_align_spec layout k Hsz Hk Hal) as (size & Hsa & Hsize & Hmin & _).
  assert (ll_footprint layout = size) as Hf by (unfold ll_footprint; by rewrite Hsa).
  unfold deallocate. rewrite Hsa. cbn [mbind outcome_bind fst].
  assert (node_ok lo hi (p, size)) as Hnode by (unfold node_ok; simpl; split_and!; done || lia).
  rewrite (add_free_region_ok lo hi Hlo Hhi) by done.
  eexists. split; [done|]. split; [by apply Forall_cons|done|].
  revert Hs. apply separated_perm. rewrite !map_app. cbn [map].
  change (ll_held (p, layout)) with (p, ll_footprint layout). rewrite Hf. cbn [app].
  by rewrite <- !Permutation_middle.
Qed.

#[global] Instance ll_safe : SafeHeap LinkedListAllocator lo hi :=
  {| heap_inv := ll_inv; heap_inv_live := ll_inv_live;
     alloc_safe := ll_alloc_safe; dealloc_safe := ll_dealloc_safe |}.
End SafeFreeList.

(** ** Clients of the trait *)

Inductive heap_op :=
| HAlloc (l : Layout)
| HFree (i : nat).

Definition heap_op_ok (o : heap_op) : Prop :=
  match o with HAlloc l => layout_ok l | HFree _ => True end.

Definition op_servable (o : heap_op) : Prop :=
  match o with HAlloc l => servable l | HFree _ => True end.

(** A client frees only what it holds: [HFree i] returns its [i]-th live
    allocation. *)
Definition heap_step {A} `{GlobalAlloc A} (s : A * list (Z * Layout)) (o : heap_op)
    : outcome (A * list (Z * Layout)) :=
  let '(a, live) := s in
  match o with
  | HAlloc l =>
      r ← alloc a l;
      Ret (if r.1 =? 0 then (r.2, live) else (r.2, (r.1, l) :: live))
  | HFree i =>
      match live !! i with
      | Some (p, l) => a' ← dealloc a p l; Ret (a', delete i live)
      | None => Ret (a, live)
      end
  end.

Section HeapClient.
Context {A : Type} `{SafeHeap A lo hi}.

Lemma heap_step_safe s o :
  heap_inv s.1 s.2 -> op_servable o ->
  exists s', heap_step s o = Ret s' /\ heap_inv s'.1 s'.2.
Proof.
  destruct s as [a live]. cbn [fst snd]. intros Hinv Ho. destruct o as [l|i]; cbn [heap_step].
  - destruct (alloc_safe a live l Hinv Ho) as (p & a' & -> & Hp). cbn [mbind outcome_bind fst snd].
    eexists. split; [done|]. destruct (p =? 0); [by subst|done].
  - destruct (live !! i) as [[p l]|] eqn:Hi; [|by eexists].
    rewrite <- (take_drop_middle live i _ Hi) in Hinv.
    destruct (dealloc_safe a _ p l _ Hinv) as (a' & -> & Hinv'). cbn [mbind outcome_bind].
    eexists. split; [done|]. cbn [fst snd]. by rewrite delete_take_drop.
Qed.

End HeapClient.

Lemma fsb_init_inv lo size :
  0 < lo -> lo mod 8 = 0 -> NODE_SIZE <= size -> lo + size + 2 ^ 46 < 2 ^ 64 ->
  exists a, fsb_init lo size = Ret a /\ fsb_inv lo (lo + size) a [].
Proof.
  intros Hlo Hm Hs Hhi. unfold NODE_SIZE in *.
  assert (node_ok lo (lo + size) (lo, size)) as Hn by (unfold node_ok, NODE_SIZE; simpl; split_and!; done || lia).
  unfold fsb_init, ll_init. rewrite (add_free_region_ok lo (lo + size) Hlo Hhi) by done.
  cbn [mbind outcome_bind]. eexists. split; [done|]. split; cbn [list_heads fallback_allocator fsb_new].
  - simpl. repeat constructor.
  - by apply Forall_singleton.
  - by apply Forall_nil.
  - simpl. split; [by apply Forall_nil|done].
Qed.

(** *** Layouts the allocator cannot work with *)

Lemma power_of_two_pow n : is_power_of_two n = true -> exists k, 0 <= k /\ n = 2 ^ k.
Proof.
  unfold is_power_of_two. rewrite andb_true_iff, Z.ltb_lt, Z.eqb_eq. intros [Hn Hl].
  exists (Z.log2 n). split; [apply Z.log2_nonneg|]. destruct (Z.log2_spec n Hn) as [H1 H2].
  destruct (Z.eq_dec n (2 ^ Z.log2 n)) as [|Hne]; [done|]. exfalso.
  assert (Z.log2 (n - 1) = Z.log2 n) as Hlog by (apply Z.log2_unique; [apply Z.log2_nonneg|lia]).
  assert (0 < n - 1) as Hn1 by (pose proof (Z.pow_pos_nonneg 2 (Z.log2 n) ltac:(lia) (Z.log2_nonneg n)); lia).
  pose proof (Z.land_spec n (n - 1) (Z.log2 n)) as Ht. rewrite Hl, Z.bits_0, Z.bit_log2 in Ht by done.
  rewrite <- Hlog, Z.bit_log2 in Ht by done. done.
Qed.

Lemma layout_cases l : layout_ok l -> exists k, 0 <= k <= 63 /\ lalign l = 2 ^ k /\ 0 < lsize l <= 2 ^ 63 - 2 ^ k.
Proof.
  intros [Hs Hl]. unfold from_size_align in Hl. destruct (is_power_of_two (lalign l)) eqn:E; [|done].
  destruct (power_of_two_pow _ E) as (k & Hk & Ha). cbn [andb] in Hl. case_if; [|done]. rewrite Ha in *. exists k.
  split_and!; try done; [|lia]. destruct (Z.le_gt_cases k 63) as [|Hgt]; [done|].
  pose proof (Z.pow_lt_mono_r 2 63 k ltac:(lia) ltac:(lia) ltac:(lia)). lia.
Qed.

Lemma layout_servable l : layout_ok l -> hopeless l = false -> servable l.
Proof.
  intros (k & Hk & Ha & Hs)%layout_cases Hh. unfold hopeless in Hh. apply orb_false_iff in Hh as [H1 H2].
  apply Z.ltb_ge in H1. apply Z.leb_gt in H2. rewrite Ha in H2.
  apply Z.pow_lt_mono_r_iff in H2; [|lia..]. split; [lia|]. exists k. split; [|done]. split; [lia|].
  destruct (Z.max_spec k 3) as [[_ ->]|[_ ->]]; [change (2 ^ 3) with 8; lia|lia].
Qed.

(** Such a request is never granted: it panics, or finds the free list empty. *)
Lemma hopeless_never_granted lo hi a live l : 2 ^ 64 <= lo + 2 ^ 47 -> fsb_inv lo hi a live -> layout_ok l -> hopeless l = true ->
  fsb_alloc a l = Panic \/ fsb_alloc a l = Ret (0, a).
Proof.
  intros Hlo Hinv Hl Hh. pose proof (layout_cases l Hl) as (k & Hk & Ha & Hs).
  unfold hopeless in Hh. apply orb_true_iff in Hh. rewrite Z.ltb_lt, Z.leb_le in Hh.
  assert (2048 < Z.max (lsize l) (lalign l)) as Hbig by lia. unfold fsb_alloc.
  assert (list_index l = None) as ->.
  { unfold list_index, BLOCK_SIZES. cbn [position].
    repeat match goal with |- context [?m <=? ?c] => replace (m <=? c) with false by lia end. done. }
  unfold fallback_alloc, allocate, size_align. destruct (align_to l NODE_ALIGN) as [l'|] eqn:El; [|by left].
  cbn [unwrap mbind outcome_bind]. unfold align_to, from_size_align in El. case_if; [|done]. injection El as <-.
  unfold pad_to_align. cbn [lsize lalign]. destruct Hh as [Hh|Hh]; [unfold NODE_ALIGN in *; lia|].
  assert (Z.max (lalign l) NODE_ALIGN = lalign l) as -> by (unfold NODE_ALIGN; lia).
  destruct (fallback_allocator a) as [|r rest] eqn:Ef; [right; cbn [find_region mbind outcome_bind]; rewrite <- Ef; by destruct a|].
  left. pose proof (inv_nodes _ _ _ _ Hinv) as Hn. rewrite Ef in Hn. apply Forall_cons in Hn as [(_ & _ & Hr & _) _].
  cbn [find_region]. unfold alloc_from_region, align_up.
  assert (add_u 64 r.1 (lalign l) = Panic) as ->; [|done].
  unfold add_u, checked_add. by replace (r.1 + lalign l <? 2 ^ 64) with false by lia.
Qed.

Lemma heap_run_kernel ops s : let I s := fsb_inv HEAP_START (HEAP_START + HEAP_SIZE) s.1 s.2 in
  I s -> Forall heap_op_ok ops ->
  (exists s', for_each heap_step ops s = Ret s' /\ I s') \/
  for_each heap_step ops s = Panic /\ Exists (fun o => exists l, o = HAlloc l /\ hopeless l = true) ops.
Proof.
  intros I Hs Hops. revert s Hs. induction Hops as [|o ops Ho _ IH]; intros s Hs; [left; by exists s|]. cbn [for_each].
  assert ((exists s', heap_step s o = Ret s' /\ I s') \/
    heap_step s o = Panic /\ exists l, o = HAlloc l /\ hopeless l = true) as [(s' & -> & Hs')|[-> Hl]].
  { assert (op_servable o -> exists s', heap_step s o = Ret s' /\ I s') as Hsv.
    { apply (heap_step_safe (H0 := fsb_safe HEAP_START (HEAP_START + HEAP_SIZE) eq_refl eq_refl) s o Hs). }
    destruct o as [l|i]; [|by left; apply Hsv]. destruct (hopeless l) eqn:Eh; [|left; by apply Hsv, layout_servable].
    destruct s as [a live]. cbn [heap_step]. change (@alloc _ fixed_size_block_alloc) with fsb_alloc.
    destruct (hopeless_never_granted HEAP_START _ a live l ltac:(by vm_compute) Hs Ho Eh) as [->| ->].
    - right. split; [done|]. by exists l.
    - left. by exists (a, live). }
  - cbn [mbind outcome_bind]. destruct (IH s' Hs') as [Hr|[Hp He]]; [by left|right]. split; [done|]. by apply Exists_cons_tl.
  - right. split; [done|]. by apply Exists_cons_hd.
Qed.

(** C1: on the kernel's heap, whatever layouts are asked for and freed in
    whatever order, at every point the live allocations are pairwise disjoint,
    have the alignment asked for and lie inside the heap.  A sequence panics
    only if it asks for more than [2^63 - 8] bytes or for an alignment of
    [2^47] or more; all other assertions of the free list hold. *)
Theorem kernel_heap_safe ops :
  Forall heap_op_ok ops ->
  exists a0, fsb_init HEAP_START HEAP_SIZE = Ret a0 /\
   ((exists a live, for_each heap_step ops (a0, []) = Ret (a, live) /\
      separated (map live_region live) /\
      Forall (fun x => x.1 mod lalign x.2 = 0 /\ HEAP_START <= x.1 /\
                       x.1 + lsize x.2 <= HEAP_START + HEAP_SIZE) live) \/
    for_each heap_step ops (a0, []) = Panic /\ Exists (fun o => exists l, o = HAlloc l /\ hopeless l = true) ops).
Proof.
  intros Hops.
  destruct (fsb_init_inv HEAP_START HEAP_SIZE) as (a0 & Ha0 & Hinv); [done..|]. exists a0. split; [done|].
  destruct (heap_run_kernel ops (a0, []) Hinv Hops) as [([a live] & Hr & Hinv')|Hp]; [left|by right].
  exists a, live. split; [done|]. exact (fsb_inv_live _ _ a live Hinv').
Qed.

(** A layout Rust accepts for which the allocator panics instead of
    returning null. *)
Lemma oversized_request_panics a : layout_ok (mkLayout (2 ^ 63 - 1) 1) /\ fsb_alloc a (mkLayout (2 ^ 63 - 1) 1) = Panic.
Proof. by repeat split. Qed.

(** A request that fits no size class fails (null) exactly when no free
    region can hold it at its alignment without leaving an unusable rest,
    and then the heap is unchanged; otherwise the pointer is the aligned
    start of such a fit. *)
Theorem first_fit_complete lo hi l layout :
  0 < lo -> hi + 2 ^ 46 < 2 ^ 64 -> Forall (node_ok lo hi) l -> separated l -> servable layout ->
  exists size k p l', size_align layout = Ret (size, 2 ^ k) /\ lsize layout <= size /\
    allocate l layout = Ret (p, l') /\
    if p =? 0 then l' = l /\ forall r a, r ∈ l -> ~ fits r size k a
    else exists r, r ∈ l /\ fits r size k p.
Proof.
  intros Hlo Hhi Hl Hs (Hsz & k & Hk & Hal).
  destruct (size_align_spec layout k Hsz Hk Hal) as (size & Hsa & Hsize & Hmin & Hm8).
  exists size, (Z.max k 3). unfold NODE_SIZE in Hmin.
  destruct (allocate_spec lo hi Hlo Hhi l [] layout Hl) as (size' & k' & Hsa' & _ & _ & _ & _ & Hcase);
    [by rewrite app_nil_r|by split; [|exists k]|].
  rewrite Hsa in Hsa'. injection Hsa' as <- Hkk.
  destruct Hcase as [(p & l' & Hp & _ & Hp1 & _)|[Hp Hno]].
  - exists p, l'. split_and!; [done|lia|done|]. case_if; [lia|].
    unfold allocate in Hp. rewrite Hsa in Hp. cbn [mbind outcome_bind] in Hp.
    destruct (find_region_spec lo hi Hlo Hhi l size (Z.max k 3) Hl) as [(r & a & rest & Hf & Hfit & Hperm)|[Hf _]];
      [lia|lia| |]; rewrite Hf in Hp; cbn [mbind outcome_bind] in Hp.
    + inv_out. simplify_eq. exists r. split; [|done]. rewrite Hperm. by left.
    + simplify_eq.
  - exists 0, l. split_and!; [done|lia|done|]. split; [done|]. intros r a Hr.
    unfold fits. rewrite Hkk. by apply Hno.
Qed.

(** A freed block is what the next request of its size class gets, and
    that leaves the heap exactly as it was before the free. *)
Theorem block_reuse a p l l' a' i :
  list_index l = Some i -> list_index l' = Some i ->
  fsb_dealloc a p l = Ret a' -> fsb_alloc a' l' = Ret (p, a).
Proof.
  intros Hl Hl' Hd. unfold fsb_dealloc in Hd. rewrite Hl in Hd. inv_out.
  unfold fsb_alloc. rewrite Hl'. cbn [list_heads fallback_allocator].
  apply unwrap_Ret in Ha. rewrite zget_lookup, Nat2Z.id in Ha by lia.
  pose proof (lookup_lt_Some _ _ _ Ha) as Hlt.
  unfold idx. rewrite (zget_lookup (<[i := _]> _)), Nat2Z.id, list_lookup_insert_eq by lia. cbn [unwrap mbind outcome_bind].
  rewrite list_insert_insert_eq, list_insert_id by done. by destruct a.
Qed.

(** ** Concrete inputs *)

Definition demo_ops : list heap_op :=
  [HAlloc (mkLayout 5 1); HAlloc (mkLayout 3000 16); HFree 1; HAlloc (mkLayout 8 8)].

Lemma servable_demo size k : 0 < size <= 4096 -> 0 <= k <= 12 -> servable (mkLayout size (2 ^ k)).
Proof.
  intros. split; simpl; [lia|]. exists k. split; [|done]. split; [lia|].
  assert (2 ^ Z.max k 3 <= 2 ^ 12) by (apply Z.pow_le_mono_r; lia). lia.
Qed.

Lemma kernel_heap_safe_witness :
  exists a0 a, fsb_init HEAP_START HEAP_SIZE = Ret a0 /\
    for_each heap_step demo_ops (a0, []) =
      Ret (a, [(HEAP_START, mkLayout 8 8); (HEAP_START + 16, mkLayout 3000 16)]).
Proof.
  destruct (kernel_heap_safe demo_ops) as (a0 & Hi & Hr).
  { repeat (apply Forall_cons; split); try exact I; by repeat split. }
  destruct Hr as [(a & live & Hr & _)|[Hp _]]; [|vm_compute in Hi; injection Hi as <-; vm_compute in Hp; discriminate].
  exists a0, a. split; [exact Hi|]. vm_compute in Hi. injection Hi as <-.
  rewrite Hr. vm_compute in Hr. injection Hr as _ <-. reflexivity.
Defined.

Lemma first_fit_complete_witness :
  allocate [(0x1000, 64); (0x2000, 8192)] (mkLayout 100 16) = Ret (0x2000, [(0x2070, 8080); (0x1000, 64)]).
Proof.
  destruct (first_fit_complete 0x1000 0x10000 [(0x1000, 64); (0x2000, 8192)] (mkLayout 100 16))
    as (size & k & p & l' & _ & _ & Hp & _).
  - lia.
  - lia.
  - repeat (apply Forall_cons; split; [by vm_compute|]). by apply Forall_nil.
  - simpl. split; [|by split]. apply Forall_singleton. by left.
  - apply (servable_demo 100 4); lia.
  - rewrite Hp. vm_compute in Hp. injection Hp as <- <-. reflexivity.
Defined.

Lemma block_reuse_witness :
  fsb_alloc (mkFsb [[]; [64]; []; []; []; []; []; []; []] []) (mkLayout 12 4) =
    Ret (64, mkFsb (replicate 9 []) []).
Proof. apply (block_reuse (mkFsb (replicate 9 []) []) 64 (mkLayout 16 2) (mkLayout 12 4) _ 1); reflexivity. Defined.

(** Bytes in front of an aligned allocation are not returned to the free
    list: after freeing everything, 2032 of the heap's bytes are gone. *)
Lemma alignment_padding_lost :
  exists l1 l2 l3 l4,
    allocate [(0x1000, 0x4000)] (mkLayout 8 8) = Ret (0x1000, l1) /\
    allocate l1 (mkLayout 2048 2048) = Ret (0x1800, l2) /\
    deallocate l2 0x1000 (mkLayout 8 8) = Ret l3 /\
    deallocate l3 0x1800 (mkLayout 2048 2048) = Ret l4 /\
    foldr (fun r n => r.2 + n) 0 l4 = 0x4000 - 2032.
Proof. do 4 eexists. do 4 (split; [by vm_compute|]). by vm_compute. Qed.
