(* ===== verification/HeapLimits.v ===== *)
(** * The requests of the kernel on its own allocator ([kernel/src/allocator])

    An instance of the heap interface made of [FixedSizeBlockAllocator] on the
    100 KiB of the kernel's heap: every collection is given exactly the room it
    needs, and nothing is freed in between. *)

From S2P Require Import Prelude Alloc Abi Utf8 Tty Vfs Ramdisk VfsHeap Heap.

(** The blocks a request takes; a vector or string of no bytes takes none. *)
Definition layout_of (r : Request) : list Layout :=
  match r with
  | Text n | Bytes n => if n =? 0 then [] else [mkLayout n 1]
  | Extend n more => if n + more =? 0 then [] else [mkLayout (n + more) 1]
  | Push n => [mkLayout (64 * (n + 1)) 8]
  | Collect n => if n =? 0 then [] else [mkLayout (24 * n) 8]
  | Draw s => map (fun _ => mkLayout 16 1) s
  | Shared => [mkLayout 64 8]
  | Tables => [mkLayout 512 8]
  end.

(** Every block is granted, in turn. *)
Fixpoint grant_all (a : FixedSizeBlockAllocator) (ls : list Layout) : bool :=
  match ls with
  | [] => true
  | l :: ls =>
      match fsb_alloc a l with
      | Ret (p, a) => negb (p =? 0) && grant_all a ls
      | _ => false
      end
  end.

Definition exact_heap : KernelHeap :=
  {| serves rs := match fsb_init HEAP_START HEAP_SIZE with Ret a => grant_all a (concat (map layout_of rs)) | _ => false end |}.

(** ** What does not fit *)

(** No block reaches past the end of the heap. *)
Lemma grant_inside a live l ls : fsb_inv HEAP_START (HEAP_START + HEAP_SIZE) a live -> layout_ok l ->
  grant_all a (l :: ls) = true ->
  lsize l <= HEAP_SIZE /\ exists a' live', fsb_inv HEAP_START (HEAP_START + HEAP_SIZE) a' live' /\ grant_all a' ls = true.
Proof.
  intros Hinv Hl Hg. cbn [grant_all] in Hg. destruct (hopeless l) eqn:Eh.
  { destruct (hopeless_never_granted HEAP_START _ a live l ltac:(by vm_compute) Hinv Hl Eh) as [E|E]; by rewrite E in Hg. }
  destruct (fsb_alloc_safe HEAP_START (HEAP_START + HEAP_SIZE) ltac:(by vm_compute) ltac:(by vm_compute) a live l Hinv (layout_servable l Hl Eh))
    as (p & a' & E & Hp). rewrite E in Hg. apply andb_prop in Hg as [Hp0 Hg]. destruct (p =? 0); [done|].
  split; [|by eexists _, _].
  destruct (fsb_inv_live _ _ _ _ Hp) as [_ Hf]. apply Forall_cons in Hf as [(_ & Hlo & Hhi) _]. cbn [fst snd] in *. lia.
Qed.

Lemma grant_all_bound ls : Forall layout_ok ls -> forall a live, fsb_inv HEAP_START (HEAP_START + HEAP_SIZE) a live ->
  grant_all a ls = true -> Forall (fun l => lsize l <= HEAP_SIZE) ls.
Proof.
  induction 1 as [|l ls Hl _ IH]; intros a live Hinv Hg; [by apply Forall_nil|].
  destruct (grant_inside a live l ls Hinv Hl Hg) as (Hs & a' & live' & Hinv' & Hg'). apply Forall_cons. split; [done|by eapply IH].
Qed.

Lemma exact_heap_refuses rs n : Forall layout_ok (concat (map layout_of rs)) -> Bytes n ∈ rs -> HEAP_SIZE < n ->
  serves (KernelHeap := exact_heap) rs = false.
Proof.
  intros Hok Hin Hn. cbn [serves exact_heap].
  destruct (fsb_init_inv HEAP_START HEAP_SIZE) as (a & -> & Hinv); [done..|]. apply not_true_iff_false. intros Hg.
  pose proof (grant_all_bound _ Hok a [] Hinv Hg) as Hall. rewrite Forall_forall in Hall.
  enough (lsize (mkLayout n 1) <= HEAP_SIZE) by (cbn [lsize] in *; lia). apply Hall, list_elem_of_In, in_concat.
  exists (layout_of (Bytes n)). split; [by apply in_map, list_elem_of_In|]. cbn [layout_of].
  unfold HEAP_SIZE in Hn. replace (n =? 0) with false by lia. by left.
Qed.

(** The requests of mounting an archive of one file are layouts. *)
Lemma one_file_layouts name data : name_ok name -> len data <= 2 ^ 40 ->
  Forall layout_ok (concat (map layout_of (mount_requests Vfs.new (with_files Vfs.new [(name, data)])))).
Proof.
  intros Hname Hd. unfold mount_requests, with_files. cbn [map]. pose proof (len_nonneg data) as Hl. pose proof (len_nonneg name) as Hn.
  change (drop (length (entries Vfs.new)) _) with (default_entries ++ [file_entry (name, data)]).
  assert (forall n, 0 < n <= 2 ^ 41 -> layout_ok (mkLayout n 1)) as Hlay.
  { intros n Hr. split; [cbn [lsize]; lia|]. unfold from_size_align. cbn [lsize lalign].
    change (is_power_of_two 1) with true. cbn [andb]. by replace (n <=? 2 ^ 63 - 1) with true by lia. }
  rewrite imap_app, concat_app, map_app, concat_app. apply Forall_app. split.
  { repeat (apply Forall_cons; split; [by split|]). by apply Forall_nil. }
  cbn [imap concat entry_requests file_entry e_name e_data fst snd app map layout_of].
  assert (len name <= 2 ^ 41) as Hn' by (destruct Hname; lia).
  destruct (len name =? 0) eqn:E1; destruct (len data =? 0) eqn:E2; cbn [app concat];
    repeat (apply Forall_cons; split); try (by apply Forall_nil); try (apply Hlay; lia); by split.
Qed.

(** A file larger than the heap on the ramdisk stops the kernel. *)
Lemma large_file_panics m addr name data : name_ok name -> HEAP_SIZE < len data <= 2 ^ 40 -> addr <> 0 ->
  len (pack [(name, data)]) <= isize_max -> read_mem m addr (len (pack [(name, data)])) = pack [(name, data)] ->
  mount (H := exact_heap) m Vfs.new addr (len (pack [(name, data)])) = Panic.
Proof.
  intros Hname Hd Ha Hmax Hread. unfold mount.
  rewrite (mount_pack m addr [(name, data)]); [|by apply Forall_singleton|done..]. cbn [mbind outcome_bind]. unfold on_heap.
  rewrite (exact_heap_refuses _ (len data)); [done|by apply (one_file_layouts name data Hname); lia| |lia].
  apply list_elem_of_In. vm_compute. tauto.
Qed.
