(* ===== verification/Context.v ===== *)
(** * Context switching and kernel entry

    The assembly entry points of [kernel/src/interrupts/mod.rs] (timer and
    yield), [kernel/src/syscall/mod.rs] ([syscall_entry]) and
    [kernel/src/task/scheduler.rs] (the first switch), over a machine state
    with the general-purpose registers, the interrupt frame registers and the
    GS base pair; memory is a map from addresses to 64-bit words. *)

From S2P Require Import Prelude Abi.

(** ** Machine state *)

Record regs := mkRegs {
  rax : Z; rbx : Z; rcx : Z; rdx : Z; rbp : Z; rsi : Z; rdi : Z; r8 : Z; r9 : Z;
  r10 : Z; r11 : Z; r12 : Z; r13 : Z; r14 : Z; r15 : Z }.

Record cpu := mkCpu {
  gpr : regs; rip : Z; cs : Z; rflags : Z; rsp : Z; ss : Z;
  gs_base : Z; kernel_gs_base : Z }.

#[global] Instance regs_eq_dec : EqDecision regs.
Proof. solve_decision. Defined.
#[global] Instance cpu_eq_dec : EqDecision cpu.
Proof. solve_decision. Defined.

Definition words : Type := Z -> Z.

Definition store (m : words) (a v : Z) : words := fun x => if x =? a then v else m x.

(** [push v] and [pop], on (memory, rsp). *)
Definition push (s : words * Z) (v : Z) : words * Z := (store s.1 (s.2 - 8) v, s.2 - 8).
Definition pop (s : words * Z) : Z * (words * Z) := (s.1 s.2, (s.1, s.2 + 8)).

(** [push v1; ..; push vn]. *)
Definition pushes (s : words * Z) (vs : list Z) : words * Z := fold_left push vs s.

(** [n] pops; the values in the order popped. *)
Fixpoint pops (n : nat) (s : words * Z) : list Z * (words * Z) :=
  match n with
  | O => ([], s)
  | S n' => let '(v, s') := pop s in let '(vs, s'') := pops n' s' in (v :: vs, s'')
  end.

(** The order of [push rax; push rbx; ..; push r15]. *)
Definition gpr_list (r : regs) : list Z :=
  [rax r; rbx r; rcx r; rdx r; rbp r; rsi r; rdi r; r8 r; r9 r; r10 r; r11 r; r12 r; r13 r; r14 r; r15 r].

(** [pop r15; pop r14; ..; pop rax]: the registers from the values in the
    order popped. *)
Definition gpr_of (vs : list Z) : option regs :=
  match vs with
  | [v15; v14; v13; v12; v11; v10; v9; v8; vdi; vsi; vbp; vdx; vcx; vbx; vax] =>
      Some (mkRegs vax vbx vcx vdx vbp vsi vdi v8 v9 v10 v11 v12 v13 v14 v15)
  | _ => None
  end.

Definition swapgs (c : cpu) : cpu :=
  mkCpu (gpr c) (rip c) (cs c) (rflags c) (rsp c) (ss c) (kernel_gs_base c) (gs_base c).

Definition with_rsp (c : cpu) (sp : Z) : cpu :=
  mkCpu (gpr c) (rip c) (cs c) (rflags c) sp (ss c) (gs_base c) (kernel_gs_base c).

Definition with_gpr (c : cpu) (r : regs) : cpu :=
  mkCpu r (rip c) (cs c) (rflags c) (rsp c) (ss c) (gs_base c) (kernel_gs_base c).

(** Ring 3, by the privilege bits of a code selector. *)
Definition user_selector (sel : Z) : bool := negb (Z.land sel 3 =? 0).

(** [test qword ptr \[rsp + 8\], 3; jz l; swapgs; l:]. *)
Definition swapgs_if_user (m : words) (c : cpu) : cpu :=
  if user_selector (m (rsp c + 8)) then swapgs c else c.

(** ** The processor *)

Definition RFLAGS_IF : Z := 0x200.

(** Interrupt delivery through a gate: from ring 3 on the stack of the TSS
    with a null stack selector, from ring 0 on the current stack aligned down
    to 16 bytes. *)
Definition interrupt_delivery (tss_rsp0 handler : Z) (c : cpu) (m : words) : cpu * words :=
  let sp := if user_selector (cs c) then tss_rsp0 else rsp c - rsp c mod 16 in
  let '(m, sp) := pushes (m, sp) [ss c; rsp c; rflags c; cs c; rip c] in
  (mkCpu (gpr c) handler 0x08 (Z.ldiff (rflags c) RFLAGS_IF) sp
     (if user_selector (cs c) then 0 else ss c) (gs_base c) (kernel_gs_base c), m).

Definition iretq (c : cpu) (m : words) : cpu :=
  let sp := rsp c in
  mkCpu (gpr c) (m sp) (m (sp + 8)) (m (sp + 16)) (m (sp + 24)) (m (sp + 32))
    (gs_base c) (kernel_gs_base c).

(** The [syscall] instruction: return address and flags in [rcx] and [r11],
    [SFMASK] clears IF. *)
Definition syscall_instruction (entry next_rip : Z) (c : cpu) : cpu :=
  let r := gpr c in
  let r' := mkRegs (rax r) (rbx r) next_rip (rdx r) (rbp r) (rsi r) (rdi r) (r8 r) (r9 r) (r10 r)
              (rflags c) (r12 r) (r13 r) (r14 r) (r15 r) in
  mkCpu r' entry 0x08 (Z.ldiff (rflags c) RFLAGS_IF) (rsp c) 0x10 (gs_base c) (kernel_gs_base c).

(** ** The entry points *)

(** [timer_interrupt_entry] up to the call: the trace of one character
    (two pushes and two pops), the GS swap, the fifteen pushes. *)
Definition timer_interrupt_entry (c : cpu) (m : words) : cpu * words :=
  let '(m, sp) := pushes (m, rsp c) [rax (gpr c); rdx (gpr c)] in
  let c := with_rsp c (sp + 16) in
  let c := swapgs_if_user m c in
  let '(m, sp) := pushes (m, rsp c) (gpr_list (gpr c)) in
  (with_rsp c sp, m).

(** [yield_interrupt_entry] up to the call. *)
Definition yield_interrupt_entry (c : cpu) (m : words) : cpu * words :=
  let c := swapgs_if_user m c in
  let '(m, sp) := pushes (m, rsp c) (gpr_list (gpr c)) in
  (with_rsp c sp, m).

(** [.timer_restore], [.yield_restore] and the first switch of
    [start_scheduling]: with [rsp] at a saved context. *)
Definition restore_context (sp : Z) (c : cpu) (m : words) : option cpu :=
  let '(vs, (_, sp')) := pops 15 (m, sp) in
  r ← gpr_of vs;
  let c := with_gpr (with_rsp c sp') r in
  Some (iretq (swapgs_if_user m c) m).

(** [PER_CPU]: the kernel stack at offset 0, the saved user rsp at 8. *)
Definition PERCPU_STACK : Z := 0.
Definition PERCPU_USER_RSP : Z := 8.

(** [syscall_entry] up to the dispatch call. *)
Definition syscall_entry_save (c : cpu) (m : words) : cpu * words :=
  let c := swapgs c in
  let m := store m (gs_base c + PERCPU_USER_RSP) (rsp c) in
  let sp := m (gs_base c + PERCPU_STACK) in
  let '(m, sp) := pushes (m, sp)
    [0x23; m (gs_base c + PERCPU_USER_RSP); r11 (gpr c); 0x2b; rcx (gpr c)] in
  let '(m, sp) := pushes (m, sp) (gpr_list (gpr c)) in
  (with_rsp c sp, m).

(** [syscall_entry] after the dispatch returned [result]. *)
Definition syscall_entry_return (c : cpu) (m : words) (result : Z) : option cpu :=
  let m := store m (rsp c + 14 * 8) result in
  let '(vs, (_, sp')) := pops 15 (m, rsp c) in
  r ← gpr_of vs;
  Some (iretq (swapgs (with_gpr (with_rsp c sp') r)) m).

(** [SyscallFrame] at an address. *)
Record SyscallFrame := mkFrame { f_gpr : regs; user_rip : Z; user_cs : Z; user_rflags : Z; user_rsp : Z; user_ss : Z }.

Definition read_frame (m : words) (a : Z) : SyscallFrame :=
  let w i := m (a + 8 * i) in
  mkFrame (mkRegs (w 14) (w 13) (w 12) (w 11) (w 10) (w 9) (w 8) (w 7) (w 6) (w 5) (w 4) (w 3) (w 2) (w 1) (w 0))
    (w 15) (w 16) (w 17) (w 18) (w 19).

(** ** Lemmas on the stack *)

Definition FRAME_BYTES : Z := 20 * 8.

Lemma pushes_cons m sp v vs : pushes (m, sp) (v :: vs) = pushes (store m (sp - 8) v, sp - 8) vs.
Proof. done. Qed.

Lemma pushes_sp m sp vs : (pushes (m, sp) vs).2 = sp - 8 * len vs.
Proof.
  revert m sp. induction vs as [|v vs IH]; intros m sp; unfold len in *; [simpl; lia|].
  rewrite pushes_cons. rewrite IH. simpl length. lia.
Qed.

Lemma pushes_above m sp vs a : sp <= a -> (pushes (m, sp) vs).1 a = m a.
Proof.
  revert m sp. induction vs as [|v vs IH]; intros m sp Ha; [done|].
  rewrite pushes_cons. rewrite IH by lia. unfold store. case_if; [lia|done].
Qed.

Lemma pushes_below m sp vs a : a < sp - 8 * len vs -> (pushes (m, sp) vs).1 a = m a.
Proof.
  revert m sp. induction vs as [|v vs IH]; intros m sp Ha; [done|].
  rewrite pushes_cons. unfold len in *. simpl length in Ha.
  rewrite IH by lia. unfold store. case_if; [lia|done].
Qed.

(** The word pushed [i]-th is at [sp - 8 * (i + 1)]. *)
Lemma pushes_at m sp vs (i : nat) v :
  vs !! i = Some v -> (pushes (m, sp) vs).1 (sp - 8 * (Z.of_nat i + 1)) = v.
Proof.
  revert m sp i. induction vs as [|w vs IH]; intros m sp i Hi; [done|].
  rewrite pushes_cons. destruct i as [|i].
  - injection Hi as ->. change (Z.of_nat 0 + 1) with 1. rewrite pushes_above by lia.
    unfold store. by replace (sp - 8 * 1 =? sp - 8) with true by lia.
  - replace (sp - 8 * (Z.of_nat (S i) + 1)) with (sp - 8 - 8 * (Z.of_nat i + 1)) by lia. by apply IH.
Qed.

Lemma pops_eq n m sp :
  pops n (m, sp) = (map (fun i => m (sp + 8 * i)) (seqZ 0 (Z.of_nat n)), (m, sp + 8 * Z.of_nat n)).
Proof.
  revert sp. induction n as [|n IH]; intros sp; cbn [pops pop fst snd].
  - change (Z.of_nat 0) with 0. by rewrite Z.mul_0_r, Z.add_0_r.
  - rewrite IH. rewrite (seqZ_cons 0 (Z.of_nat (S n))) by lia. cbn [map].
    replace (Z.pred (Z.of_nat (S n))) with (Z.of_nat n) by lia.
    change (Z.succ 0) with (1 + 0). rewrite <- (fmap_add_seqZ 1 0).
    change (map ?f ?l) with (f <$> l). rewrite <- list_fmap_compose.
    f_equal; [|f_equal; lia]. f_equal; [f_equal; lia|].
    apply list_fmap_ext. intros _ i _. unfold compose. f_equal. lia.
Qed.

Lemma gpr_of_pops m sp :
  gpr_of (map (fun i => m (sp + 8 * i)) (seqZ 0 (Z.of_nat 15))) = Some (f_gpr (read_frame m sp)).
Proof. reflexivity. Qed.

Lemma iretq_frame c m sp :
  rsp c = sp + 8 * 15 ->
  let f := read_frame m sp in
  iretq c m = mkCpu (gpr c) (user_rip f) (user_cs f) (user_rflags f) (user_rsp f) (user_ss f)
    (gs_base c) (kernel_gs_base c).
Proof. intros Hsp. unfold iretq, read_frame. rewrite Hsp. cbn. by rewrite <- !Z.add_assoc. Qed.

(** What restoring from [sp] does. *)
Lemma restore_context_eq sp c m :
  let f := read_frame m sp in
  let swap := user_selector (user_cs f) in
  restore_context sp c m =
    Some (mkCpu (f_gpr f) (user_rip f) (user_cs f) (user_rflags f) (user_rsp f) (user_ss f)
            (if swap then kernel_gs_base c else gs_base c)
            (if swap then gs_base c else kernel_gs_base c)).
Proof.
  intros f swap. unfold restore_context. rewrite pops_eq, gpr_of_pops. cbn [mbind option_bind].
  unfold swapgs_if_user. cbn [rsp with_gpr with_rsp].
  replace (sp + 8 * Z.of_nat 15 + 8) with (sp + 8 * 16) by lia.
  change (m (sp + 8 * 16)) with (user_cs f). fold swap.
  rewrite (iretq_frame _ m sp) by (by destruct swap). by destruct swap.
Qed.

Lemma read_frame_saved m sp r :
  read_frame (pushes (m, sp) (gpr_list r)).1 (sp - 120) =
  mkFrame r (m sp) (m (sp + 8)) (m (sp + 16)) (m (sp + 24)) (m (sp + 32)).
Proof.
  assert (forall (i : nat) j v, gpr_list r !! i = Some v -> j = 14 - Z.of_nat i ->
    (pushes (m, sp) (gpr_list r)).1 (sp - 120 + 8 * j) = v) as Hreg.
  { intros i j v Hi ->. rewrite <- (pushes_at m sp (gpr_list r) i v Hi). f_equal. lia. }
  assert (forall j a, 15 <= j -> a = sp + 8 * (j - 15) ->
    (pushes (m, sp) (gpr_list r)).1 (sp - 120 + 8 * j) = m a) as Hup.
  { intros j a Hj ->. rewrite pushes_above by lia. f_equal. lia. }
  unfold read_frame. destruct r. f_equal; [f_equal|..].
  1-15: [> eapply (Hreg 0%nat) | eapply (Hreg 1%nat) | eapply (Hreg 2%nat) | eapply (Hreg 3%nat)
    | eapply (Hreg 4%nat) | eapply (Hreg 5%nat) | eapply (Hreg 6%nat) | eapply (Hreg 7%nat)
    | eapply (Hreg 8%nat) | eapply (Hreg 9%nat) | eapply (Hreg 10%nat) | eapply (Hreg 11%nat)
    | eapply (Hreg 12%nat) | eapply (Hreg 13%nat) | eapply (Hreg 14%nat) ]; done.
  all: apply Hup; lia.
Qed.

(** ** Saving a context *)

(** The stack an interrupt of [c] is delivered on. *)
Definition delivery_stack (tss_rsp0 : Z) (c : cpu) : Z :=
  if user_selector (cs c) then tss_rsp0 else rsp c - rsp c mod 16.

(** The context that a saved frame holds. *)
Definition frame_of (c : cpu) : SyscallFrame :=
  mkFrame (gpr c) (rip c) (cs c) (rflags c) (rsp c) (ss c).

(** Interrupt, entry point: what the scheduler finds. *)
Definition preempt (entry : cpu -> words -> cpu * words) (tss_rsp0 handler : Z) (c : cpu) (m : words)
    : cpu * words :=
  let '(c, m) := interrupt_delivery tss_rsp0 handler c m in entry c m.

Lemma pushes_inv m sp vs m' sp' :
  pushes (m, sp) vs = (m', sp') ->
  sp' = sp - 8 * len vs /\ (forall a, a < sp' \/ sp <= a -> m' a = m a) /\
  (forall (i : nat) v a, vs !! i = Some v -> a = sp - 8 * (Z.of_nat i + 1) -> m' a = v).
Proof.
  intros E. pose proof (pushes_sp m sp vs) as Hsp. rewrite E in Hsp. cbn [snd] in Hsp. split; [done|].
  split.
  - intros a [Ha|Ha]; [pose proof (pushes_below m sp vs a) as H|pose proof (pushes_above m sp vs a) as H];
      rewrite E in H; apply H; lia.
  - intros i v a Hi ->. pose proof (pushes_at m sp vs i v Hi) as H. by rewrite E in H.
Qed.

Lemma interrupt_delivery_spec tss_rsp0 handler c m c' m' :
  interrupt_delivery tss_rsp0 handler c m = (c', m') ->
  let top := delivery_stack tss_rsp0 c in
  let sp := rsp c' in
  sp = top - 40 /\ gpr c' = gpr c /\ gs_base c' = gs_base c /\ kernel_gs_base c' = kernel_gs_base c /\
  mkFrame (gpr c') (m' sp) (m' (sp + 8)) (m' (sp + 16)) (m' (sp + 24)) (m' (sp + 32)) = frame_of c /\
  (forall a, a < sp \/ top <= a -> m' a = m a).
Proof.
  unfold interrupt_delivery. fold (delivery_stack tss_rsp0 c).
  destruct (pushes _ _) as [m5 sp5] eqn:E. intros [= <- <-]. cbn [rsp gpr gs_base kernel_gs_base].
  apply pushes_inv in E as (Hsp & Hout & Hin). unfold len in Hsp. cbn [length] in Hsp.
  split_and!; try done.
  unfold frame_of. f_equal; [eapply (Hin 4%nat)|eapply (Hin 3%nat)|eapply (Hin 2%nat)|eapply (Hin 1%nat)
    |eapply (Hin 0%nat)]; first [reflexivity|lia].
Qed.

(** The two entry points agree up to the trace of the timer. *)
Definition interrupt_entry (timer : bool) : cpu -> words -> cpu * words :=
  if timer then timer_interrupt_entry else yield_interrupt_entry.

Lemma save_gpr_spec c m c' m' :
  (let c2 := swapgs_if_user m c in
   let '(m2, sp) := pushes (m, rsp c2) (gpr_list (gpr c2)) in (with_rsp c2 sp, m2)) = (c', m') ->
  let sp := rsp c in
  rsp c' = sp - 120 /\
  read_frame m' (rsp c') = mkFrame (gpr c) (m sp) (m (sp + 8)) (m (sp + 16)) (m (sp + 24)) (m (sp + 32)) /\
  (forall a, a < sp - 120 \/ sp <= a -> m' a = m a) /\
  (gs_base c', kernel_gs_base c') =
    (if user_selector (m (sp + 8)) then (kernel_gs_base c, gs_base c) else (gs_base c, kernel_gs_base c)).
Proof.
  cbv zeta. assert (rsp (swapgs_if_user m c) = rsp c /\ gpr (swapgs_if_user m c) = gpr c) as [-> ->]
    by (unfold swapgs_if_user; by case_if).
  pose proof (read_frame_saved m (rsp c) (gpr c)) as Hfr.
  destruct (pushes (m, rsp c) (gpr_list (gpr c))) as [m2 sp2] eqn:E. intros [= <- <-]. cbn [fst] in Hfr.
  apply pushes_inv in E as (Hsp & Hout & _). unfold len in Hsp. cbn [length gpr_list] in Hsp.
  cbn [rsp with_rsp gs_base kernel_gs_base]. replace sp2 with (rsp c - 120) in * by lia.
  split_and!; try done. unfold swapgs_if_user. by case_if.
Qed.

Lemma interrupt_entry_spec timer c m c' m' :
  interrupt_entry timer c m = (c', m') ->
  let sp := rsp c in
  rsp c' = sp - 120 /\
  read_frame m' (rsp c') = mkFrame (gpr c) (m sp) (m (sp + 8)) (m (sp + 16)) (m (sp + 24)) (m (sp + 32)) /\
  (forall a, a < sp - 120 \/ sp <= a -> m' a = m a) /\
  (gs_base c', kernel_gs_base c') =
    (if user_selector (m (sp + 8)) then (kernel_gs_base c, gs_base c) else (gs_base c, kernel_gs_base c)).
Proof.
  intros H sp. destruct timer; [|exact (save_gpr_spec c m c' m' H)].
  unfold interrupt_entry, timer_interrupt_entry in H.
  destruct (pushes (m, rsp c) [_; _]) as [mt spt] eqn:Et.
  apply pushes_inv in Et as (Hspt & Hout & _). unfold len in Hspt. cbn [length] in Hspt.
  assert (spt + 16 = rsp c) as Hback by lia. rewrite Hback in H.
  assert (with_rsp c (rsp c) = c) as Hc by (by destruct c). rewrite Hc in H.
  destruct (save_gpr_spec c mt c' m' H) as (Hsp & Hfr & Hout' & Hgs).
  rewrite !(Hout (rsp c + _)), (Hout (rsp c)) in Hfr by lia. rewrite (Hout (rsp c + 8)) in Hgs by lia.
  split_and!; try done. intros a Ha. rewrite Hout' by done. apply Hout. unfold sp in Ha. lia.
Qed.

(** Both interrupt entry points save the whole context in one frame just
    below the delivery stack, change no other word, and enter the kernel with
    the GS pair swapped exactly when they come from user mode. *)
Lemma preempt_saves timer tss_rsp0 handler c m c' m' :
  preempt (interrupt_entry timer) tss_rsp0 handler c m = (c', m') ->
  let top := delivery_stack tss_rsp0 c in
  rsp c' = top - FRAME_BYTES /\ read_frame m' (rsp c') = frame_of c /\
  (forall a, a < top - FRAME_BYTES \/ top <= a -> m' a = m a) /\
  (gs_base c', kernel_gs_base c') =
    (if user_selector (cs c) then (kernel_gs_base c, gs_base c) else (gs_base c, kernel_gs_base c)).
Proof.
  intros H top. unfold preempt in H.
  destruct (interrupt_delivery tss_rsp0 handler c m) as [c1 m1] eqn:E1.
  destruct (interrupt_delivery_spec _ _ _ _ _ _ E1) as (Hsp1 & Hg & Hgs & Hkgs & Hfr1 & Hout1).
  destruct (interrupt_entry_spec _ _ _ _ _ H) as (Hsp2 & Hfr2 & Hout2 & Hgs2).
  unfold FRAME_BYTES. split_and!.
  - unfold top. lia.
  - by rewrite Hfr2.
  - intros a Ha. unfold top in Ha. rewrite Hout2, Hout1 by lia. done.
  - rewrite Hgs2, Hgs, Hkgs. injection Hfr1 as _ _ -> _ _ _. done.
Qed.

(** ** The GS pair *)

(** In the kernel GS points at [PER_CPU] and the shadow base is zero; in user
    mode it is the other way round ([gdt::init]). *)
Definition gs_ok (percpu : Z) (c : cpu) : Prop :=
  (gs_base c, kernel_gs_base c) = if user_selector (cs c) then (0, percpu) else (percpu, 0).

Lemma read_frame_ext m m' a :
  (forall x, a <= x < a + FRAME_BYTES -> m' x = m x) -> read_frame m' a = read_frame m a.
Proof.
  unfold FRAME_BYTES. intros H. unfold read_frame. f_equal; [f_equal|..]; apply H; lia.
Qed.

(** C4: an interrupted context is resumed exactly: whatever the kernel does
    in between with the rest of memory and on other stacks, popping the saved
    frame restores every register, the flags, the stack and the GS pair of
    the interrupted code, in user mode and in the kernel, for the timer and
    for a yield. *)
Theorem context_switch_roundtrip timer tss_rsp0 handler percpu c m c' m' k m2 :
  gs_ok percpu c -> preempt (interrupt_entry timer) tss_rsp0 handler c m = (c', m') ->
  (forall a, rsp c' <= a < rsp c' + FRAME_BYTES -> m2 a = m' a) ->
  gs_base k = percpu -> kernel_gs_base k = 0 ->
  gs_base c' = percpu /\ kernel_gs_base c' = 0 /\ restore_context (rsp c') k m2 = Some c.
Proof.
  intros Hgs Hp Hframe Hk1 Hk2.
  destruct (preempt_saves _ _ _ _ _ _ _ Hp) as (_ & Hfr & _ & Hgs').
  rewrite restore_context_eq, (read_frame_ext m') by done. rewrite Hfr.
  destruct c as [g ip s fl sp st gsb kgsb].
  unfold gs_ok, frame_of in *. cbn [user_cs user_rip user_rflags user_rsp user_ss f_gpr
    gpr rip cs rflags rsp ss gs_base kernel_gs_base] in *. rewrite Hk1, Hk2.
  destruct (user_selector s) eqn:Es; injection Hgs as -> ->; injection Hgs' as -> ->; done.
Qed.

(** ** System calls *)

Definition with_results (c : cpu) (next_rip result : Z) : cpu :=
  let r := gpr c in
  mkCpu (mkRegs result (rbx r) next_rip (rdx r) (rbp r) (rsi r) (rdi r) (r8 r) (r9 r) (r10 r)
           (rflags c) (r12 r) (r13 r) (r14 r) (r15 r))
    next_rip 0x2b (rflags c) (rsp c) 0x23 (gs_base c) (kernel_gs_base c).

(** A user context at a [syscall] instruction, entered on the kernel stack
    recorded in [PER_CPU], which does not overlap [PER_CPU]. *)
Record at_syscall (percpu kstack : Z) (c : cpu) (m : words) : Prop := {
  as_user : cs c = 0x2b;
  as_gs : gs_ok percpu c;
  as_stack : m (percpu + PERCPU_STACK) = kstack;
  as_apart : percpu + 16 <= kstack - FRAME_BYTES \/ kstack <= percpu }.

Lemma syscall_entry_saves percpu kstack entry next_rip c m c2 m2 :
  at_syscall percpu kstack c m ->
  syscall_entry_save (syscall_instruction entry next_rip c) m = (c2, m2) ->
  rsp c2 = kstack - FRAME_BYTES /\
  read_frame m2 (rsp c2) =
    mkFrame (gpr (syscall_instruction entry next_rip c)) next_rip 0x2b (rflags c) (rsp c) 0x23 /\
  gs_base c2 = percpu /\ kernel_gs_base c2 = 0.
Proof.
  intros [Hcs Hgs Hst Hap] H. unfold gs_ok in Hgs. rewrite Hcs in Hgs.
  change (user_selector 0x2b) with true in Hgs. cbv iota in Hgs. injection Hgs as Hg0 Hk0.
  unfold syscall_entry_save in H.
  set (c1 := syscall_instruction entry next_rip c) in *.
  assert (gs_base (swapgs c1) = percpu) as Hgs1 by exact Hk0. rewrite Hgs1 in H.
  unfold PERCPU_STACK, PERCPU_USER_RSP, FRAME_BYTES in *.
  set (m1 := store m (percpu + 8) (rsp (swapgs c1))) in H.
  assert (m1 (percpu + 0) = kstack) as Hks.
  { unfold m1, store. replace (percpu + 0 =? percpu + 8) with false by lia. done. }
  assert (m1 (percpu + 8) = rsp c) as Hur.
  { unfold m1, store. by rewrite Z.eqb_refl. }
  rewrite Hks, Hur in H.
  destruct (pushes (m1, kstack) _) as [m5 sp5] eqn:E5 in H.
  apply pushes_inv in E5 as (Hsp5 & _ & Hin). unfold len in Hsp5. cbn [length] in Hsp5.
  pose proof (read_frame_saved m5 sp5 (gpr c1)) as Hfr.
  change (gpr (swapgs c1)) with (gpr c1) in H.
  destruct (pushes (m5, sp5) (gpr_list (gpr c1))) as [m15 sp15] eqn:E15. injection H as <- <-.
  apply pushes_inv in E15 as (Hsp15 & _ & _). unfold len in Hsp15. cbn [length gpr_list fst] in *.
  cbn [rsp with_rsp gs_base kernel_gs_base swapgs]. replace sp15 with (sp5 - 120) by lia.
  split_and!; [lia| |exact Hgs1|exact Hg0]. rewrite Hfr.
  f_equal; [eapply (Hin 4%nat)|eapply (Hin 3%nat)|eapply (Hin 2%nat)|eapply (Hin 1%nat)|eapply (Hin 0%nat)];
    first [reflexivity|lia].
Qed.

(** C12: a system call sees its caller's registers in the frame the handler
    is given, and returns to the instruction after it with the result in
    [rax] and every other register, the flags, the user stack and the GS pair
    as they were ([rcx] and [r11] excepted, which the instruction itself
    overwrites), as long as the handler leaves the frame alone. *)
Theorem syscall_roundtrip percpu kstack entry next_rip c m c2 m2 m3 result :
  at_syscall percpu kstack c m ->
  syscall_entry_save (syscall_instruction entry next_rip c) m = (c2, m2) ->
  (forall a, rsp c2 <= a < rsp c2 + FRAME_BYTES -> m3 a = m2 a) ->
  let f := f_gpr (read_frame m2 (rsp c2)) in
  (rax f, rdi f, rsi f, rdx f, r10 f) =
    (rax (gpr c), rdi (gpr c), rsi (gpr c), rdx (gpr c), r10 (gpr c)) /\
  syscall_entry_return c2 m3 result = Some (with_results c next_rip result).
Proof.
  intros Hc Hs Hframe f.
  destruct (syscall_entry_saves _ _ _ _ _ _ _ _ Hc Hs) as (Hsp & Hfr & Hg & Hk).
  split; [unfold f; by rewrite Hfr|]. unfold syscall_entry_return.
  set (m4 := store m3 _ result). rewrite pops_eq, gpr_of_pops. cbn [mbind option_bind].
  rewrite (iretq_frame _ m4 (rsp c2)) by (cbn [rsp swapgs with_gpr with_rsp]; lia).
  assert (read_frame m4 (rsp c2) =
    let r := f_gpr (read_frame m2 (rsp c2)) in let g := read_frame m2 (rsp c2) in
    mkFrame (mkRegs result (rbx r) (rcx r) (rdx r) (rbp r) (rsi r) (rdi r) (r8 r) (r9 r) (r10 r) (r11 r)
               (r12 r) (r13 r) (r14 r) (r15 r)) (user_rip g) (user_cs g) (user_rflags g) (user_rsp g) (user_ss g))
    as ->.
  { unfold read_frame, m4, store, FRAME_BYTES in *. cbn [f_gpr rax rbx rcx rdx rbp rsi rdi r8 r9 r10 r11 r12 r13
      r14 r15 user_rip user_cs user_rflags user_rsp user_ss].
    f_equal; [f_equal|..]; (case_if; [lia || done|]); first [lia|apply Hframe; lia]. }
  rewrite Hfr. cbn [swapgs with_gpr with_rsp gpr gs_base kernel_gs_base f_gpr user_rip user_cs user_rflags
    user_rsp user_ss]. rewrite Hg, Hk. destruct Hc as [Hcs Hgs _ _].
  unfold gs_ok in Hgs. rewrite Hcs in Hgs. change (user_selector 0x2b) with true in Hgs.
  cbv iota in Hgs. injection Hgs as Hg0 Hk0. unfold with_results. by rewrite Hg0, Hk0.
Qed.

(** ** Faults in user mode

    [page_fault_handler] and [gpf_handler] are compiler-generated handlers
    without a GS swap; from user mode they end the task through
    [exit_current_task], whose yield interrupt comes from ring 0. The error
    code these faults push below their frame only lowers the stack and is
    left out. *)

Definition fault_then_yield (tss_rsp0 : Z) (c : cpu) (m : words) : cpu * words :=
  let '(c1, m1) := interrupt_delivery tss_rsp0 0 c m in
  preempt (interrupt_entry false) tss_rsp0 0 c1 m1.

(** After a fault in user mode the next user task resumes with the two GS
    bases exchanged, so its next system call reads its kernel stack pointer
    from address 0. *)
Lemma fault_exchanges_gs tss_rsp0 percpu c m c' m' sp next :
  percpu <> 0 -> gs_ok percpu c -> user_selector (cs c) = true ->
  fault_then_yield tss_rsp0 c m = (c', m') ->
  restore_context sp c' m' = Some next -> user_selector (cs next) = true ->
  ~ gs_ok percpu next /\
  gs_base (swapgs next) + PERCPU_STACK = 0.
Proof.
  intros Hp Hgs Hu Hf Hr Hnext. unfold fault_then_yield in Hf.
  destruct (interrupt_delivery tss_rsp0 0 c m) as [c1 m1] eqn:E.
  destruct (interrupt_delivery_spec _ _ _ _ _ _ E) as (_ & _ & Hg & Hk & _).
  destruct (preempt_saves _ _ _ _ _ _ _ Hf) as (_ & _ & _ & Hgs').
  assert (cs c1 = 0x08) as Hcs1.
  { unfold interrupt_delivery in E. destruct (pushes _ _). by injection E as <- _. }
  rewrite Hcs1 in Hgs'. change (user_selector 0x08) with false in Hgs'. cbv iota in Hgs'.
  rewrite Hg, Hk in Hgs'. unfold gs_ok in *. rewrite Hu in Hgs. rewrite Hnext.
  rewrite restore_context_eq in Hr. injection Hr as <-. cbn [cs gs_base kernel_gs_base swapgs] in *.
  rewrite Hnext in *. injection Hgs as Hg0 Hk0. injection Hgs' as -> ->. rewrite Hg0, Hk0.
  split; [by intros [= ?]|done].
Qed.

(** ** Concrete inputs *)

Definition demo_regs : regs := mkRegs 9 1 2 3 4 5 6 7 8 10 11 12 13 14 15.
Definition demo_user : cpu := mkCpu demo_regs 0x400123 0x2b 0x202 0x700000007ff0 0x23 0 0x5000.
Definition demo_words : words := fun a => if a =? 0x5000 then 0x90000 else 0.

Lemma context_switch_roundtrip_witness :
  let '(c', m') := preempt (interrupt_entry true) 0x90000 0x1234 demo_user demo_words in
  restore_context (rsp c') (mkCpu demo_regs 0 0x08 0 0x80000 0 0x5000 0) (store m' 0x80000 77) = Some demo_user.
Proof.
  destruct (preempt (interrupt_entry true) 0x90000 0x1234 demo_user demo_words) as [c' m'] eqn:E.
  eapply (context_switch_roundtrip true 0x90000 0x1234 0x5000 demo_user demo_words c' m'); try reflexivity.
  - exact E.
  - assert (rsp c' = 0x90000 - 160) as -> by (vm_compute in E; by injection E as <- _).
    intros a Ha. unfold store. unfold FRAME_BYTES in Ha. case_if; [lia|done].
Defined.

Lemma syscall_roundtrip_witness :
  let '(c2, m2) := syscall_entry_save (syscall_instruction 0x1000 0x400125 demo_user) demo_words in
  syscall_entry_return c2 m2 42 = Some (with_results demo_user 0x400125 42).
Proof.
  destruct (syscall_entry_save _ demo_words) as [c2 m2] eqn:E.
  eapply (syscall_roundtrip 0x5000 0x90000 0x1000 0x400125 demo_user demo_words c2 m2); [|exact E|done].
  split; try reflexivity. left. vm_compute. discriminate.
Defined.
