(* ===== verification/X86.v ===== *)
(** * Interface to the [x86_64] crate

    The parts of the crate the kernel relies on: virtual addresses, which
    must be canonical, page-table entries, and page tables with the frame
    allocator behind them.  Each is a class of operations with the documented
    behaviour the kernel needs; [demo_x86], [word_entries] and [demo_spaces]
    are instances. *)

From stdpp Require Import gmap.
From S2P Require Import Prelude.

(** The two halves of the 48-bit address space. *)
Definition canonical (a : Z) : Prop := 0 <= a < 2 ^ 47 \/ 2 ^ 64 - 2 ^ 47 <= a < 2 ^ 64.

#[global] Instance canonical_dec a : Decision (canonical a).
Proof. unfold canonical. apply _. Defined.

(** [VirtAddr::new], [VirtAddr + u64] and [VirtAddr - u64]: they return the
    address when it is canonical (and panic otherwise);
    [Page::range_inclusive(Page::containing_address(a), ..(b))] as the list of
    page start addresses. *)
Class VirtAddrs := {
  virt_addr_new : Z -> outcome Z;
  virt_addr_new_ok : forall a, canonical a -> virt_addr_new a = Ret a;
  virt_addr_new_panics : forall a, ~ canonical a -> virt_addr_new a = Panic;
  virt_addr_add : Z -> Z -> outcome Z;
  virt_addr_add_ok : forall a n, canonical a -> canonical (a + n) -> virt_addr_add a n = Ret (a + n);
  virt_addr_sub : Z -> Z -> outcome Z;
  virt_addr_sub_ok : forall a n, canonical a -> canonical (a - n) -> virt_addr_sub a n = Ret (a - n);
  page_range : Z -> Z -> list Z;
  page_range_spec : forall a b, a <= b ->
    page_range a b = map (fun i => a / 4096 * 4096 + i * 4096) (seqZ 0 (b / 4096 - a / 4096 + 1)) }.

Lemma page_range_ok `{VirtAddrs} a n : a mod 4096 = 0 -> 0 < n ->
  page_range a (a + n * 4096 - 1) = map (fun i => a + i * 4096) (seqZ 0 n).
Proof.
  intros Ha Hn. rewrite page_range_spec by lia.
  assert (a / 4096 * 4096 = a) as -> by (pose proof (Z.div_mod a 4096); lia).
  do 2 f_equal. replace (a + n * 4096 - 1) with (4095 + (a / 4096 + n - 1) * 4096)
    by (pose proof (Z.div_mod a 4096); lia).
  rewrite Z.div_add by lia. change (4095 / 4096) with 0. lia.
Qed.

(** Flags of a page-table entry ([PageTableFlags]). *)
Definition PRESENT : Z := 1.
Definition WRITABLE : Z := 2.
Definition USER_ACCESSIBLE : Z := 4.
Definition HUGE_PAGE : Z := 2 ^ 7.
Definition BIT_9 : Z := 2 ^ 9.
Definition NO_EXECUTE : Z := 2 ^ 63.

(** The bits of an entry that hold the physical address; all others are
    flags.  [frame_ok]: the start address of a physical frame. *)
Definition ADDR_MASK : Z := 2 ^ 52 - 2 ^ 12.
Definition flags_ok (fl : Z) : Prop := in_u64 fl /\ Z.land fl ADDR_MASK = 0.
Definition frame_ok (f : Z) : Prop := f mod 4096 = 0 /\ 0 <= f < 2 ^ 52.

Inductive FrameError := FrameNotPresent | HugeFrame.

(** [PageTableEntry], a 64-bit word that is unused when it is zero.  [frame]
    fails for an entry that is not present and for a huge page; [set_frame]
    panics when asked to set the huge-page flag.  [p4_index] to [p1_index]
    are the four nine-bit indices of a virtual address. *)
Class PageEntries := {
  is_unused : Z -> bool;
  is_unused_spec : forall e, is_unused e = (e =? 0);
  entry_flags : Z -> Z;
  entry_flags_ok : forall e, flags_ok (entry_flags e);
  entry_flags_zero : entry_flags 0 = 0;
  entry_addr : Z -> Z;
  entry_addr_ok : forall e, frame_ok (entry_addr e);
  entry_frame : Z -> result FrameError Z;
  entry_frame_spec : forall e, entry_frame e =
    if Z.land (entry_flags e) PRESENT =? 0 then Err FrameNotPresent
    else if negb (Z.land (entry_flags e) HUGE_PAGE =? 0) then Err HugeFrame
    else Ok (entry_addr e);
  set_frame : Z -> Z -> outcome Z;
  set_frame_ok : forall f fl, frame_ok f -> flags_ok fl -> Z.land fl HUGE_PAGE = 0 ->
    exists e, set_frame f fl = Ret e /\ in_u64 e /\ entry_addr e = f /\ entry_flags e = fl;
  set_frame_huge : forall f fl, Z.land fl HUGE_PAGE <> 0 -> set_frame f fl = Panic;
  set_addr : Z -> Z -> outcome Z;
  set_addr_ok : forall a fl, frame_ok a -> flags_ok fl ->
    exists e, set_addr a fl = Ret e /\ in_u64 e /\ entry_addr e = a /\ entry_flags e = fl;
  set_flags : Z -> Z -> outcome Z;
  set_flags_ok : forall e fl, flags_ok fl ->
    exists e', set_flags e fl = Ret e' /\ in_u64 e' /\ entry_addr e' = entry_addr e /\ entry_flags e' = fl;
  table_index : Z -> Z -> Z;
  table_index_spec : forall l v, 1 <= l <= 4 -> table_index l v = v / 2 ^ (12 + 9 * (l - 1)) mod 512 }.

Abbreviation p4_index := (table_index 4).
Abbreviation p3_index := (table_index 3).
Abbreviation p2_index := (table_index 2).
Abbreviation p1_index := (table_index 1).

(** [PhysFrame::containing_address(PhysAddr::new(a))] for 4 KiB and 2 MiB
    frames and the start of the 2 MiB page that contains an address. *)
Class PhysFrames := {
  frame_containing : Z -> outcome Z;
  frame_containing_ok : forall a, 0 <= a < 2 ^ 52 -> frame_containing a = Ret (a / 4096 * 4096);
  frame_2m : Z -> outcome Z;
  frame_2m_ok : forall a, 0 <= a < 2 ^ 52 -> frame_2m a = Ret (a / 2 ^ 21 * 2 ^ 21);
  page_2m : Z -> Z;
  page_2m_ok : forall v, page_2m v = v / 2 ^ 21 * 2 ^ 21 }.

#[global] Instance demo_frames : PhysFrames.
Proof.
  refine {| frame_containing a := if (0 <=? a) && (a <? 2 ^ 52) then Ret (a / 4096 * 4096) else Panic;
            frame_2m a := if (0 <=? a) && (a <? 2 ^ 52) then Ret (a / 2 ^ 21 * 2 ^ 21) else Panic;
            page_2m v := v / 2 ^ 21 * 2 ^ 21 |}; try done.
  all: intros a Ha; by replace ((0 <=? a) && (a <? 2 ^ 52)) with true by lia.
Defined.

(** Address spaces, by the frame of their top-level table, together with the
    frame allocator their tables grow from.  [coherent s live]: the spaces in
    [live] are in use; no free frame is one of their tables, and a table of two
    of them is reached in both through the same indices.  Among such spaces
    [map_to] maps one 4 KiB page; a page already mapped is an error that
    changes no translation, and a failed or successful call changes the
    translation of no other page.  [allocate_frame] writes to no table. *)
Class AddressSpaces (S : Type) := {
  translate : S -> Z -> Z -> option (Z * Z);
  coherent : S -> (Z -> Prop) -> Prop;
  coherent_mono : forall s (live live' : Z -> Prop), coherent s live -> (forall r, live' r -> live r) -> coherent s live';
  take_frame : S -> outcome (option Z * S);
  take_frame_ok : forall s r s', take_frame s = Ret (r, s') ->
    (forall root page, translate s' root page = translate s root page) /\ forall live, coherent s live -> coherent s' live;
  map_to : S -> Z -> Z -> Z -> Z -> outcome (bool * S);
  map_to_coherent : forall s root page frame flags r s' live, map_to s root page frame flags = Ret (r, s') ->
    coherent s live -> live root -> coherent s' live;
  map_to_ok : forall s root page frame flags s' live, map_to s root page frame flags = Ret (true, s') ->
    coherent s live -> live root -> translate s root page = None /\ translate s' root page = Some (frame, flags);
  map_to_other : forall s root page frame flags r s' live, map_to s root page frame flags = Ret (r, s') ->
    coherent s live -> live root ->
    forall root' page', live root' -> page' <> page -> translate s' root' page' = translate s root' page';
  map_to_err : forall s root page frame flags s' live, map_to s root page frame flags = Ret (false, s') ->
    coherent s live -> live root ->
    forall root' page', live root' -> translate s' root' page' = translate s root' page' }.

#[global] Instance demo_x86 : VirtAddrs.
Proof.
  refine {| virt_addr_new a := if decide (canonical a) then Ret a else Panic;
            virt_addr_add a n := if decide (canonical (a + n)) then Ret (a + n) else Panic;
            virt_addr_sub a n := if decide (canonical (a - n)) then Ret (a - n) else Panic;
            page_range a b := map (fun i => a / 4096 * 4096 + i * 4096)
                                (seqZ 0 (b / 4096 - a / 4096 + 1)) |}.
  - intros a Ha. by rewrite decide_True.
  - intros a Ha. by rewrite decide_False.
  - intros a n _ Ha. by rewrite decide_True.
  - intros a n _ Ha. by rewrite decide_True.
  - done.
Defined.

(** An entry as the disjoint union of its address and its flag bits. *)
Lemma flags_mask_split e : in_u64 e -> Z.lor (Z.land e ADDR_MASK) (Z.land e (not_u 64 ADDR_MASK)) = e.
Proof.
  intros He. rewrite <- Z.land_lor_distr_r. change (Z.lor ADDR_MASK (not_u 64 ADDR_MASK)) with (Z.ones 64).
  rewrite Z.land_ones by lia. apply Z.mod_small. unfold in_range in He. lia.
Qed.

Lemma land_lt_pow2 x m k : 0 <= k -> 0 <= m < 2 ^ k -> 0 <= Z.land x m < 2 ^ k.
Proof.
  intros Hk Hm. assert (0 <= Z.land x m) by (apply Z.land_nonneg; lia). split; [done|].
  replace m with (Z.land m (Z.ones k)) by (rewrite Z.land_ones by lia; apply Z.mod_small; lia).
  rewrite Z.land_assoc, Z.land_ones by lia. apply Z.mod_pos_bound. lia.
Qed.

Lemma addr_frame_ok e : frame_ok (Z.land e ADDR_MASK).
Proof.
  split; [|apply land_lt_pow2; [lia|unfold ADDR_MASK; lia]].
  change 4096 with (2 ^ 12). rewrite <- Z.land_ones, <- Z.land_assoc by lia.
  change (Z.land ADDR_MASK (Z.ones 12)) with 0. apply Z.land_0_r.
Qed.

Lemma frame_mask f : frame_ok f -> Z.land f ADDR_MASK = f.
Proof.
  intros [Hm Hf]. replace ADDR_MASK with (Z.land (Z.ones 52) (not_u 52 (2 ^ 12 - 1))) by done.
  rewrite Z.land_assoc, Z.land_ones, (Z.mod_small f) by lia.
  rewrite (land_not_mask 52 12 f) by (unfold in_range; lia). change (2 ^ 12) with 4096.
  pose proof (Z.div_mod f 4096). lia.
Qed.

Lemma flags_mask fl : flags_ok fl -> Z.land fl (not_u 64 ADDR_MASK) = fl.
Proof. intros [H1 H2]. pose proof (flags_mask_split fl H1) as H. by rewrite H2, Z.lor_0_l in H. Qed.

Lemma entry_parts f fl : frame_ok f -> flags_ok fl ->
  in_u64 (Z.lor f fl) /\ Z.land (Z.lor f fl) ADDR_MASK = f /\ Z.land (Z.lor f fl) (not_u 64 ADDR_MASK) = fl.
Proof.
  intros Hf Hfl. split.
  - destruct Hf as [_ Hf], Hfl as [Hfl _]. unfold in_range in *.
    assert (0 <= Z.lor f fl) by (apply Z.lor_nonneg; lia). split; [done|].
    replace (Z.lor f fl) with (Z.land (Z.lor f fl) (Z.ones 64)); [rewrite Z.land_ones by lia; apply Z.mod_pos_bound; lia|].
    rewrite Z.land_lor_distr_l, !Z.land_ones, !Z.mod_small by lia. done.
  - rewrite !Z.land_lor_distr_l. split.
    + rewrite (frame_mask f) by done. destruct Hfl as [_ ->]. apply Z.lor_0_r.
    + rewrite (flags_mask fl) by done. rewrite <- (frame_mask f Hf), <- Z.land_assoc.
      change (Z.land ADDR_MASK (not_u 64 ADDR_MASK)) with 0. by rewrite Z.land_0_r.
Qed.

Lemma flags_ok_lor a b : flags_ok a -> flags_ok b -> flags_ok (Z.lor a b).
Proof.
  intros [Ha Ha'] [Hb Hb']. split; [|by rewrite Z.land_lor_distr_l, Ha', Hb'].
  unfold in_range in *. replace (Z.lor a b) with (Z.land (Z.lor a b) (Z.ones 64)).
  - rewrite Z.land_ones by lia. apply Z.mod_pos_bound. lia.
  - by rewrite Z.land_lor_distr_l, !Z.land_ones, !Z.mod_small by lia.
Qed.

Lemma flags_ok_ldiff a b : flags_ok a -> flags_ok (Z.ldiff a b).
Proof.
  intros [Ha Ha']. rewrite Z.ldiff_land, Z.land_comm. split.
  - by apply land_lt_pow2.
  - by rewrite <- Z.land_assoc, Ha', Z.land_0_r.
Qed.

#[global] Instance word_entries : PageEntries.
Proof.
  refine {| is_unused e := e =? 0;
            entry_flags e := Z.land e (not_u 64 ADDR_MASK);
            entry_addr e := Z.land e ADDR_MASK;
            entry_frame e :=
              if Z.land (Z.land e (not_u 64 ADDR_MASK)) PRESENT =? 0 then Err FrameNotPresent
              else if negb (Z.land (Z.land e (not_u 64 ADDR_MASK)) HUGE_PAGE =? 0) then Err HugeFrame
              else Ok (Z.land e ADDR_MASK);
            set_frame f fl := if Z.land fl HUGE_PAGE =? 0 then Ret (Z.lor f fl) else Panic;
            set_addr a fl := Ret (Z.lor a fl);
            set_flags e fl := Ret (Z.lor (Z.land e ADDR_MASK) fl);
            table_index l v := v / 2 ^ (12 + 9 * (l - 1)) mod 512 |}; try done.
  - intros e. split; [apply land_lt_pow2; [lia|unfold not_u, ADDR_MASK; lia]|].
    rewrite <- Z.land_assoc. change (Z.land (not_u 64 ADDR_MASK) ADDR_MASK) with 0. apply Z.land_0_r.
  - apply addr_frame_ok.
  - intros f fl Hf Hfl ->. rewrite Z.eqb_refl. eexists; split; [done|]. by apply entry_parts.
  - intros f fl Hh. by replace (Z.land fl HUGE_PAGE =? 0) with false by lia.
  - intros a fl Ha Hfl. eexists; split; [done|]. by apply entry_parts.
  - intros e fl Hfl. eexists; split; [done|]. apply entry_parts; [apply addr_frame_ok|done].
Defined.

(** Tables as a finite map, frames counted upwards. *)
Definition demo_tables : Type := gmap (Z * Z) (Z * Z) * Z.

#[global] Instance demo_spaces : AddressSpaces demo_tables.
Proof.
  refine {| translate s root page := s.1 !! (root, page);
            coherent _ _ := True;
            take_frame s := Ret (Some s.2, (s.1, s.2 + 4096));
            map_to s root page frame flags :=
              match s.1 !! (root, page) with
              | Some _ => Ret (false, s)
              | None => Ret (true, (<[(root, page) := (frame, flags)]> s.1, s.2))
              end |}.
  - done.
  - intros s r s' H. by simplify_eq.
  - done.
  - intros s root page frame flags s' live H _ _. destruct (s.1 !! _) eqn:E; simplify_eq.
    split; [done|]. simpl. by rewrite lookup_insert_eq.
  - intros s root page frame flags r s' live H _ _ root' page' _ Hne.
    destruct (s.1 !! _) eqn:E; simplify_eq; [done|]. simpl. rewrite lookup_insert_ne; [done|]. congruence.
  - intros s root page frame flags s' live H _ _ root' page' _. destruct (s.1 !! _) eqn:E; by simplify_eq.
Defined.
