(* ===== verification/Paging.v ===== *)
(** * Page tables ([kernel/src/memory/paging.rs])

    The tables are the words of physical memory, reached through the window
    at [physical_memory_offset]: new top-level tables for processes, cloning
    of the user half with and without copy-on-write, and opening a range to
    user mode.  [Machine] is what the code needs of its surroundings: physical
    memory and the frame allocator. *)

From stdpp Require Import relations.
From S2P Require Import Prelude X86 FrameAlloc.

(** Physical memory, at the addresses of the window, and frames. *)
Class Machine (S : Type) := {
  machine_frames :: FrameSource S;
  pmem : S -> mem;
  set_pmem : mem -> S -> S;
  pmem_set : forall m s, pmem (set_pmem m s) = m;
  set_pmem_twice : forall m m' s, set_pmem m (set_pmem m' s) = set_pmem m s;
  set_pmem_get : forall s, set_pmem (pmem s) s = s;
  set_pmem_owned : forall m s f, owned (set_pmem m s) f <-> owned s f;
  set_pmem_ok : forall m s, source_ok s -> source_ok (set_pmem m s);
  allocate_frame_pmem : forall s r s', allocate_frame s = Ret (r, s') -> pmem s' = pmem s;
  allocate_frame_set : forall m s r s', allocate_frame s = Ret (r, s') ->
    allocate_frame (set_pmem m s) = Ret (r, set_pmem m s') }.

(** Entry [i] of the table at address [p], [table[i]]. *)
Definition entry_at (m : mem) (p i : Z) : Z := le_val (read_mem m (p + 8 * i) 8).
Definition put_entry (m : mem) (p i e : Z) : mem := write_mem m (p + 8 * i) (le_bytes 8 e).

Section Paging.
Context {S : Type} `{Machine S} `{VirtAddrs} `{PageEntries}.
Variable physical_memory_offset : Z.

(** [(physical_memory_offset + frame.start_address().as_u64()).as_mut_ptr()]. *)
Definition table_ptr (frame : Z) : outcome Z := virt_addr_add physical_memory_offset frame.

Definition upd (f : mem -> mem) (s : S) : S := set_pmem (f (pmem s)) s.

(** [entry.frame().unwrap()]. *)
Definition frame_unwrap (e : Z) : outcome Z :=
  match entry_frame e with Ok f => Ret f | Err _ => Panic end.

(** [new_pml4[i] = kernel_pml4[i].clone()]. *)
Definition copy_entry (src dst : Z) (s : S) (i : Z) : outcome S :=
  Ret (upd (fun m => put_entry m dst i (entry_at m src i)) s).

Definition create_process_pml4 (cr3 : Z) (s : S) : outcome (Z * S) :=
  r ← allocate_frame s;
  new_frame ← unwrap r.1;
  kernel_pml4 ← table_ptr cr3;
  new_pml4 ← table_ptr new_frame;
  let s := upd (fun m => write_mem m new_pml4 (replicate 4096 x00)) r.2 in
  s ← for_each (copy_entry kernel_pml4 new_pml4) (seqZ 256 256) s;
  Ret (new_frame, s).

(** The entries at [src] and [dst], (table, index); [level] counts the tables
    below the entry. *)
Fixpoint clone_table_level (level : nat) (cow : bool) (src dst : Z * Z) (s : S) : outcome S :=
  match level with
  | O =>
      if cow then
        let flags := Z.lor (Z.ldiff (entry_flags (entry_at (pmem s) src.1 src.2)) WRITABLE) BIT_9 in
        let s := upd (fun m => put_entry m dst.1 dst.2 (entry_at m src.1 src.2)) s in
        e ← set_flags (entry_at (pmem s) dst.1 dst.2) flags;
        Ret (upd (fun m => put_entry m dst.1 dst.2 e) s)
      else Ret (upd (fun m => put_entry m dst.1 dst.2 (entry_at m src.1 src.2)) s)
  | Datatypes.S level =>
      r ← allocate_frame s;
      new_frame ← unwrap r.1;
      e ← set_frame new_frame (entry_flags (entry_at (pmem r.2) src.1 src.2));
      let s := upd (fun m => put_entry m dst.1 dst.2 e) r.2 in
      f ← frame_unwrap (entry_at (pmem s) src.1 src.2);
      src_next_table ← table_ptr f;
      dst_next_table ← table_ptr new_frame;
      for_each (fun s i =>
          if negb (is_unused (entry_at (pmem s) src_next_table i))
          then clone_table_level level cow (src_next_table, i) (dst_next_table, i) s
          else Ret (upd (fun m => put_entry m dst_next_table i 0) s))
        (seqZ 0 512) s
  end.

(** One turn of the loop over the top-level entries. *)
Definition clone_slot (cow : bool) (src_pml4 dst_pml4 : Z) (s : S) (i : Z) : outcome S :=
  if negb (is_unused (entry_at (pmem s) src_pml4 i))
  then clone_table_level 3 cow (src_pml4, i) (dst_pml4, i) s else Ret s.

Definition clone_user_mappings (src_pml4_frame dst_pml4_frame : Z) (cow : bool) (s : S) : outcome S :=
  src_pml4 ← table_ptr src_pml4_frame;
  dst_pml4 ← table_ptr dst_pml4_frame;
  for_each (clone_slot cow src_pml4 dst_pml4) (seqZ 0 256) s.

Definition clone_user_mappings_cow (src_pml4_frame dst_pml4_frame : Z) (s : S) : outcome S :=
  src_pml4 ← table_ptr src_pml4_frame;
  dst_pml4 ← table_ptr dst_pml4_frame;
  s ← for_each (clone_slot true src_pml4 dst_pml4) (seqZ 0 256) s;
  for_each (copy_entry src_pml4 dst_pml4) (seqZ 256 256) s.

(** [table[i].set_flags(table[i].flags() | USER_ACCESSIBLE)]. *)
Definition open_entry (table i : Z) (m : mem) : outcome mem :=
  e ← set_flags (entry_at m table i) (Z.lor (entry_flags (entry_at m table i)) USER_ACCESSIBLE);
  Ret (put_entry m table i e).

(** The table the entry points to. *)
Definition next_table (m : mem) (table i : Z) : outcome Z :=
  f ← frame_unwrap (entry_at m table i); table_ptr f.

(** The body of the loop of [set_user_accessible], for one page. *)
Definition open_page (pml4 : Z) (m : mem) (addr : Z) : outcome mem :=
  v ← virt_addr_new addr;
  m ← open_entry pml4 (p4_index v) m;
  p3 ← next_table m pml4 (p4_index v);
  m ← open_entry p3 (p3_index v) m;
  p2 ← next_table m p3 (p3_index v);
  m ← open_entry p2 (p2_index v) m;
  p1 ← next_table m p2 (p2_index v);
  open_entry p1 (p1_index v) m.

(** [(start..end).step_by(4096)]. *)
Definition step_by (start stop : Z) : list Z :=
  map (fun k => start + 4096 * k) (seqZ 0 (div_ceil (stop - start) 4096)).

(** The state is the machine and the write-protect bit of [Cr0], which is
    cleared while the tables change. *)
Definition set_user_accessible (cr3 virt_addr size : Z) (s : S * bool) : outcome (S * bool) :=
  let s := (s.1, false) in
  pml4 ← table_ptr cr3;
  stop ← add_u 64 virt_addr size;
  m ← for_each (open_page pml4) (step_by virt_addr stop) (pmem s.1);
  let s := (set_pmem m s.1, s.2) in
  Ret (s.1, true).

(** ** The hardware's view

    [walk m l e path]: follow [path] through [l] levels of tables below the
    entry [e]; the leaf entry, if every entry on the way points to a table. *)
Fixpoint walk (m : mem) (l : nat) (e : Z) (path : list Z) : option Z :=
  match l, path with
  | O, _ => Some e
  | Datatypes.S l, i :: path =>
      match entry_frame e with
      | Ok f => walk m l (entry_at m (physical_memory_offset + f) i) path
      | Err _ => None
      end
  | _, [] => None
  end.

(** The leaf entry for the page with the given four indices. *)
Definition page_entry (m : mem) (root : Z) (path : list Z) : option Z :=
  match path with
  | i :: path => walk m 3 (entry_at m (physical_memory_offset + root) i) path
  | [] => None
  end.

(** ** Entries in memory *)

Definition slot (p i : Z) : Prop := p mod 4096 = 0 /\ 0 <= i < 512.
Definition in_slot (p i x : Z) : Prop := p + 8 * i <= x < p + 8 * i + 8.
Definition in_page (p x : Z) : Prop := p <= x < p + 4096.

Lemma entry_at_u64 m p i : in_u64 (entry_at m p i).
Proof.
  unfold entry_at, in_range. pose proof (le_val_bound (read_mem m (p + 8 * i) 8)) as Hb.
  rewrite len_read_mem in Hb by lia. lia.
Qed.

Lemma entry_at_ext m m' p i :
  (forall x, in_slot p i x -> m' x = m x) -> entry_at m' p i = entry_at m p i.
Proof. intros Hx. unfold entry_at. f_equal. apply read_mem_ext. intros x Hxx. apply Hx. unfold in_slot. lia. Qed.

Lemma entry_at_put m p i e : in_u64 e -> entry_at (put_entry m p i e) p i = e.
Proof.
  intros He. unfold entry_at, put_entry. change 8 with (Z.of_nat 8) at 3.
  rewrite <- (length_le_bytes 8 e) at 2. fold (len (le_bytes 8 e)). rewrite read_write_mem, le_val_le_bytes.
  apply Z.mod_small. unfold in_range in He. change (256 ^ Z.of_nat 8) with (2 ^ 64). lia.
Qed.

Lemma put_entry_out m p i e x : ~ in_slot p i x -> put_entry m p i e x = m x.
Proof.
  intros Hx. unfold put_entry. apply write_mem_out. unfold len. rewrite length_le_bytes. unfold in_slot in Hx. lia.
Qed.

Lemma slots_disjoint p i q j x : slot p i -> slot q j -> (p, i) <> (q, j) -> in_slot p i x -> ~ in_slot q j x.
Proof.
  unfold slot, in_slot. intros [Hp Hi] [Hq Hj] Hne Hx Hx'.
  assert (p = q). { pose proof (Z.div_mod p 4096). pose proof (Z.div_mod q 4096). lia. }
  apply Hne. subst q. f_equal. lia.
Qed.

Lemma entry_at_put_ne m p i q j e : slot p i -> slot q j -> (p, i) <> (q, j) ->
  entry_at (put_entry m q j e) p i = entry_at m p i.
Proof. intros Hp Hq Hne. apply entry_at_ext. intros x Hx. apply put_entry_out. exact (slots_disjoint p i q j x Hp Hq Hne Hx). Qed.

Lemma slot_in_page p i x : 0 <= i < 512 -> in_slot p i x -> in_page p x.
Proof. unfold in_slot, in_page. lia. Qed.

Lemma pages_disjoint p q x : p mod 4096 = 0 -> q mod 4096 = 0 -> p <> q -> in_page p x -> ~ in_page q x.
Proof.
  unfold in_page. intros Hp Hq Hne Hx Hx'. pose proof (Z.div_mod p 4096). pose proof (Z.div_mod q 4096). lia.
Qed.

(** ** Frames handed out between two states *)

Definition machine_step (s s' : S) : Prop :=
  (exists r, allocate_frame s = Ret (r, s')) \/ exists m, s' = set_pmem m s.
Definition after : S -> S -> Prop := rtc machine_step.

(** [n] frames were handed out on the way. *)
Inductive spent : nat -> S -> S -> Prop :=
| spent_refl s : spent 0 s s
| spent_mem n s t m : spent n s t -> spent n s (set_pmem m t)
| spent_frame n s t f u : spent n s t -> allocate_frame t = Ret (Some f, u) -> spent (Datatypes.S n) s u.

(** The allocator answers the next [n] requests with a frame. *)
Fixpoint answers (n : nat) (s : S) : Prop :=
  match n with
  | O => True
  | Datatypes.S n => exists f s', allocate_frame s = Ret (Some f, s') /\ answers n s'
  end.

(** The page is the window of a frame that was handed out. *)
Definition granted (s s' : S) (p : Z) : Prop :=
  exists f, owned s f /\ ~ owned s' f /\ p = physical_memory_offset + f.

(** The window shows every frame the allocator may hand out. *)
Definition backed (s : S) : Prop :=
  forall f, owned s f -> frame_ok f /\ canonical (physical_memory_offset + f).

Definition ready (s : S) : Prop := source_ok s /\ backed s.

Lemma after_set s s' m : after s s' -> after s (set_pmem m s').
Proof. intros Ha. eapply rtc_r; [exact Ha|]. right. by exists m. Qed.

Lemma after_trans s t u : after s t -> after t u -> after s u.
Proof. intros Ht Hu. unfold after. etransitivity; [exact Ht|exact Hu]. Qed.

Lemma allocate_frame_cases s : source_ok s ->
  exists r s', allocate_frame s = Ret (r, s') /\ after s s' /\ source_ok s' /\ pmem s' = pmem s /\
    (forall f, owned s' f -> owned s f) /\
    match r with Some f => owned s f /\ ~ owned s' f | None => forall n, ~ answers (Datatypes.S n) s end.
Proof.
  intros Hs. destruct (allocate_frame_spec s Hs) as (r & s' & Hr & Hs' & Hown & Hf).
  exists r, s'. split; [done|]. split; [apply rtc_once; left; by eexists|]. split; [done|].
  split; [by apply allocate_frame_pmem in Hr|]. split; [done|].
  destruct r as [f|]; [naive_solver|]. intros n (f & t & Ht & _). by rewrite Hr in Ht.
Qed.

Lemma after_keeps s s' : after s s' -> source_ok s ->
  source_ok s' /\ forall f, owned s' f -> owned s f.
Proof.
  intros Ha. induction Ha as [s|s t s' Hst _ IH]; intros Hs; [done|].
  assert (source_ok t /\ forall f, owned t f -> owned s f) as [Ht Hown].
  { destruct Hst as [[r Hr]|[m ->]].
    - destruct (allocate_frame_cases s Hs) as (r' & s0 & Hr' & _ & Hok & _ & Ho & _).
      rewrite Hr in Hr'. injection Hr' as <- <-. done.
    - split; [by apply set_pmem_ok|]. intros f. apply set_pmem_owned. }
  destruct (IH Ht) as [H1' H2']. eauto.
Qed.

Lemma ready_after s s' : after s s' -> ready s -> ready s'.
Proof. intros Ha [Hs Hb]. destruct (after_keeps _ _ Ha Hs) as [Hs' Ho]. split; [done|]. intros f Hf. eauto. Qed.

Lemma spent_after n s t : spent n s t -> after s t.
Proof.
  induction 1 as [s|n s t m _ IH|n s t f u _ IH Hu]; [apply rtc_refl|by apply after_set|].
  eapply rtc_r; [exact IH|]. left. by exists (Some f).
Qed.

Lemma spent_trans n k s t u : spent n s t -> spent k t u -> spent (n + k) s u.
Proof.
  intros Hn. induction 1 as [t|k t u m _ IH|k t u f v _ IH Hv].
  - by rewrite Nat.add_0_r.
  - apply spent_mem. by apply IH.
  - rewrite Nat.add_succ_r. eapply spent_frame; [by apply IH|done].
Qed.

Lemma answers_set n m s : answers n s -> answers n (set_pmem m s).
Proof.
  revert s. induction n as [|n IH]; intros s; [done|]. intros (f & s' & Hf & Hs').
  exists f, (set_pmem m s'). split; [by apply allocate_frame_set|by apply IH].
Qed.

Lemma answers_le n k s : (n <= k)%nat -> answers k s -> answers n s.
Proof.
  revert k s. induction n as [|n IH]; intros [|k] s Hle; try done || lia.
  intros (f & s' & Hf & Hs'). exists f, s'. split; [done|]. apply (IH k); [lia|done].
Qed.

(** What is left of a supply of frames. *)
Lemma answers_spent n k s t : spent n s t -> answers (n + k) s -> answers k t.
Proof.
  intros Hs. revert k. induction Hs as [s|n s t m _ IH|n s t f u _ IH Hu]; intros k Hk; [done|by apply answers_set, IH|].
  destruct (IH (Datatypes.S k)) as (g & v & Hv & Ha); [by rewrite Nat.add_succ_r|].
  rewrite Hu in Hv. by injection Hv as <- <-.
Qed.

Lemma granted_trans s t u p : source_ok s -> after s t -> after t u ->
  granted s t p \/ granted t u p -> granted s u p.
Proof.
  intros Hs Ha Ha'. destruct (after_keeps _ _ Ha Hs) as [Ht Ho].
  destruct (after_keeps _ _ Ha' Ht) as [_ Ho']. unfold granted. naive_solver.
Qed.

(** ** Trees of tables

    [tree live m l e]: the entry [e] is the root of a tree of [l] levels of
    tables, all of them in [live] pages. *)
Fixpoint tree (live : Z -> Prop) (m : mem) (l : nat) (e : Z) : Prop :=
  match l with
  | O => True
  | Datatypes.S l => exists f, entry_frame e = Ok f /\ live (physical_memory_offset + f) /\
      canonical (physical_memory_offset + f) /\
      forall i, 0 <= i < 512 -> let e' := entry_at m (physical_memory_offset + f) i in e' = 0 \/ tree live m l e'
  end.

(** The number of tables of the tree. *)
Fixpoint tables (m : mem) (l : nat) (e : Z) : nat :=
  match l with
  | O => 0
  | Datatypes.S l =>
      match entry_frame e with
      | Ok f => Datatypes.S (sum_list_with (fun i => tables m l (entry_at m (physical_memory_offset + f) i)) (seqZ 0 512))
      | Err _ => 0
      end
  end.

(** The tables below the first [k] entries of a table. *)
Definition tables_below (m : mem) (l : nat) (table k : Z) : nat :=
  sum_list_with (fun i => tables m l (entry_at m table i)) (seqZ 0 k).

Lemma sum_list_with_eq {A} (f g : A -> nat) l : (forall x, x ∈ l -> f x = g x) -> sum_list_with f l = sum_list_with g l.
Proof.
  induction l as [|x l IH]; intros Hfg; [done|]. simpl. rewrite (Hfg x), IH; [done| |left].
  intros y Hy. apply Hfg. by right.
Qed.

Lemma tables_zero m l : tables m l 0 = 0%nat.
Proof. destruct l; [done|]. cbn [tables]. by rewrite entry_frame_spec, entry_flags_zero. Qed.

Lemma tables_below_S m l table k : 0 <= k ->
  tables_below m l table (k + 1) = (tables_below m l table k + tables m l (entry_at m table k))%nat.
Proof.
  intros Hk. unfold tables_below. rewrite seqZ_app, sum_list_with_app by lia. f_equal.
  rewrite Z.add_0_l. change (seqZ k 1) with [k]. simpl. lia.
Qed.

Lemma tables_below_le m l table k k' : 0 <= k <= k' -> (tables_below m l table k <= tables_below m l table k')%nat.
Proof.
  intros Hk. unfold tables_below. replace k' with (k + (k' - k)) by lia. rewrite seqZ_app, sum_list_with_app by lia. lia.
Qed.

Definition path_ok (l : nat) (path : list Z) : Prop := Forall (fun i => 0 <= i < 512) path /\ length path = l.

(** What cloning makes of a leaf entry. *)
Definition copied (cow : bool) (e e' : Z) : Prop :=
  if is_unused e then e' = 0 else if cow
  then entry_addr e' = entry_addr e /\ entry_flags e' = Z.lor (Z.ldiff (entry_flags e) WRITABLE) BIT_9
  else e' = e.

Lemma tree_ext live m m' l e :
  (forall p x, live p -> in_page p x -> m' x = m x) -> tree live m l e ->
  tree live m' l e /\ tables m' l e = tables m l e /\
  forall path, path_ok l path -> walk m' l e path = walk m l e path.
Proof.
  intros Hm. revert e. induction l as [|l IH]; intros e.
  { intros _. split; [done|]. split; [done|]. intros path [_ Hl]. by destruct path. }
  intros (f & Hf & Hlive & Hcan & Hsub). cbn zeta in Hsub.
  assert (forall i, 0 <= i < 512 -> entry_at m' (physical_memory_offset + f) i = entry_at m (physical_memory_offset + f) i)
    as He. { intros i Hi. apply entry_at_ext. intros x Hx. apply (Hm _ x Hlive). by apply (slot_in_page _ i). }
  split.
  - exists f. split; [done|]. split; [done|]. split; [done|]. intros i Hi. cbn zeta.
    rewrite He by done. destruct (Hsub i Hi) as [->|Ht]; [by left|right; by apply IH].
  - split.
    { cbn [tables]. rewrite Hf. f_equal. apply sum_list_with_eq. intros i Hi%elem_of_seqZ. rewrite He by lia.
      destruct (Hsub i) as [->|Ht]; [lia|by rewrite !tables_zero|by apply IH]. }
    intros path [Hp Hl]. destruct path as [|i path]; [done|]. inversion Hp; subst. cbn [walk]. rewrite Hf.
    rewrite He by done. destruct (Hsub i) as [->|Ht]; [done| |apply IH; [done|split; [done|by injection Hl]]].
    destruct l as [|l]; [by destruct path|]. destruct path; [done|]. cbn [walk].
    by rewrite entry_frame_spec, entry_flags_zero.
Qed.

Lemma tree_mono (live live' : Z -> Prop) m l e :
  (forall p, live p -> live' p) -> tree live m l e -> tree live' m l e.
Proof.
  intros Hl. revert e. induction l as [|l IH]; intros e; [done|].
  intros (f & Hf & Hlive & Hcan & Hsub). exists f. split; [done|]. split; [by apply Hl|]. split; [done|].
  intros i Hi. destruct (Hsub i Hi); [by left|right; by apply IH].
Qed.

Lemma walk_zero m l path : path_ok l path -> walk m l 0 path = if l is O then Some 0 else None.
Proof.
  intros [_ Hl]. destruct l as [|l], path as [|i path]; try done. cbn [walk].
  by rewrite entry_frame_spec, entry_flags_zero.
Qed.

(** ** Cloning *)

Hypothesis offset_ok : physical_memory_offset mod 4096 = 0 /\ canonical physical_memory_offset.

Lemma window_page f : frame_ok f -> (physical_memory_offset + f) mod 4096 = 0.
Proof. intros [Hf _]. destruct offset_ok as [Ho _]. rewrite Z.add_mod, Ho, Hf by lia. done. Qed.

Lemma table_ptr_ok f : canonical (physical_memory_offset + f) -> table_ptr f = Ret (physical_memory_offset + f).
Proof. intros Hf. apply virt_addr_add_ok; [apply offset_ok|done]. Qed.

Lemma granted_page s s' p : ready s -> granted s s' p -> p mod 4096 = 0.
Proof. intros [_ Hb] (f & Hf & _ & ->). apply window_page, Hb, Hf. Qed.

Lemma entry_frame_ok e f : entry_frame e = Ok f -> frame_ok f /\ Z.land (entry_flags e) HUGE_PAGE = 0 /\
  Z.land (entry_flags e) PRESENT <> 0.
Proof.
  rewrite entry_frame_spec. case_if; [done|]. case_if; [done|]. intros [= <-].
  split; [apply entry_addr_ok|]. apply negb_false_iff in E0. lia.
Qed.

(** The source tables, in [live] pages, are apart from the destination table
    and from the frames that may be handed out. *)
Record apart (live : Z -> Prop) (s : S) (dst : Z) : Prop := mkApart {
  apart_page : dst mod 4096 = 0;
  apart_dst : ~ live dst;
  apart_live : forall p, live p -> p mod 4096 = 0;
  apart_owned : forall f, owned s f -> ~ live (physical_memory_offset + f);
  apart_owned_dst : forall f, owned s f -> physical_memory_offset + f <> dst }.

(** Nothing but the destination entry and frames handed out changes, and the
    tree below the destination entry is a copy in such frames. *)
Definition written (dst : Z * Z) (s s' : S) : Prop :=
  forall x, ~ in_slot dst.1 dst.2 x -> (forall p, granted s s' p -> ~ in_page p x) -> pmem s' x = pmem s x.

Definition subtree_copied (cow : bool) (l : nat) (m : mem) (s s' : S) (e e' : Z) : Prop :=
  (e' = 0 \/ tree (granted s s') (pmem s') l e') /\
  forall path, path_ok l path -> option_Forall2 (copied cow) (walk m l e path) (walk (pmem s') l e' path).

Definition cloned (cow : bool) (l : nat) (src dst : Z * Z) (s s' : S) : Prop :=
  spent (tables (pmem s) l (entry_at (pmem s) src.1 src.2)) s s' /\ written dst s s' /\
  subtree_copied cow l (pmem s) s s' (entry_at (pmem s) src.1 src.2) (entry_at (pmem s') dst.1 dst.2).

Lemma apart_after live s s' dst : source_ok s -> after s s' -> apart live s dst -> apart live s' dst.
Proof.
  intros Hs Ha [H1' H2' H3' H4' H5']. destruct (after_keeps _ _ Ha Hs) as [_ Ho]. split; eauto.
Qed.

(** Source pages keep their contents. *)
Lemma written_live live dst s s' p x : ready s -> apart live s dst.1 -> 0 <= dst.2 < 512 ->
  written dst s s' -> live p -> in_page p x -> pmem s' x = pmem s x.
Proof.
  intros Hr [Hd Hnl Hal Hown _] Hi Hw Hp Hx. apply Hw.
  - intros Hs. apply slot_in_page in Hs; [|done].
    apply (pages_disjoint p dst.1 x); [by apply Hal|done|by intros ->|done|done].
  - intros q Hq. apply pages_disjoint with (p := p); [by apply Hal|exact (granted_page s s' q Hr Hq)|intros ->|done].
    destruct Hq as (f & Hf & _ & ->). by apply (Hown f Hf).
Qed.

Lemma clone_leaf_spec cow src dst s :
  is_unused (entry_at (pmem s) src.1 src.2) = false ->
  exists s', clone_table_level 0 cow src dst s = Ret s' /\ cloned cow 0 src dst s s'.
Proof.
  intros Hu. cbn [clone_table_level]. destruct cow.
  - set (fl := Z.lor _ BIT_9). unfold upd. rewrite !pmem_set.
    destruct (set_flags_ok (entry_at (pmem s) src.1 src.2) fl) as (e & He & Heu & Hea & Hef).
    { apply flags_ok_lor; [apply flags_ok_ldiff, entry_flags_ok|done]. }
    rewrite entry_at_put by apply entry_at_u64. rewrite He. cbn [mbind outcome_bind].
    eexists; split; [done|]. split; [do 2 apply spent_mem; apply spent_refl|]. split.
    + intros x Hx _. rewrite !pmem_set. by rewrite !put_entry_out.
    + split; [by right|]. intros path [_ Hl]. destruct path; [|done]. rewrite pmem_set, entry_at_put by done.
      cbn [walk]. constructor. unfold copied. by rewrite Hu.
  - eexists; split; [done|]. unfold upd. split; [apply spent_mem, spent_refl|]. split.
    + intros x Hx _. rewrite !pmem_set. by rewrite !put_entry_out.
    + split; [by right|]. intros path [_ Hl]. destruct path; [|done].
      rewrite pmem_set, entry_at_put by apply entry_at_u64.
      cbn [walk]. constructor. unfold copied. by rewrite Hu.
Qed.

(** A write to one entry of a table leaves the others. *)
Lemma written_other t t' dn i k :
  ready t -> (forall f, owned t f -> physical_memory_offset + f <> dn) -> dn mod 4096 = 0 ->
  0 <= i < 512 -> 0 <= k < 512 -> i <> k -> written (dn, k) t t' ->
  entry_at (pmem t') dn i = entry_at (pmem t) dn i.
Proof.
  intros Hr Hdn Hal Hi Hk Hne Hw. apply entry_at_ext. intros x Hx. apply Hw; cbn [fst snd].
  - by apply (slots_disjoint dn i dn k); [..|intros [=]|].
  - intros p Hp. apply (pages_disjoint dn p); [done|exact (granted_page _ _ _ Hr Hp)| |exact (slot_in_page dn i x Hi Hx)].
    intros ->. destruct Hp as (f & Hf & _ & Hp). by apply (Hdn f).
Qed.

(** A finished copy survives when its entry and its tables do. *)
Lemma subtree_moved cow l m s t t' e e' e'' :
  ready s -> after s t -> after t t' -> e'' = e' ->
  (forall p x, granted s t p -> in_page p x -> pmem t' x = pmem t x) ->
  subtree_copied cow l m s t e e' -> subtree_copied cow l m s t' e e''.
Proof.
  intros Hr Ha Ha' -> Hkeep [Ht Hwalk]. destruct Ht as [->|Ht].
  - split; [by left|]. intros path Hp. specialize (Hwalk path Hp). by rewrite walk_zero in *.
  - destruct (tree_ext _ _ _ _ _ Hkeep Ht) as [Ht' Hw']. split.
    + right. eapply tree_mono; [|exact Ht']. intros p Hp. eapply granted_trans; [apply Hr|exact Ha|exact Ha'|by left].
    + intros path Hp. rewrite (proj2 Hw') by done. by apply Hwalk.
Qed.

(** A finished copy survives writes to another entry of its table. *)
Lemma subtree_kept cow l m s t t' e dn i k :
  ready s -> after s t -> after t t' -> (forall f, owned s f -> physical_memory_offset + f <> dn) ->
  dn mod 4096 = 0 -> 0 <= i < 512 -> 0 <= k < 512 -> i <> k -> written (dn, k) t t' ->
  subtree_copied cow l m s t e (entry_at (pmem t) dn i) ->
  subtree_copied cow l m s t' e (entry_at (pmem t') dn i).
Proof.
  intros Hr Ha Ha' Hdn Hal Hi Hk Hne Hw Hsub. pose proof (ready_after _ _ Ha Hr) as Hrt.
  assert (entry_at (pmem t') dn i = entry_at (pmem t) dn i) as He.
  { apply (written_other t t' dn i k); try done. intros f Hf. apply Hdn. by apply (after_keeps _ _ Ha (proj1 Hr)). }
  assert (forall p x, granted s t p -> in_page p x -> pmem t' x = pmem t x) as Hkeep.
  { intros p x Hp Hx. pose proof (granted_page _ _ _ Hr Hp) as Hpa. apply Hw; cbn [fst snd].
    - intros Hs. apply slot_in_page in Hs; [|done]. apply (pages_disjoint p dn x); [done|done| |done|done].
      intros ->. destruct Hp as (f & Hf & _ & Hp). by apply (Hdn f).
    - intros q Hq. apply (pages_disjoint p q x); [done|exact (granted_page _ _ _ Hrt Hq)| |done].
      intros ->. destruct Hp as (f & _ & Hf & ->), Hq as (g & Hg & _ & Hq).
      apply Hf. by replace f with g by lia. }
  by apply (subtree_moved cow l m s t t' e (entry_at (pmem t) dn i)).
Qed.

(** The loop over the entries of a table, the destination table being new. *)
Definition table_copied (cow : bool) (l : nat) (m : mem) (sn dn : Z) (s t : S) (k : Z) : Prop :=
  spent (tables_below m l sn k) s t /\
  (forall x, ~ in_page dn x -> (forall p, granted s t p -> ~ in_page p x) -> pmem t x = pmem s x) /\
  forall i, 0 <= i < k -> subtree_copied cow l m s t (entry_at m sn i) (entry_at (pmem t) dn i).

Lemma table_step live cow l m sn dn s t t' k :
  ready s -> apart live s dn -> live sn -> 0 <= k < 512 ->
  table_copied cow l m sn dn s t k -> spent (tables m l (entry_at m sn k)) t t' -> written (dn, k) t t' ->
  (entry_at (pmem t') dn k = 0 \/ tree (granted t t') (pmem t') l (entry_at (pmem t') dn k)) ->
  (forall path, path_ok l path ->
     option_Forall2 (copied cow) (walk m l (entry_at m sn k) path)
       (walk (pmem t') l (entry_at (pmem t') dn k) path)) ->
  table_copied cow l m sn dn s t' (k + 1).
Proof.
  intros Hr Hap Hsn Hk (Hn & Hw & Hdone) Hn' Hw' Ht Hwalk.
  split; [rewrite tables_below_S by lia; exact (spent_trans _ _ s t t' Hn Hn')|].
  pose proof (spent_after _ _ _ Hn) as Ha. pose proof (spent_after _ _ _ Hn') as Ha'.
  assert (forall p, granted s t p \/ granted t t' p -> granted s t' p) as Hg.
  { intros p. apply granted_trans; [apply Hr|done|done]. }
  split.
  - intros x Hx Hp. rewrite Hw'; [apply Hw; [done|]| |]; cbn [fst snd].
    + intros p Hg'. apply Hp, Hg. by left.
    + intros Hs. by apply slot_in_page in Hs.
    + intros p Hg'. apply Hp, Hg. by right.
  - intros i Hi. destruct (decide (i = k)) as [->|Hne].
    + split; [|done]. destruct Ht as [Ht|Ht]; [by left|right]. eapply tree_mono; [|exact Ht]. intros p Hp. apply Hg. by right.
    + apply (subtree_kept cow l m s t t' _ dn i k Hr Ha Ha'); [|by apply Hap|lia|lia|done|done|apply Hdone; lia].
      by apply Hap.
Qed.

Definition clone_correct (live : Z -> Prop) (cow : bool) (l : nat) : Prop := forall src dst s,
  ready s -> apart live s dst.1 -> 0 <= dst.2 < 512 -> live src.1 -> 0 <= src.2 < 512 ->
  tree live (pmem s) l (entry_at (pmem s) src.1 src.2) ->
  is_unused (entry_at (pmem s) src.1 src.2) = false ->
  match clone_table_level l cow src dst s with
  | Ret s' => cloned cow l src dst s s'
  | Panic => ~ answers (tables (pmem s) l (entry_at (pmem s) src.1 src.2)) s
  | Loop => False
  end.

(** The source tables as they were in [m], seen in a state that kept them. *)
Definition same_live (live : Z -> Prop) (m m' : mem) : Prop :=
  forall p x, live p -> in_page p x -> m' x = m x.

Lemma same_live_entry live m m' p i :
  same_live live m m' -> live p -> 0 <= i < 512 -> entry_at m' p i = entry_at m p i.
Proof. intros Hm Hp Hi. apply entry_at_ext. intros x Hx. apply (Hm p x Hp). by apply (slot_in_page p i). Qed.

Lemma same_live_walk live m m' l e path : same_live live m m' -> e = 0 \/ tree live m l e -> path_ok l path ->
  walk m' l e path = walk m l e path.
Proof. intros Hm [->|Ht] Hp; [by rewrite !walk_zero|]. by apply (tree_ext live m m' l e Hm Ht). Qed.

Lemma no_answer m l sn s t k n : 0 <= k < n -> spent (tables_below m l sn k) s t ->
  ~ answers (tables m l (entry_at m sn k)) t -> ~ answers (tables_below m l sn n) s.
Proof.
  intros Hk Hs Hno Ha. apply Hno, (answers_spent _ _ _ _ Hs). rewrite <- tables_below_S by lia.
  eapply answers_le; [|exact Ha]. apply tables_below_le. lia.
Qed.

Lemma table_same_live live cow l m sn dn s t k : ready s -> apart live s dn -> same_live live m (pmem s) ->
  table_copied cow l m sn dn s t k -> same_live live m (pmem t).
Proof.
  intros Hr [Hd Hnl Hal Ho _] Hm (_ & Hw & _) p x Hp Hx. rewrite <- (Hm p x Hp Hx). apply Hw.
  - apply (pages_disjoint p dn x); [by apply Hal|done|by intros ->|done].
  - intros q Hq. apply (pages_disjoint p q x); [by apply Hal|exact (granted_page _ _ _ Hr Hq)|intros ->|done].
    destruct Hq as (f & Hf & _ & ->). by apply (Ho f Hf).
Qed.

Lemma clone_turn live cow l m sn dn s t k :
  clone_correct live cow l -> ready s -> apart live s dn -> same_live live m (pmem s) -> live sn ->
  (forall i, 0 <= i < 512 -> entry_at m sn i = 0 \/ tree live m l (entry_at m sn i)) ->
  0 <= k < 512 -> table_copied cow l m sn dn s t k ->
  match (if negb (is_unused (entry_at (pmem t) sn k)) then clone_table_level l cow (sn, k) (dn, k) t
         else Ret (upd (fun m => put_entry m dn k 0) t)) with
  | Ret t' => table_copied cow l m sn dn s t' (k + 1)
  | Panic => ~ answers (tables_below m l sn 512) s
  | Loop => False
  end.
Proof.
  intros IH Hr Hap Hm Hsn Hsub Hk Hc. pose proof (table_same_live _ _ _ _ _ _ _ _ _ Hr Hap Hm Hc) as Hmt.
  pose proof (spent_after _ _ _ (proj1 Hc)) as Ha. pose proof (ready_after _ _ Ha Hr) as Hrt.
  pose proof (same_live_entry _ _ _ sn k Hmt Hsn Hk) as He. rewrite He, is_unused_spec.
  destruct (entry_at m sn k =? 0) eqn:E; cbn [negb].
  - apply Z.eqb_eq in E. assert (entry_at (pmem (upd (fun m => put_entry m dn k 0) t)) dn k = 0) as He0.
    { unfold upd. rewrite pmem_set. by apply entry_at_put. }
    apply (table_step live cow l m sn dn s t); try done.
    + rewrite E, tables_zero. apply spent_mem, spent_refl.
    + intros x Hx _. unfold upd. rewrite pmem_set. by apply put_entry_out.
    + by left.
    + intros path Hp. rewrite He0, E, !walk_zero by done. destruct l; constructor.
      unfold copied. by rewrite is_unused_spec.
  - destruct (Hsub k Hk) as [Hz|Ht]; [by rewrite Hz in E|].
    specialize (IH (sn, k) (dn, k) t Hrt (apart_after _ _ _ _ (proj1 Hr) Ha Hap) Hk Hsn Hk). cbn [fst snd] in IH.
    rewrite He, is_unused_spec in IH. destruct (tree_ext _ _ _ _ _ Hmt Ht) as (Ht' & Hn & _). rewrite Hn in IH.
    specialize (IH Ht' E).
    destruct (clone_table_level l cow (sn, k) (dn, k) t) as [t'| |]; [|exact (no_answer m l sn s t k 512 Hk (proj1 Hc) IH)|done].
    destruct IH as (Ha' & Hw' & Hz & Hwalk). cbn [fst snd] in *. rewrite He, Hn in Ha'.
    apply (table_step live cow l m sn dn s t); try done.
    intros path Hp. rewrite <- (same_live_walk live m (pmem t)) by (auto; done). rewrite <- He. by apply Hwalk.
Qed.

Lemma clone_finish live cow l src dst s s1 t f nf e :
  ready s -> apart live s dst.1 -> 0 <= dst.2 < 512 ->
  entry_frame (entry_at (pmem s) src.1 src.2) = Ok f ->
  owned s nf -> ~ owned s1 nf -> allocate_frame s = Ret (Some nf, s1) -> pmem s1 = pmem s ->
  in_u64 e -> entry_addr e = nf -> entry_flags e = entry_flags (entry_at (pmem s) src.1 src.2) ->
  table_copied cow l (pmem s) (physical_memory_offset + f) (physical_memory_offset + nf)
    (upd (fun m => put_entry m dst.1 dst.2 e) s1) t 512 ->
  cloned cow (Datatypes.S l) src dst s t.
Proof.
  intros Hr Hap Hd Hf Hnf Hnf1 Hal1 Hm1 Heu Hea Hef. set (s2 := upd _ s1). intros (Hn & Hw & Hsub).
  assert (spent 1 s s2) as Hn2 by (apply spent_mem; eapply spent_frame; [apply spent_refl|done]).
  pose proof (spent_after _ _ _ Hn2) as Ha2. pose proof (spent_after _ _ _ Hn) as Hat.
  assert (pmem s2 = put_entry (pmem s) dst.1 dst.2 e) as Hm2 by (unfold s2, upd; by rewrite pmem_set, Hm1).
  pose proof (ready_after _ _ Ha2 Hr) as Hr2.
  assert (after s t) as Ha by (by eapply after_trans). pose proof (proj2 (after_keeps _ _ Hat (proj1 Hr2))) as Hownt.
  assert (forall p, granted s2 t p -> granted s t p) as Hg.
  { intros p Hp. eapply granted_trans; [apply Hr|exact Ha2|exact Hat|by right]. }
  assert (granted s t (physical_memory_offset + nf)) as Hgn.
  { exists nf. split; [done|]. split; [|done]. intros Ht. apply Hnf1, (set_pmem_owned (put_entry (pmem s1) dst.1 dst.2 e)), Hownt, Ht. }
  assert (entry_frame e = Ok nf) as Hfe.
  { rewrite entry_frame_spec in *. rewrite Hef, Hea. by repeat case_if. }
  assert (entry_at (pmem t) dst.1 dst.2 = e) as Het.
  { rewrite <- (entry_at_put (pmem s) dst.1 dst.2 e), <- Hm2 by done. apply entry_at_ext. intros x Hx.
    apply slot_in_page in Hx; [|done]. pose proof (apart_page _ _ _ Hap) as Hpa.
    assert (forall p, granted s t p -> ~ in_page p x) as Hno.
    { intros p Hp. apply (pages_disjoint dst.1 p x Hpa (granted_page _ _ _ Hr Hp)); [|done].
      destruct Hp as (g & Hgo & _ & ->). intros Hbad. by apply (apart_owned_dst _ _ _ Hap g Hgo). }
    apply Hw; [by apply Hno|]. intros p Hp. by apply Hno, Hg. }
  split; [cbn [tables]; rewrite Hf; exact (spent_trans 1 _ _ _ _ Hn2 Hn)|]. split.
  - intros x Hx Hp. rewrite Hw; [rewrite Hm2; by apply put_entry_out|by apply Hp|]. intros p Hp'. by apply Hp, Hg.
  - rewrite Het. split.
    + right. exists nf. split; [done|]. split; [done|]. split; [by apply Hr|]. intros i Hi. cbn zeta.
      destruct (Hsub i Hi) as [[Hz|Ht] _]; [by left|right]. by eapply tree_mono.
    + intros path [Hp Hl]. destruct path as [|i path]; [done|]. inversion Hp; subst.
      cbn [walk]. rewrite Hf, Hfe. apply Hsub; [done|]. split; [done|]. by injection Hl.
Qed.

Lemma clone_table_level_correct live cow l : clone_correct live cow l.
Proof.
  induction l as [|l IH]; intros src dst s Hr Hap Hd Hsrc Hs Htree Hu.
  { destruct (clone_leaf_spec cow src dst s Hu) as (s' & -> & Hs'). done. }
  cbn [clone_table_level]. destruct Htree as (f & Hf & Hlf & Hcf & Hsub). cbn [tables]. rewrite Hf.
  destruct (allocate_frame_cases s (proj1 Hr)) as (r & s1 & Hal1 & Ha1 & Hok1 & Hm1 & Hown1 & Hres).
  rewrite Hal1. cbn [mbind outcome_bind fst snd]. destruct r as [nf|]; [|apply Hres]. cbn [unwrap mbind outcome_bind].
  destruct Hres as [Hnf Hnf1]. destruct (proj2 Hr nf Hnf) as [Hnfok Hnfc]. rewrite Hm1.
  destruct (set_frame_ok nf (entry_flags (entry_at (pmem s) src.1 src.2))) as (e & -> & Heu & Hea & Hef);
    [done|apply entry_flags_ok|by apply entry_frame_ok in Hf as (_ & ? & _)|].
  cbn [mbind outcome_bind]. set (s2 := upd _ s1). assert (after s s2) as Ha2 by (by apply after_set).
  assert (pmem s2 = put_entry (pmem s) dst.1 dst.2 e) as Hm2 by (unfold s2, upd; by rewrite pmem_set, Hm1).
  assert (same_live live (pmem s) (pmem s2)) as Hlive2.
  { intros p x Hp Hx. rewrite Hm2. apply put_entry_out. intros Hs'. apply slot_in_page in Hs'; [|done].
    apply (pages_disjoint p dst.1 x); [by eapply apart_live|by eapply apart_page|intros ->; by eapply apart_dst|done|done]. }
  rewrite (same_live_entry _ _ _ src.1 src.2 Hlive2 Hsrc Hs).
  unfold frame_unwrap. rewrite Hf. cbn [mbind outcome_bind]. rewrite (table_ptr_ok f), (table_ptr_ok nf) by done.
  cbn [mbind outcome_bind]. assert (ready s2) as Hr2 by (by apply (ready_after s s2)).
  assert (forall g, owned s2 g -> owned s1 g) as Hown2 by (intros g; apply set_pmem_owned).
  assert (apart live s2 (physical_memory_offset + nf)) as Hap2.
  { destruct Hap as [_ _ Hal Ho _]. split; [by apply window_page|by apply (Ho nf)|done| |].
    - intros g Hg. by apply Ho, Hown1, Hown2.
    - intros g Hg Hgn. apply Hnf1, Hown2. by replace nf with g by lia. }
  pose proof (for_each_range (fun k t => table_copied cow l (pmem s) (physical_memory_offset + f)
    (physical_memory_offset + nf) s2 t k)
    (~ answers (tables_below (pmem s) l (physical_memory_offset + f) 512) s2) _ 0 512 s2 ltac:(lia)
    (fun k t Hk Hc => clone_turn live cow l (pmem s) _ _ s2 t k IH Hr2 Hap2 Hlive2 Hlf Hsub Hk Hc)) as Hloop.
  cbn beta in Hloop. change (0 + 512) with 512 in Hloop.
  match type of Hloop with ?P -> _ => assert P as Hstart by (split; [apply spent_refl|split; [done|intros; lia]]) end.
  specialize (Hloop Hstart). destruct (for_each _ _ s2) as [t| |].
  - by apply (clone_finish live cow l src dst s s1 t f nf e).
  - intros Hans. apply Hloop. apply (answers_spent 1 _ s s2); [|exact Hans].
    apply spent_mem. eapply spent_frame; [apply spent_refl|done].
  - done.
Qed.

(** Copying a run of entries from one table to another. *)
Definition entries_copied (m : mem) (src dst a n : Z) (s t : S) : Prop :=
  spent 0 s t /\
  (forall i, a <= i < a + n -> entry_at (pmem t) dst i = entry_at m src i) /\
  forall x, (forall i, a <= i < a + n -> ~ in_slot dst i x) -> pmem t x = pmem s x.

Lemma copy_entries_spec src dst a n s :
  src mod 4096 = 0 -> dst mod 4096 = 0 -> src <> dst -> 0 <= a -> 0 <= n -> a + n <= 512 ->
  exists t, for_each (copy_entry src dst) (seqZ a n) s = Ret t /\ entries_copied (pmem s) src dst a n s t.
Proof.
  intros Hs Hd Hne Ha Hn Hle.
  pose proof (for_each_range (fun k t => entries_copied (pmem s) src dst a (k - a) s t) False (copy_entry src dst) a n s Hn)
    as Hloop. cbn beta in Hloop. replace (a + n - a) with n in Hloop by lia.
  destruct (for_each _ _ s) as [t| |]; [exists t; split; [done|]; apply Hloop|exfalso; apply Hloop|exfalso; apply Hloop].
  all: try (split; [apply spent_refl|split; [intros; lia|done]]).
  all: intros k t' Hk (Hat & Hcp & Hout); unfold copy_entry, upd; split; [by apply spent_mem|]; rewrite pmem_set; split.
  all: try (intros x Hx; rewrite put_entry_out by (apply Hx; lia); apply Hout; intros i Hi; apply Hx; lia).
  all: intros i Hi; destruct (decide (i = k)) as [->|Hik].
  all: try (rewrite entry_at_put_ne by (unfold slot; (congruence || lia)); apply Hcp; lia).
  all: rewrite entry_at_put by apply entry_at_u64; apply entry_at_ext; intros x Hx; apply Hout.
  all: intros j Hj; apply (slots_disjoint src k dst j x); unfold slot; try lia; congruence.
Qed.

Lemma entry_at_zeroed m p i : 0 <= i < 512 -> entry_at (write_mem m p (replicate 4096 x00)) p i = 0.
Proof.
  intros Hi. unfold entry_at. assert (read_mem (write_mem m p (replicate 4096 x00)) (p + 8 * i) 8 = replicate 8 x00) as ->; [|done].
  apply list_eq. intros j. unfold read_mem. change (map ?f ?l) with (f <$> l). rewrite list_lookup_fmap.
  destruct (decide (Z.of_nat j < 8)).
  - rewrite (lookup_replicate_2 8 x00 j), lookup_seqZ_lt by lia. cbn [fmap option_fmap option_map]. f_equal.
    replace (p + 8 * i + (0 + Z.of_nat j)) with (p + (8 * i + Z.of_nat j)) by lia.
    apply write_mem_in. rewrite zget_lookup by lia. apply lookup_replicate_2. lia.
  - rewrite lookup_seqZ_ge by lia. symmetry. apply lookup_replicate_None. lia.
Qed.

(** A table the running kernel uses, at the window of [cr3], that the
    allocator does not own. *)
Definition root_ok (s : S) (root : Z) : Prop :=
  frame_ok root /\ canonical (physical_memory_offset + root) /\ ~ owned s root.

Definition fresh_root (cr3 nf : Z) (s s' : S) : Prop :=
  spent 1 s s' /\ owned s nf /\ ~ owned s' nf /\
  (forall i, 0 <= i < 512 -> entry_at (pmem s') (physical_memory_offset + nf) i =
     if i <? 256 then 0 else entry_at (pmem s) (physical_memory_offset + cr3) i) /\
  forall x, ~ in_page (physical_memory_offset + nf) x -> pmem s' x = pmem s x.

Lemma create_process_pml4_spec cr3 s : ready s -> root_ok s cr3 ->
  match create_process_pml4 cr3 s with
  | Ret (nf, s') => fresh_root cr3 nf s s'
  | Panic => ~ answers 1 s
  | Loop => False
  end.
Proof.
  intros Hr (Hcr & Hcan & Hno). unfold create_process_pml4.
  destruct (allocate_frame_cases s (proj1 Hr)) as (r & s1 & Hal1 & Ha1 & Hok1 & Hm1 & Hown1 & Hres).
  rewrite Hal1. cbn [mbind outcome_bind fst snd]. destruct r as [nf|]; [|apply Hres]. cbn [unwrap mbind outcome_bind].
  destruct Hres as [Hnf Hnf1]. destruct (proj2 Hr nf Hnf) as [Hnfok Hnfc].
  rewrite (table_ptr_ok cr3), (table_ptr_ok nf) by done. cbn [mbind outcome_bind].
  set (s2 := upd _ s1). assert (spent 1 s s2) as Hn2 by (apply spent_mem; eapply spent_frame; [apply spent_refl|done]).
  pose proof (window_page nf Hnfok) as Hpn. pose proof (window_page cr3 Hcr) as Hpc.
  assert (physical_memory_offset + cr3 <> physical_memory_offset + nf) as Hne.
  { intros Hbad. apply Hno. by replace cr3 with nf by lia. }
  destruct (copy_entries_spec (physical_memory_offset + cr3) (physical_memory_offset + nf) 256 256 s2)
    as (t & -> & Hat & Hcp & Hout); [done|done|done|lia|lia|lia|]. cbn [mbind outcome_bind].
  assert (pmem s2 = write_mem (pmem s) (physical_memory_offset + nf) (replicate 4096 x00)) as Hm2.
  { unfold s2, upd. by rewrite pmem_set, Hm1. }
  assert (forall x, ~ in_page (physical_memory_offset + nf) x -> pmem s2 x = pmem s x) as Hs2.
  { intros x Hx. rewrite Hm2. apply write_mem_out. rewrite len_replicate. unfold in_page in Hx. lia. }
  split; [exact (spent_trans 1 0 _ _ _ Hn2 Hat)|]. split; [done|]. split; [|split].
  - intros Ht. apply Hnf1, (set_pmem_owned (write_mem (pmem s1) (physical_memory_offset + nf) (replicate 4096 x00))).
    by apply (after_keeps _ _ (spent_after _ _ _ Hat)); [apply set_pmem_ok|].
  - intros i Hi. case_if.
    + rewrite <- (entry_at_zeroed (pmem s) (physical_memory_offset + nf) i Hi), <- Hm2. apply entry_at_ext.
      intros x Hx. apply Hout. intros j Hj. unfold in_slot in *. lia.
    + rewrite Hcp by lia. apply entry_at_ext. intros x Hx. apply Hs2.
      apply slot_in_page in Hx; [|done]. by apply (pages_disjoint (physical_memory_offset + cr3)).
  - intros x Hx. rewrite Hout; [by apply Hs2|]. intros j Hj Hs. apply slot_in_page in Hs; [done|lia].
Qed.

(** The loop over the user half, into a table whose user half is empty. *)
Lemma clone_user_loop live cow sn dn s :
  ready s -> apart live s dn -> live sn ->
  (forall i, 0 <= i < 256 -> entry_at (pmem s) sn i = 0 \/ tree live (pmem s) 3 (entry_at (pmem s) sn i)) ->
  (forall i, 0 <= i < 256 -> entry_at (pmem s) dn i = 0) ->
  match for_each (clone_slot cow sn dn) (seqZ 0 256) s with
  | Ret t => table_copied cow 3 (pmem s) sn dn s t 256 /\
      forall i, 256 <= i < 512 -> entry_at (pmem t) dn i = entry_at (pmem s) dn i
  | Panic => ~ answers (tables_below (pmem s) 3 sn 256) s
  | Loop => False
  end.
Proof.
  intros Hr Hap Hsn Hsub Hz.
  apply (for_each_range (fun k t => table_copied cow 3 (pmem s) sn dn s t k /\
    forall i, k <= i < 512 -> entry_at (pmem t) dn i = entry_at (pmem s) dn i)
    (~ answers (tables_below (pmem s) 3 sn 256) s) _ 0 256); [lia| |].
  2: { split; [|done]. split; [apply spent_refl|]. split; [done|]. intros; lia. }
  intros k t Hk [Hc Hrest]. assert (same_live live (pmem s) (pmem s)) as Hm by done.
  pose proof (table_same_live _ _ _ _ _ _ _ _ _ Hr Hap Hm Hc) as Hmt.
  pose proof (spent_after _ _ _ (proj1 Hc)) as Ha. pose proof (ready_after _ _ Ha Hr) as Hrt. unfold clone_slot.
  pose proof (same_live_entry _ _ _ sn k Hmt Hsn ltac:(lia)) as He. rewrite He, is_unused_spec.
  destruct (entry_at (pmem s) sn k =? 0) eqn:E; cbn [negb].
  - apply Z.eqb_eq in E. split; [|intros i Hi; apply Hrest; lia]. assert (entry_at (pmem t) dn k = 0) as Hk0.
    { rewrite Hrest, Hz by lia. done. }
    apply (table_step live cow 3 _ sn dn s t t k Hr Hap Hsn ltac:(lia) Hc); [rewrite E, tables_zero; apply spent_refl|done|by left|].
    intros path Hp. rewrite Hk0, E, !walk_zero by done. constructor.
  - destruct (Hsub k Hk) as [Hz'|Ht]; [by rewrite Hz' in E|].
    pose proof (clone_table_level_correct live cow 3 (sn, k) (dn, k) t Hrt
      (apart_after _ _ _ _ (proj1 Hr) Ha Hap) ltac:(simpl; lia) Hsn ltac:(simpl; lia)) as IH. cbn [fst snd] in IH.
    rewrite He, is_unused_spec in IH. destruct (tree_ext _ _ _ _ _ Hmt Ht) as (Ht' & Hn & _). rewrite Hn in IH.
    specialize (IH Ht' E).
    destruct (clone_table_level 3 cow (sn, k) (dn, k) t) as [t'| |]; [|exact (no_answer _ 3 sn s t k 256 Hk (proj1 Hc) IH)|done].
    destruct IH as (Ha' & Hw' & Hz' & Hwalk). cbn [fst snd] in *. rewrite He, Hn in Ha'. split.
    + apply (table_step live cow 3 _ sn dn s t t' k Hr Hap Hsn ltac:(lia) Hc Ha' Hw' Hz').
      intros path Hp. rewrite <- (same_live_walk live _ (pmem t)) by (auto; done). rewrite <- He. by apply Hwalk.
    + intros i Hi. rewrite <- (Hrest i) by lia.
      pose proof (apart_after _ _ _ _ (proj1 Hr) Ha Hap) as Hapt.
      apply (written_other t t' dn i k Hrt (apart_owned_dst _ _ _ Hapt) (apart_page _ _ _ Hapt)); [lia|lia|lia|done].
Qed.

(** The tables of the user half of the address space of [root]. *)
Definition user_tables (s : S) (root : Z) : nat := tables_below (pmem s) 3 (physical_memory_offset + root) 256.

(** The claim of both clone functions: where the source has a leaf entry, the
    destination has a copy, in tables of its own; nothing else changes. *)
Definition user_half_copied (cow : bool) (src dst : Z) (s t : S) : Prop :=
  spent (user_tables s src) s t /\
  (forall i path, 0 <= i < 256 -> path_ok 3 path ->
     option_Forall2 (copied cow) (page_entry (pmem s) src (i :: path)) (page_entry (pmem t) dst (i :: path))) /\
  forall x, ~ in_page (physical_memory_offset + dst) x -> (forall p, granted s t p -> ~ in_page p x) ->
    pmem t x = pmem s x.

(** The source is a tree of tables in [live] pages, the destination a table
    with an empty user half, apart from them. *)
Record clonable (live : Z -> Prop) (src dst : Z) (s : S) : Prop := mkClonable {
  cl_ready : ready s;
  cl_apart : apart live s (physical_memory_offset + dst);
  cl_src : live (physical_memory_offset + src);
  cl_canonical : canonical (physical_memory_offset + src) /\ canonical (physical_memory_offset + dst);
  cl_tree : forall i, 0 <= i < 256 -> let e := entry_at (pmem s) (physical_memory_offset + src) i in
    e = 0 \/ tree live (pmem s) 3 e;
  cl_empty : forall i, 0 <= i < 256 -> entry_at (pmem s) (physical_memory_offset + dst) i = 0 }.

Lemma table_copied_half cow src dst s t :
  table_copied cow 3 (pmem s) (physical_memory_offset + src) (physical_memory_offset + dst) s t 256 ->
  user_half_copied cow src dst s t.
Proof. intros (Ha & Hw & Hd). split; [done|]. split; [|done]. intros i path Hi Hp. by apply Hd. Qed.

Lemma clone_user_mappings_spec live cow src dst s : clonable live src dst s ->
  match clone_user_mappings src dst cow s with
  | Ret t => user_half_copied cow src dst s t /\
      forall i, 256 <= i < 512 -> entry_at (pmem t) (physical_memory_offset + dst) i =
        entry_at (pmem s) (physical_memory_offset + dst) i
  | Panic => ~ answers (user_tables s src) s
  | Loop => False
  end.
Proof.
  intros [Hr Hap Hsrc [Hc1 Hc2] Ht Hz]. unfold clone_user_mappings. rewrite !table_ptr_ok by done.
  cbn [mbind outcome_bind]. pose proof (clone_user_loop live cow _ _ s Hr Hap Hsrc Ht Hz) as Hl.
  destruct (for_each _ _ s) as [t| |]; [|done|done]. destruct Hl as [Hl Hk]. split; [by apply table_copied_half|done].
Qed.

Lemma clone_user_mappings_cow_spec live src dst s : clonable live src dst s ->
  match clone_user_mappings_cow src dst s with
  | Ret t => user_half_copied true src dst s t /\
      forall i, 256 <= i < 512 -> entry_at (pmem t) (physical_memory_offset + dst) i =
        entry_at (pmem s) (physical_memory_offset + src) i
  | Panic => ~ answers (user_tables s src) s
  | Loop => False
  end.
Proof.
  intros [Hr Hap Hsrc [Hc1 Hc2] Ht Hz]. unfold clone_user_mappings_cow. rewrite !table_ptr_ok by done.
  cbn [mbind outcome_bind]. pose proof (clone_user_loop live true _ _ s Hr Hap Hsrc Ht Hz) as Hl.
  destruct (for_each _ _ s) as [t| |]; [|done|done]. destruct Hl as [Hl Hk]. cbn [mbind outcome_bind].
  set (sp := physical_memory_offset + src) in *. set (dp := physical_memory_offset + dst) in *.
  assert (same_live live (pmem s) (pmem t)) as Hm by (by eapply table_same_live).
  destruct (copy_entries_spec sp dp 256 256 t) as (u & -> & Hau & Hcp & Hout);
    [by eapply apart_live|by eapply apart_page|intros Hbad; apply (apart_dst _ _ _ Hap); by rewrite <- Hbad|lia|lia|lia|].
  split; [|intros i Hi; rewrite Hcp by lia; apply (same_live_entry live); [done|done|lia]].
  apply table_copied_half. destruct Hl as (Hn & Hw & Hd). pose proof (spent_after _ _ _ Hn) as Ha.
  pose proof (spent_trans _ _ _ _ _ Hn Hau) as Hnu. rewrite Nat.add_0_r in Hnu. apply spent_after in Hau. pose proof (apart_page _ _ _ Hap) as Hdp.
  assert (forall p, granted s t p -> granted s u p) as Hg.
  { intros p Hp. eapply granted_trans; [apply Hr|exact Ha|exact Hau|by left]. }
  split; [done|]. split.
  - intros x Hx Hp. rewrite Hout; [apply Hw; [done|]; intros p Hp'; by apply Hp, Hg|].
    intros i Hi Hs. apply slot_in_page in Hs; [done|lia].
  - intros i Hi. apply (subtree_moved true 3 (pmem s) s t u _ (entry_at (pmem t) dp i)); [done|done|done| | |by apply Hd].
    + apply entry_at_ext. intros x Hx. apply Hout. intros j Hj. unfold in_slot in *. lia.
    + intros p x Hp Hx. apply Hout. intros j Hj Hs. apply slot_in_page in Hs; [|lia].
      apply (pages_disjoint p dp x); [exact (granted_page _ _ _ Hr Hp)|done| |done|done].
      destruct Hp as (f & Hf & _ & ->). by apply (apart_owned_dst _ _ _ Hap).
Qed.

(** ** Opening a range to user mode *)

(** Entries keep their address and change at most by the user bit. *)
Definition opened (m m' : mem) : Prop := forall p i, slot p i ->
  entry_addr (entry_at m' p i) = entry_addr (entry_at m p i) /\
  (entry_flags (entry_at m' p i) = entry_flags (entry_at m p i) \/
   entry_flags (entry_at m' p i) = Z.lor (entry_flags (entry_at m p i)) USER_ACCESSIBLE).

Definition user_bit (m : mem) (p i : Z) : Prop := Z.land (entry_flags (entry_at m p i)) USER_ACCESSIBLE = USER_ACCESSIBLE.

#[local] Instance opened_preorder : PreOrder opened.
Proof.
  split.
  - intros m p i _. auto.
  - intros m m' m'' H1' H2' p i Hs. destruct (H2' p i Hs) as [-> Hf'], (H1' p i Hs) as [-> Hf]. split; [done|].
    destruct Hf' as [->| ->]; [done|]. right. destruct Hf as [->| ->]; [done|]. by rewrite <- Z.lor_assoc.
Qed.

Lemma opened_frame m m' p i : opened m m' -> slot p i -> entry_frame (entry_at m' p i) = entry_frame (entry_at m p i).
Proof.
  intros Ho Hs. destruct (Ho p i Hs) as [Ha Hf]. rewrite !entry_frame_spec, Ha.
  destruct Hf as [->| ->]; [done|]. by rewrite !Z.land_lor_distr_l, !Z.lor_0_r.
Qed.

Lemma opened_user m m' p i : opened m m' -> slot p i -> user_bit m p i -> user_bit m' p i.
Proof.
  intros Ho Hs Hu. unfold user_bit in *. destruct (Ho p i Hs) as [_ [->| ->]]; [done|].
  by rewrite Z.land_lor_distr_l, Hu.
Qed.

Lemma open_entry_spec p i m : slot p i ->
  exists m', open_entry p i m = Ret m' /\ opened m m' /\ user_bit m' p i.
Proof.
  intros Hs. unfold open_entry. set (fl := Z.lor _ _).
  destruct (set_flags_ok (entry_at m p i) fl) as (e & -> & Heu & Hea & Hef);
    [apply flags_ok_lor; [apply entry_flags_ok|done]|].
  eexists; split; [done|]. split.
  - intros q j Hq. destruct (decide ((q, j) = (p, i))) as [[= -> ->]|Hne].
    + rewrite entry_at_put by done. split; [done|]. by right.
    + rewrite entry_at_put_ne by done. auto.
  - unfold user_bit. rewrite entry_at_put, Hef by done. unfold fl. rewrite Z.land_lor_distr_l.
    rewrite Z.land_diag. apply Z.bits_inj'. intros n Hn. rewrite Z.lor_spec, Z.land_spec.
    by destruct (Z.testbit USER_ACCESSIBLE n), (Z.testbit _ n).
Qed.

(** Every table on the path exists and is in the window. *)
Fixpoint tables_on (m : mem) (table : Z) (path : list Z) : Prop :=
  match path with
  | [] => True
  | i :: path => exists f, entry_frame (entry_at m table i) = Ok f /\
      canonical (physical_memory_offset + f) /\ tables_on m (physical_memory_offset + f) path
  end.

(** Every entry on the path has the user bit. *)
Fixpoint user_path (m : mem) (table : Z) (path : list Z) : Prop :=
  match path with
  | [] => True
  | i :: path => user_bit m table i /\ match path with
      | [] => True
      | _ => exists f, entry_frame (entry_at m table i) = Ok f /\ user_path m (physical_memory_offset + f) path
      end
  end.

Definition page_path (v : Z) : list Z := [p4_index v; p3_index v; p2_index v; p1_index v].

Lemma table_index_bound l v : 1 <= l <= 4 -> 0 <= table_index l v < 512.
Proof. intros Hl. rewrite table_index_spec by done. by apply Z.mod_pos_bound. Qed.

Lemma tables_on_opened m m' path : forall table, table mod 4096 = 0 -> Forall (fun i => 0 <= i < 512) path ->
  opened m m' -> tables_on m table path -> tables_on m' table path.
Proof.
  induction path as [|i path IH]; intros table Ht Hp Ho Hon; [done|]. inversion Hp; subst.
  destruct Hon as (f & Hf & Hc & Hon). exists f. rewrite (opened_frame m m') by (done || by split).
  split; [done|]. split; [done|]. apply IH; [|done..]. apply window_page. by apply entry_frame_ok in Hf as [? _].
Qed.

Lemma user_path_opened m m' path : forall table, table mod 4096 = 0 -> Forall (fun i => 0 <= i < 512) path ->
  opened m m' -> user_path m table path -> user_path m' table path.
Proof.
  induction path as [|i path IH]; intros table Ht Hp Ho Hon; [done|]. inversion Hp; subst.
  destruct Hon as [Hu Hon]. split; [apply (opened_user m m'); [done|by split|done]|]. destruct path as [|j path]; [done|].
  destruct Hon as (f & Hf & Hon). exists f. rewrite (opened_frame m m') by (done || by split).
  split; [done|]. apply IH; [|done..]. apply window_page. by apply entry_frame_ok in Hf as [? _].
Qed.

Lemma open_step table i path m : table mod 4096 = 0 -> 0 <= i < 512 -> Forall (fun i => 0 <= i < 512) path ->
  tables_on m table (i :: path) -> exists m' f, open_entry table i m = Ret m' /\ opened m m' /\ user_bit m' table i /\
    next_table m' table i = Ret (physical_memory_offset + f) /\ (physical_memory_offset + f) mod 4096 = 0 /\
    tables_on m' (physical_memory_offset + f) path /\ entry_frame (entry_at m' table i) = Ok f.
Proof.
  intros Ht Hi Hp (f & Hf & Hc & Hon). destruct (open_entry_spec table i m) as (m' & Hm & Ho & Hu); [done|].
  assert (entry_frame (entry_at m' table i) = Ok f) as Hf' by (by rewrite (opened_frame m m')).
  assert ((physical_memory_offset + f) mod 4096 = 0) as Hw by (apply window_page; by apply entry_frame_ok in Hf as [? _]).
  exists m', f. split; [done|]. split; [done|]. split; [done|]. split; [|split; [done|]; split; [|done]].
  - unfold next_table, frame_unwrap. rewrite Hf'. by apply table_ptr_ok.
  - by apply (tables_on_opened m m').
Qed.

Lemma open_page_spec pml4 m v : pml4 mod 4096 = 0 -> canonical v ->
  tables_on m pml4 [p4_index v; p3_index v; p2_index v] ->
  exists m', open_page pml4 m v = Ret m' /\ opened m m' /\ user_path m' pml4 (page_path v).
Proof.
  intros Hp4 Hv Hon. unfold open_page, page_path. rewrite virt_addr_new_ok by done. cbn [mbind outcome_bind].
  assert (forall l, 1 <= l <= 4 -> 0 <= table_index l v < 512) as Hi by (intros l; apply table_index_bound).
  destruct (open_step pml4 (p4_index v) [p3_index v; p2_index v] m)
    as (m4 & f3 & -> & Ho4 & Hu4 & Hn4 & Hp3 & Hon3 & Hf4); [done|by apply Hi| |done|].
  { repeat constructor; apply Hi; lia. }
  cbn [mbind outcome_bind]. rewrite Hn4. cbn [mbind outcome_bind].
  destruct (open_step (physical_memory_offset + f3) (p3_index v) [p2_index v] m4)
    as (m3 & f2 & -> & Ho3 & Hu3 & Hn3 & Hp2 & Hon2 & Hf3); [done|by apply Hi| |done|].
  { repeat constructor; apply Hi; lia. }
  cbn [mbind outcome_bind]. rewrite Hn3. cbn [mbind outcome_bind].
  destruct (open_step (physical_memory_offset + f2) (p2_index v) [] m3)
    as (m2 & f1 & -> & Ho2 & Hu2 & Hn2 & Hp1 & _ & Hf2); [done|by apply Hi|constructor|done|].
  cbn [mbind outcome_bind]. rewrite Hn2. cbn [mbind outcome_bind].
  destruct (open_entry_spec (physical_memory_offset + f1) (p1_index v) m2) as (m1 & -> & Ho1 & Hu1);
    [split; [done|by apply Hi]|].
  exists m1. split; [done|]. assert (opened m2 m1 /\ opened m3 m1 /\ opened m4 m1) as (H21 & H31 & H41).
  { split; [done|]. split; [by etransitivity|]. etransitivity; [done|]. by etransitivity. }
  split; [by etransitivity|].
  assert (forall q l, q mod 4096 = 0 -> 1 <= l <= 4 -> slot q (table_index l v)) as Hsl by (intros; split; auto).
  split; [by apply (opened_user m4 m1); [|apply Hsl|]|]. exists f3. rewrite (opened_frame m4 m1) by auto with lia.
  split; [done|]. split; [by apply (opened_user m3 m1); [|apply Hsl|]|]. exists f2.
  rewrite (opened_frame m3 m1) by auto with lia. split; [done|].
  split; [by apply (opened_user m2 m1); [|apply Hsl|]|]. exists f1. rewrite (opened_frame m2 m1) by auto with lia.
  by split.
Qed.

(** The start addresses of the pages of a range. *)
Definition range_page (start size v : Z) : Prop := exists k, 0 <= k /\ v = start + 4096 * k /\ v < start + size.

Lemma elem_of_step_by start size v : 0 <= size -> v ∈ step_by start (start + size) <-> range_page start size v.
Proof.
  intros Hs. unfold step_by. rewrite list_elem_of_fmap. unfold range_page. replace (start + size - start) with size by lia.
  pose proof (div_ceil_spec size 4096 ltac:(lia)). split.
  - intros (k & -> & Hk). apply elem_of_seqZ in Hk. exists k. lia.
  - intros (k & Hk & -> & Hlt). exists k. split; [done|]. apply elem_of_seqZ. lia.
Qed.

(** When every page of the range has its tables, afterwards every entry on
    the way to every page of the range has the user bit, no entry has changed
    in any other way, and write protection is on again. *)
Lemma set_user_accessible_spec cr3 start size s wp : frame_ok cr3 -> canonical (physical_memory_offset + cr3) ->
  0 <= size -> start + size < 2 ^ 64 ->
  (forall v, range_page start size v -> canonical v /\
     tables_on (pmem s) (physical_memory_offset + cr3) [p4_index v; p3_index v; p2_index v]) ->
  exists s', set_user_accessible cr3 start size (s, wp) = Ret (s', true) /\ opened (pmem s) (pmem s') /\
    forall v, range_page start size v -> user_path (pmem s') (physical_memory_offset + cr3) (page_path v).
Proof.
  intros Hcr Hc Hsz Hend Hon. unfold set_user_accessible. cbn [fst snd]. rewrite table_ptr_ok by done.
  cbn [mbind outcome_bind]. rewrite (add_u_Ret 64 start size) by done. cbn [mbind outcome_bind].
  pose proof (window_page cr3 Hcr) as Hp.
  setoid_rewrite <- (elem_of_step_by start size) in Hon; [|done]. setoid_rewrite <- (elem_of_step_by start size); [|done].
  revert Hon. generalize (step_by start (start + size)) as l. intros l Hon.
  enough (exists m', for_each (open_page (physical_memory_offset + cr3)) l (pmem s) = Ret m' /\ opened (pmem s) m' /\
    forall v, v ∈ l -> user_path m' (physical_memory_offset + cr3) (page_path v)) as (m' & -> & Ho & Hu).
  { eexists; split; [done|]. cbn [fst]. by rewrite pmem_set. }
  generalize dependent (pmem s). induction l as [|v l IH]; intros m Hon.
  { exists m. split; [done|]. split; [done|]. intros v Hv. by apply elem_of_nil in Hv. }
  cbn [for_each]. destruct (open_page_spec (physical_memory_offset + cr3) m v) as (m1 & -> & Ho1 & Hu1);
    [done|apply Hon; left|apply Hon; left|]. cbn [mbind outcome_bind].
  assert (forall v l, 1 <= l <= 4 -> 0 <= table_index l v < 512) as Hi by (intros; by apply table_index_bound).
  destruct (IH m1) as (m' & -> & Ho & Hu).
  { intros w Hw. destruct (Hon w) as [Hcw Htw]; [by right|]. split; [done|]. apply (tables_on_opened m m1); try done.
    repeat constructor; apply Hi; lia. }
  exists m'. split; [done|]. split; [by etransitivity|]. intros w [->|Hw]%elem_of_cons; [|by apply Hu].
  apply (user_path_opened m1 m'); try done. repeat constructor; apply Hi; lia.
Qed.

(** A huge page or a non-zero entry that is not present cannot be cloned: the
    assertion of [set_frame] or the [unwrap] of [frame] fails. *)
Lemma clone_bad_entry_panics cow l src dst s err :
  ready s -> entry_frame (entry_at (pmem s) src.1 src.2) = Err err ->
  slot src.1 src.2 -> slot dst.1 dst.2 -> src <> dst ->
  clone_table_level (Datatypes.S l) cow src dst s = Panic.
Proof.
  intros Hr Herr Hs Hd Hne. cbn [clone_table_level].
  destruct (allocate_frame_cases s (proj1 Hr)) as (r & s1 & -> & _ & _ & Hm1 & _ & Hres).
  cbn [mbind outcome_bind fst snd]. destruct r as [nf|]; [|done]. cbn [unwrap mbind outcome_bind].
  destruct (proj2 Hr nf (proj1 Hres)) as [Hnf _]. rewrite Hm1.
  destruct (decide (Z.land (entry_flags (entry_at (pmem s) src.1 src.2)) HUGE_PAGE = 0)) as [Hh|Hh];
    [|by rewrite set_frame_huge].
  destruct (set_frame_ok nf (entry_flags (entry_at (pmem s) src.1 src.2))) as (e & -> & _); [done|apply entry_flags_ok|done|].
  cbn [mbind outcome_bind]. unfold upd. rewrite pmem_set, Hm1.
  rewrite (entry_at_put_ne _ src.1 src.2 dst.1 dst.2) by (done || by destruct src, dst).
  unfold frame_unwrap. by rewrite Herr.
Qed.
End Paging.

(** ** Instances *)

(** An allocator that hands out a list of frames. *)
#[global] Instance pool_source : FrameSource (list Z).
Proof.
  refine {| allocate_frame l := match l with [] => Ret (None, []) | f :: l => Ret (Some f, l) end;
            source_ok l := NoDup l /\ Forall (fun f => f mod PAGE_SIZE = 0) l;
            owned l f := f ∈ l |}.
  intros [|f l] [Hnd Hal].
  - exists None, []. split; [done|]. split; [done|]. split; [done|]. intros f Hf. by apply elem_of_nil in Hf.
  - apply NoDup_cons in Hnd as [Hf Hnd]. inversion Hal; subst. exists (Some f), l. split; [done|]. split; [done|].
    split; [by right|]. split; [left|done].
Defined.

(** A frame allocator beside physical memory. *)
#[global] Instance plain_machine {A} `{FrameSource A} : Machine (A * mem).
Proof.
  unshelve refine {| machine_frames := _; pmem := snd; set_pmem m s := (s.1, m) |}.
  - refine {| allocate_frame s := r ← allocate_frame s.1; Ret (r.1, (r.2, s.2));
              source_ok s := source_ok s.1; owned s := owned s.1 |}.
    intros [a m] Ha. destruct (allocate_frame_spec a Ha) as (r & a' & Hr & Hrest).
    exists r, (a', m). split; [|exact Hrest]. cbn [fst snd]. by rewrite Hr.
  - done.
  - done.
  - by intros [].
  - done.
  - done.
  - intros [a m] r s' Hr. cbn in Hr. destruct (allocate_frame a) as [[]| |]; cbn in Hr; [|done|done].
    by injection Hr as <- <-.
  - intros m [a m'] r s' Hr. cbn in *. destruct (allocate_frame a) as [[]| |]; cbn in *; [|done|done].
    by injection Hr as <- <-.
Defined.

(** ** Property *)

(** C11: cloning the user half of an address space, with or without
    copy-on-write, returns whenever the allocator can hand out one frame for
    each table of the source's user half, and then every page index of the
    user half has in the destination exactly the source's leaf entry (with
    copy-on-write: the same frame, not writable, marked with bit 9; unmapped
    where the source is unmapped), the destination's kernel half is what it
    was, and no byte outside the destination's top-level table and the newly
    granted frames has changed: the source's own tables, its writable bits
    included, are untouched. *)
Theorem clone_user_mappings_copies {S} `{Machine S} `{VirtAddrs} `{PageEntries} off live cow src dst (s : S) :
  off mod 4096 = 0 -> canonical off -> clonable off live src dst s -> answers (user_tables off s src) s ->
  exists t, clone_user_mappings off src dst cow s = Ret t /\
    (forall i path, 0 <= i < 256 -> path_ok 3 path ->
       option_Forall2 (copied cow) (page_entry off (pmem s) src (i :: path)) (page_entry off (pmem t) dst (i :: path))) /\
    (forall i, 256 <= i < 512 -> entry_at (pmem t) (off + dst) i = entry_at (pmem s) (off + dst) i) /\
    (forall x, ~ in_page (off + dst) x -> (forall p, granted off s t p -> ~ in_page p x) -> pmem t x = pmem s x).
Proof.
  intros Ho Hc Hcl Hans. pose proof (clone_user_mappings_spec off (conj Ho Hc) live cow src dst s Hcl) as Hs.
  destruct (clone_user_mappings _ _ _ _ s) as [t| |]; [|done|done].
  destruct Hs as [(_ & Hp & Hx) Hk]. exists t. done.
Qed.

(** A process with one writable user page, at indices 0, 0, 0 and 5. *)
Definition demo_offset : Z := 2 ^ 64 - 2 ^ 47.
Definition zero_mem : mem := fun _ => x00.
Definition demo_put (m : mem) (x : Z * Z * Z) : mem := put_entry m (demo_offset + x.1.1) x.1.2 x.2.
Definition demo_tables : list (Z * Z * Z) :=
  [(0x1000, 0, 0x2007); (0x2000, 0, 0x3007); (0x3000, 0, 0x4007); (0x4000, 5, 0x200007)].
Definition demo_machine : list Z * mem := ([0x6000; 0x7000; 0x8000; 0x9000], foldl demo_put zero_mem demo_tables).

Lemma entry_at_zero_mem p i : entry_at zero_mem p i = 0.
Proof. done. Qed.

Lemma demo_entry (f i : Z) : f mod 4096 = 0 -> 0 <= i < 512 ->
  entry_at demo_machine.2 (demo_offset + f) i =
    if (f =? 0x4000) && (i =? 5) then 0x200007 else if (f =? 0x3000) && (i =? 0) then 0x4007 else
    if (f =? 0x2000) && (i =? 0) then 0x3007 else if (f =? 0x1000) && (i =? 0) then 0x2007 else 0.
Proof.
  intros Hf Hi. unfold demo_machine. cbn [foldl demo_tables snd].
  assert ((demo_offset + f) mod 4096 = 0) as Hal.
  { rewrite Z.add_mod, Hf by lia. done. }
  assert (forall m g j e, g mod 4096 = 0 -> 0 <= j < 512 -> in_u64 e ->
    entry_at (demo_put m (g, j, e)) (demo_offset + f) i =
      if (f =? g) && (i =? j) then e else entry_at m (demo_offset + f) i) as Hput.
  { intros m g j e Hg Hj He. unfold demo_put. cbn [fst snd]. destruct ((f =? g) && (i =? j)) eqn:E.
    - apply andb_prop in E as [->%Z.eqb_eq ->%Z.eqb_eq]. by apply entry_at_put.
    - apply entry_at_put_ne; [by split|split; [rewrite Z.add_mod, Hg by lia; done|done]|].
      intros [= ? ->]. replace g with f in E by lia. by rewrite !Z.eqb_refl in E. }
  rewrite !Hput by (done || lia). by rewrite entry_at_zero_mem.
Qed.

Definition demo_live (p : Z) : Prop :=
  p ∈ [demo_offset + 0x1000; demo_offset + 0x2000; demo_offset + 0x3000; demo_offset + 0x4000].

(** One level of the demo tree: entry 0 leads on, the others are unused. *)
Lemma demo_level l f g : f mod 4096 = 0 -> demo_live (demo_offset + g) -> g mod 4096 = 0 -> 0 <= g < 2 ^ 40 ->
  entry_at demo_machine.2 (demo_offset + f) 0 = Z.lor g 7 -> entry_frame (Z.lor g 7) = Ok g ->
  (forall i, 0 <= i < 512 -> let e := entry_at demo_machine.2 (demo_offset + g) i in
     e = 0 \/ tree demo_offset demo_live demo_machine.2 l e) ->
  tree demo_offset demo_live demo_machine.2 (Datatypes.S l) (entry_at demo_machine.2 (demo_offset + f) 0).
Proof.
  intros Hf Hg Hga Hgb -> He Hsub. exists g. split; [done|]. split; [done|]. split; [|done].
  unfold canonical, demo_offset. lia.
Qed.

Lemma demo_clonable : clonable demo_offset demo_live 0x1000 0x5000 demo_machine.
Proof.
  assert (forall p, demo_live p -> exists f, p = demo_offset + f /\ f mod 4096 = 0 /\ 0x1000 <= f <= 0x4000) as Hlive.
  { intros p Hp. unfold demo_live in Hp. repeat apply elem_of_cons in Hp as [->|Hp]; [..|by apply elem_of_nil in Hp].
    all: eexists; split; [reflexivity|split; [reflexivity|lia]]. }
  assert (forall f, owned demo_machine f -> f mod 4096 = 0 /\ 0x6000 <= f <= 0x9000) as Hown.
  { intros f Hf. change (f ∈ [0x6000; 0x7000; 0x8000; 0x9000]) in Hf.
    repeat apply elem_of_cons in Hf as [->|Hf]; [..|by apply elem_of_nil in Hf]; split; (reflexivity || lia). }
  assert (forall f i, f mod 4096 = 0 -> 0 <= i < 512 -> f <> 0x4000 -> i <> 0 ->
    entry_at demo_machine.2 (demo_offset + f) i = 0) as Hzero.
  { intros f i Hf Hi Hne Hi0. rewrite demo_entry by done. by repeat (case_if; [lia|]). }
  split.
  - split; [|intros f Hf; destruct (Hown f Hf) as [Hm Hb]; split; [split; [done|lia]|unfold canonical, demo_offset; lia]].
    split; [by apply (bool_decide_unpack _)|by repeat constructor].
  - split; [done| | | |].
    + intros Hl. destruct (Hlive _ Hl) as (f & Hf & _ & Hb). lia.
    + intros p Hp. destruct (Hlive p Hp) as (f & -> & Hf & _). rewrite Z.add_mod, Hf by lia. done.
    + intros f Hf Hl. destruct (Hlive _ Hl) as (g & Hg & _ & Hb). destruct (Hown f Hf). lia.
    + intros f Hf. destruct (Hown f Hf). lia.
  - unfold demo_live. set_solver.
  - unfold canonical, demo_offset. lia.
  - intros i Hi. cbn zeta. change (pmem demo_machine) with demo_machine.2. destruct (decide (i = 0)) as [->|Hi0]; [right|left; apply Hzero; lia || done].
    apply (demo_level 2 0x1000 0x2000); [done|unfold demo_live; set_solver|done|lia|by rewrite demo_entry|done|].
    intros j Hj. destruct (decide (j = 0)) as [->|Hj0]; [right|left; by apply Hzero].
    apply (demo_level 1 0x2000 0x3000); [done|unfold demo_live; set_solver|done|lia|by rewrite demo_entry|done|].
    intros k Hk. destruct (decide (k = 0)) as [->|Hk0]; [right|left; by apply Hzero].
    apply (demo_level 0 0x3000 0x4000); [done|unfold demo_live; set_solver|done|lia|by rewrite demo_entry|done|].
    intros n Hn. by right.
  - intros i Hi. change (pmem demo_machine) with demo_machine.2. rewrite demo_entry by (done || lia). by repeat (case_if; [lia|]).
Qed.

(** Three tables are copied. *)
Lemma demo_supply : answers (user_tables demo_offset demo_machine 0x1000) demo_machine.
Proof.
  assert (user_tables demo_offset demo_machine 0x1000 = 3%nat) as -> by (by vm_compute).
  do 3 (do 2 eexists; split; [reflexivity|]). done.
Qed.

(** The page is mapped to the same frame in the clone, read-only and marked. *)
Lemma clone_user_mappings_copies_witness :
  exists t, clone_user_mappings demo_offset 0x1000 0x5000 true demo_machine = Ret t /\
    exists e, page_entry demo_offset (pmem t) 0x5000 [0; 0; 0; 5] = Some e /\
      entry_addr e = 0x200000 /\ entry_flags e = 0x205.
Proof.
  destruct (clone_user_mappings_copies demo_offset demo_live true 0x1000 0x5000 demo_machine
    eq_refl ltac:(unfold canonical, demo_offset; lia) demo_clonable demo_supply) as (t & Ht & Hc & _).
  exists t. split; [exact Ht|]. specialize (Hc 0 [0; 0; 5] ltac:(lia) ltac:(split; [repeat constructor; lia|reflexivity])).
  assert (page_entry demo_offset (pmem demo_machine) 0x1000 [0; 0; 0; 5] = Some 0x200007) as Hp by (by vm_compute).
  rewrite Hp in Hc. inversion Hc as [e e' He|]; subst. exists e'. split; [done|]. exact He.
Defined.
