(* ===== verification/Sched.v ===== *)
(** * The scheduler ([kernel/src/task/scheduler.rs], [task/mod.rs],
    [gdt.rs])

    A queue of ready tasks and the current one, switched by the timer and by
    yields; switching updates the interrupt stack and the page-table root. *)

From S2P Require Import Prelude X86.

Inductive TaskState := Ready | Running | Blocked | Zombie.

#[global] Instance TaskState_eq_dec : EqDecision TaskState.
Proof. solve_decision. Defined.

(** A process handle; the fields behind the lock that never change. *)
Record Process := mkProcess { proc_id : Z; pml4_frame : Z; entry_point : Z; stack_top : Z }.

#[global] Instance Process_eq_dec : EqDecision Process.
Proof. solve_decision. Defined.

Record Task := mkTask {
  task_id : Z;
  stack_ptr : Z;
  kernel_stack_top : Z;
  process : Process;
  state : TaskState }.

#[global] Instance Task_eq_dec : EqDecision Task.
Proof. solve_decision. Defined.

Definition set_state (t : Task) (s : TaskState) : Task :=
  mkTask (task_id t) (stack_ptr t) (kernel_stack_top t) (process t) s.
Definition set_stack_ptr (t : Task) (sp : Z) : Task :=
  mkTask (task_id t) sp (kernel_stack_top t) (process t) (state t).

(** The hardware state a switch changes: the ring-0 stack of the TSS, its
    copy in [PER_CPU], and CR3. *)
Record Hw := mkHw { tss_rsp0 : Z; percpu_stack : Z; cr3 : Z }.

Definition set_interrupt_stack (h : Hw) (stack_top : Z) : Hw := mkHw stack_top stack_top (cr3 h).

Definition switch_to `{VirtAddrs} (t : Task) (h : Hw) : outcome Hw :=
  a ← virt_addr_new (kernel_stack_top t);
  let h := set_interrupt_stack h a in
  Ret (if cr3 h =? pml4_frame (process t) then h
       else mkHw (tss_rsp0 h) (percpu_stack h) (pml4_frame (process t))).

Record Scheduler := mkScheduler {
  tasks : list Task;
  current_task : option Task;
  task_count : Z;
  current_task_id : option Z }.

Definition Scheduler_new : Scheduler := mkScheduler [] None 0 None.

(** The scheduler behind its lock, [UPTIME_TICKS], and the hardware. *)
Record Sys := mkSys { sched : Scheduler; uptime : Z; hw : Hw }.

Definition add_task (t : Task) (s : Sys) : outcome Sys :=
  let q := sched s in
  n ← add_u 64 (task_count q) 1;
  Ret (mkSys (mkScheduler (tasks q ++ [t]) (current_task q) n (current_task_id q)) (uptime s) (hw s)).

(** The context to resume first. *)
Definition start_scheduling `{VirtAddrs} (s : Sys) : outcome (Z * Sys) :=
  let q := sched s in
  match tasks q with
  | next_task :: rest =>
      h ← switch_to next_task (hw s);
      let t := set_state next_task Running in
      let s' := mkSys (mkScheduler rest (Some t) (task_count q) (Some (task_id t))) (uptime s) h in
      if stack_ptr t =? 0 then Panic else Ret (stack_ptr t, s')
  | [] => Panic
  end.

(** [locked]: the scheduler lock is held by interrupted code. *)
Definition timer_tick `{VirtAddrs} (locked : bool) (current_stack_ptr : Z) (s : Sys)
    : outcome (Z * Sys) :=
  let s := mkSys (sched s) (wrap 64 (uptime s + 1)) (hw s) in
  let q := sched s in
  if locked then Ret (current_stack_ptr, s) else
  match current_task q with
  | None => Ret (current_stack_ptr, s)
  | Some prev_task =>
      let prev_task := set_stack_ptr prev_task current_stack_ptr in
      let was_running := bool_decide (state prev_task = Running) in
      let is_zombie := bool_decide (state prev_task = Zombie) in
      match tasks q with
      | next_task :: rest =>
          let queue := if was_running then rest ++ [set_state prev_task Ready] else rest in
          h ← switch_to next_task (hw s);
          let t := set_state next_task Running in
          Ret (stack_ptr t,
               mkSys (mkScheduler queue (Some t) (task_count q) (Some (task_id t))) (uptime s) h)
      | [] =>
          if is_zombie then Loop else
          Ret (current_stack_ptr,
               mkSys (mkScheduler [] (Some prev_task) (task_count q) (Some (task_id prev_task)))
                 (uptime s) (hw s))
      end
  end.

(** Mark the current task, then yield with the context saved at [sp]. *)
Definition exit_current_task `{VirtAddrs} (sp : Z) (s : Sys) : outcome (Z * Sys) :=
  let q := sched s in
  let s' := match current_task q with
            | Some t => mkSys (mkScheduler (tasks q) (Some (set_state t Zombie)) (task_count q)
                                 (current_task_id q)) (uptime s) (hw s)
            | None => s
            end in
  timer_tick false sp s'.

Definition get_uptime_ticks (s : Sys) : Z := uptime s.
Definition get_task_count (s : Sys) : Z := task_count (sched s).
Definition get_current_task_id (s : Sys) : option Z := current_task_id (sched s).
Definition get_current_kernel_stack_top (s : Sys) : Z :=
  match current_task (sched s) with Some t => kernel_stack_top t | None => 0 end.

(** ** Invariant *)

(** All tasks the scheduler knows, the current one first. *)
Definition ring (s : Sys) : list Task :=
  match current_task (sched s) with Some t => t :: tasks (sched s) | None => tasks (sched s) end.

Definition hw_of (t : Task) : Hw :=
  mkHw (kernel_stack_top t) (kernel_stack_top t) (pml4_frame (process t)).

Record wf (s : Sys) : Prop := {
  wf_ids : NoDup (map task_id (ring s));
  wf_queue : Forall (fun t => state t = Ready) (tasks (sched s));
  wf_stacks : Forall (fun t => canonical (kernel_stack_top t)) (ring s);
  wf_current : match current_task (sched s) with
               | Some t => state t = Running /\ current_task_id (sched s) = Some (task_id t) /\ hw s = hw_of t
               | None => current_task_id (sched s) = None
               end }.

Definition initial (h : Hw) : Sys := mkSys Scheduler_new 0 h.

(** What can happen to the scheduler: new tasks with fresh identifiers, the
    first switch, a timer interrupt or yield (with the lock free or held by
    the interrupted code), the end of the current task. *)
Inductive sched_step `{VirtAddrs} (s : Sys) : Sys -> Prop :=
| step_add t s' :
    task_id t ∉ map task_id (ring s) -> state t = Ready -> canonical (kernel_stack_top t) ->
    add_task t s = Ret s' -> sched_step s s'
| step_start p s' :
    current_task (sched s) = None -> start_scheduling s = Ret (p, s') -> sched_step s s'
| step_tick locked sp p s' : timer_tick locked sp s = Ret (p, s') -> sched_step s s'
| step_exit sp p s' : exit_current_task sp s = Ret (p, s') -> sched_step s s'.

Section Proofs.
Context `{VirtAddrs}.

Lemma switch_to_hw t h : canonical (kernel_stack_top t) -> switch_to t h = Ret (hw_of t).
Proof.
  intros Hc. unfold switch_to. rewrite virt_addr_new_ok by done. cbn [mbind outcome_bind].
  unfold set_interrupt_stack, hw_of. cbn [cr3 tss_rsp0 percpu_stack].
  case_if; [|done]. f_equal. f_equal. by apply Z.eqb_eq.
Qed.

Definition save (t : Task) (sp : Z) : Task := set_state (set_stack_ptr t sp) Ready.
Definition resume (t : Task) : Task := set_state t Running.

(** A state in terms of its ring. *)
Definition at_ring (s : Sys) (c : Task) (l : list Task) : Prop :=
  current_task (sched s) = Some c /\ tasks (sched s) = l /\ wf s.

Lemma canonical_in s t : wf s -> t ∈ ring s -> canonical (kernel_stack_top t).
Proof. intros Hwf. pose proof (wf_stacks _ Hwf) as Hs. rewrite Forall_forall in Hs. apply Hs. Qed.

(** The state after switching from [c] to [n], with queue [l']. *)
Lemma switch_wf s c n rest l' up cnt :
  at_ring s c (n :: rest) ->
  (l' = rest \/ exists sp, l' = rest ++ [save c sp]) ->
  wf (mkSys (mkScheduler l' (Some (resume n)) cnt (Some (task_id n))) up (hw_of n)).
Proof.
  intros (Hc & Hl & Hwf) Hl'. pose proof (wf_ids _ Hwf) as Hids. pose proof (wf_queue _ Hwf) as Hq.
  pose proof (wf_stacks _ Hwf) as Hs. unfold ring in *. rewrite Hc, Hl in *.
  cbn [map] in Hids. apply NoDup_cons in Hids as [Hcn Hids].
  apply Forall_cons in Hq as [_ Hq]. apply Forall_cons in Hs as [Hcc Hs]. apply Forall_cons in Hs as [Hnc Hs].
  split; cbn [sched tasks current_task current_task_id hw ring].
  - destruct Hl' as [->|[sp ->]]; [exact Hids|].
    change (NoDup (task_id n :: map task_id (rest ++ [save c sp]))). rewrite map_app. cbn [map].
    change (task_id (save c sp)) with (task_id c).
    assert (Permutation (task_id n :: map task_id rest ++ [task_id c])
              (task_id c :: task_id n :: map task_id rest)) as ->
      by (rewrite <- Permutation_cons_append; apply perm_swap).
    by apply NoDup_cons.
  - destruct Hl' as [->|[sp ->]]; [done|]. apply Forall_app. split; [done|]. by apply Forall_singleton.
  - destruct Hl' as [->|[sp ->]]; apply Forall_cons; (split; [done|]); [done|].
    apply Forall_app. split; [done|]. by apply Forall_singleton.
  - done.
Qed.

(** A tick with work in the queue rotates it. *)
Lemma tick_rotates s c n rest sp :
  at_ring s c (n :: rest) ->
  exists s', timer_tick false sp s = Ret (stack_ptr n, s') /\ at_ring s' (resume n) (rest ++ [save c sp]).
Proof.
  intros Hr. pose proof Hr as (Hc & Hl & Hwf). pose proof (wf_current _ Hwf) as Hcur. rewrite Hc in Hcur.
  destruct Hcur as (Hst & _). unfold timer_tick. cbn [sched]. rewrite Hc, Hl.
  rewrite switch_to_hw by (apply (canonical_in s); [done|]; unfold ring; rewrite Hc, Hl; by right; left).
  cbn [mbind outcome_bind]. eexists. split; [done|]. split; [done|].
  rewrite bool_decide_eq_true_2 by done. split; [done|].
  apply (switch_wf s c n rest); [done|]. right. by exists sp.
Qed.

(** With an empty queue the current task keeps running. *)
Lemma tick_alone s c sp :
  at_ring s c [] ->
  exists s', timer_tick false sp s = Ret (sp, s') /\ at_ring s' (set_stack_ptr c sp) [].
Proof.
  intros (Hc & Hl & Hwf). pose proof (wf_current _ Hwf) as Hcur. rewrite Hc in Hcur.
  destruct Hcur as (Hst & Hid & Hhw). unfold timer_tick. cbn [sched]. rewrite Hc, Hl.
  rewrite bool_decide_eq_false_2 by (cbn [state set_stack_ptr]; congruence).
  eexists. split; [done|]. split; [done|]. split; [done|].
  pose proof (wf_ids _ Hwf) as Hids. pose proof (wf_stacks _ Hwf) as Hs. unfold ring in *. rewrite Hc, Hl in *.
  split; [exact Hids|by apply Forall_nil| |by split_and!].
  apply Forall_cons in Hs as [Hs _]. constructor; [exact Hs|constructor].
Qed.

(** Ending the current task switches to the next one without queueing it. *)
Lemma exit_drops s c n rest sp :
  at_ring s c (n :: rest) ->
  exists s', exit_current_task sp s = Ret (stack_ptr n, s') /\ at_ring s' (resume n) rest.
Proof.
  intros Hr. pose proof Hr as (Hc & Hl & Hwf). unfold exit_current_task, timer_tick. cbn [sched].
  rewrite Hc, Hl. cbn [sched current_task tasks].
  rewrite switch_to_hw by (apply (canonical_in s); [done|]; unfold ring; rewrite Hc, Hl; by right; left).
  cbn [mbind outcome_bind]. eexists. split; [done|]. split; [done|]. split; [done|].
  apply (switch_wf s c n rest); [done|]. by left.
Qed.

Lemma exit_last s c sp : at_ring s c [] -> exit_current_task sp s = Loop.
Proof. intros (Hc & Hl & _). unfold exit_current_task, timer_tick. cbn [sched]. rewrite Hc, Hl. done. Qed.

(** *** Every step keeps the invariant *)

Lemma wf_uptime s u : wf s -> wf (mkSys (sched s) u (hw s)).
Proof. intros [? ? ? ?]. by split. Qed.

Lemma tick_cases locked sp s :
  wf s ->
  exists p s', timer_tick locked sp s = Ret (p, s') /\ wf s' /\
    map task_id (ring s') ≡ₚ map task_id (ring s).
Proof.
  intros Hwf. destruct locked.
  { do 2 eexists. split; [done|]. split; [by apply wf_uptime|done]. }
  destruct (current_task (sched s)) as [c|] eqn:Hc.
  2: { unfold timer_tick. cbn [sched]. rewrite Hc. do 2 eexists. split; [done|].
       split; [by apply wf_uptime|done]. }
  destruct (tasks (sched s)) as [|n rest] eqn:Hl.
  - destruct (tick_alone s c sp) as (s' & -> & Hc' & Hl' & Hwf'); [done|].
    do 2 eexists. split; [done|]. split; [done|]. unfold ring. by rewrite Hc, Hl, Hc', Hl'.
  - destruct (tick_rotates s c n rest sp) as (s' & -> & Hc' & Hl' & Hwf'); [done|].
    do 2 eexists. split; [done|]. split; [done|]. unfold ring. rewrite Hc, Hl, Hc', Hl'.
    cbn [map]. rewrite map_app. cbn [map]. change (task_id (save c sp)) with (task_id c).
    rewrite <- Permutation_cons_append. apply perm_swap.
Qed.

Lemma exit_cases sp s :
  wf s ->
  match current_task (sched s), tasks (sched s) with
  | Some _, [] => exit_current_task sp s = Loop
  | Some c, n :: rest => exists s', exit_current_task sp s = Ret (stack_ptr n, s') /\ wf s' /\
      map task_id (ring s') = map task_id (tasks (sched s))
  | None, _ => exists s', exit_current_task sp s = Ret (sp, s') /\ wf s' /\ ring s' = ring s
  end.
Proof.
  intros Hwf. destruct (current_task (sched s)) as [c|] eqn:Hc.
  - destruct (tasks (sched s)) as [|n rest] eqn:Hl; [by apply (exit_last s c)|].
    destruct (exit_drops s c n rest sp) as (s' & -> & Hc' & Hl' & Hwf'); [done|].
    eexists. split; [done|]. split; [done|]. unfold ring. by rewrite Hc', Hl'.
  - unfold exit_current_task, timer_tick. rewrite Hc. cbn [sched]. rewrite Hc.
    eexists. split; [done|]. split; [by apply wf_uptime|done].
Qed.

Lemma start_cases s p s' :
  wf s -> current_task (sched s) = None -> start_scheduling s = Ret (p, s') ->
  wf s' /\ map task_id (ring s') = map task_id (ring s).
Proof.
  intros Hwf Hc Hs. unfold start_scheduling in Hs.
  pose proof (wf_ids _ Hwf) as Hids. pose proof (wf_queue _ Hwf) as Hq. pose proof (wf_stacks _ Hwf) as Hst.
  unfold ring in *. rewrite Hc in *. destruct (tasks (sched s)) as [|n rest]; [done|].
  apply Forall_cons in Hq as [_ Hq]. apply Forall_cons in Hst as [Hn Hst].
  rewrite switch_to_hw in Hs by done. cbn [mbind outcome_bind] in Hs. case_if; [done|].
  injection Hs as <- <-. split; [|done].
  split; cbn [sched tasks current_task current_task_id hw ring]; [exact Hids|done|by apply Forall_cons|done].
Qed.

Lemma add_task_wf t s s' :
  wf s -> task_id t ∉ map task_id (ring s) -> state t = Ready -> canonical (kernel_stack_top t) ->
  add_task t s = Ret s' -> wf s'.
Proof.
  intros Hwf Ht Hr Hcan Ha. unfold add_task in Ha. inv_out.
  destruct Hwf as [Hids Hq Hst Hcur].
  assert (forall u h n, ring (mkSys (mkScheduler (tasks (sched s) ++ [t]) (current_task (sched s)) n
    (current_task_id (sched s))) u h) = ring s ++ [t]) as Hring.
  { intros. unfold ring. cbn. by destruct (current_task (sched s)). }
  split; rewrite ?Hring; cbn [sched tasks current_task current_task_id hw].
  - rewrite map_app. apply NoDup_app. split_and!; [done| |by apply NoDup_singleton].
    intros x Hx ->%list_elem_of_singleton. done.
  - apply Forall_app. split; [done|by apply Forall_singleton].
  - apply Forall_app. split; [done|by apply Forall_singleton].
  - done.
Qed.

Lemma sched_step_wf s s' : wf s -> sched_step s s' -> wf s'.
Proof.
  intros Hwf Hs. destruct Hs as [t s' Ht Hr Hcan Ha|p s' Hc Hs|locked sp p s' Ht|sp p s' He].
  - by eapply add_task_wf.
  - by eapply start_cases.
  - destruct (tick_cases locked sp s Hwf) as (p' & s2 & Heq & Hwf' & _). rewrite Ht in Heq. by simplify_eq.
  - pose proof (exit_cases sp s Hwf) as Hx.
    destruct (current_task (sched s)); [destruct (tasks (sched s)); [by rewrite Hx in He|]|];
      destruct Hx as (s2 & Heq & Hwf' & _); rewrite He in Heq; by simplify_eq.
Qed.

(** *** Rounds *)

(** One tick per saved pointer; the pointers resumed. *)
Fixpoint run_ticks (sps : list Z) (s : Sys) : outcome (list Z * Sys) :=
  match sps with
  | [] => Ret ([], s)
  | sp :: sps' =>
      r ← timer_tick false sp s;
      rest ← run_ticks sps' r.2;
      Ret (r.1 :: rest.1, rest.2)
  end.

Lemma zip_with_save_extra l k sps :
  (length sps <= length l)%nat -> zip_with save (l ++ k) sps = zip_with save l sps.
Proof.
  intros Hlen. rewrite zip_with_app_l, (drop_ge sps) by lia.
  by rewrite zip_with_nil_r, app_nil_r, zip_with_take_r.
Qed.

Lemma run_ticks_within sps s c l :
  at_ring s c l -> (length sps <= length l)%nat ->
  exists s', run_ticks sps s = Ret (map stack_ptr (take (length sps) l), s') /\
    at_ring s' (default c (resume <$> last (take (length sps) l)))
      (drop (length sps) l ++ zip_with save (c :: l) sps).
Proof.
  revert s c l. induction sps as [|sp sps IH]; intros s c l Hr Hlen; cbn [run_ticks].
  { eexists. split; [done|]. simpl. by rewrite app_nil_r. }
  destruct l as [|n rest]; [simpl in Hlen; lia|]. simpl in Hlen.
  destruct (tick_rotates s c n rest sp Hr) as (s1 & -> & Hr1). cbn [mbind outcome_bind fst snd].
  destruct (IH s1 (resume n) (rest ++ [save c sp]) Hr1) as (s2 & -> & Hr2).
  { rewrite length_app. simpl. lia. }
  cbn [mbind outcome_bind fst snd]. exists s2. rewrite take_app_le, drop_app_le in * by lia.
  split; [done|]. simpl length. cbn [take drop zip_with].
  assert (zip_with save (resume n :: rest ++ [save c sp]) sps = zip_with save (n :: rest) sps) as Hz.
  { destruct sps as [|sp1 sps]; [done|]. cbn [zip_with]. f_equal.
    simpl in Hlen. apply zip_with_save_extra. lia. }
  rewrite Hz in Hr2. rewrite <- app_assoc in Hr2. cbn [app] in Hr2.
  destruct (take (length sps) rest) as [|x xs] eqn:Et; [done|].
  cbn [last] in *. destruct (last (x :: xs)) eqn:Elast; [exact Hr2|].
  apply last_None in Elast. done.
Qed.
End Proofs.

Lemma reachable_wf `{VirtAddrs} h s : rtc sched_step (initial h) s -> wf s.
Proof.
  intros Hr. assert (wf (initial h)) as Hi.
  { split; cbn; [apply NoDup_nil_2|by apply Forall_nil|by apply Forall_nil|done]. }
  revert Hi. induction Hr as [|s1 s2 s3 Hstep _ IH]; [done|]. intros Hwf. by apply IH, (sched_step_wf s1).
Qed.

(** C6: in every reachable state the tasks the scheduler holds have distinct
    identifiers, everything queued is ready, the current task is running, its
    identifier is the one reported, and the interrupt stack and the
    page-table root are its own. *)
Theorem scheduler_invariant `{VirtAddrs} h s : rtc sched_step (initial h) s -> wf s.
Proof. apply reachable_wf. Qed.

(** C29: in a reachable state a timer interrupt always returns a context to
    resume and keeps every task; ending the current task switches to the
    head of the queue and halts the machine only when it was the last. *)
Theorem scheduler_progress `{VirtAddrs} h s locked sp :
  rtc sched_step (initial h) s ->
  (exists p s', timer_tick locked sp s = Ret (p, s') /\ map task_id (ring s') ≡ₚ map task_id (ring s)) /\
  (forall c, current_task (sched s) = Some c ->
     match tasks (sched s) with
     | [] => exit_current_task sp s = Loop
     | n :: rest => exists s', exit_current_task sp s = Ret (stack_ptr n, s') /\
         map task_id (ring s') = map task_id (n :: rest)
     end).
Proof.
  intros Hwf%reachable_wf. split.
  - destruct (tick_cases locked sp s Hwf) as (p & s' & Ht & _ & Hp). eauto.
  - intros c Hc. pose proof (exit_cases sp s Hwf) as Hx. rewrite Hc in Hx.
    destruct (tasks (sched s)); [done|]. destruct Hx as (s' & Hx & _ & Hids). eauto.
Qed.

(** C9: round robin: with the current task [c] and the queue [l], one round of
    ticks resumes every queued task once, in queue order, at the stack
    pointer it was saved with, and then [c] at exactly the pointer it was
    saved with in the first tick; every task comes out with its own saved
    pointer, in the same order. *)
Theorem round_robin `{VirtAddrs} s c l sp0 sps :
  at_ring s c l -> length sps = length l ->
  exists s', run_ticks (sp0 :: sps) s = Ret (map stack_ptr l ++ [sp0], s') /\
    current_task (sched s') = Some (set_stack_ptr c sp0) /\
    tasks (sched s') = zip_with save l sps.
Proof.
  intros Hr Hlen. pose proof Hr as (Hc0 & Hl0 & Hwf0).
  pose proof (wf_current _ Hwf0) as Hcur. rewrite Hc0 in Hcur. destruct Hcur as [Hrun _].
  cbn [run_ticks]. destruct l as [|n rest].
  - destruct sps; [|done]. destruct (tick_alone s c sp0 Hr) as (s' & -> & Hc & Hl & _).
    cbn [mbind outcome_bind run_ticks fst snd]. by exists s'.
  - destruct (tick_rotates s c n rest sp0 Hr) as (s1 & -> & Hr1). cbn [mbind outcome_bind fst snd].
    destruct (run_ticks_within sps s1 (resume n) (rest ++ [save c sp0]) Hr1) as (s2 & -> & Hc2 & Hl2 & _).
    { rewrite length_app. simpl in *. lia. }
    cbn [mbind outcome_bind fst snd]. exists s2.
    rewrite take_ge, drop_ge in * by (rewrite length_app; simpl in *; lia).
    rewrite last_snoc in Hc2. rewrite map_app. split; [done|]. split.
    + rewrite Hc2. destruct c. simpl in Hrun. subst. done.
    + rewrite Hl2. destruct sps as [|sp1 sps]; [done|]. cbn [zip_with app]. f_equal.
      apply zip_with_save_extra. simpl in Hlen. lia.
Qed.

(** What happens without new tasks. *)
Inductive run_step `{VirtAddrs} (s : Sys) : Sys -> Prop :=
| run_tick locked sp p s' : timer_tick locked sp s = Ret (p, s') -> run_step s s'
| run_exit sp p s' : exit_current_task sp s = Ret (p, s') -> run_step s s'.

(** C30: a task that ended is never scheduled again: after its exit it is
    neither current nor queued, and no sequence of interrupts, yields and
    exits brings it back. *)
Theorem exited_never_runs `{VirtAddrs} s c sp p s1 s2 :
  wf s -> current_task (sched s) = Some c -> exit_current_task sp s = Ret (p, s1) ->
  rtc run_step s1 s2 -> task_id c ∉ map task_id (ring s2).
Proof.
  intros Hwf Hc He Hr.
  assert (wf s1 /\ task_id c ∉ map task_id (ring s1)) as [Hwf1 Hno].
  { pose proof (exit_cases sp s Hwf) as Hx. rewrite Hc in Hx. pose proof (wf_ids _ Hwf) as Hids.
    unfold ring in Hids. rewrite Hc in Hids. apply NoDup_cons in Hids as [Hnot _].
    destruct (tasks (sched s)) as [|n rest]; [by rewrite He in Hx|].
    destruct Hx as (s' & Heq & Hwf' & Hmap). rewrite He in Heq. simplify_eq. by rewrite Hmap. }
  clear Hwf Hc He. induction Hr as [|s1 s1' s2 Hstep _ IH]; [done|]. apply IH.
  - destruct Hstep as [locked sp' p' s' Ht|sp' p' s' He];
      [eapply (sched_step_wf s1); [done|by eapply step_tick]|eapply (sched_step_wf s1); [done|by eapply step_exit]].
  - destruct Hstep as [locked sp' p' s' Ht|sp' p' s' He].
    + destruct (tick_cases locked sp' s1 Hwf1) as (p2 & s3 & Heq & _ & Hperm). rewrite Ht in Heq.
      simplify_eq. by rewrite Hperm.
    + pose proof (exit_cases sp' s1 Hwf1) as Hx. unfold ring in Hno.
      destruct (current_task (sched s1)) as [c1|] eqn:Hc1.
      * destruct (tasks (sched s1)) as [|n rest]; [by rewrite He in Hx|].
        destruct Hx as (s3 & Heq & _ & Hmap). rewrite He in Heq. simplify_eq. rewrite Hmap.
        cbn [map] in Hno. by apply not_elem_of_cons in Hno as [_ Hno].
      * destruct Hx as (s3 & Heq & _ & Hring). rewrite He in Heq. simplify_eq. rewrite Hring.
        unfold ring. by rewrite Hc1.
Qed.

(** ** Concrete inputs *)

Definition demo_task (i : Z) : Task :=
  mkTask i (0x1000 * i) (0x10000 * i) (mkProcess i (0x100000 * i) 0 0) Ready.

(** Task 1 running, tasks 2 and 3 queued. *)
Definition demo_sys : Sys :=
  mkSys (mkScheduler [demo_task 2; demo_task 3] (Some (resume (demo_task 1))) 3 (Some 1)) 0 (hw_of (demo_task 1)).

Lemma demo_reachable : rtc sched_step (initial (mkHw 0 0 0)) demo_sys.
Proof.
  eapply rtc_l; [eapply (step_add _ (demo_task 1)); [by apply not_elem_of_nil|done|by left|reflexivity]|].
  eapply rtc_l; [eapply (step_add _ (demo_task 2)); [by apply (bool_decide_unpack _)|done|by left|reflexivity]|].
  eapply rtc_l; [eapply (step_add _ (demo_task 3)); [by apply (bool_decide_unpack _)|done|by left|reflexivity]|].
  eapply rtc_l; [eapply step_start; reflexivity|]. apply rtc_refl.
Qed.

Lemma scheduler_invariant_witness : wf demo_sys.
Proof. apply (scheduler_invariant (mkHw 0 0 0)), demo_reachable. Defined.

Lemma scheduler_progress_witness :
  exists s', exit_current_task 0x5000 demo_sys = Ret (0x2000, s') /\ map task_id (ring s') = [2; 3].
Proof.
  destruct (scheduler_progress (mkHw 0 0 0) demo_sys false 0x5000 demo_reachable) as [_ Hx].
  exact (Hx _ eq_refl).
Defined.

Lemma round_robin_witness :
  exists s', run_ticks [0xA; 0xB; 0xC] demo_sys = Ret ([0x2000; 0x3000; 0xA], s').
Proof.
  destruct (round_robin demo_sys (resume (demo_task 1)) [demo_task 2; demo_task 3] 0xA [0xB; 0xC])
    as (s' & Hr & _); [|reflexivity|].
  - split; [done|]. split; [done|]. apply (reachable_wf (mkHw 0 0 0)), demo_reachable.
  - exists s'. exact Hr.
Defined.

Lemma exited_never_runs_witness :
  exists s1 s2, exit_current_task 0x5000 demo_sys = Ret (0x2000, s1) /\
    timer_tick false 0x6000 s1 = Ret (0x3000, s2) /\ 1 ∉ map task_id (ring s2).
Proof.
  eexists _, _. split; [reflexivity|]. split; [reflexivity|].
  eapply (exited_never_runs demo_sys (resume (demo_task 1)) 0x5000); [|reflexivity|reflexivity|].
  - apply (reachable_wf (mkHw 0 0 0)), demo_reachable.
  - eapply rtc_l; [eapply (run_tick _ false 0x6000); reflexivity|]. apply rtc_refl.
Defined.

(** A yield is handled by the timer routine, so it advances the uptime that
    is meant to count timer periods; and an exited task still counts in the
    task count. *)
Lemma yield_advances_uptime :
  exists p s', timer_tick false 0x5000 demo_sys = Ret (p, s') /\ get_uptime_ticks s' = get_uptime_ticks demo_sys + 1.
Proof. do 2 eexists. split; reflexivity. Qed.

Lemma task_count_counts_dead :
  exists p s', exit_current_task 0x5000 demo_sys = Ret (p, s') /\ get_task_count s' = 3 /\ length (ring s') = 2%nat.
Proof. do 2 eexists. split_and!; reflexivity. Qed.
