(* ===== verification/Process.v ===== *)
(** * Processes ([kernel/src/process.rs])

    Loading a program into a new address space, [fork], and the mapping of
    single regions, over the page tables of [Paging] and the crate's mapper. *)

From S2P Require Import Prelude X86 Elf FrameAlloc Paging Sched.

(** What the code needs of [OffsetPageTable] beyond [AddressSpaces], about
    the tables as memory.  [tables_of s root]: the window pages of the tables
    that translate addresses of [root]; [plain s root v]: no huge page among
    the tables that lead to the page [v]. *)
Definition user_page (v : Z) : Prop := v mod 4096 = 0 /\ 0 <= v < 2 ^ 47.

Section Interface.
Context {S : Type} `{Machine S} `{AddressSpaces S} `{PageEntries}.

(** [s'] translates [root] as [s] does, through the same tables. *)
Record same_space (tables plain : S -> Z -> Prop) (root : Z) (s s' : S) : Prop := mkSame {
  same_translate : forall v, translate s' root v = translate s root v;
  same_tables : forall p, tables s' p <-> tables s p;
  same_plain : forall v, plain s' v <-> plain s v }.
End Interface.

Class Mapper (S : Type) `{Machine S} `{AddressSpaces S} `{PageEntries} (off : Z) := {
  take_frame_allocates : forall s, take_frame s = allocate_frame s;
  tables_of : S -> Z -> Z -> Prop;
  plain : S -> Z -> Z -> Prop;
  tables_root : forall s root, tables_of s root (off + root);
  (** A translation is decided by the bytes of its tables. *)
  tables_frame : forall s m root, (forall p x, tables_of s root p -> in_page p x -> m x = pmem s x) ->
    same_space (fun s => tables_of s root) (fun s => plain s root) root s (set_pmem m s);
  allocate_space : forall s r s' root, allocate_frame s = Ret (r, s') ->
    same_space (fun s => tables_of s root) (fun s => plain s root) root s s';
  (** The user bit of a top-level entry changes no translation. *)
  user_bit_space : forall s root i e, 0 <= i < 512 -> in_u64 e ->
    entry_addr e = entry_addr (entry_at (pmem s) (off + root) i) ->
    entry_flags e = Z.lor (entry_flags (entry_at (pmem s) (off + root) i)) USER_ACCESSIBLE ->
    same_space (fun s => tables_of s root) (fun s => plain s root) root s
      (set_pmem (put_entry (pmem s) (off + root) i e) s);
  (** A table with an empty user half and another's kernel half. *)
  new_root : forall s root kroot, root <> kroot -> frame_ok root -> frame_ok kroot ->
    (forall i, 0 <= i < 512 -> entry_at (pmem s) (off + root) i =
       if i <? 256 then 0 else entry_at (pmem s) (off + kroot) i) ->
    (forall v, user_page v -> translate s root v = None) /\
    (forall v, 2 ^ 64 - 2 ^ 47 <= v < 2 ^ 64 -> translate s root v = translate s kroot v) /\
    (forall p, tables_of s root p -> p = off + root \/ tables_of s kroot p) /\
    forall v, user_page v -> plain s root v;
  (** Spaces stay coherent when their tables are not written to, when a user
      bit is set, and beside a new one in a frame that is free of tables. *)
  coherent_frame : forall s m (live : Z -> Prop), coherent s live ->
    (forall root p x, live root -> tables_of s root p -> in_page p x -> m x = pmem s x) -> coherent (set_pmem m s) live;
  coherent_user_bit : forall s root i e (live : Z -> Prop), coherent s live -> live root -> 0 <= i < 512 -> in_u64 e ->
    entry_addr e = entry_addr (entry_at (pmem s) (off + root) i) ->
    entry_flags e = Z.lor (entry_flags (entry_at (pmem s) (off + root) i)) USER_ACCESSIBLE ->
    (forall r, live r -> r <> root -> ~ tables_of s r (off + root)) ->
    coherent (set_pmem (put_entry (pmem s) (off + root) i e) s) live;
  coherent_new : forall s root kroot (live : Z -> Prop), coherent s live -> live kroot -> frame_ok root -> ~ owned s root ->
    (forall r, live r -> ~ tables_of s r (off + root)) ->
    (forall i, 0 <= i < 512 -> entry_at (pmem s) (off + root) i =
       if i <? 256 then 0 else entry_at (pmem s) (off + kroot) i) ->
    coherent s (fun r => r = root \/ live r);
  (** [map_to] returns; it needs at most three new tables, and maps an
      unmapped page that no huge page covers. *)
  map_to_returns : forall s root page frame flags, source_ok s -> frame_ok root -> canonical page -> page mod 4096 = 0 ->
    frame_ok frame -> flags_ok flags -> Z.land flags HUGE_PAGE = 0 -> answers 3 s ->
    exists r s' k, map_to s root page frame flags = Ret (r, s') /\ (k <= 3)%nat /\ spent k s s' /\
      (plain s root page -> translate s root page = None -> Z.land flags PRESENT <> 0 -> r = true);
  (** It writes to the tables of [root]; an address space grows by frames
      handed out, as tables of [root] too, and gets no huge page. *)
  map_to_tables : forall s root page frame flags r s' (live : Z -> Prop), map_to s root page frame flags = Ret (r, s') ->
    coherent s live -> live root ->
    (forall root' p, live root' -> tables_of s' root' p -> tables_of s root' p \/ granted off s s' p /\ tables_of s' root p) /\
    (forall root' p, live root' -> tables_of s root' p -> tables_of s' root' p) /\
    (forall root' v, live root' -> plain s root' v -> plain s' root' v) /\
    forall x, (forall p, tables_of s' root p -> ~ in_page p x) -> pmem s' x = pmem s x }.

Section Process.
Context {S : Type} `{Machine S} `{VirtAddrs} `{PageEntries} `{AddressSpaces S}.
Variable physical_memory_offset : Z.

(** Processes are created in a state of the machine and of [NEXT_ID]. *)
Record Procs := mkProcs { next_pid : Z; mach : S }.

Definition ProcessId_new (k : Procs) : Z * Procs := (next_pid k, mkProcs (wrap 64 (next_pid k + 1)) (mach k)).

(** [Process::kernel_process], made on first use with the root then in CR3. *)
Definition kernel_process (cr3 : Z) : Process := mkProcess 0 cr3 0 0.

(** [translate_addr]. *)
Definition translate_addr (s : S) (root v : Z) : option Z :=
  (fun e => e.1 + v mod 4096) <$> translate s root (v / 4096 * 4096).

(** The body of the loop of [map_user_region]. *)
Definition map_user_page (root flags : Z) (s : S) (page : Z) : outcome S :=
  match translate_addr s root page with
  | Some _ => Ret s
  | None =>
      r ← allocate_frame s;
      frame ← unwrap r.1;
      m ← map_to r.2 root page frame flags;
      _ ← assert_b m.1;
      Ret m.2
  end.

(** [Page::range_inclusive(containing_address(start), containing_address(start + size - 1))]. *)
Definition region_pages (virt_start size : Z) : outcome (list Z) :=
  stop ← virt_addr_add virt_start size;
  last ← virt_addr_sub stop 1;
  Ret (page_range virt_start last).

Definition map_user_region (root virt_start size extra_flags : Z) (s : S) : outcome S :=
  pml4 ← table_ptr physical_memory_offset root;
  let flags := Z.lor (Z.lor PRESENT USER_ACCESSIBLE) extra_flags in
  pages ← region_pages virt_start size;
  s ← for_each (map_user_page root flags) pages s;
  m ← open_entry pml4 (p4_index virt_start) (pmem s);
  Ret (set_pmem m s).

(** [map_kernel_region]: every page gets a frame, mapped pages are an error. *)
Definition map_kernel_page (root flags : Z) (s : S) (page : Z) : outcome S :=
  r ← allocate_frame s;
  frame ← unwrap r.1;
  m ← map_to r.2 root page frame (Z.lor flags PRESENT);
  _ ← assert_b m.1;
  Ret m.2.

Definition map_kernel_region (root virt_start size flags : Z) (s : S) : outcome S :=
  _ ← table_ptr physical_memory_offset root;
  pages ← region_pages virt_start size;
  for_each (map_kernel_page root flags) pages s.

(** Both loops that fill a segment: chunks up to the next page boundary, with
    the bytes [src offset n], from [offset] up to [limit]. *)
Fixpoint fill_loop (fuel : nat) (root virt_start limit : Z) (src : Z -> Z -> outcome (list byte))
    (offset : Z) (s : S) : outcome (Z * S) :=
  match fuel with
  | O => Loop
  | Datatypes.S fuel =>
      if offset <? limit then
        chunk_virt ← virt_addr_add virt_start offset;
        chunk_phys ← unwrap (translate_addr s root chunk_virt);
        dest_ptr ← virt_addr_add physical_memory_offset chunk_phys;
        let copy_size := Z.min (limit - offset) (4096 - chunk_virt mod 4096) in
        bytes ← src offset copy_size;
        fill_loop fuel root virt_start limit src (offset + copy_size)
          (set_pmem (write_mem (pmem s) dest_ptr bytes) s)
      else Ret (offset, s)
  end.

(** Enough turns for [n] bytes. *)
Definition fill_fuel (n : Z) : nat := Z.to_nat (n / 4096 + 3).

(** The bytes at [&elf_data[file_offset + offset]]. *)
Definition file_bytes (elf_data : list byte) (file_offset offset n : Z) : outcome (list byte) :=
  i ← add_u 64 file_offset offset;
  _ ← idx elf_data i;
  Ret (sub_list elf_data i n).

Definition zero_bytes (offset n : Z) : outcome (list byte) := Ret (replicate (Z.to_nat n) x00).

Definition segment_flags (ph : ProgramHeader) : Z :=
  let flags := if negb (Z.land (ph_flags ph) PF_W =? 0) then WRITABLE else 0 in
  if Z.land (ph_flags ph) PF_X =? 0 then Z.lor flags NO_EXECUTE else flags.

(** [m?] where an error leaves the state [s] behind. *)
Definition at_state {E A T} (s : T) (m : outcome (result E A)) : outcome (result (E * T) A) :=
  r ← m; Ret (match r with Ok a => Ok a | Err e => Err (e, s) end).

(** The body of the loop over the program headers. *)
Definition load_segment (elf_data : list byte) (header : ElfHeader) (root : Z) (s : S) (i : Z)
    : outcome (result (ParseError * S) S) :=
  o ←? at_state s (parse_program_header elf_data header i);
  match o with
  | None => Ret (Ok s)
  | Some ph =>
      if memory_size ph =? 0 then Ret (Ok s) else
      file_end ←? at_state s (Ret (ok_or (checked_add 64 (file_offset ph) (file_size ph)) ProgramHeaderOutOfBounds));
      if len elf_data <? file_end then Ret (Err (ProgramHeaderOutOfBounds, s)) else
      virt_start ← virt_addr_new (virtual_address ph);
      s ← map_user_region root virt_start (memory_size ph) (segment_flags ph) s;
      r ← fill_loop (fill_fuel (file_size ph)) root virt_start (file_size ph)
            (file_bytes elf_data (file_offset ph)) 0 s;
      r ← fill_loop (fill_fuel (memory_size ph)) root virt_start (memory_size ph) zero_bytes r.1 r.2;
      Ret (Ok r.2)
  end.

Definition STACK_START : Z := 0x700000000000.
Definition USER_STACK_BYTES : Z := 4096 * 8.

(** The process or an error, with the state in both cases. *)
Definition new_from_elf (cr3 : Z) (elf_data : list byte) (k : Procs)
    : outcome (result (ParseError * Procs) (Process * Procs)) :=
  header ←? at_state k (parse_header elf_data);
  r ← create_process_pml4 physical_memory_offset cr3 (mach k);
  let '(pml4_frame, s) := r in
  stack_start ← virt_addr_new STACK_START;
  stack_top ← virt_addr_add stack_start USER_STACK_BYTES;
  let '(id, k) := ProcessId_new k in
  entry_point ← virt_addr_new (entry header);
  let process := mkProcess id pml4_frame entry_point stack_top in
  s ← map_user_region pml4_frame stack_start USER_STACK_BYTES WRITABLE s;
  _ ← table_ptr physical_memory_offset pml4_frame;
  r ← try_each (load_segment elf_data header pml4_frame) (seqZ 0 (program_header_count header)) s;
  Ret match r with
      | Ok s => Ok (process, mkProcs (next_pid k) s)
      | Err (e, s) => Err (e, mkProcs (next_pid k) s)
      end.

(** [Process::fork] with the process's fields; the threads start empty. *)
Definition fork (cr3 : Z) (p : Process) (k : Procs) : outcome (Process * Procs) :=
  r ← create_process_pml4 physical_memory_offset cr3 (mach k);
  let '(pml4, s) := r in
  s ← clone_user_mappings_cow physical_memory_offset (pml4_frame p) pml4 s;
  let '(id, k) := ProcessId_new (mkProcs (next_pid k) s) in
  Ret (mkProcess id pml4 (entry_point p) (stack_top p), k).
End Process.
Arguments mkProcs {S}. Arguments next_pid {S}. Arguments mach {S}.

(** ** The address space of a new process *)

Section Image.
Context {S : Type} `{Machine S} `{VirtAddrs} `{PageEntries} `{AddressSpaces S} (off : Z) `{!Mapper S off}.
Hypothesis off_ok : off mod 4096 = 0 /\ canonical off.

(** The byte a process sees at a virtual address. *)
Definition user_byte (s : S) (root v : Z) : option byte := (fun p => pmem s (off + p)) <$> translate_addr s root v.

(** [root] is being built since [s0], where [cr3] was the running address
    space: every user page has a frame of its own, handed out since, that is no
    table; the running address space keeps its kernel half. *)
Record building (cr3 : Z) (s0 : S) (root : Z) (s : S) : Prop := mkBuilding {
  b_ready : ready off s0;
  b_kern : forall f, owned s0 f -> ~ tables_of s0 cr3 (off + f);
  b_kern_page : forall p, tables_of s0 cr3 p -> p mod 4096 = 0;
  b_after : after s0 s;
  b_root : frame_ok root /\ canonical (off + root) /\ owned s0 root /\ ~ owned s root;
  b_plain : forall v, user_page v -> plain s root v;
  b_tables : forall p, tables_of s root p -> tables_of s0 cr3 p \/ granted off s0 s p;
  b_mapped : forall v f fl, user_page v -> translate s root v = Some (f, fl) ->
    owned s0 f /\ ~ owned s f /\ ~ tables_of s root (off + f);
  b_inj : forall v w f fl fl', user_page v -> user_page w ->
    translate s root v = Some (f, fl) -> translate s root w = Some (f, fl') -> v = w;
  b_running : forall p, tables_of s cr3 p -> tables_of s0 cr3 p \/ tables_of s root p /\ p <> off + root;
  b_running_map : forall v, ~ user_page v -> translate s cr3 v = translate s0 cr3 v;
  b_running_plain : forall v, plain s0 cr3 v -> plain s cr3 v;
  b_coherent : coherent s (fun r => r = root \/ r = cr3) }.

Lemma user_page_of v : 0 <= v < 2 ^ 47 -> user_page (v / 4096 * 4096).
Proof.
  intros Hv. split; [apply Z.mod_mul; lia|]. pose proof (Z.div_mod v 4096). pose proof (Z.mod_pos_bound v 4096). lia.
Qed.

Lemma page_of_page v : v mod 4096 = 0 -> v / 4096 * 4096 = v.
Proof. pose proof (Z.div_mod v 4096). lia. Qed.

Lemma table_page_aligned cr3 s0 root s p : building cr3 s0 root s -> tables_of s root p -> p mod 4096 = 0.
Proof.
  intros Hb Ht. destruct (b_tables _ _ _ _ Hb p Ht) as [Hk|Hg]; [by eapply b_kern_page|].
  exact (granted_page off off_ok _ _ _ (b_ready _ _ _ _ Hb) Hg).
Qed.

Abbreviation same s s' r := (same_space (fun s => tables_of s r) (fun s => plain s r) r s s').

(** A state with the same translations and no frames handed out since. *)
Lemma building_same cr3 s0 root s s' : building cr3 s0 root s -> after s s' ->
  (forall f, owned s' f <-> owned s f) -> same s s' root -> same s s' cr3 ->
  coherent s' (fun r => r = root \/ r = cr3) -> building cr3 s0 root s'.
Proof.
  intros Hb Ha Ho [Ht Htab Hpl] [Htk Htabk Hplk] Hco. destruct Hb. split; try done.
  - by eapply after_trans.
  - by rewrite Ho.
  - intros v Hv. by apply Hpl, b_plain0.
  - intros p Hp. apply Htab, b_tables0 in Hp as [Hp|(f & Hf & Hf' & ->)]; [by left|right]. exists f. by rewrite Ho.
  - intros v f fl Hv. rewrite Ht, Ho, Htab. by apply b_mapped0.
  - intros v w f fl fl' Hv Hw. rewrite !Ht. by apply b_inj0.
  - intros p Hp. rewrite Htab. by apply b_running0, Htabk.
  - intros v Hv. rewrite Htk. by apply b_running_map0.
  - intros v Hv. by apply Hplk, b_running_plain0.
Qed.

(** The page of a frame that is no table of [root], or that of [root]
    itself, is no table of the running address space. *)
Lemma running_apart cr3 s0 root s f p x : building cr3 s0 root s -> owned s0 f -> f = root \/ ~ tables_of s root (off + f) ->
  tables_of s cr3 p -> in_page p x -> ~ in_page (off + f) x.
Proof.
  intros Hb Hf Hor Hp Hx. destruct (proj2 (b_ready _ _ _ _ Hb) f Hf) as [Hfok _].
  apply (pages_disjoint p); [|by apply (window_page off off_ok)| |done].
  - destruct (b_running _ _ _ _ Hb p Hp) as [Hk|[Ht _]]; [by eapply b_kern_page|by eapply table_page_aligned].
  - intros ->. destruct (b_running _ _ _ _ Hb _ Hp) as [Hk|[Ht Hne]]; [by apply (b_kern _ _ _ _ Hb f)|].
    destruct Hor as [->|Hn]; [by apply Hne|by apply Hn].
Qed.

(** Mapping one more user page to a frame just handed out. *)
Lemma building_map cr3 s0 root s s1 s2 page fr flags : building cr3 s0 root s -> user_page page ->
  allocate_frame s = Ret (Some fr, s1) -> owned s fr -> ~ owned s1 fr ->
  map_to s1 root page fr flags = Ret (true, s2) -> after s1 s2 -> building cr3 s0 root s2.
Proof.
  intros Hb Hpg Hal Hfr Hfr1 Hm Ha2. pose proof (allocate_space s _ s1 root Hal) as [Ht1 Htab1 Hpl1].
  pose proof (allocate_space s _ s1 cr3 Hal) as [Htk1 Htabk1 Hplk1].
  rewrite <- take_frame_allocates in Hal. pose proof (proj2 (take_frame_ok _ _ _ Hal) _ (b_coherent _ _ _ _ Hb)) as Hco1.
  rewrite take_frame_allocates in Hal. set (pair := fun r => r = root \/ r = cr3) in *.
  assert (pair root /\ pair cr3) as [Hpr Hpc] by (split; [by left|by right]).
  destruct (map_to_ok _ _ _ _ _ _ pair Hm Hco1 Hpr) as [_ Hnew].
  pose proof (fun v => map_to_other _ _ _ _ _ _ _ pair Hm Hco1 Hpr root v Hpr) as Hoth.
  pose proof (fun v => map_to_other _ _ _ _ _ _ _ pair Hm Hco1 Hpr cr3 v Hpc) as Hothk.
  destruct (map_to_tables _ _ _ _ _ _ _ pair Hm Hco1 Hpr) as (Htab2 & Hmono & Hpl2 & _). destruct Hb.
  assert (after s s1) as Ha1 by (apply rtc_once; left; by eexists).
  pose proof (ready_after off _ _ b_after0 b_ready0) as Hrs. pose proof (ready_after off _ _ Ha1 Hrs) as Hrs1.
  destruct (after_keeps _ _ b_after0 (proj1 b_ready0)) as [_ Ho0].
  destruct (after_keeps _ _ Ha1 (proj1 Hrs)) as [_ Ho1]. destruct (after_keeps _ _ Ha2 (proj1 Hrs1)) as [_ Ho2].
  assert (forall f, owned s0 f -> ~ owned s1 f -> ~ tables_of s root (off + f) -> ~ tables_of s2 root (off + f)) as Hnt.
  { intros f Hf Hf1 Hn Ht. apply (Htab2 root) in Ht as [Ht|[(g & Hg & _ & Hgf) _]]; [by apply Hn, Htab1| |done].
    apply Hf1. by replace f with g by lia. }
  split; try done.
  - eapply after_trans; [exact b_after0|]. by eapply after_trans.
  - naive_solver.
  - intros v Hv. by apply (Hpl2 root), Hpl1, b_plain0.
  - intros p Hp. apply (Htab2 root) in Hp as [Hp|[Hp _]]; [| |done].
    + apply Htab1, b_tables0 in Hp as [Hp|Hp]; [by left|right].
      eapply granted_trans; [apply b_ready0|exact b_after0|by eapply after_trans|by left].
    + right. eapply granted_trans; [apply b_ready0|by eapply after_trans|exact Ha2|by right].
  - intros v f fl Hv. destruct (decide (v = page)) as [->|Hne].
    + rewrite Hnew. intros [= <- <-]. split; [by apply Ho0|]. split; [auto|]. apply Hnt; [by apply Ho0|done|].
      intros Ht. apply b_tables0 in Ht as [Ht|(g & _ & Hg & Hgf)]; [by apply (b_kern0 fr); [apply Ho0|]|].
      apply Hg. by replace g with fr by lia.
    + rewrite Hoth, Ht1 by done. intros Hvf. destruct (b_mapped0 v f fl Hv Hvf) as (Hf & Hf' & Hn).
      split; [done|]. split; [auto|]. apply Hnt; [done|auto|done].
  - intros v w f fl fl' Hv Hw. destruct (decide (v = page)) as [->|Hnv], (decide (w = page)) as [->|Hnw]; [done| | |].
    + rewrite Hnew, Hoth, Ht1 by done. intros [= -> _] Hwf. by destruct (b_mapped0 w f fl' Hw Hwf) as (_ & ? & _).
    + rewrite Hnew, Hoth, Ht1 by done. intros Hvf [= -> _]. by destruct (b_mapped0 v f fl Hv Hvf) as (_ & ? & _).
    + rewrite !Hoth, !Ht1 by done. by apply b_inj0.
  - intros p Hp. apply (Htab2 cr3) in Hp as [Hp|[(g & Hg & _ & ->) Hp]]; [| |done].
    + apply Htabk1, b_running0 in Hp as [Hp|[Hp Hne]]; [by left|right]. split; [by apply (Hmono root), Htab1|done].
    + right. split; [done|]. intros Hbad. destruct b_root0 as (_ & _ & _ & Hno). apply Hno, Ho1. by replace root with g by lia.
  - intros v Hv. rewrite Hothk by (intros ->; by apply Hv). rewrite Htk1. by apply b_running_map0.
  - intros v Hv. by apply (Hpl2 cr3), Hplk1, b_running_plain0.
  - exact (map_to_coherent _ _ _ _ _ _ _ pair Hm Hco1 Hpr).
Qed.

(** What mapping the pages of [new] keeps and adds. *)
Record extends (root : Z) (new : Z -> Prop) (flags : Z) (s s' : S) : Prop := mkExtends {
  ex_old : forall v, ~ new v -> translate s' root v = translate s root v;
  ex_kept : forall v e, user_page v -> translate s root v = Some e -> translate s' root v = Some e;
  ex_new : forall v, new v -> translate s root v = None -> exists f, translate s' root v = Some (f, flags);
  ex_bytes : forall v, 0 <= v < 2 ^ 47 -> is_Some (translate_addr s root v) -> user_byte s' root v = user_byte s root v }.

Lemma in_frame f v : in_page (off + f) (off + (f + v mod 4096)).
Proof. unfold in_page. pose proof (Z.mod_pos_bound v 4096). lia. Qed.

Lemma canonical_in_frame f v : frame_ok f -> canonical (off + f) -> canonical (off + (f + v mod 4096)).
Proof.
  intros Hf Hc. pose proof (window_page off off_ok f Hf) as Hp. pose proof (Z.mod_pos_bound v 4096).
  unfold canonical in *. pose proof (Z.div_mod (off + f) 4096). lia.
Qed.

Lemma translate_addr_page s root v : v mod 4096 = 0 -> translate_addr s root v = fst <$> translate s root v.
Proof. intros Hv. unfold translate_addr. rewrite page_of_page, Hv by done. destruct (translate s root v) as [[f fl]|]; simpl; [|done]. f_equal; lia. Qed.

(** The bytes of mapped pages survive writes to the tables alone. *)
Lemma bytes_kept cr3 s0 root s s' : building cr3 s0 root s' ->
  (forall v e, user_page v -> translate s root v = Some e -> translate s' root v = Some e) ->
  (forall x, (forall p, tables_of s' root p -> ~ in_page p x) -> pmem s' x = pmem s x) ->
  forall v, 0 <= v < 2 ^ 47 -> is_Some (translate_addr s root v) -> user_byte s' root v = user_byte s root v.
Proof.
  intros Hb Hk Hm v Hv [a Ha]. unfold user_byte, translate_addr in *. pose proof (user_page_of v Hv) as Hp.
  destruct (translate s root (v / 4096 * 4096)) as [[f fl]|] eqn:E; [|done]. rewrite (Hk _ _ Hp E). simpl. f_equal.
  apply Hm. intros p Hpt Hx. destruct (b_mapped _ _ _ _ Hb _ f fl Hp (Hk _ _ Hp E)) as (Hf & _ & Hn).
  apply (pages_disjoint p (off + f) (off + (f + v mod 4096))); [by eapply table_page_aligned| | |done|apply in_frame].
  - apply (window_page off off_ok). by apply (b_ready _ _ _ _ Hb).
  - intros ->. by apply Hn.
Qed.

Lemma map_user_page_spec cr3 s0 root flags s page : building cr3 s0 root s -> user_page page ->
  flags_ok flags -> Z.land flags PRESENT <> 0 -> Z.land flags HUGE_PAGE = 0 -> answers 4 s ->
  exists s' k, map_user_page root flags s page = Ret s' /\ (k <= 4)%nat /\ spent k s s' /\
    building cr3 s0 root s' /\ extends root (fun v => v = page) flags s s'.
Proof.
  intros Hb Hp Hfl Hpr Hhg (fr & s1 & Hal & Hans). unfold map_user_page. rewrite translate_addr_page by apply Hp.
  destruct (translate s root page) as [e|] eqn:E.
  { exists s, O. split; [done|]. split; [lia|]. split; [apply spent_refl|]. split; [done|].
    split; [done|done|intros v ->; by rewrite E|done]. }
  pose proof (ready_after off _ _ (b_after _ _ _ _ Hb) (b_ready _ _ _ _ Hb)) as Hrs.
  destruct (allocate_frame_cases s (proj1 Hrs)) as (r & s1' & Hal' & Ha1 & Hok1 & Hm1 & Hown1 & Hres).
  rewrite Hal in Hal'. injection Hal' as <- <-. destruct Hres as [Hfr Hfr1].
  pose proof (allocate_space s _ s1 root Hal) as [Ht1 _ Hpl1].
  assert (coherent s1 (fun r => r = root \/ r = cr3)) as Hco1.
  { rewrite <- take_frame_allocates in Hal. exact (proj2 (take_frame_ok _ _ _ Hal) _ (b_coherent _ _ _ _ Hb)). }
  destruct (map_to_returns s1 root page fr flags) as (r & s2 & k & Hm & Hk & Hsp & Hr); try done.
  { by apply (b_root _ _ _ _ Hb). } { unfold canonical. destruct Hp. lia. } { apply Hp. } { by apply Hrs. }
  rewrite Hr in Hm; [|by apply Hpl1, (b_plain _ _ _ _ Hb)|by rewrite Ht1|done]. clear r Hr.
  rewrite Hal. cbn [fmap option_fmap option_map mbind outcome_bind fst snd unwrap]. rewrite Hm.
  cbn [mbind outcome_bind fst snd assert_b]. exists s2, (1 + k)%nat.
  assert (spent (1 + k) s s2) as Hsp2.
  { eapply spent_trans; [|exact Hsp]. eapply spent_frame; [apply spent_refl|done]. }
  assert (building cr3 s0 root s2) as Hb2.
  { exact (building_map cr3 s0 root s s1 s2 page fr flags Hb Hp Hal Hfr Hfr1 Hm (spent_after _ _ _ Hsp)). }
  split; [done|]. split; [lia|]. split; [done|]. split; [done|].
  assert (forall v, v <> page -> translate s2 root v = translate s root v) as Hoth.
  { intros v Hv. rewrite (map_to_other _ _ _ _ _ _ _ _ Hm Hco1 (or_introl eq_refl) root v (or_introl eq_refl) Hv). apply Ht1. }
  assert (forall v e, user_page v -> translate s root v = Some e -> translate s2 root v = Some e) as Hkept.
  { intros v e Hv Hve. rewrite Hoth; [done|]. intros ->. by rewrite E in Hve. }
  split; [done|done| |].
  - intros v -> _. exists fr. by apply (map_to_ok _ _ _ _ _ _ _ Hm Hco1 (or_introl eq_refl)).
  - apply (bytes_kept cr3 s0 root s s2 Hb2 Hkept). intros x Hx. rewrite <- Hm1.
    by apply (map_to_tables _ _ _ _ _ _ _ _ Hm Hco1 (or_introl eq_refl)).
Qed.

Lemma extends_cons root page pages flags s t u : user_page page ->
  extends root (fun v => v = page) flags s t -> extends root (fun v => v ∈ pages) flags t u ->
  extends root (fun v => v ∈ page :: pages) flags s u.
Proof.
  intros Hp [Ho1 Hk1 Hn1 Hb1] [Ho2 Hk2 Hn2 Hb2]. split.
  - intros v Hv. apply not_elem_of_cons in Hv as [Hv1 Hv2].
    rewrite (Ho2 v Hv2). by apply Ho1.
  - intros v e Hv Hve. by apply Hk2, Hk1.
  - intros v Hv Hno. destruct (decide (v = page)) as [->|Hne].
    + destruct (Hn1 page eq_refl Hno) as [f Hf]. exists f. by apply Hk2.
    + apply elem_of_cons in Hv as [|Hv]; [done|]. apply Hn2; [done|]. by rewrite Ho1.
  - intros v Hv Hm. rewrite Hb2, Hb1; [done|done|done|done|].
    destruct Hm as [a Ha]. unfold translate_addr in *. destruct (translate s root _) as [e|] eqn:E; [|done].
    rewrite (Hk1 _ _ (user_page_of v Hv) E). by eexists.
Qed.

Lemma map_user_pages_spec cr3 s0 root flags pages : flags_ok flags -> Z.land flags PRESENT <> 0 -> Z.land flags HUGE_PAGE = 0 ->
  Forall user_page pages -> forall s, building cr3 s0 root s -> answers (4 * length pages) s ->
  exists s' k, for_each (map_user_page root flags) pages s = Ret s' /\ (k <= 4 * length pages)%nat /\ spent k s s' /\
    building cr3 s0 root s' /\ extends root (fun v => v ∈ pages) flags s s'.
Proof.
  intros Hfl Hpr Hhg. induction 1 as [|page pages Hp Hps IH]; intros s Hb Hans.
  { exists s, O. split; [done|]. split; [lia|]. split; [apply spent_refl|]. split; [done|].
    split; try done. intros v Hv. by apply elem_of_nil in Hv. }
  cbn [length] in Hans. destruct (map_user_page_spec cr3 s0 root flags s page Hb Hp Hfl Hpr Hhg)
    as (t & k & Ht & Hk & Hsp & Hbt & Het). { eapply answers_le; [|exact Hans]. lia. }
  cbn [for_each]. rewrite Ht. cbn [mbind outcome_bind].
  destruct (IH t Hbt) as (u & j & Hu & Hj & Hsp' & Hbu & Heu).
  { eapply (answers_spent k); [exact Hsp|]. eapply answers_le; [|exact Hans]. lia. }
  exists u, (k + j)%nat. split; [done|]. split; [cbn [length]; lia|]. split; [exact (spent_trans _ _ _ _ _ Hsp Hsp')|].
  split; [done|]. by apply (extends_cons root page pages flags s t u).
Qed.

(** The pages of [[va, va + size)]. *)
Definition region_page (va size v : Z) : Prop :=
  v mod 4096 = 0 /\ va / 4096 * 4096 <= v <= (va + size - 1) / 4096 * 4096.

Definition page_count (va size : Z) : nat := Z.to_nat ((va + size - 1) / 4096 - va / 4096 + 1).

Definition user_range (va size : Z) : Prop := 0 <= va /\ 0 < size /\ va + size < 2 ^ 47.

Lemma region_pages_spec va size : user_range va size -> exists pages, region_pages va size = Ret pages /\
  length pages = page_count va size /\ Forall user_page pages /\ forall v, v ∈ pages <-> region_page va size v.
Proof.
  intros (Hva & Hsz & Hend). unfold region_pages. rewrite virt_addr_add_ok by (unfold canonical; lia).
  cbn [mbind outcome_bind]. rewrite virt_addr_sub_ok by (unfold canonical; lia). cbn [mbind outcome_bind].
  eexists; split; [done|]. rewrite page_range_spec by lia.
  assert (va / 4096 <= (va + size - 1) / 4096) as Hle by (apply Z.div_le_mono; lia).
  assert (0 <= va / 4096) by (apply Z.div_pos; lia).
  assert ((va + size - 1) / 4096 * 4096 <= va + size - 1) by (pose proof (Z.mul_div_le (va + size - 1) 4096); lia).
  assert (forall v, v ∈ map (fun i => va / 4096 * 4096 + i * 4096) (seqZ 0 ((va + size - 1) / 4096 - va / 4096 + 1))
    <-> region_page va size v) as Hin.
  { intros v. rewrite list_elem_of_fmap. unfold region_page. split.
    - intros (i & -> & Hi%elem_of_seqZ). rewrite <- Z.mul_add_distr_r. split; [apply Z.mod_mul; lia|nia].
    - intros [Hv Hb]. exists (v / 4096 - va / 4096). pose proof (Z.div_mod v 4096).
      split; [nia|]. apply elem_of_seqZ. nia. }
  split; [unfold page_count; by rewrite length_map, length_seqZ|]. split; [|exact Hin].
  apply Forall_forall. intros v Hv%Hin. destruct Hv as [Hm Hb]. split; [done|]. lia.
Qed.

Lemma map_user_region_spec cr3 s0 root va size fl s : building cr3 s0 root s -> user_range va size ->
  flags_ok fl -> Z.land fl HUGE_PAGE = 0 -> answers (4 * page_count va size) s ->
  exists s' k, map_user_region off root va size fl s = Ret s' /\ (k <= 4 * page_count va size)%nat /\ spent k s s' /\
    building cr3 s0 root s' /\
    extends root (region_page va size) (Z.lor (Z.lor PRESENT USER_ACCESSIBLE) fl) s s'.
Proof.
  intros Hb Hr Hfl Hhg Hans. unfold map_user_region. destruct (b_root _ _ _ _ Hb) as (Hrf & Hrc & _ & Hro).
  rewrite (table_ptr_ok off off_ok) by done. cbn [mbind outcome_bind].
  destruct (region_pages_spec va size Hr) as (pages & -> & Hlen & Hup & Hin). cbn [mbind outcome_bind].
  destruct (map_user_pages_spec cr3 s0 root (Z.lor (Z.lor PRESENT USER_ACCESSIBLE) fl) pages) with (s := s)
    as (t & k & -> & Hk & Hsp & Hbt & Het); try done.
  { by apply flags_ok_lor. }
  { rewrite !Z.land_lor_distr_l. change (Z.lor (Z.land PRESENT PRESENT) (Z.land USER_ACCESSIBLE PRESENT)) with 1.
    intros Hbad%Z.lor_eq_0_iff. lia. }
  { by rewrite Z.land_lor_distr_l, Hhg. }
  { by rewrite Hlen. }
  cbn [mbind outcome_bind]. pose proof (table_index_bound 4 va ltac:(lia)) as Hi.
  unfold open_entry. destruct (set_flags_ok (entry_at (pmem t) (off + root) (p4_index va))
    (Z.lor (entry_flags (entry_at (pmem t) (off + root) (p4_index va))) USER_ACCESSIBLE)) as (e & -> & Heu & Hea & Hef).
  { apply flags_ok_lor; [apply entry_flags_ok|done]. }
  cbn [mbind outcome_bind]. set (u := set_pmem _ t). exists u, k. rewrite <- Hlen.
  pose proof (user_bit_space t root (p4_index va) e Hi Heu Hea Hef) as Hsame. fold u in Hsame.
  assert (building cr3 s0 root u) as Hbu.
  { apply (building_same cr3 s0 root t u Hbt); [apply after_set, rtc_refl|intros f; apply set_pmem_owned|exact Hsame| |].
    - apply tables_frame. intros p x Hp Hx. apply put_entry_out. intros Hs. apply slot_in_page in Hs; [|done].
      apply (running_apart cr3 s0 root t root p x); try done; [|by left]. by apply (b_root _ _ _ _ Hbt).
    - apply coherent_user_bit; try done; [apply (b_coherent _ _ _ _ Hbt)|by left|].
      intros r [->| ->] Hne Hp; [done|]. destruct (b_root _ _ _ _ Hbt) as (_ & _ & Hown & _).
      apply (running_apart cr3 s0 root t root _ (off + root) Hbt Hown (or_introl eq_refl) Hp); unfold in_page; lia. }
  split; [done|]. split; [done|]. split; [by apply spent_mem|]. split; [done|].
  destruct Het as [Ho Hkp Hn Hby]. destruct Hsame as [Ht Htab _]. split.
  - intros v Hv. rewrite Ht. apply Ho. by rewrite Hin.
  - intros v e' Hv Hve. rewrite Ht. by apply Hkp.
  - intros v Hv Hno. rewrite Ht. apply Hn; [by apply Hin|done].
  - intros v Hv Hm. rewrite <- Hby by done. apply (bytes_kept cr3 s0 root t u Hbu); [intros; by rewrite Ht| |done|].
    + intros x Hx. unfold u. rewrite pmem_set. apply put_entry_out. intros Hs. apply slot_in_page in Hs; [|done].
      by apply (Hx (off + root)); [apply tables_root|].
    + destruct Hm as [a Ha]. unfold translate_addr in *. destruct (translate s root _) as [e'|] eqn:E; [|done].
      rewrite (Hkp _ _ (user_page_of v Hv) E). by eexists.
Qed.

(** Every byte of the range is mapped. *)
Definition mapped_range (s : S) (root va size : Z) : Prop :=
  forall v, va <= v < va + size -> exists f fl, translate s root (v / 4096 * 4096) = Some (f, fl).

(** Writing within one mapped page. *)
Lemma write_chunk cr3 s0 root s v n f fl bs : building cr3 s0 root s -> 0 <= v -> v + n <= 2 ^ 47 ->
  0 < n -> len bs = n -> v mod 4096 + n <= 4096 -> translate s root (v / 4096 * 4096) = Some (f, fl) ->
  let s' := set_pmem (write_mem (pmem s) (off + (f + v mod 4096)) bs) s in
  building cr3 s0 root s' /\ (forall w, translate s' root w = translate s root w) /\
  forall w, 0 <= w < 2 ^ 47 -> user_byte s' root w =
    if (v <=? w) && (w <? v + n) then zget bs (w - v) else user_byte s root w.
Proof.
  intros Hb Hv Hvn Hn Hlen Hmod Ht s'. assert (user_page (v / 4096 * 4096)) as Hup by (apply user_page_of; lia).
  destruct (b_mapped _ _ _ _ Hb _ f fl Hup Ht) as (Hf & Hf' & Hnt).
  destruct (proj2 (b_ready _ _ _ _ Hb) f Hf) as [Hfok Hfc]. pose proof (window_page off off_ok f Hfok) as Hfp.
  assert (forall x, ~ in_page (off + f) x -> pmem s' x = pmem s x) as Hout.
  { intros x Hx. unfold s'. rewrite pmem_set. apply write_mem_out. unfold in_page in Hx.
    pose proof (Z.mod_pos_bound v 4096). lia. }
  assert (same_space (fun s => tables_of s root) (fun s => plain s root) root s s') as Hsame.
  { apply tables_frame. intros p x Hp Hx. rewrite <- (pmem_set _ s). apply Hout. intros Hx'.
    apply (pages_disjoint p (off + f) x); [by eapply table_page_aligned|done|by intros ->|done|done]. }
  assert (building cr3 s0 root s') as Hb'.
  { assert (forall r p x, r = root \/ r = cr3 -> tables_of s r p -> in_page p x ->
      write_mem (pmem s) (off + (f + v mod 4096)) bs x = pmem s x) as Hkeep.
    { intros r p x Hr Hp Hx. rewrite <- (pmem_set _ s). apply Hout. destruct Hr as [->| ->].
      - intros Hx'. apply (pages_disjoint p (off + f) x); [by eapply table_page_aligned|done|by intros ->|done|done].
      - by apply (running_apart cr3 s0 root s f p x); [..|right| |]. }
    apply (building_same cr3 s0 root s s' Hb); [apply after_set, rtc_refl|intros g; apply set_pmem_owned|done| |].
    - apply tables_frame. intros p x. apply Hkeep. by right.
    - apply coherent_frame; [apply (b_coherent _ _ _ _ Hb)|exact Hkeep]. }
  split; [done|]. destruct Hsame as [Hst _ _]. split; [done|]. intros w Hw. unfold user_byte, translate_addr. rewrite Hst.
  pose proof (Z.div_mod v 4096 ltac:(lia)). pose proof (Z.div_mod w 4096 ltac:(lia)).
  pose proof (Z.mod_pos_bound v 4096 ltac:(lia)). pose proof (Z.mod_pos_bound w 4096 ltac:(lia)).
  destruct (decide (w / 4096 = v / 4096)) as [Heq|Hne].
  - rewrite Heq, Ht. cbn [fmap option_fmap option_map fst]. unfold s'. rewrite pmem_set. unfold write_mem.
    replace (off + (f + w mod 4096) - (off + (f + v mod 4096))) with (w - v) by lia.
    destruct ((v <=? w) && (w <? v + n)) eqn:E.
    + destruct (zget_is_Some bs (w - v)) as [b Hbb]; [lia|]. by rewrite Hbb.
    + destruct (zget bs (w - v)) eqn:Eg; [|done]. apply zget_Some_bound in Eg. lia.
  - replace ((v <=? w) && (w <? v + n)) with false by lia.
    destruct (translate s root (w / 4096 * 4096)) as [[g gl]|] eqn:E; [|done]. simpl. f_equal. apply Hout.
    assert (user_page (w / 4096 * 4096)) as Huw by (by apply user_page_of).
    destruct (b_mapped _ _ _ _ Hb _ g gl Huw E) as (Hg & _). destruct (proj2 (b_ready _ _ _ _ Hb) g Hg) as [Hgok _].
    apply (pages_disjoint (off + g) (off + f)); [by apply (window_page off off_ok)|done| |apply in_frame].
    intros Hfg. assert (g = f) as -> by lia. apply Hne. pose proof (b_inj _ _ _ _ Hb _ _ f fl gl Hup Huw Ht E). lia.
Qed.

Lemma fill_loop_spec cr3 s0 root va lo limit (d : Z -> byte) src : 0 <= va -> 0 <= lo -> va + limit < 2 ^ 47 ->
  (forall o n, lo <= o -> 0 < n -> o + n <= limit -> src o n = Ret (map d (seqZ o n))) ->
  forall fuel offset s, building cr3 s0 root s -> mapped_range s root va limit -> lo <= offset -> (0 < fuel)%nat ->
  (offset < limit -> (va + offset) mod 4096 + (limit - offset) <= 4096 * (Z.of_nat fuel - 1)) ->
  exists s', fill_loop off fuel root va limit src offset s = Ret (Z.max offset limit, s') /\
    building cr3 s0 root s' /\ spent 0 s s' /\ (forall w, translate s' root w = translate s root w) /\
    forall w, 0 <= w < 2 ^ 47 -> user_byte s' root w =
      if (va + offset <=? w) && (w <? va + limit) then Some (d (w - va)) else user_byte s root w.
Proof.
  intros Hva Hlo Hlim Hsrc. induction fuel as [|fuel IH]; intros offset s Hb Hm Ho Hf Hfuel; [lia|].
  cbn [fill_loop]. destruct (offset <? limit) eqn:E.
  2: { exists s. replace (Z.max offset limit) with offset by lia. split; [done|]. split; [done|].
       split; [apply spent_refl|]. split; [done|]. intros w Hw. by replace ((va + offset <=? w) && (w <? va + limit)) with false by lia. }
  apply Z.ltb_lt in E. specialize (Hfuel E). rewrite virt_addr_add_ok by (unfold canonical; lia). cbn [mbind outcome_bind].
  set (v := va + offset) in *. destruct (Hm v ltac:(lia)) as (f & fl & Ht). unfold translate_addr at 1. rewrite Ht.
  cbn [fmap option_fmap option_map unwrap mbind outcome_bind fst].
  assert (user_page (v / 4096 * 4096)) as Hup by (apply user_page_of; lia).
  destruct (b_mapped _ _ _ _ Hb _ f fl Hup Ht) as (Hfo & _).
  destruct (proj2 (b_ready _ _ _ _ Hb) f Hfo) as [Hfok Hfc].
  rewrite virt_addr_add_ok; [|apply off_ok|by apply canonical_in_frame]. cbn [mbind outcome_bind].
  pose proof (Z.mod_pos_bound v 4096 ltac:(lia)) as Hmod.
  set (n := Z.min (limit - offset) (4096 - v mod 4096)). assert (0 < n) as Hn by lia.
  rewrite Hsrc by lia. cbn [mbind outcome_bind].
  assert (len (map d (seqZ offset n)) = n) as Hlen by (unfold len; rewrite length_map, length_seqZ; lia).
  destruct (write_chunk cr3 s0 root s v n f fl _ Hb ltac:(lia) ltac:(lia) Hn Hlen ltac:(lia) Ht) as (Hb' & Ht' & Hby).
  set (s1 := set_pmem _ s) in *. destruct (IH (offset + n) s1) as (s' & Hs' & Hb2 & Hsp & Ht2 & Hby2); [done| |lia|lia| |].
  { intros w Hw. destruct (Hm w Hw) as (g & gl & Hg). exists g, gl. by rewrite Ht'. }
  { intros Hlt. assert (n = 4096 - v mod 4096) as Hn4 by lia.
    replace (va + (offset + n)) with (v + n) by lia. rewrite Hn4. replace (v + (4096 - v mod 4096)) with ((v / 4096 + 1) * 4096)
      by (pose proof (Z.div_mod v 4096); lia). rewrite Z.mod_mul by lia. lia. }
  exists s'. rewrite Hs'. replace (Z.max (offset + n) limit) with (Z.max offset limit) by lia.
  split; [done|]. split; [done|]. split; [apply (spent_trans 0 0 _ s1); [apply spent_mem, spent_refl|done]|].
  split; [intros w; by rewrite Ht2|]. intros w Hw. rewrite Hby2, Hby by done. unfold v in *.
  destruct ((va + offset <=? w) && (w <? va + limit)) eqn:Ein.
  - destruct ((va + (offset + n) <=? w) && (w <? va + limit)) eqn:Ein2; [done|].
    replace ((va + offset <=? w) && (w <? va + offset + n)) with true by lia.
    rewrite zget_lookup by lia. change (map ?f ?l) with (f <$> l). rewrite list_lookup_fmap, lookup_seqZ_lt by lia.
    simpl. do 2 f_equal. lia.
  - replace ((va + (offset + n) <=? w) && (w <? va + limit)) with false by lia.
    by replace ((va + offset <=? w) && (w <? va + offset + n)) with false by lia.
Qed.

(** ** Loading the segments *)

(** The byte at offset [o] of a segment in memory. *)
Definition seg_byte (data : list byte) (ph : ProgramHeader) (o : Z) : byte :=
  if o <? file_size ph then default x00 (zget data (file_offset ph + o)) else x00.

Definition in_segment (ph : ProgramHeader) (w : Z) : Prop :=
  virtual_address ph <= w < virtual_address ph + memory_size ph.

(** The segment's bytes are in the file and its addresses in the user half. *)
Definition fits (data : list byte) (ph : ProgramHeader) : Prop :=
  0 <= file_offset ph /\ 0 <= file_size ph <= memory_size ph /\ file_offset ph + file_size ph <= len data /\
  user_range (virtual_address ph) (memory_size ph).

Definition segment_pages (ph : ProgramHeader) (v : Z) : Prop := region_page (virtual_address ph) (memory_size ph) v.

Record loaded (data : list byte) (ph : ProgramHeader) (root : Z) (s s' : S) : Prop := mkLoaded {
  ld_old : forall v, ~ segment_pages ph v -> translate s' root v = translate s root v;
  ld_kept : forall v e, user_page v -> translate s root v = Some e -> translate s' root v = Some e;
  ld_new : forall v, segment_pages ph v -> translate s root v = None ->
    exists f, translate s' root v = Some (f, Z.lor (Z.lor PRESENT USER_ACCESSIBLE) (segment_flags ph));
  ld_in : forall w, in_segment ph w -> user_byte s' root w = Some (seg_byte data ph (w - virtual_address ph));
  ld_out : forall w, 0 <= w < 2 ^ 47 -> ~ in_segment ph w -> is_Some (translate_addr s root w) ->
    user_byte s' root w = user_byte s root w }.

Lemma region_page_of va size w : 0 < size -> va <= w < va + size -> region_page va size (w / 4096 * 4096).
Proof.
  intros Hs Hw. split; [apply Z.mod_mul; lia|].
  assert (va / 4096 <= w / 4096) by (apply Z.div_le_mono; lia).
  assert (w / 4096 <= (va + size - 1) / 4096) by (apply Z.div_le_mono; lia). lia.
Qed.

Lemma extends_mapped root va size flags s s' : user_range va size -> extends root (region_page va size) flags s s' ->
  mapped_range s' root va size.
Proof.
  intros (Hva & Hsz & Hend) Hex w Hw. pose proof (region_page_of va size w Hsz Hw) as Hp.
  destruct (translate s root (w / 4096 * 4096)) as [[f fl]|] eqn:E.
  - exists f, fl. apply (ex_kept _ _ _ _ _ Hex); [apply user_page_of; lia|done].
  - destruct (ex_new _ _ _ _ _ Hex _ Hp E) as [f Hf]. by exists f, flags.
Qed.

Lemma segment_flags_ok ph : flags_ok (segment_flags ph).
Proof.
  unfold segment_flags. assert (flags_ok (if negb (Z.land (ph_flags ph) PF_W =? 0) then WRITABLE else 0)) by (by case_if).
  case_if; [apply flags_ok_lor; done|done].
Qed.

Lemma segment_flags_small ph : Z.land (segment_flags ph) HUGE_PAGE = 0.
Proof. unfold segment_flags. repeat case_if; reflexivity. Qed.

Lemma file_bytes_spec data ph o n : fits data ph -> len data <= isize_max -> 0 <= o -> 0 < n -> o + n <= file_size ph ->
  file_bytes data (file_offset ph) o n = Ret (map (seg_byte data ph) (seqZ o n)).
Proof.
  intros (Hfo & Hfs & Hlen & _) Hmax Ho Hn Hon. unfold file_bytes. rewrite add_u_Ret by (unfold isize_max in *; lia).
  cbn [mbind outcome_bind]. destruct (idx_returns data (file_offset ph + o)) as [b ->]; [lia|]. cbn [mbind outcome_bind].
  f_equal. apply list_eq. intros j. change (map ?f ?l) with (f <$> l). rewrite list_lookup_fmap.
  destruct (decide (Z.of_nat j < n)) as [Hj|Hj].
  - rewrite lookup_seqZ_lt by lia. simpl. unfold seg_byte. replace (o + Z.of_nat j <? file_size ph) with true by lia.
    pose proof (zget_sub_list data (file_offset ph + o) n (Z.of_nat j) ltac:(lia) ltac:(lia)) as Hg.
    rewrite (zget_lookup (sub_list _ _ _)), Nat2Z.id in Hg by lia. rewrite Hg, Z.add_assoc.
    by destruct (zget_is_Some data (file_offset ph + o + Z.of_nat j)) as [c ->]; [lia|].
  - rewrite lookup_seqZ_ge by lia. simpl. apply lookup_ge_None. unfold sub_list. rewrite length_take. lia.
Qed.

Lemma zero_bytes_spec data ph o n : file_size ph <= o -> 0 < n -> zero_bytes o n = Ret (map (seg_byte data ph) (seqZ o n)).
Proof.
  intros Ho Hn. unfold zero_bytes. f_equal. apply list_eq. intros j. change (map ?f ?l) with (f <$> l). rewrite list_lookup_fmap.
  destruct (decide (Z.of_nat j < n)) as [Hj|Hj].
  - rewrite lookup_seqZ_lt, (lookup_replicate_2 _ x00 j) by lia. simpl. unfold seg_byte.
    by replace (o + Z.of_nat j <? file_size ph) with false by lia.
  - rewrite lookup_seqZ_ge by lia. apply lookup_replicate_None. lia.
Qed.

Lemma fill_fuel_ok va n r : 0 <= r <= n -> (va mod 4096 + r <= 4096 * (Z.of_nat (fill_fuel n) - 1)) /\ (0 < fill_fuel n)%nat.
Proof.
  intros Hr. unfold fill_fuel. pose proof (Z.div_mod n 4096 ltac:(lia)). pose proof (Z.mod_pos_bound n 4096 ltac:(lia)).
  pose proof (Z.mod_pos_bound va 4096 ltac:(lia)). assert (0 <= n / 4096) by (apply Z.div_pos; lia). lia.
Qed.

(** Mapping and filling the segment. *)
Lemma fill_segment data ph cr3 s0 root s : building cr3 s0 root s -> fits data ph -> len data <= isize_max ->
  answers (4 * page_count (virtual_address ph) (memory_size ph)) s ->
  exists s1 s2 s3 k, map_user_region off root (virtual_address ph) (memory_size ph) (segment_flags ph) s = Ret s1 /\
    fill_loop off (fill_fuel (file_size ph)) root (virtual_address ph) (file_size ph)
      (file_bytes data (file_offset ph)) 0 s1 = Ret (file_size ph, s2) /\
    fill_loop off (fill_fuel (memory_size ph)) root (virtual_address ph) (memory_size ph) zero_bytes (file_size ph) s2 =
      Ret (memory_size ph, s3) /\
    (k <= 4 * page_count (virtual_address ph) (memory_size ph))%nat /\ spent k s s3 /\
    building cr3 s0 root s3 /\ loaded data ph root s s3.
Proof.
  intros Hb Hfit Hmax Hans. pose proof Hfit as (Hfo & Hfs & Hlen & Hur). pose proof Hur as (Hva & Hsz & Hend).
  destruct (map_user_region_spec cr3 s0 root _ _ (segment_flags ph) s Hb Hur (segment_flags_ok ph) (segment_flags_small ph) Hans)
    as (s1 & k & Hs1 & Hk & Hsp1 & Hb1 & Hex). pose proof (extends_mapped _ _ _ _ _ _ Hur Hex) as Hmr.
  destruct (fill_loop_spec cr3 s0 root (virtual_address ph) 0 (file_size ph) (seg_byte data ph)
    (file_bytes data (file_offset ph)) ltac:(lia) ltac:(lia) ltac:(lia)
    ltac:(intros o n ???; by apply file_bytes_spec) (fill_fuel (file_size ph)) 0 s1)
    as (s2 & Hs2 & Hb2 & Hsp2 & Ht2 & Hby2); [done|intros w Hw; apply Hmr; lia|lia| |intros _|].
  { apply (fill_fuel_ok 0 _ 0). lia. }
  { replace (file_size ph - 0) with (file_size ph) by lia. apply fill_fuel_ok. lia. }
  destruct (fill_loop_spec cr3 s0 root (virtual_address ph) (file_size ph) (memory_size ph) (seg_byte data ph)
    zero_bytes ltac:(lia) ltac:(lia) ltac:(lia) ltac:(intros o n ???; by apply zero_bytes_spec)
    (fill_fuel (memory_size ph)) (file_size ph) s2)
    as (s3 & Hs3 & Hb3 & Hsp3 & Ht3 & Hby3); [done| |lia| |intros _|].
  { intros w Hw. destruct (Hmr w Hw) as (f & fl & Hf). exists f, fl. by rewrite Ht2. }
  { apply (fill_fuel_ok 0 _ 0). lia. }
  { apply fill_fuel_ok. lia. }
  exists s1, s2, s3, k. replace (Z.max 0 (file_size ph)) with (file_size ph) in Hs2 by lia.
  replace (Z.max (file_size ph) (memory_size ph)) with (memory_size ph) in Hs3 by lia.
  split; [done|]. split; [done|]. split; [done|]. split; [done|]. split.
  { pose proof (spent_trans _ _ _ _ _ Hsp1 (spent_trans _ _ _ _ _ Hsp2 Hsp3)) as Hsp. by rewrite Nat.add_0_r in Hsp. }
  split; [done|]. destruct Hex as [Ho Hkp Hn Hby]. split.
  - intros v Hv. rewrite Ht3, Ht2. by apply Ho.
  - intros v e Hv Hve. rewrite Ht3, Ht2. by apply Hkp.
  - intros v Hv Hno. rewrite Ht3, Ht2. by apply Hn.
  - unfold in_segment. intros w Hw. rewrite Hby3 by lia. case_if; [done|]. rewrite Hby2 by lia.
    by replace ((virtual_address ph + 0 <=? w) && (w <? virtual_address ph + file_size ph)) with true by lia.
  - unfold in_segment. intros w Hw Hno Hm. rewrite Hby3, Hby2 by lia.
    replace ((virtual_address ph + file_size ph <=? w) && (w <? virtual_address ph + memory_size ph)) with false by lia.
    replace ((virtual_address ph + 0 <=? w) && (w <? virtual_address ph + file_size ph)) with false by lia.
    by apply Hby.
Qed.

(** The segments the loader loads, in order. *)
Definition loadable (data : list byte) (h : ElfHeader) (i : Z) : option ProgramHeader :=
  match segment_verdict data h i with
  | Ok (Some ph) => if memory_size ph =? 0 then None else Some ph
  | _ => None
  end.

Definition pages_of (segs : list ProgramHeader) : nat :=
  sum_list_with (fun ph => page_count (virtual_address ph) (memory_size ph)) segs.

Definition separate (p q : ProgramHeader) : Prop := forall w, in_segment p w -> ~ in_segment q w.

(** The flags of a page: those of the first segment with a byte in it. *)
Definition touches (v : Z) (ph : ProgramHeader) : bool :=
  (virtual_address ph / 4096 * 4096 <=? v) && (v <=? (virtual_address ph + memory_size ph - 1) / 4096 * 4096).

Definition segment_page_flags (segs : list ProgramHeader) (v : Z) : option Z :=
  (fun ph => Z.lor (Z.lor PRESENT USER_ACCESSIBLE) (segment_flags ph)) <$> find (touches v) segs.

Lemma touches_spec v ph : v mod 4096 = 0 -> segment_pages ph v <-> touches v ph = true.
Proof. unfold segment_pages, region_page, touches. lia. Qed.

(** The image of a list of segments in the user half. *)
Record image (data : list byte) (segs : list ProgramHeader) (root : Z) (s s' : S) : Prop := mkImage {
  im_old : forall v, (forall ph, ph ∈ segs -> ~ segment_pages ph v) -> translate s' root v = translate s root v;
  im_kept : forall v e, user_page v -> translate s root v = Some e -> translate s' root v = Some e;
  im_flags : forall v, translate s root v = None -> user_page v ->
    (fun e => e.2) <$> translate s' root v = segment_page_flags segs v;
  im_in : forall ph w, ph ∈ segs -> in_segment ph w ->
    user_byte s' root w = Some (seg_byte data ph (w - virtual_address ph));
  im_out : forall w, 0 <= w < 2 ^ 47 -> (forall ph, ph ∈ segs -> ~ in_segment ph w) ->
    is_Some (translate_addr s root w) -> user_byte s' root w = user_byte s root w }.

Lemma kept_addr s s' root w : (forall v e, user_page v -> translate s root v = Some e -> translate s' root v = Some e) ->
  0 <= w < 2 ^ 47 -> is_Some (translate_addr s root w) -> is_Some (translate_addr s' root w).
Proof.
  intros Hk Hw [a Ha]. unfold translate_addr in *. destruct (translate s root _) as [e|] eqn:E; [|done].
  rewrite (Hk _ _ (user_page_of w Hw) E). by eexists.
Qed.

Lemma image_cons data ph segs root s t u : user_range (virtual_address ph) (memory_size ph) -> Forall (separate ph) segs ->
  loaded data ph root s t -> image data segs root t u -> image data (ph :: segs) root s u.
Proof.
  intros (Hva & Hsz & Hend) Hsep [Ho Hk Hn Hi Hout] [Ho' Hk' Hfl' Hi' Hout']. split.
  - intros v Hv. rewrite Ho'; [apply Ho, Hv; left|]. intros q Hq. apply Hv. by right.
  - intros v e Hv Hve. by apply Hk', Hk.
  - intros v Hno Hv. unfold segment_page_flags. cbn [find]. pose proof (touches_spec v ph (proj1 Hv)) as Hts.
    destruct (touches v ph).
    + destruct (Hn v (proj2 Hts eq_refl) Hno) as [f Hf]. by rewrite (Hk' v _ Hv Hf).
    + apply Hfl'; [|done]. rewrite Ho; [done|]. intros Hbad. by apply Hts in Hbad.
  - intros q w Hq Hw. apply elem_of_cons in Hq as [->|Hq]; [|by apply Hi'].
    assert (user_byte t root w = Some (seg_byte data ph (w - virtual_address ph))) as Hb by (by apply Hi).
    rewrite Hout'; [done|unfold in_segment in Hw; lia| |].
    + intros q Hq Hqw. by apply (proj1 (Forall_forall _ _) Hsep q Hq w Hw).
    + unfold user_byte in Hb. destruct (translate_addr t root w); [by eexists|done].
  - intros w Hw Hno Hm. rewrite Hout', Hout; [done|done|apply Hno; left|done|done| |].
    + intros q Hq. apply Hno. by right.
    + by apply (kept_addr s t).
Qed.

(** A header as [parse_header] accepts it. *)
Definition header_ok (h : ElfHeader) : Prop := header_typed h /\ 56 <= program_header_entry_size h.

Lemma load_segment_skips data h root s i : len data <= isize_max -> header_ok h -> in_u16 i ->
  (exists o, segment_verdict data h i = Ok o) -> loadable data h i = None ->
  load_segment off data h root s i = Ret (Ok s).
Proof.
  intros Hmax [Ht He] Hi [o Ho] Hl. unfold load_segment, loadable in *.
  rewrite parse_program_header_eq by done. rewrite Ho in *. cbn [at_state mbind outcome_bind try_bind].
  destruct o as [ph|]; [|done]. by destruct (memory_size ph =? 0).
Qed.

Lemma load_segment_loads data h root s i ph cr3 s0 : len data <= isize_max -> header_ok h -> in_u16 i ->
  loadable data h i = Some ph -> fits data ph -> building cr3 s0 root s ->
  answers (4 * page_count (virtual_address ph) (memory_size ph)) s ->
  exists s' k, load_segment off data h root s i = Ret (Ok s') /\
    (k <= 4 * page_count (virtual_address ph) (memory_size ph))%nat /\ spent k s s' /\
    building cr3 s0 root s' /\ loaded data ph root s s'.
Proof.
  intros Hmax [Ht He] Hi Hl Hfit Hb Hans. pose proof Hfit as (Hfo & Hfs & Hlen & Hva & Hsz & Hend).
  destruct (fill_segment data ph cr3 s0 root s Hb Hfit Hmax Hans) as (s1 & s2 & s3 & k & H1' & H2' & H3' & Hk & Hsp & Hb3 & Hld).
  exists s3, k. split; [|done]. unfold load_segment, loadable in *. rewrite parse_program_header_eq by done.
  destruct (segment_verdict data h i) as [[q|]|]; [|done|done]. destruct (memory_size q =? 0) eqn:E; [done|].
  injection Hl as ->. cbn [at_state mbind outcome_bind try_bind]. rewrite E.
  assert (checked_add 64 (file_offset ph) (file_size ph) = Some (file_offset ph + file_size ph)) as ->.
  { apply checked_add_Some. unfold isize_max in Hmax. lia. }
  cbn [ok_or at_state mbind outcome_bind try_bind]. replace (len data <? file_offset ph + file_size ph) with false by lia.
  rewrite virt_addr_new_ok by (unfold canonical; lia). cbn [mbind outcome_bind]. rewrite H1'. cbn [mbind outcome_bind].
  rewrite H2'. cbn [mbind outcome_bind fst snd]. rewrite H3'. done.
Qed.

Lemma load_segments_spec data h root cr3 s0 : len data <= isize_max -> header_ok h -> forall l s,
  Forall in_u16 l -> (forall i, i ∈ l -> exists o, segment_verdict data h i = Ok o) ->
  Forall (fits data) (omap (loadable data h) l) -> ForallOrdPairs separate (omap (loadable data h) l) ->
  building cr3 s0 root s -> answers (4 * pages_of (omap (loadable data h) l)) s ->
  exists s' k, try_each (load_segment off data h root) l s = Ret (Ok s') /\
    (k <= 4 * pages_of (omap (loadable data h) l))%nat /\ spent k s s' /\
    building cr3 s0 root s' /\ image data (omap (loadable data h) l) root s s'.
Proof.
  intros Hmax Hh. induction l as [|i l IH]; intros s Hl Hv Hfit Hsep Hb Hans.
  { exists s, O. split; [done|]. split; [lia|]. split; [apply spent_refl|]. split; [done|]. split; try done.
    - intros v Hno _. by rewrite Hno.
    - intros ph w Hph. by apply elem_of_nil in Hph. }
  inversion Hl as [|? ? Hi Hl']; subst. cbn [try_each].
  change (omap (loadable data h) (i :: l)) with
    (match loadable data h i with Some ph => ph :: omap (loadable data h) l | None => omap (loadable data h) l end) in *.
  assert (forall i, i ∈ l -> exists o, segment_verdict data h i = Ok o) as Hv' by (intros; apply Hv; by right).
  destruct (loadable data h i) as [ph|] eqn:E.
  - inversion Hfit as [|? ? Hf Hfit']; subst. inversion Hsep as [|? ? Hs Hsep']; subst.
    cbn [pages_of sum_list_with] in Hans. rewrite Nat.mul_add_distr_l in Hans.
    destruct (load_segment_loads data h root s i ph cr3 s0 Hmax Hh Hi E Hf Hb) as (t & k & -> & Hk & Hsp & Hbt & Hld).
    { eapply answers_le; [|exact Hans]. lia. }
    cbn [try_bind]. destruct (IH t Hl' Hv' Hfit' Hsep' Hbt) as (u & j & -> & Hj & Hsp' & Hbu & Him).
    { eapply (answers_spent k); [exact Hsp|]. eapply answers_le; [|exact Hans]. unfold pages_of. lia. }
    exists u, (k + j)%nat. split; [done|]. split; [cbn [pages_of sum_list_with]; unfold pages_of in Hj; lia|].
    split; [exact (spent_trans _ _ _ _ _ Hsp Hsp')|]. split; [done|]. apply (image_cons data ph _ root s t u); [apply Hf|done|done|done].
  - rewrite (load_segment_skips data h root s i) by (try done; apply Hv; left). cbn [try_bind]. by apply IH.
Qed.

(** Frames handed out and memory written outside the tables in use. *)
Lemma spent_coherent n s t (live : Z -> Prop) : spent n s t -> coherent s live ->
  (forall root p x, live root -> tables_of s root p -> in_page p x -> pmem t x = pmem s x) -> coherent t live.
Proof.
  intros Hsp Hco Hm. assert (exists t0, t = set_pmem (pmem t) t0 /\ pmem t0 = pmem s /\ coherent t0 live /\
    forall root p, tables_of t0 root p <-> tables_of s root p) as (t0 & Ht & Hp & Hc & Htb).
  { clear Hm. induction Hsp as [s|n s t m _ IH|n s t f u _ IH Hal].
    - exists s. by rewrite set_pmem_get.
    - destruct (IH Hco) as (t0 & Ht & Hp & Hs). exists t0. split; [|done]. rewrite pmem_set, Ht. apply set_pmem_twice.
    - destruct (IH Hco) as (t0 & Ht & Hp & Hs & Htb). pose proof (allocate_frame_set (pmem t0) t _ u Hal) as Hal'.
      rewrite Ht, set_pmem_twice, set_pmem_get in Hal'. exists (set_pmem (pmem t0) u).
      split; [by rewrite set_pmem_twice, set_pmem_get|]. split; [by rewrite pmem_set|]. split.
      + rewrite <- take_frame_allocates in Hal'. exact (proj2 (take_frame_ok _ _ _ Hal') _ Hs).
      + intros root p. rewrite <- Htb. apply (same_tables _ _ _ _ _ (allocate_space _ _ _ root Hal')). }
  rewrite Ht. apply coherent_frame; [done|]. intros root p x Hl Hp' Hx. rewrite Hp. apply (Hm root p x Hl); [by apply Htb|done].
Qed.

(** The same for the translations of one space. *)
Lemma spent_space n s t root : spent n s t ->
  (forall p x, tables_of s root p -> in_page p x -> pmem t x = pmem s x) ->
  same_space (fun s => tables_of s root) (fun s => plain s root) root s t.
Proof.
  intros Hsp Hm. assert (exists t0, t = set_pmem (pmem t) t0 /\ pmem t0 = pmem s /\
    same_space (fun s => tables_of s root) (fun s => plain s root) root s t0) as (t0 & Ht & Hp & [Htr Htb Hpl]).
  { clear Hm. induction Hsp as [s|n s t m _ IH|n s t f u _ IH Hal].
    - exists s. rewrite set_pmem_get. by split.
    - destruct IH as (t0 & Ht & Hp & Hs). exists t0. split; [|done]. rewrite pmem_set, Ht. apply set_pmem_twice.
    - destruct IH as (t0 & Ht & Hp & Hs). pose proof (allocate_frame_set (pmem t0) t _ u Hal) as Hal'.
      rewrite Ht, set_pmem_twice, set_pmem_get in Hal'. exists (set_pmem (pmem t0) u).
      split; [by rewrite set_pmem_twice, set_pmem_get|]. split; [by rewrite pmem_set|].
      destruct (allocate_space _ _ _ root Hal') as [Ht1 Htb1 Hpl1]. destruct Hs as [Ht2 Htb2 Hpl2].
      split; [intros v; by rewrite Ht1|intros p; by rewrite Htb1|intros v; by rewrite Hpl1]. }
  rewrite Ht. destruct (tables_frame t0 (pmem t) root) as [Ht1 Htb1 Hpl1].
  { intros p x Hp' Hx. rewrite Hp. apply Hm with p; [by apply Htb|done]. }
  split; [intros v; by rewrite Ht1|intros p; by rewrite Htb1|intros v; by rewrite Hpl1].
Qed.

(** ** The whole program *)

(** The running address space, whose tables are not in the allocator's pool. *)
Record kernel_space (s : S) (cr3 : Z) : Prop := mkKernelSpace {
  ks_ready : ready off s;
  ks_root : root_ok off s cr3;
  ks_tables : forall f, owned s f -> ~ tables_of s cr3 (off + f);
  ks_pages : forall p, tables_of s cr3 p -> p mod 4096 = 0;
  ks_coherent : coherent s (fun r => r = cr3) }.

Definition kernel_half (v : Z) : Prop := 2 ^ 64 - 2 ^ 47 <= v < 2 ^ 64.

Lemma create_building s cr3 : kernel_space s cr3 -> answers 1 s ->
  exists root s1, create_process_pml4 off cr3 s = Ret (root, s1) /\ spent 1 s s1 /\
    building cr3 s root s1 /\ (forall v, user_page v -> translate s1 root v = None) /\
    forall v, kernel_half v -> translate s1 root v = translate s cr3 v.
Proof.
  intros [Hr Hroot Hkt Hkp Hco] Hans. pose proof (create_process_pml4_spec off off_ok cr3 s Hr Hroot) as Hc.
  destruct (create_process_pml4 off cr3 s) as [[root s1]| |]; [|done|done].
  destruct Hc as (Hsp & Hown & Hown1 & Hent & Hmem). exists root, s1. split; [done|]. split; [done|].
  destruct (proj2 Hr root Hown) as [Hrf Hrc]. destruct Hroot as (Hcf & _ & Hno).
  assert (off + root <> off + cr3) as Hne. { intros Hbad. apply Hno. by replace cr3 with root by lia. }
  pose proof (window_page off off_ok root Hrf) as Hpr.
  destruct (spent_space 1 s s1 cr3 Hsp) as [Htr Htb Hplk].
  { intros p x Hp Hx. apply Hmem. apply (pages_disjoint p); [by apply Hkp|done| |done].
    intros ->. by apply (Hkt root Hown). }
  assert (forall i, 0 <= i < 512 -> entry_at (pmem s1) (off + root) i =
    if i <? 256 then 0 else entry_at (pmem s1) (off + cr3) i) as Hsame.
  { intros i Hi. rewrite Hent by done. case_if; [done|]. symmetry. apply entry_at_ext. intros x Hx. apply Hmem.
    apply slot_in_page in Hx; [|done]. apply (pages_disjoint (off + cr3)); [by apply (window_page off off_ok)|done|by intros ?|done]. }
  destruct (new_root s1 root cr3) as (Hu & Hk & Htab & Hpl); [intros ->; by apply Hne|done|done|exact Hsame|].
  assert (forall p x, tables_of s cr3 p -> in_page p x -> pmem s1 x = pmem s x) as Hkeep.
  { intros p x Hp Hx. apply Hmem. apply (pages_disjoint p); [by apply Hkp|done| |done]. intros ->. by apply (Hkt root Hown). }
  split; [|split; [done|]]; [|intros v Hv; by rewrite Hk, Htr].
  split; try done.
  - exact (spent_after _ _ _ Hsp).
  - intros p Hp. destruct (Htab p Hp) as [->|Hp']; [right; by exists root|left; by apply Htb].
  - intros v f fl Hv. by rewrite Hu.
  - intros v w f fl fl' Hv _. by rewrite Hu.
  - intros p Hp. left. by apply Htb.
  - intros v Hv. by apply Hplk.
  - apply (coherent_new s1 root cr3 (fun r => r = cr3)); try done.
    + apply (spent_coherent 1 s s1 _ Hsp Hco). intros r p x ->. apply Hkeep.
    + intros r -> Hbad. by apply (Hkt root Hown), Htb.
Qed.

(** The running address space survives the building of another. *)
Lemma building_keeps s cr3 root s1 : kernel_space s cr3 -> building cr3 s root s1 -> kernel_space s1 cr3.
Proof.
  intros [Hr (Hcf & Hcc & Hno) Hkt Hkp Hco] Hb. pose proof (b_after _ _ _ _ Hb) as Ha.
  destruct (after_keeps _ _ Ha (proj1 Hr)) as [_ Hown].
  assert (forall p, tables_of s1 cr3 p -> tables_of s cr3 p \/ granted off s s1 p) as Htab.
  { intros p Hp. destruct (b_running _ _ _ _ Hb p Hp) as [Hp'|[Hp' _]]; [by left|by apply (b_tables _ _ _ _ Hb)]. }
  split; [by apply (ready_after off s)|by split_and!; auto| | |].
  - intros f Hf Hbad. apply Htab in Hbad as [Hbad|(g & _ & Hg & Heq)]; [by apply (Hkt f); [apply Hown|]|].
    apply Hg. by replace g with f by lia.
  - intros p Hp. apply Htab in Hp as [Hp|Hp]; [by apply Hkp|]. exact (granted_page off off_ok _ _ _ Hr Hp).
  - apply (coherent_mono s1 _ _ (b_coherent _ _ _ _ Hb)). by intros r ->; right.
Qed.

Definition stack_page (v : Z) : Prop := region_page STACK_START USER_STACK_BYTES v.
Definition stack_flags : Z := Z.lor (Z.lor PRESENT USER_ACCESSIBLE) WRITABLE.

Definition program_frames (data : list byte) (h : ElfHeader) : nat :=
  (1 + (4 * 8 + 4 * pages_of (omap (loadable data h) (seqZ 0 (program_header_count h)))))%nat.

(** A program that can be loaded: header and program headers are well formed,
    every segment fits, no two segments share a byte, and there are frames
    enough: one for the top-level table, and one for each page and at most
    three for its tables. *)
Record runnable (data : list byte) (h : ElfHeader) (s : S) : Prop := mkRunnable {
  rn_size : len data <= isize_max;
  rn_header : parse_header data = Ret (Ok h);
  rn_entry : canonical (entry h);
  rn_table : forall i, 0 <= i < program_header_count h -> exists o, segment_verdict data h i = Ok o;
  rn_fits : Forall (fits data) (omap (loadable data h) (seqZ 0 (program_header_count h)));
  rn_apart : ForallOrdPairs separate (omap (loadable data h) (seqZ 0 (program_header_count h)));
  rn_frames : answers (program_frames data h) s }.

Lemma parse_header_ok data h : parse_header data = Ret (Ok h) -> header_ok h.
Proof.
  rewrite parse_header_eq. intros [= Hh]. apply header_verdict_Ok in Hh as [Hc ->].
  split; [apply header_fields_typed|]. unfold header_checks in Hc. rewrite !Forall_cons in Hc.
  destruct Hc as (_ & _ & _ & _ & _ & _ & Hc & _). simpl in Hc. unfold header_fields. simpl. lia.
Qed.

(** What the rest of [new_from_elf] makes of the loop over the segments. *)
Definition finish (process : Process) (pid : Z) (r : result (ParseError * S) S)
    : outcome (result (ParseError * Procs) (Process * Procs)) :=
  Ret match r with Ok s => Ok (process, mkProcs pid s) | Err (e, s) => Err (e, mkProcs pid s) end.

(** Everything up to the loop: the new root with its stack. *)
Lemma new_from_elf_start cr3 data h (k : Procs) m : kernel_space (mach k) cr3 -> parse_header data = Ret (Ok h) ->
  canonical (entry h) -> answers (1 + (4 * 8 + m)) (mach k) ->
  exists root s, new_from_elf off cr3 data k =
      (r ← try_each (load_segment off data h root) (seqZ 0 (program_header_count h)) s;
       finish (mkProcess (next_pid k) root (entry h) (STACK_START + USER_STACK_BYTES)) (wrap 64 (next_pid k + 1)) r) /\
    building cr3 (mach k) root s /\ (exists j, (j <= 1 + 4 * 8)%nat /\ spent j (mach k) s) /\ answers m s /\
    (forall v, stack_page v -> exists f, translate s root v = Some (f, stack_flags)) /\
    (forall v, user_page v -> ~ stack_page v -> translate s root v = None) /\
    (forall v, kernel_half v -> translate s root v = translate (mach k) cr3 v).
Proof.
  intros Hks Hh Hent Hans. unfold new_from_elf. rewrite Hh. cbn [at_state mbind outcome_bind try_bind].
  destruct (create_building (mach k) cr3 Hks) as (root & s1 & -> & Hsp1 & Hb1 & Hno & Hkern).
  { eapply answers_le; [|exact Hans]. lia. }
  cbn [mbind outcome_bind]. assert (user_range STACK_START USER_STACK_BYTES) as Hur by done.
  rewrite (virt_addr_new_ok STACK_START) by (unfold canonical, STACK_START; lia). cbn [mbind outcome_bind].
  rewrite (virt_addr_add_ok STACK_START USER_STACK_BYTES) by (unfold canonical, STACK_START, USER_STACK_BYTES; lia).
  cbn [mbind outcome_bind ProcessId_new]. rewrite virt_addr_new_ok by done. cbn [mbind outcome_bind].
  apply (answers_spent 1 _ _ s1 Hsp1) in Hans.
  assert (page_count STACK_START USER_STACK_BYTES = 8%nat) as Hpc by (vm_compute; reflexivity).
  destruct (map_user_region_spec _ _ root STACK_START USER_STACK_BYTES WRITABLE s1 Hb1 Hur)
    as (s2 & j & -> & Hj & Hsp2 & Hb2 & Hex); [done|done|rewrite Hpc; eapply answers_le; [|exact Hans]; lia|].
  rewrite Hpc in Hj. cbn [mbind outcome_bind].
  destruct (b_root _ _ _ _ Hb2) as (_ & Hrc & _). rewrite (table_ptr_ok off off_ok) by done. cbn [mbind outcome_bind].
  exists root, s2. split; [done|]. split; [done|].
  split; [exists (1 + j)%nat; split; [lia|exact (spent_trans _ _ _ _ _ Hsp1 Hsp2)]|]. split; [|split; [|split]].
  - eapply (answers_spent j); [exact Hsp2|]. eapply answers_le; [|exact Hans]. lia.
  - intros v Hv. apply (ex_new _ _ _ _ _ Hex v Hv), Hno. destruct Hv as [Hm Hb]. split; [done|].
    change (0x700000000000 <= v <= 0x700000007000) in Hb. lia.
  - intros v Hv Hns. rewrite (ex_old _ _ _ _ _ Hex) by done. by apply Hno.
  - intros v Hv. rewrite (ex_old _ _ _ _ _ Hex); [by apply Hkern|]. intros [_ Hb].
    change (0x700000000000 <= v <= 0x700000007000) in Hb. unfold kernel_half in Hv. lia.
Qed.

Lemma header_indices h n : header_ok h -> 0 <= n <= program_header_count h -> Forall in_u16 (seqZ 0 n).
Proof.
  intros [(_ & _ & _ & Hc) _] Hn. apply Forall_forall. intros i Hi%elem_of_seqZ. unfold in_range in *. lia.
Qed.

Lemma new_from_elf_spec cr3 data h (k : Procs) : kernel_space (mach k) cr3 -> runnable data h (mach k) ->
  let segs := omap (loadable data h) (seqZ 0 (program_header_count h)) in
  exists root s, new_from_elf off cr3 data k =
      Ret (Ok (mkProcess (next_pid k) root (entry h) (STACK_START + USER_STACK_BYTES),
               mkProcs (wrap 64 (next_pid k + 1)) s)) /\
    building cr3 (mach k) root s /\ (exists j, (j <= program_frames data h)%nat /\ spent j (mach k) s) /\
    (forall ph w, ph ∈ segs -> in_segment ph w -> user_byte s root w = Some (seg_byte data ph (w - virtual_address ph))) /\
    (forall v, user_page v -> ~ stack_page v -> (fun e => e.2) <$> translate s root v = segment_page_flags segs v) /\
    (forall v, stack_page v -> exists f, translate s root v = Some (f, stack_flags)) /\
    (forall v, kernel_half v -> translate s root v = translate (mach k) cr3 v).
Proof.
  intros Hks [Hmax Hh Hent Htab Hfit Hsep Hans] segs. pose proof (parse_header_ok data h Hh) as Hhok.
  destruct (new_from_elf_start cr3 data h k _ Hks Hh Hent Hans) as (root & s2 & -> & Hb2 & (j & Hj & Hsp) & Hans2 & Hst & Hno & Hkern).
  pose proof (proj2 (proj2 (proj2 (proj1 Hhok)))) as Hcnt. unfold in_range in Hcnt.
  destruct (load_segments_spec data h root cr3 (mach k) Hmax Hhok (seqZ 0 (program_header_count h)) s2)
    as (s3 & i & -> & Hi & Hsp' & Hb3 & Him); [apply (header_indices h); [done|lia]|intros i Hi%elem_of_seqZ; apply Htab; lia|done..|].
  exists root, s3. split; [done|]. split; [done|].
  split; [exists (j + i)%nat; split; [unfold program_frames; lia|exact (spent_trans _ _ _ _ _ Hsp Hsp')]|]. split; [apply (im_in _ _ _ _ _ Him)|]. split; [|split].
  - intros v Hv Hns. by apply (im_flags _ _ _ _ _ Him); [apply Hno|].
  - intros v Hv. destruct (Hst v Hv) as [f Hf]. exists f. apply (im_kept _ _ _ _ _ Him); [|done].
    destruct Hv as [Hm Hb]. split; [done|]. change (0x700000000000 <= v <= 0x700000007000) in Hb. lia.
  - intros v Hv. rewrite (im_old _ _ _ _ _ Him); [by apply Hkern|]. intros ph Hph [_ Hb].
    destruct (proj1 (Forall_forall _ _) Hfit ph Hph) as (_ & _ & _ & Hva & Hsz & Hend). unfold kernel_half in Hv.
    pose proof (Z.mul_div_le (virtual_address ph + memory_size ph - 1) 4096). lia.
Qed.

(** ** Errors *)

(** The error of a program header that cannot be loaded. *)
Definition bad_entry (data : list byte) (h : ElfHeader) (i : Z) : option ParseError :=
  match segment_verdict data h i with
  | Err e => Some e
  | Ok (Some ph) =>
      if negb (memory_size ph =? 0) && (len data <? file_offset ph + file_size ph)
      then Some ProgramHeaderOutOfBounds else None
  | Ok None => None
  end.

Lemma load_segment_fails data h root s i e : len data <= isize_max -> header_ok h -> in_u16 i ->
  bad_entry data h i = Some e -> load_segment off data h root s i = Ret (Err (e, s)).
Proof.
  intros Hmax [Ht He] Hi Hbad. unfold load_segment, bad_entry in *. rewrite parse_program_header_eq by done.
  destruct (segment_verdict data h i) as [[ph|]|e']; cbn [at_state mbind outcome_bind try_bind] in *; [|done|by injection Hbad as ->].
  destruct (memory_size ph =? 0); [done|]. cbn [negb andb] in Hbad.
  destruct (len data <? file_offset ph + file_size ph) eqn:E; [|done]. injection Hbad as <-.
  unfold checked_add. case_if; cbn [ok_or at_state mbind outcome_bind try_bind]; [by rewrite E|done].
Qed.

Lemma try_each_app {E A T} (f : T -> A -> outcome (result E T)) l l' t :
  try_each f (l ++ l') t = (t' ←? try_each f l t; try_each f l' t').
Proof. revert t. induction l as [|x l IH]; intros t; [done|]. cbn [app try_each]. by destruct (f t x) as [[]| |]; cbn [try_bind]. Qed.

Lemma new_from_elf_bad_header cr3 data (k : Procs) e :
  parse_header data = Ret (Err e) -> new_from_elf off cr3 data k = Ret (Err (e, k)).
Proof. intros Hh. unfold new_from_elf. by rewrite Hh. Qed.

(** The first [n] program headers are fine and the next is not: its error is
    returned, and the frames handed out for the others are lost. *)
Lemma new_from_elf_bad_segment cr3 data h (k : Procs) n e :
  kernel_space (mach k) cr3 -> len data <= isize_max -> parse_header data = Ret (Ok h) -> canonical (entry h) ->
  0 <= n < program_header_count h -> bad_entry data h n = Some e ->
  (forall i, 0 <= i < n -> exists o, segment_verdict data h i = Ok o) ->
  let segs := omap (loadable data h) (seqZ 0 n) in
  Forall (fits data) segs -> ForallOrdPairs separate segs -> answers (1 + (4 * 8 + 4 * pages_of segs)) (mach k) ->
  exists s, new_from_elf off cr3 data k = Ret (Err (e, mkProcs (wrap 64 (next_pid k + 1)) s)) /\
    (forall f, owned s f -> owned (mach k) f) /\ exists f, owned (mach k) f /\ ~ owned s f.
Proof.
  intros Hks Hmax Hh Hent Hn Hbad Htab segs Hfit Hsep Hans. pose proof (parse_header_ok data h Hh) as Hhok.
  destruct (new_from_elf_start cr3 data h k _ Hks Hh Hent Hans) as (root & s2 & -> & Hb2 & _ & Hans2 & _).
  pose proof (proj2 (proj2 (proj2 (proj1 Hhok)))) as Hcnt. unfold in_range in Hcnt.
  replace (program_header_count h) with (n + (1 + (program_header_count h - n - 1))) by lia.
  rewrite seqZ_app, (seqZ_app _ 1), try_each_app by lia. change (seqZ (0 + n) 1) with [0 + n]. rewrite Z.add_0_l.
  destruct (load_segments_spec data h root cr3 (mach k) Hmax Hhok (seqZ 0 n) s2)
    as (s3 & i & -> & _ & _ & Hb3 & _); [apply (header_indices h); [done|lia]|intros i Hi%elem_of_seqZ; apply Htab; lia|done..|].
  cbn [try_bind app try_each]. rewrite (load_segment_fails data h root s3 n e) by (try done; unfold in_range; lia).
  cbn [try_bind mbind outcome_bind]. exists s3. split; [done|]. destruct (b_root _ _ _ _ Hb3) as (_ & _ & H1' & H2').
  split; [apply (after_keeps _ _ (b_after _ _ _ _ Hb3)), Hks|by exists root].
Qed.
End Image.

(** ** Fork *)

Section Fork.
Context {S : Type} `{Machine S} `{VirtAddrs} `{PageEntries} (off : Z).
Hypothesis off_ok : off mod 4096 = 0 /\ canonical off.

(** The parent's user half is a tree of tables in [live] pages that the
    allocator does not own. *)
Record forkable (live : Z -> Prop) (src : Z) (s : S) : Prop := mkForkable {
  fk_ready : ready off s;
  fk_live : forall p, live p -> p mod 4096 = 0;
  fk_owned : forall f, owned s f -> ~ live (off + f);
  fk_src : live (off + src) /\ canonical (off + src);
  fk_tree : forall i, 0 <= i < 256 -> let e := entry_at (pmem s) (off + src) i in e = 0 \/ tree off live (pmem s) 3 e }.

(** The new top-level table is a destination for the clone. *)
Lemma fork_clonable live src cr3 nf s s1 : forkable live src s -> fresh_root off cr3 nf s s1 ->
  clonable off live src nf s1 /\ user_tables off s1 src = user_tables off s src /\ same_live live (pmem s) (pmem s1).
Proof.
  intros [Hr Hal Hown [Hsl Hsc] Htree] (Hsp & Hnf & Hnf1 & Hent & Hmem).
  destruct (proj2 Hr nf Hnf) as [Hnfok Hnfc]. pose proof (window_page off off_ok nf Hnfok) as Hpn.
  pose proof (spent_after _ _ _ Hsp) as Ha. destruct (after_keeps _ _ Ha (proj1 Hr)) as [_ Ho].
  assert (same_live live (pmem s) (pmem s1)) as Hm.
  { intros p x Hp Hx. apply Hmem. apply (pages_disjoint p); [by apply Hal|done| |done]. intros ->. by apply (Hown nf). }
  assert (forall i, 0 <= i < 256 -> entry_at (pmem s1) (off + src) i = entry_at (pmem s) (off + src) i) as He.
  { intros i Hi. apply (same_live_entry live); [done|done|lia]. }
  split; [|split; [|done]].
  - split; [by apply (ready_after off s)| |done|done| |].
    + split; [done|by apply Hown|done| |].
      * intros f Hf. by apply Hown, Ho.
      * intros f Hf Hbad. apply Hnf1. by replace nf with f by lia.
    + intros i Hi. cbn zeta. rewrite He by done. destruct (Htree i Hi) as [->|Ht]; [by left|right].
      by apply (tree_ext off live (pmem s) (pmem s1)).
    + intros i Hi. rewrite Hent by lia. by replace (i <? 256) with true by lia.
  - unfold user_tables, tables_below. apply sum_list_with_eq. intros i Hi%elem_of_seqZ. rewrite He by lia.
    destruct (Htree i) as [->|Ht]; [lia|by rewrite !tables_zero|].
    by apply (tree_ext off live (pmem s) (pmem s1) 3 (entry_at (pmem s) (off + src) i)).
Qed.

Lemma fork_spec live cr3 p (k : Procs) : forkable live (pml4_frame p) (mach k) -> root_ok off (mach k) cr3 ->
  answers (1 + user_tables off (mach k) (pml4_frame p)) (mach k) ->
  exists child s, fork off cr3 p k = Ret (child, mkProcs (wrap 64 (next_pid k + 1)) s) /\
    proc_id child = next_pid k /\ entry_point child = entry_point p /\ stack_top child = stack_top p /\
    owned (mach k) (pml4_frame child) /\
    (forall i path, 0 <= i < 256 -> path_ok 3 path ->
       option_Forall2 (copied true) (page_entry off (pmem (mach k)) (pml4_frame p) (i :: path))
         (page_entry off (pmem s) (pml4_frame child) (i :: path))) /\
    (forall i, 256 <= i < 512 -> entry_at (pmem s) (off + pml4_frame child) i =
       entry_at (pmem (mach k)) (off + pml4_frame p) i) /\
    (forall x, (forall q, granted off (mach k) s q -> ~ in_page q x) -> pmem s x = pmem (mach k) x).
Proof.
  intros Hf Hroot Hans. unfold fork. set (s0 := mach k) in *. set (src := pml4_frame p) in *.
  pose proof (create_process_pml4_spec off off_ok cr3 s0 (fk_ready _ _ _ Hf) Hroot) as Hc.
  destruct (create_process_pml4 off cr3 s0) as [[nf s1]| |]; [| |done].
  2: { exfalso. apply Hc. eapply answers_le; [|exact Hans]. lia. }
  destruct (fork_clonable live src cr3 nf s0 s1 Hf Hc) as (Hcl & Hut & Hm).
  destruct Hc as (Hsp & Hnf & Hnf1 & Hent & Hmem). cbn [mbind outcome_bind].
  pose proof (clone_user_mappings_cow_spec off off_ok live src nf s1 Hcl) as Hcow.
  destruct (clone_user_mappings_cow off src nf s1) as [s2| |]; [| |destruct Hcow].
  2: { exfalso. apply Hcow. rewrite Hut. by apply (answers_spent 1 _ s0 s1 Hsp). }
  destruct Hcow as [(Hsp2 & Hpg & Hx) Hkern]. cbn [mbind outcome_bind ProcessId_new].
  exists (mkProcess (next_pid k) nf (entry_point p) (stack_top p)), s2. cbn [next_pid mach proc_id entry_point stack_top pml4_frame].
  split; [done|]. split; [done|]. split; [done|]. split; [done|]. split; [done|].
  pose proof (spent_after _ _ _ Hsp) as Ha1. pose proof (spent_after _ _ _ Hsp2) as Ha2.
  pose proof (proj1 (fk_ready _ _ _ Hf)) as Hok. destruct (after_keeps _ _ Ha1 Hok) as [Hok1 _].
  destruct (after_keeps _ _ Ha2 Hok1) as [_ Ho2]. destruct (fk_src _ _ _ Hf) as [Hsl _].
  split; [|split].
  - intros i path Hi Hp. specialize (Hpg i path Hi Hp). unfold page_entry in *.
    rewrite (same_live_entry live _ _ (off + src) i Hm Hsl) in Hpg by lia.
    rewrite (same_live_walk off live (pmem s0)) in Hpg; [done|done|by apply Hf|done].
  - intros i Hi. rewrite Hkern by done. apply (same_live_entry live); [done|done|lia].
  - intros x Hno. assert (granted off s0 s2 (off + nf)) as Hg. { exists nf. split; [done|]. split; [|done]. intros Hb. by apply Hnf1, Ho2. }
    rewrite Hx, Hmem; [done|by apply Hno|by apply Hno|].
    intros q Hq. apply Hno. eapply granted_trans; [done|exact Ha1|exact Ha2|by right].
Qed.
End Fork.
