(* ===== verification/FlatSpaces.v ===== *)
(** * A concrete page-table mapper

    An instance of the mapper interface ([X86.AddressSpaces],
    [Process.Mapper]): top-level tables are words of memory, the leaf entries
    of an address space are kept in flat arrays beyond the physical addresses,
    used only below top-level entries that are present. *)

From S2P Require Import Prelude X86 FrameAlloc Paging Process.

Module Flat.
Definition off : Z := Paging.demo_offset.

(** The entry for [page] in the array of [root], and the part of the array
    below one top-level entry. *)
Definition shadow (root page : Z) : Z := 2 ^ 65 + 8 * (root / 4096 * 2 ^ 35 + page / 4096).
Definition area (root i : Z) : Z := 2 ^ 65 + 8 * (root / 4096 * 2 ^ 35 + i * 2 ^ 27).

Definition covered (root page : Z) : bool :=
  (root mod 4096 =? 0) && (0 <=? root) && (root <? 2 ^ 52) && (page mod 4096 =? 0) && (0 <=? page) && (page <? 2 ^ 47).
Definition present (e : Z) : bool := negb (Z.land (entry_flags e) PRESENT =? 0).
Definition top (m : mem) (root page : Z) : Z := entry_at m (off + root) (p4_index page).

Definition flat_translate (m : mem) (root page : Z) : option (Z * Z) :=
  let e := entry_at m (shadow root page) 0 in
  if covered root page && present (top m root page) && present e then Some (entry_addr e, entry_flags e) else None.

Definition clear_area (m : mem) (root i : Z) : mem :=
  fun x => if (area root i <=? x) && (x <? area root i + 2 ^ 30) then x00 else m x.

(** An absent top-level entry is first filled, over an empty part. *)
Definition flat_prepare (m : mem) (root page : Z) : mem :=
  if present (top m root page) then m
  else put_entry (clear_area m root (p4_index page)) (off + root) (p4_index page) 7.

Definition flat_map (m : mem) (root page frame flags : Z) : bool * mem :=
  if covered root page && bool_decide (flat_translate m root page = None) &&
     bool_decide (frame mod 4096 = 0 /\ 0 <= frame < 2 ^ 52) &&
     bool_decide ((0 <= flags < 2 ^ 64) /\ Z.land flags ADDR_MASK = 0 /\ Z.land flags PRESENT <> 0)
  then (true, put_entry (flat_prepare m root page) (shadow root page) 0 (Z.lor frame flags))
  else (false, m).

Lemma top_index page : 0 <= page < 2 ^ 47 -> p4_index page = page / 2 ^ 39 /\ 0 <= page / 2 ^ 39 < 256.
Proof.
  intros Hp. assert (0 <= page / 2 ^ 39 < 256) as Hb.
  { split; [apply Z.div_pos; lia|apply Z.div_lt_upper_bound; lia]. }
  split; [|done]. rewrite table_index_spec by lia. apply Z.mod_small. lia.
Qed.

Lemma covered_inv root page : covered root page = true ->
  frame_ok root /\ user_page page /\ 0 <= p4_index page < 256 /\
  area root (p4_index page) <= shadow root page /\ shadow root page + 8 <= area root (p4_index page) + 2 ^ 30 /\
  2 ^ 65 <= shadow root page /\ 2 ^ 65 <= area root (p4_index page).
Proof.
  unfold covered. intros Hc. repeat apply andb_prop in Hc as [Hc ?]. assert (0 <= page < 2 ^ 47) as Hp by lia.
  destruct (top_index page Hp) as [Hi Hb]. rewrite Hi. split; [unfold frame_ok; lia|]. split; [unfold user_page; lia|].
  split; [done|]. assert (page / 2 ^ 39 = page / 4096 / 2 ^ 27) as Hd.
  { rewrite Z.div_div by lia. done. }
  pose proof (Z.div_mod (page / 4096) (2 ^ 27) ltac:(lia)). pose proof (Z.mod_pos_bound (page / 4096) (2 ^ 27) ltac:(lia)).
  assert (0 <= page / 4096) by (apply Z.div_pos; lia). assert (0 <= root / 4096) by (apply Z.div_pos; lia).
  unfold area, shadow. rewrite Hd in *. lia.
Qed.

(** Numbers of a covered pair: root, page, top-level index. *)
Lemma covered_nums root page : covered root page = true -> exists R P,
  root = 4096 * R /\ page = 4096 * P /\ root / 4096 = R /\ page / 4096 = P /\ 0 <= R /\
  0 <= P - p4_index page * 2 ^ 27 < 2 ^ 27 /\ 0 <= p4_index page < 256.
Proof.
  intros Hc. destruct (covered_inv root page Hc) as ([Hr Hrb] & [Hp Hpb] & Hi & H1 & H2 & _).
  exists (root / 4096), (page / 4096). pose proof (Z.div_mod root 4096). pose proof (Z.div_mod page 4096).
  assert (0 <= root / 4096) by (apply Z.div_pos; lia). unfold area, shadow in *. lia.
Qed.

Lemma shadow_disjoint root page root' page' : covered root page = true -> covered root' page' = true ->
  (root', page') <> (root, page) -> shadow root' page' + 8 <= shadow root page \/ shadow root page + 8 <= shadow root' page'.
Proof.
  intros Hc Hc' Hne. destruct (covered_nums _ _ Hc) as (R & P & -> & -> & HR & HP & H1 & H2 & H3).
  destruct (covered_nums _ _ Hc') as (R' & P' & -> & -> & HR' & HP' & H1' & H2' & H3').
  unfold shadow. rewrite HR, HP, HR', HP'. assert (R <> R' \/ P <> P') as Hd.
  { destruct (decide (R = R')) as [->|]; [right|by left]. intros ->. done. }
  destruct Hd; [destruct (decide (R < R')); [right|left]; lia|]. destruct (decide (R = R')); lia.
Qed.

Lemma area_disjoint root page root' page' : covered root page = true -> covered root' page' = true ->
  root' <> root \/ p4_index page' <> p4_index page ->
  shadow root' page' + 8 <= area root (p4_index page) \/ area root (p4_index page) + 2 ^ 30 <= shadow root' page'.
Proof.
  intros Hc Hc' Hne. destruct (covered_nums _ _ Hc) as (R & P & -> & -> & HR & HP & H1 & H2 & H3).
  destruct (covered_nums _ _ Hc') as (R' & P' & -> & -> & HR' & HP' & H1' & H2' & H3').
  unfold shadow, area. rewrite HR, HR', HP'.
  destruct (decide (R = R')) as [->|]; [|destruct (decide (R < R')); [right|left]; lia].
  destruct Hne as [Hne|Hne]; [lia|].
  destruct (decide (p4_index (4096 * P') < p4_index (4096 * P))); [left|right]; lia.
Qed.

Lemma top_below root page : covered root page = true -> slot (off + root) (p4_index page) /\ off + root + 4096 <= 2 ^ 65.
Proof.
  intros Hc. destruct (covered_inv root page Hc) as ([Hr Hrb] & _ & Hi & _). unfold slot, off, Paging.demo_offset.
  split; [split; [rewrite Z.add_mod, Hr by lia; done|lia]|lia].
Qed.

(** The entries of the array and the top-level entries after a mapping. *)
Lemma flat_top_map m root page e root' page' : covered root page = true -> covered root' page' = true ->
  top (put_entry (flat_prepare m root page) (shadow root page) 0 e) root' page' =
    if present (top m root page) then top m root' page'
    else if (root' =? root) && (p4_index page' =? p4_index page) then 7 else top m root' page'.
Proof.
  intros Hc Hc'. destruct (top_below _ _ Hc) as [Hs Hb], (top_below _ _ Hc') as [Hs' Hb'].
  destruct (covered_inv _ _ Hc) as (_ & _ & _ & _ & _ & Hsh & Har).
  unfold top. rewrite (entry_at_ext (flat_prepare m root page)).
  2: { intros x Hx. apply put_entry_out. apply slot_in_page in Hx; [|apply Hs']. unfold in_slot, in_page in *. lia. }
  unfold flat_prepare, top. case_if; [done|].
  assert (entry_at (clear_area m root (p4_index page)) (off + root') (p4_index page') = entry_at m (off + root') (p4_index page')) as Hcl.
  { apply entry_at_ext. intros x Hx. apply slot_in_page in Hx; [|apply Hs']. unfold clear_area, in_page in *.
    by replace ((area root (p4_index page) <=? x) && (x <? area root (p4_index page) + 2 ^ 30)) with false by lia. }
  destruct ((root' =? root) && (p4_index page' =? p4_index page)) eqn:Eq.
  - apply andb_prop in Eq as [Hr Hi]. apply Z.eqb_eq in Hr, Hi. subst root'. rewrite Hi. by apply entry_at_put.
  - rewrite entry_at_put_ne; [done|done|done|]. intros [Hr Hi]%pair_equal_spec. replace root' with root in Eq by lia.
    by rewrite Hi, !Z.eqb_refl in Eq.
Qed.

Lemma flat_shadow_map m root page e root' page' : covered root page = true -> covered root' page' = true -> in_u64 e ->
  entry_at (put_entry (flat_prepare m root page) (shadow root page) 0 e) (shadow root' page') 0 =
    if (root' =? root) && (page' =? page) then e
    else if negb (present (top m root page)) && (root' =? root) && (p4_index page' =? p4_index page) then 0
    else entry_at m (shadow root' page') 0.
Proof.
  intros Hc Hc' He. destruct (top_below _ _ Hc) as [Hs Hb].
  destruct (covered_inv _ _ Hc) as (_ & _ & _ & _ & _ & Hsh & Har).
  destruct (covered_inv _ _ Hc') as (_ & _ & _ & Hin & Hin2 & Hsh' & _).
  destruct ((root' =? root) && (page' =? page)) eqn:Eq.
  { apply andb_prop in Eq as [->%Z.eqb_eq ->%Z.eqb_eq]. by apply entry_at_put. }
  rewrite (entry_at_ext (flat_prepare m root page)).
  2: { intros x Hx. apply put_entry_out. pose proof (shadow_disjoint root page root' page' Hc Hc') as Hd.
       unfold in_slot in *. destruct Hd; [intros [= -> ->]; by rewrite !Z.eqb_refl in Eq|lia|lia]. }
  unfold flat_prepare. destruct (present (top m root page)) eqn:Ep; cbn [negb andb]; [done|].
  rewrite (entry_at_ext (clear_area m root (p4_index page))).
  2: { intros x Hx. apply put_entry_out. intros Hx'. apply slot_in_page in Hx'; [|apply Hs]. unfold in_slot, in_page in *. lia. }
  destruct ((root' =? root) && (p4_index page' =? p4_index page)) eqn:Ea.
  - apply andb_prop in Ea as [->%Z.eqb_eq Hi%Z.eqb_eq]. rewrite <- (entry_at_zero_mem (shadow root page') 0).
    apply entry_at_ext. intros x Hx. unfold clear_area, zero_mem, in_slot in *. rewrite <- Hi in *.
    by replace ((area root (p4_index page') <=? x) && (x <? area root (p4_index page') + 2 ^ 30)) with true by lia.
  - apply entry_at_ext. intros x Hx. unfold clear_area, in_slot in *.
    pose proof (area_disjoint root page root' page' Hc Hc') as Hd.
    replace ((area root (p4_index page) <=? x) && (x <? area root (p4_index page) + 2 ^ 30)) with false; [done|].
    destruct Hd; [|lia|lia]. destruct (root' =? root) eqn:Er; [right|left]; lia.
Qed.

Lemma flat_map_true m root page frame flags m' : flat_map m root page frame flags = (true, m') ->
  covered root page = true /\ flat_translate m root page = None /\ frame_ok frame /\ flags_ok flags /\
  Z.land flags PRESENT <> 0 /\ m' = put_entry (flat_prepare m root page) (shadow root page) 0 (Z.lor frame flags).
Proof.
  unfold flat_map. case_if; [|done]. intros [= <-].
  apply andb_prop in E as [E Hfl%bool_decide_eq_true]. apply andb_prop in E as [E Hf%bool_decide_eq_true].
  apply andb_prop in E as [E Ht%bool_decide_eq_true]. destruct Hfl as (Hfl & Hm & Hp).
  split; [done|]. split; [done|]. split; [done|]. split; [by split|]. by split.
Qed.

Lemma present_7 : present 7 = true.
Proof. done. Qed.

Lemma present_0 : present 0 = false.
Proof. done. Qed.

Lemma flat_map_new m root page frame flags m' : flat_map m root page frame flags = (true, m') ->
  flat_translate m' root page = Some (frame, flags).
Proof.
  intros (Hc & _ & Hf & Hfl & Hp & ->)%flat_map_true. destruct (entry_parts frame flags Hf Hfl) as (He & Ha & Hg).
  unfold flat_translate. rewrite Hc, flat_top_map, flat_shadow_map, !Z.eqb_refl by done. cbn [andb].
  assert (present (if present (top m root page) then top m root page else 7) = true) as -> by (by case_if).
  unfold present. change (entry_addr (Z.lor frame flags)) with (Z.land (Z.lor frame flags) ADDR_MASK).
  change (entry_flags (Z.lor frame flags)) with (Z.land (Z.lor frame flags) (not_u 64 ADDR_MASK)). rewrite Ha, Hg.
  by replace (Z.land flags PRESENT =? 0) with false by lia.
Qed.

Lemma flat_map_other m root page frame flags m' root' page' : flat_map m root page frame flags = (true, m') ->
  page' <> page -> flat_translate m' root' page' = flat_translate m root' page'.
Proof.
  intros (Hc & _ & Hf & Hfl & Hp & ->)%flat_map_true Hne. unfold flat_translate.
  destruct (covered root' page') eqn:Hc'; [|done]. destruct (entry_parts frame flags Hf Hfl) as (He & _).
  rewrite flat_top_map, flat_shadow_map by done. replace ((root' =? root) && (page' =? page)) with false by lia.
  cbn [andb]. destruct (present (top m root page)) eqn:Ep; cbn [negb andb]; [done|].
  destruct ((root' =? root) && (p4_index page' =? p4_index page)) eqn:Ea; [|done].
  apply andb_prop in Ea as [Hr Hi]. apply Z.eqb_eq in Hr, Hi. subst root'. rewrite present_7, present_0.
  assert (top m root page' = top m root page) as -> by (unfold top; by rewrite Hi). by rewrite Ep.
Qed.

(** Only the top-level table and the array are written. *)
Lemma flat_map_footprint m root page frame flags m' x : flat_map m root page frame flags = (true, m') ->
  ~ in_page (off + root) x -> x < 2 ^ 65 -> m' x = m x.
Proof.
  intros (Hc & _ & _ & _ & _ & ->)%flat_map_true Hx Hlt.
  destruct (covered_inv _ _ Hc) as (_ & _ & Hi & _ & _ & Hsh & Har).
  rewrite put_entry_out by (unfold in_slot; lia). unfold flat_prepare. case_if; [done|].
  rewrite put_entry_out. 2: { intros Hs. apply slot_in_page in Hs; [done|lia]. }
  unfold clear_area. by replace ((area root (p4_index page) <=? x) && (x <? area root (p4_index page) + 2 ^ 30)) with false by lia.
Qed.

(** ** The kernel half

    Leaf entries of the kernel half are kept beside the table their top-level
    entry points to, so address spaces that share the entry share the pages; a
    page without a top-level entry cannot be mapped. *)
Definition kslot (table page : Z) : Z := 2 ^ 100 + 8 * (table / 4096 * 2 ^ 35 + (page - (2 ^ 64 - 2 ^ 47)) / 4096).

Definition kernel_page (root page : Z) : bool :=
  (root mod 4096 =? 0) && (0 <=? root) && (root <? 2 ^ 52) && (page mod 4096 =? 0) &&
  (2 ^ 64 - 2 ^ 47 <=? page) && (page <? 2 ^ 64).

Definition kleaf (m : mem) (root page : Z) : Z := kslot (entry_addr (top m root page)) page.

Definition ktranslate (m : mem) (root page : Z) : option (Z * Z) :=
  let e := entry_at m (kleaf m root page) 0 in
  if present (top m root page) && present e then Some (entry_addr e, entry_flags e) else None.

Definition kmap (m : mem) (root page frame flags : Z) : bool * mem :=
  if present (top m root page) && bool_decide (ktranslate m root page = None) &&
     bool_decide (frame mod 4096 = 0 /\ 0 <= frame < 2 ^ 52) &&
     bool_decide ((0 <= flags < 2 ^ 64) /\ Z.land flags ADDR_MASK = 0 /\ Z.land flags PRESENT <> 0)
  then (true, put_entry m (kleaf m root page) 0 (Z.lor frame flags))
  else (false, m).

Definition space_translate (m : mem) (root page : Z) : option (Z * Z) :=
  if kernel_page root page then ktranslate m root page else flat_translate m root page.
Definition space_map (m : mem) (root page frame flags : Z) : bool * mem :=
  if kernel_page root page then kmap m root page frame flags else flat_map m root page frame flags.

Lemma kernel_page_inv root page : kernel_page root page = true ->
  frame_ok root /\ page mod 4096 = 0 /\ 2 ^ 64 - 2 ^ 47 <= page < 2 ^ 64 /\ 256 <= p4_index page < 512 /\
  covered root page = false.
Proof.
  unfold kernel_page, covered. intros Hk. repeat apply andb_prop in Hk as [Hk ?].
  split; [unfold frame_ok; lia|]. split; [lia|]. split; [lia|]. split; [|lia].
  rewrite table_index_spec by lia. change (12 + 9 * (4 - 1)) with 39.
  assert (2 ^ 25 - 256 <= page / 2 ^ 39 < 2 ^ 25) as Hd.
  { split; [apply Z.div_le_lower_bound; lia|apply Z.div_lt_upper_bound; lia]. }
  replace (page / 2 ^ 39) with (page / 2 ^ 39 - (2 ^ 25 - 512) + 65535 * 512) by lia.
  rewrite Z.mod_add, Z.mod_small by lia. lia.
Qed.

Lemma kslot_range table page : frame_ok table -> 2 ^ 64 - 2 ^ 47 <= page < 2 ^ 64 -> 2 ^ 100 <= kslot table page.
Proof.
  intros [_ Ht] Hp. unfold kslot. assert (0 <= table / 4096) by (apply Z.div_pos; lia).
  assert (0 <= (page - (2 ^ 64 - 2 ^ 47)) / 4096) by (apply Z.div_pos; lia). lia.
Qed.

Lemma kslot_apart table page table' page' : frame_ok table -> frame_ok table' ->
  page mod 4096 = 0 -> page' mod 4096 = 0 -> 2 ^ 64 - 2 ^ 47 <= page < 2 ^ 64 -> 2 ^ 64 - 2 ^ 47 <= page' < 2 ^ 64 ->
  page' <> page -> kslot table' page' + 8 <= kslot table page \/ kslot table page + 8 <= kslot table' page'.
Proof.
  intros _ _ Hm Hm' Hp Hp' Hne. unfold kslot.
  assert (forall q, q mod 4096 = 0 -> 2 ^ 64 - 2 ^ 47 <= q < 2 ^ 64 -> exists n, q = 2 ^ 64 - 2 ^ 47 + n * 4096 /\ 0 <= n < 2 ^ 35 /\
    (q - (2 ^ 64 - 2 ^ 47)) / 4096 = n) as Hn.
  { intros q Hq Hb. exists ((q - (2 ^ 64 - 2 ^ 47)) / 4096). pose proof (Z.div_mod q 4096 ltac:(lia)) as Hd.
    replace (q - (2 ^ 64 - 2 ^ 47)) with ((q / 4096 - (2 ^ 52 - 2 ^ 35)) * 4096) by lia. rewrite Z.div_mul by lia. lia. }
  destruct (Hn page Hm Hp) as (n & -> & Hnb & Hnq), (Hn page' Hm' Hp') as (n' & -> & Hnb' & Hnq'). rewrite Hnq, Hnq'.
  generalize (table / 4096) (table' / 4096). intros T T'. destruct (Z.lt_trichotomy T T') as [|[->|]]; lia.
Qed.

Lemma shadow_below root page : covered root page = true ->
  shadow root page + 8 <= 2 ^ 100 /\ area root (p4_index page) + 2 ^ 30 <= 2 ^ 100.
Proof.
  intros Hc. destruct (covered_inv root page Hc) as ([_ Hr] & [_ Hp] & Hi & _). unfold shadow, area.
  assert (root / 4096 < 2 ^ 40) by (apply Z.div_lt_upper_bound; lia).
  assert (page / 4096 < 2 ^ 35) by (apply Z.div_lt_upper_bound; lia). lia.
Qed.

(** A top-level entry is decided by its table. *)
Lemma top_ext m m' root page : 0 <= p4_index page < 512 -> (forall x, in_page (off + root) x -> m' x = m x) ->
  top m' root page = top m root page.
Proof. intros Hi Hx. apply entry_at_ext. intros x Hs. apply Hx. by apply slot_in_page in Hs. Qed.

(** Translations are decided by the top-level table and the arrays. *)
Lemma flat_translate_ext m m' root page :
  (forall x, in_page (off + root) x -> m' x = m x) -> (forall x, 2 ^ 65 <= x < 2 ^ 100 -> m' x = m x) ->
  flat_translate m' root page = flat_translate m root page.
Proof.
  intros Ht Hs. unfold flat_translate. destruct (covered root page) eqn:Hc; [|done].
  destruct (covered_inv _ _ Hc) as (_ & _ & Hi & _ & _ & Hsh & _). destruct (shadow_below _ _ Hc) as [Hb _].
  rewrite (top_ext m m') by (done || lia).
  assert (entry_at m' (shadow root page) 0 = entry_at m (shadow root page) 0) as ->; [|done].
  apply entry_at_ext. intros x Hx. apply Hs. unfold in_slot in Hx. lia.
Qed.

Lemma ktranslate_ext m m' root page : kernel_page root page = true ->
  top m' root page = top m root page -> (forall x, 2 ^ 100 <= x -> m' x = m x) ->
  ktranslate m' root page = ktranslate m root page.
Proof.
  intros Hk Ht Hs. destruct (kernel_page_inv _ _ Hk) as (_ & _ & Hp & _). unfold ktranslate, kleaf. rewrite Ht.
  pose proof (kslot_range (entry_addr (top m root page)) page (entry_addr_ok _) Hp).
  assert (entry_at m' (kslot (entry_addr (top m root page)) page) 0 = entry_at m (kslot (entry_addr (top m root page)) page) 0)
    as ->; [|done]. apply entry_at_ext. intros x Hx. apply Hs. unfold in_slot in Hx. lia.
Qed.

Lemma space_translate_ext m m' root page :
  (forall x, in_page (off + root) x -> m' x = m x) -> (forall x, 2 ^ 65 <= x -> m' x = m x) ->
  space_translate m' root page = space_translate m root page.
Proof.
  intros Ht Hs. unfold space_translate. destruct (kernel_page root page) eqn:Hk.
  - destruct (kernel_page_inv _ _ Hk) as (_ & _ & _ & Hi & _). apply ktranslate_ext; [done|by apply top_ext; [lia|]|].
    intros x Hx. apply Hs. lia.
  - apply flat_translate_ext; [done|]. intros x Hx. apply Hs. lia.
Qed.

(** Mapping a user page leaves the kernel half alone. *)
Lemma flat_map_kernel m root page frame flags m' root' page' : flat_map m root page frame flags = (true, m') ->
  kernel_page root' page' = true ->
  top m' root' page' = top m root' page' /\ ktranslate m' root' page' = ktranslate m root' page'.
Proof.
  intros (Hc & _ & Hf & Hfl & Hp & ->)%flat_map_true Hk. destruct (entry_parts frame flags Hf Hfl) as (He & _).
  destruct (kernel_page_inv _ _ Hk) as ([Hr' Hrb'] & _ & _ & Hi' & _). destruct (top_below _ _ Hc) as [Hs Hb].
  destruct (covered_inv _ _ Hc) as (_ & _ & Hi & _ & _ & Hsh & Har). destruct (shadow_below _ _ Hc) as [Hsb Hab].
  assert (slot (off + root') (p4_index page')) as Hs'.
  { split; [|lia]. unfold off, Paging.demo_offset. by rewrite Z.add_mod, Hr' by lia. }
  assert (off + root' + 4096 <= 2 ^ 65) as Hb' by (unfold off, Paging.demo_offset; lia).
  assert (top (put_entry (flat_prepare m root page) (shadow root page) 0 (Z.lor frame flags)) root' page' = top m root' page') as Htop.
  { unfold top. rewrite (entry_at_ext (flat_prepare m root page)).
    2: { intros x Hx. apply put_entry_out. apply slot_in_page in Hx; [|apply Hs']. unfold in_slot, in_page in *. lia. }
    unfold flat_prepare. case_if; [done|]. rewrite entry_at_put_ne; [|done|done|].
    - apply entry_at_ext. intros x Hx. apply slot_in_page in Hx; [|apply Hs']. unfold clear_area, in_page in *.
      by replace ((area root (p4_index page) <=? x) && (x <? area root (p4_index page) + 2 ^ 30)) with false by lia.
    - intros [_ Hbad]%pair_equal_spec. lia. }
  split; [done|]. apply ktranslate_ext; [done|done|]. intros x Hx. rewrite put_entry_out by (unfold in_slot; lia).
  unfold flat_prepare. case_if; [done|]. rewrite put_entry_out.
  2: { intros Hin. apply slot_in_page in Hin; [|apply Hs]. unfold in_page in Hin. lia. }
  unfold clear_area. by replace ((area root (p4_index page) <=? x) && (x <? area root (p4_index page) + 2 ^ 30)) with false by lia.
Qed.

(** Mapping a kernel page writes one entry of the kernel array. *)
Lemma kmap_true m root page frame flags m' : kmap m root page frame flags = (true, m') ->
  present (top m root page) = true /\ ktranslate m root page = None /\ frame_ok frame /\ flags_ok flags /\
  Z.land flags PRESENT <> 0 /\ m' = put_entry m (kleaf m root page) 0 (Z.lor frame flags).
Proof.
  unfold kmap. case_if; [|done]. intros [= <-].
  apply andb_prop in E as [E Hfl%bool_decide_eq_true]. apply andb_prop in E as [E Hf%bool_decide_eq_true].
  apply andb_prop in E as [E Ht%bool_decide_eq_true]. destruct Hfl as (Hfl & Hm & Hp).
  split; [done|]. split; [done|]. split; [done|]. split; [by split|]. by split.
Qed.

Lemma kmap_out m root page frame flags m' x : kernel_page root page = true -> kmap m root page frame flags = (true, m') ->
  ~ in_slot (kleaf m root page) 0 x -> m' x = m x.
Proof. intros _ (_ & _ & _ & _ & _ & ->)%kmap_true Hx. by apply put_entry_out. Qed.

Lemma kmap_below m root page frame flags m' x : kernel_page root page = true -> kmap m root page frame flags = (true, m') ->
  x < 2 ^ 100 -> m' x = m x.
Proof.
  intros Hk Hm Hx. eapply kmap_out; [done|done|]. destruct (kernel_page_inv _ _ Hk) as (_ & _ & Hp & _).
  pose proof (kslot_range (entry_addr (top m root page)) page (entry_addr_ok _) Hp). unfold in_slot, kleaf. lia.
Qed.

Lemma kmap_top m root page frame flags m' root' page' : kernel_page root page = true -> kmap m root page frame flags = (true, m') ->
  frame_ok root' -> 0 <= p4_index page' < 512 -> top m' root' page' = top m root' page'.
Proof.
  intros Hk Hm [Hr Hb] Hi. apply top_ext; [done|]. intros x Hx. eapply kmap_below; [done|done|].
  unfold in_page, off, Paging.demo_offset in Hx. lia.
Qed.

Lemma kmap_new m root page frame flags m' : kernel_page root page = true -> kmap m root page frame flags = (true, m') ->
  ktranslate m' root page = Some (frame, flags).
Proof.
  intros Hk Hm. destruct (kernel_page_inv _ _ Hk) as (Hr & _ & _ & Hi & _).
  pose proof (kmap_top _ _ _ _ _ _ root page Hk Hm Hr ltac:(lia)) as Ht.
  apply kmap_true in Hm as (Hpr & _ & Hf & Hfl & Hp & ->). destruct (entry_parts frame flags Hf Hfl) as (He & Ha & Hg).
  assert (kleaf (put_entry m (kleaf m root page) 0 (Z.lor frame flags)) root page = kleaf m root page) as Hkl
    by (unfold kleaf at 1; by rewrite Ht).
  unfold ktranslate. rewrite Ht, Hpr, Hkl, entry_at_put by done. unfold present.
  change (entry_addr (Z.lor frame flags)) with (Z.land (Z.lor frame flags) ADDR_MASK).
  change (entry_flags (Z.lor frame flags)) with (Z.land (Z.lor frame flags) (not_u 64 ADDR_MASK)). rewrite Ha, Hg.
  by replace (Z.land flags PRESENT =? 0) with false by lia.
Qed.

Lemma kmap_other m root page frame flags m' root' page' : kernel_page root page = true ->
  kmap m root page frame flags = (true, m') -> page' <> page -> space_translate m' root' page' = space_translate m root' page'.
Proof.
  intros Hk Hm Hne. unfold space_translate. destruct (kernel_page root' page') eqn:Hk'.
  - destruct (kernel_page_inv _ _ Hk) as (_ & Hp & Hpb & _). destruct (kernel_page_inv _ _ Hk') as (Hr' & Hp' & Hpb' & Hi' & _).
    pose proof (kmap_top _ _ _ _ _ _ root' page' Hk Hm Hr' ltac:(lia)) as Ht. unfold ktranslate, kleaf. rewrite !Ht.
    assert (entry_at m' (kslot (entry_addr (top m root' page')) page') 0 =
      entry_at m (kslot (entry_addr (top m root' page')) page') 0) as ->; [|done].
    apply entry_at_ext. intros x Hx. apply (kmap_out m root page frame flags m' x Hk Hm). unfold kleaf.
    pose proof (kslot_apart (entry_addr (top m root page)) page (entry_addr (top m root' page')) page'
      (entry_addr_ok _) (entry_addr_ok _) Hp Hp' Hpb Hpb' Hne). unfold in_slot in *. lia.
  - destruct (covered root' page') eqn:Hc; [|unfold flat_translate; by rewrite Hc].
    destruct (covered_inv _ _ Hc) as ([_ Hr'] & _). apply flat_translate_ext; intros x Hx; apply (kmap_below m root page frame flags m' x Hk Hm).
    + unfold in_page, off, Paging.demo_offset in Hx. lia.
    + lia.
Qed.

(** ** Both halves *)

Lemma space_map_new m root page frame flags m' : space_map m root page frame flags = (true, m') ->
  space_translate m root page = None /\ space_translate m' root page = Some (frame, flags).
Proof.
  unfold space_map, space_translate. destruct (kernel_page root page) eqn:Hk; intros Hm.
  - split; [by apply kmap_true in Hm as (_ & ? & _)|by eapply kmap_new].
  - split; [by apply flat_map_true in Hm as (_ & ? & _)|by eapply flat_map_new].
Qed.

Lemma space_map_other m root page frame flags m' root' page' : space_map m root page frame flags = (true, m') ->
  page' <> page -> space_translate m' root' page' = space_translate m root' page'.
Proof.
  unfold space_map. destruct (kernel_page root page) eqn:Hk; intros Hm Hne; [by eapply kmap_other|].
  unfold space_translate. destruct (kernel_page root' page') eqn:Hk'; [|by eapply flat_map_other].
  by apply (flat_map_kernel _ _ _ _ _ _ _ _ Hm Hk').
Qed.

Lemma space_map_false m root page frame flags m' : space_map m root page frame flags = (false, m') -> m' = m.
Proof. unfold space_map, kmap, flat_map. intros Hm. repeat case_if; by injection Hm. Qed.

Lemma space_map_footprint m root page frame flags m' x : space_map m root page frame flags = (true, m') ->
  ~ in_page (off + root) x -> x < 2 ^ 65 -> m' x = m x.
Proof.
  unfold space_map. destruct (kernel_page root page) eqn:Hk; intros Hm Hx Hlt; [|by eapply flat_map_footprint].
  eapply kmap_below; [done|done|lia].
Qed.

(** Top-level entries of the kernel half stay as they are. *)
Lemma space_map_top m root page frame flags m' root' page' : space_map m root page frame flags = (true, m') ->
  kernel_page root' page' = true -> top m' root' page' = top m root' page'.
Proof.
  unfold space_map. destruct (kernel_page root page) eqn:Hk; intros Hm Hk'.
  - destruct (kernel_page_inv _ _ Hk') as (Hr' & _ & _ & Hi' & _). exact (kmap_top m root page frame flags m' root' page' Hk Hm Hr' ltac:(lia)).
  - by apply (flat_map_kernel _ _ _ _ _ _ _ _ Hm Hk').
Qed.

Section Spaces.
Context {A : Type} `{FrameSource A}.

#[export] Instance flat_spaces : AddressSpaces (A * mem).
Proof.
  refine {| translate s root page := space_translate s.2 root page;
            coherent _ _ := True;
            take_frame s := allocate_frame s;
            map_to s root page frame flags :=
              let r := space_map s.2 root page frame flags in Ret (r.1, (s.1, r.2)) |}.
  - done.
  - intros s r s' Hr. pose proof (allocate_frame_pmem s r s' Hr) as Hm. cbn [pmem plain_machine] in Hm. by rewrite Hm.
  - done.
  - intros [l m] root page frame flags s' live. cbn [fst snd]. destruct (space_map m root page frame flags) as [b m'] eqn:E.
    intros [= Hb <-] _ _. cbn [fst snd] in *. subst b. by eapply space_map_new.
  - intros [l m] root page frame flags r s' live. cbn [fst snd]. destruct (space_map m root page frame flags) as [b m'] eqn:E.
    intros [= <- <-] _ _ root' page' _ Hne. cbn [fst snd]. destruct b; [by eapply space_map_other|].
    by apply space_map_false in E as ->.
  - intros [l m] root page frame flags s' live. cbn [fst snd]. destruct (space_map m root page frame flags) as [b m'] eqn:E.
    intros [= Hb <-] _ _ root' page' _. cbn [fst snd] in *. subst b. by apply space_map_false in E as ->.
Defined.

(** The user bit of a top-level entry is not looked at. *)
Lemma user_bit_top m root i e page : 0 <= i < 512 -> in_u64 e -> frame_ok root -> 0 <= p4_index page < 512 ->
  entry_addr e = entry_addr (entry_at m (off + root) i) ->
  entry_flags e = Z.lor (entry_flags (entry_at m (off + root) i)) USER_ACCESSIBLE ->
  let m' := put_entry m (off + root) i e in
  present (top m' root page) = present (top m root page) /\ entry_addr (top m' root page) = entry_addr (top m root page).
Proof.
  intros Hi He [Hr _] Hp Ha Hf m'. assert ((off + root) mod 4096 = 0) as Hm.
  { unfold off, Paging.demo_offset. by rewrite Z.add_mod, Hr by lia. }
  unfold top, m'. destruct (decide (p4_index page = i)) as [->|Hne].
  - rewrite entry_at_put by done. split; [|done]. unfold present. by rewrite Hf, Z.land_lor_distr_l, Z.lor_0_r.
  - rewrite entry_at_put_ne; [done|by split|by split|]. by intros [_ Hbad]%pair_equal_spec.
Qed.

Lemma space_user_bit m root i e page : 0 <= i < 512 -> in_u64 e ->
  entry_addr e = entry_addr (entry_at m (off + root) i) ->
  entry_flags e = Z.lor (entry_flags (entry_at m (off + root) i)) USER_ACCESSIBLE ->
  space_translate (put_entry m (off + root) i e) root page = space_translate m root page.
Proof.
  intros Hi He Ha Hf. unfold space_translate.
  assert (forall a, 2 ^ 65 <= a -> frame_ok root -> entry_at (put_entry m (off + root) i e) a 0 = entry_at m a 0) as Hout.
  { intros a Hla [_ Hr]. apply entry_at_ext. intros x Hx. apply put_entry_out. unfold in_slot, off, Paging.demo_offset in *. lia. }
  destruct (kernel_page root page) eqn:Hk.
  - destruct (kernel_page_inv _ _ Hk) as (Hr & _ & Hp & Hix & _).
    destruct (user_bit_top m root i e page Hi He Hr ltac:(lia) Ha Hf) as [Ht1 Ht2]. unfold ktranslate, kleaf. rewrite Ht1, Ht2.
    rewrite Hout; [done| |done]. pose proof (kslot_range (entry_addr (top m root page)) page (entry_addr_ok _) Hp). lia.
  - unfold flat_translate. destruct (covered root page) eqn:Hc; [|done].
    destruct (covered_inv _ _ Hc) as (Hr & _ & Hix & _ & _ & Hsh & _).
    destruct (user_bit_top m root i e page Hi He Hr ltac:(lia) Ha Hf) as [Ht1 _]. by rewrite Ht1, Hout.
Qed.

Definition flat_tables (root p : Z) : Prop := p = off + root \/ p mod 4096 = 0 /\ 2 ^ 65 <= p.

Lemma high_page x : 2 ^ 65 <= x -> exists p, p mod 4096 = 0 /\ 2 ^ 65 <= p /\ in_page p x.
Proof.
  intros Hx. exists (x / 4096 * 4096). pose proof (Z.div_mod x 4096 ltac:(lia)). pose proof (Z.mod_pos_bound x 4096 ltac:(lia)).
  assert (2 ^ 53 <= x / 4096) by (apply Z.div_le_lower_bound; lia).
  split; [apply Z.mod_mul; lia|]. split; [lia|unfold in_page; lia].
Qed.

Lemma flat_tables_mem (m m' : mem) root : (forall p x, flat_tables root p -> in_page p x -> m' x = m x) ->
  (forall x, in_page (off + root) x -> m' x = m x) /\ forall x, 2 ^ 65 <= x -> m' x = m x.
Proof.
  intros Hm. split; [intros x Hx; apply (Hm (off + root)); [by left|done]|].
  intros x Hx. destruct (high_page x Hx) as (p & Hp & Hpb & Hin). apply (Hm p); [by right|done].
Qed.

(** A page that can be mapped: in the user half, or below a top-level entry. *)
Definition reachable (m : mem) (root page : Z) : Prop :=
  frame_ok root /\ (user_page page \/ kernel_page root page = true /\ present (top m root page) = true).

Lemma reachable_ext m m' root page : (kernel_page root page = true -> present (top m' root page) = present (top m root page)) ->
  reachable m' root page <-> reachable m root page.
Proof. intros Ht. unfold reachable. destruct (kernel_page root page); [rewrite Ht by done|]; naive_solver. Qed.

#[export] Instance flat_mapper : Mapper (A * mem) off.
Proof.
  refine {| tables_of s root := flat_tables root; plain s root page := reachable s.2 root page |}.
  - done.
  - intros s root. by left.
  - intros s m root Hm. destruct (flat_tables_mem (pmem s) m root Hm) as [H1 H2]. split; [|done|].
    + intros v. by apply space_translate_ext.
    + intros v. apply reachable_ext. intros Hk. f_equal. apply top_ext; [|done].
      destruct (kernel_page_inv _ _ Hk) as (_ & _ & _ & Hi & _). lia.
  - intros s r s' root Hr. pose proof (allocate_frame_pmem s r s' Hr) as Hm. cbn [pmem plain_machine] in Hm.
    split; [|done|]; intros v; cbn [translate flat_spaces]; by rewrite Hm.
  - intros s root i e Hi He Ha Hf. split; [|done|].
    + intros v. by apply space_user_bit.
    + intros v. apply reachable_ext. intros Hk. destruct (kernel_page_inv _ _ Hk) as (Hr & _ & _ & Hix & _).
      by apply (user_bit_top (pmem s) root i e v Hi He Hr ltac:(lia) Ha Hf).
  - intros s root kroot _ Hroot Hkr Hent. split; [|split; [|split; [by intros p [->|Hp]; [left|right; right]|]]].
    + intros v [Hm Hv]. cbn [translate flat_spaces]. unfold space_translate, flat_translate, top.
      assert (kernel_page root v = false) as -> by (unfold kernel_page; lia).
      destruct (top_index v Hv) as [Hi Hb]. rewrite Hent by lia. replace (p4_index v <? 256) with true by lia.
      by rewrite present_0, andb_false_r.
    + intros v Hv. cbn [translate flat_spaces]. unfold space_translate.
      assert (forall r, covered r v = false) as Hc by (intros r; unfold covered; lia).
      assert (kernel_page kroot v = kernel_page root v) as ->. { unfold kernel_page, frame_ok in *. lia. }
      destruct (kernel_page root v) eqn:Hk; [|unfold flat_translate; by rewrite !Hc].
      destruct (kernel_page_inv _ _ Hk) as (_ & _ & _ & Hi & _). unfold ktranslate, kleaf, top. rewrite Hent by lia.
      by replace (p4_index v <? 256) with false by lia.
    + intros v Hv. split; [done|by left].
  - done.
  - done.
  - done.
  - intros [l m] root page frame flags _ Hroot Hcan Hp Hf Hfl Hhg _. cbn [translate map_to flat_spaces fst snd] in *.
    exists (space_map m root page frame flags).1, (l, (space_map m root page frame flags).2), O.
    split; [done|]. split; [lia|]. split; [exact (spent_mem 0 (l, m) (l, m) _ (spent_refl _))|].
    intros [_ Hre] Ht Hpr. unfold space_map, space_translate in *. destruct Hre as [Hu|[Hk Htop]].
    + assert (kernel_page root page = false) as Hk. { unfold kernel_page, user_page in *. lia. } rewrite Hk in *.
      assert (covered root page = true) as Hc. { unfold covered, frame_ok, user_page in *. lia. }
      unfold flat_map. rewrite Hc, !bool_decide_true by (try done; destruct Hfl; by split). done.
    + rewrite Hk in *. unfold kmap. rewrite Htop, !bool_decide_true by (try done; destruct Hfl; by split). done.
  - intros [l m] root page frame flags r s' live. cbn [map_to flat_spaces fst snd].
    destruct (space_map m root page frame flags) as [b m'] eqn:E. intros [= <- <-] _ _. cbn [fst snd].
    split; [by left|]. split; [done|]. destruct b; [|by apply space_map_false in E as ->]. split.
    + intros root' v _ Hre. apply (reachable_ext m m'); [|done]. intros Hk. f_equal. by eapply space_map_top.
    + intros x Hx. cbn [pmem plain_machine snd]. destruct (decide (x < 2 ^ 65)) as [Hlt|Hge].
      * eapply space_map_footprint; [exact E| |done]. apply Hx. by left.
      * destruct (high_page x ltac:(lia)) as (p & Hp & Hpb & Hin). destruct (Hx p); [by right|done].
Defined.
End Spaces.
End Flat.
Export Flat.
