(* ===== verification/ProcessImage.v ===== *)
(** * What loading a program and forking give

    The theorems about [Process::new_from_elf] and [Process::fork], with
    [FlatSpaces] as the mapper of the witnesses. *)

From S2P Require Import Prelude X86 Elf FrameAlloc Paging Sched Process FlatSpaces.

(** A program header without an error that lies in the user half fits. *)
Lemma loadable_fits data h i ph : loadable data h i = Some ph -> bad_entry data h i = None ->
  user_range (virtual_address ph) (memory_size ph) -> fits data ph.
Proof.
  unfold loadable, bad_entry, segment_verdict. intros Hl Hb Hr.
  assert (0 <= file_offset (segment_fields data (entry_start h i)) /\ 0 <= file_size (segment_fields data (entry_start h i)))
    as [Hfo Hfs] by (split; apply field_bound; lia).
  repeat case_if; simplify_eq. unfold fits, user_range in *. lia.
Qed.

(** The permissions, bit by bit. *)
Lemma land_bit x k : 0 <= k -> negb (Z.land x (2 ^ k) =? 0) = Z.testbit x k.
Proof.
  intros Hk. destruct (Z.testbit x k) eqn:E.
  - apply negb_true_iff, Z.eqb_neq. intros Hz. pose proof (Z.land_spec x (2 ^ k) k) as Hl.
    by rewrite Hz, Z.bits_0, Z.pow2_bits_true, E in Hl.
  - apply negb_false_iff, Z.eqb_eq, Z.bits_inj'. intros i Hi. rewrite Z.land_spec, Z.pow2_bits_eqb, Z.bits_0 by done.
    destruct (Z.eqb_spec k i) as [<-|]; [by rewrite E|by rewrite andb_false_r].
Qed.

Lemma segment_page_flags_eq segs v : segment_page_flags segs v =
  match find (touches v) segs with
  | None => None
  | Some ph => Some (PRESENT + USER_ACCESSIBLE +
      (if Z.testbit (ph_flags ph) 1 then WRITABLE else 0) + (if Z.testbit (ph_flags ph) 0 then 0 else NO_EXECUTE))
  end.
Proof.
  unfold segment_page_flags. destruct (find (touches v) segs) as [ph|]; [|done]. cbn [fmap option_fmap option_map]. f_equal.
  unfold segment_flags. change PF_W with (2 ^ 1). change PF_X with (2 ^ 0).
  pose proof (land_bit (ph_flags ph) 1 ltac:(lia)) as ->. pose proof (land_bit (ph_flags ph) 0 ltac:(lia)) as Hx.
  destruct (Z.land (ph_flags ph) (2 ^ 0) =? 0); rewrite <- Hx; by destruct (Z.testbit (ph_flags ph) 1).
Qed.

(** ** Properties *)

Section Claims.
Context {S : Type} `{Machine S} `{VirtAddrs} `{PageEntries}.

(** C3: a well-formed program whose segments lie in the user half and share
    no byte is loaded whenever the allocator can hand out the frames: the new
    process has the next identifier, the program's entry point and the top of
    the stack region; at every address of a segment it sees the file's byte,
    or zero past the file's part; its eight stack pages are mapped writable
    for user mode; every other user page has the permissions of the first
    segment with a byte in it ([WRITABLE] when that segment's flags have
    [PF_W], [NO_EXECUTE] unless they have [PF_X], and always [PRESENT] and
    [USER_ACCESSIBLE]), and is not mapped when there is none; each mapped page
    has a frame of its own that nobody used before, and the kernel half
    translates as in the running address space. *)
Theorem process_image `{AddressSpaces S} off `{!Mapper S off} cr3 data h (k : Procs (S := S)) :
  off mod 4096 = 0 -> canonical off -> kernel_space off (mach k) cr3 -> runnable data h (mach k) ->
  let segs := omap (loadable data h) (seqZ 0 (program_header_count h)) in
  exists root s, new_from_elf off cr3 data k =
      Ret (Ok (mkProcess (next_pid k) root (entry h) (STACK_START + USER_STACK_BYTES),
               mkProcs (wrap 64 (next_pid k + 1)) s)) /\
    (forall ph w, ph ∈ segs -> in_segment ph w ->
       user_byte off s root w = Some (seg_byte data ph (w - virtual_address ph))) /\
    (forall v, stack_page v -> exists f, translate s root v = Some (f, stack_flags)) /\
    (forall v, user_page v -> ~ stack_page v -> (fun e => e.2) <$> translate s root v =
       match find (touches v) segs with
       | None => None
       | Some ph => Some (PRESENT + USER_ACCESSIBLE +
           (if Z.testbit (ph_flags ph) 1 then WRITABLE else 0) + (if Z.testbit (ph_flags ph) 0 then 0 else NO_EXECUTE))
       end) /\
    (forall v w f fl, user_page v -> translate s root v = Some (f, fl) -> owned (mach k) f /\ ~ owned s f /\
       (forall fl', user_page w -> translate s root w = Some (f, fl') -> v = w)) /\
    (forall v, kernel_half v -> translate s root v = translate (mach k) cr3 v).
Proof.
  intros Ho Hc Hks Hrun segs.
  destruct (new_from_elf_spec off (conj Ho Hc) cr3 data h k Hks Hrun) as (root & s & Hr & Hb & _ & Hseg & Hflags & Hst & Hkern).
  exists root, s. split; [done|]. split; [done|]. split; [done|].
  split; [intros v Hv Hns; by rewrite Hflags, segment_page_flags_eq|]. split; [|done].
  intros v w f fl Hv Hvf. destruct (b_mapped _ _ _ _ _ Hb v f fl Hv Hvf) as (H1' & H2' & _). split; [done|]. split; [done|].
  intros fl' Hw Hwf. by apply (b_inj _ _ _ _ _ Hb v w f fl fl').
Qed.

(** C23: a file that is no program is refused with the parser's error: a bad
    file header leaves everything as it was; when program header [n] is the
    first that is malformed or reaches outside the file, its error is
    returned after the stack and the earlier segments were mapped, the
    process identifier is used up and the frames they took stay taken. *)
Theorem new_from_elf_errors `{AddressSpaces S} off `{!Mapper S off} cr3 data (k : Procs (S := S)) :
  off mod 4096 = 0 -> canonical off -> kernel_space off (mach k) cr3 -> len data <= isize_max ->
  (forall e, header_verdict data = Err e -> new_from_elf off cr3 data k = Ret (Err (e, k))) /\
  (forall h n e, header_verdict data = Ok h -> canonical (entry h) -> 0 <= n < program_header_count h ->
     bad_entry data h n = Some e -> (forall i, 0 <= i < n -> bad_entry data h i = None) ->
     let segs := omap (loadable data h) (seqZ 0 n) in
     Forall (fun ph => user_range (virtual_address ph) (memory_size ph)) segs -> ForallOrdPairs separate segs ->
     answers (1 + (4 * 8 + 4 * pages_of segs)) (mach k) ->
     exists s, new_from_elf off cr3 data k = Ret (Err (e, mkProcs (wrap 64 (next_pid k + 1)) s)) /\
       (forall f, owned s f -> owned (mach k) f) /\ exists f, owned (mach k) f /\ ~ owned s f).
Proof.
  intros Ho Hc Hks Hmax. split.
  { intros e He. apply new_from_elf_bad_header. by rewrite parse_header_eq, He. }
  intros h n e Hh Hent Hn Hbad Hgood segs Hur Hsep Hans.
  apply (new_from_elf_bad_segment off (conj Ho Hc) cr3 data h k n e); try done.
  - by rewrite parse_header_eq, Hh.
  - intros i Hi. specialize (Hgood i Hi). unfold bad_entry in Hgood. destruct (segment_verdict data h i); [by eexists|done].
  - apply Forall_forall. intros ph Hph. pose proof (proj1 (Forall_forall _ _) Hur ph Hph) as Hr.
    apply list_elem_of_omap in Hph as (i & Hi%elem_of_seqZ & Hl). apply (loadable_fits data h i ph Hl); [|done].
    apply Hgood. lia.
Qed.

(** C22: forking gives the child the next identifier, the parent's entry point
    and stack top, a new top-level table with the parent's kernel half, and
    for every page of the user half the parent's frame, read-only and marked
    copy-on-write; no byte outside frames that were free changes, so the
    parent keeps its writable mappings of the shared frames. *)
Theorem fork_copies off live cr3 p (k : Procs (S := S)) :
  off mod 4096 = 0 -> canonical off -> forkable off live (pml4_frame p) (mach k) -> root_ok off (mach k) cr3 ->
  answers (1 + user_tables off (mach k) (pml4_frame p)) (mach k) ->
  exists child s, fork off cr3 p k = Ret (child, mkProcs (wrap 64 (next_pid k + 1)) s) /\
    proc_id child = next_pid k /\ entry_point child = entry_point p /\ stack_top child = stack_top p /\
    owned (mach k) (pml4_frame child) /\
    (forall i path, 0 <= i < 256 -> path_ok 3 path ->
       option_Forall2 (copied true) (page_entry off (pmem (mach k)) (pml4_frame p) (i :: path))
         (page_entry off (pmem s) (pml4_frame child) (i :: path))) /\
    (forall i, 256 <= i < 512 -> entry_at (pmem s) (off + pml4_frame child) i =
       entry_at (pmem (mach k)) (off + pml4_frame p) i) /\
    (forall x, (forall q, granted off (mach k) s q -> ~ in_page q x) -> pmem s x = pmem (mach k) x).
Proof. intros Ho Hc. by apply fork_spec. Qed.
End Claims.

(** A program whose entry point is not canonical panics the kernel. *)
Lemma bad_entry_point_panics {S} `{Machine S} `{VirtAddrs} `{PageEntries} `{AddressSpaces S} off `{!Mapper S off}
    cr3 data h (k : Procs (S := S)) :
  off mod 4096 = 0 -> canonical off -> kernel_space off (mach k) cr3 -> answers 1 (mach k) ->
  parse_header data = Ret (Ok h) -> ~ canonical (entry h) -> new_from_elf off cr3 data k = Panic.
Proof.
  intros Ho Hc Hks Hans Hh Hbad. unfold new_from_elf. rewrite Hh. cbn [at_state mbind outcome_bind try_bind].
  destruct (create_building off (conj Ho Hc) (mach k) cr3 Hks Hans) as (root & s1 & -> & _). cbn [mbind outcome_bind].
  rewrite (virt_addr_new_ok STACK_START) by (unfold canonical, STACK_START; lia). cbn [mbind outcome_bind].
  rewrite (virt_addr_add_ok STACK_START USER_STACK_BYTES) by (unfold canonical, STACK_START, USER_STACK_BYTES; lia).
  cbn [mbind outcome_bind ProcessId_new]. by rewrite virt_addr_new_panics.
Qed.

(** A segment in the kernel half is not refused: when its page is mapped
    there, its bytes are copied over the kernel's memory. *)
Lemma kernel_segment_overwrites {S} `{Machine S} `{VirtAddrs} `{PageEntries} `{AddressSpaces S} off `{!Mapper S off}
    data h root (s : S) i ph f fl :
  off mod 4096 = 0 -> canonical off -> frame_ok root -> canonical (off + root) ->
  len data <= isize_max -> header_ok h -> in_u16 i -> loadable data h i = Some ph -> bad_entry data h i = None ->
  kernel_half (virtual_address ph) -> memory_size ph = file_size ph ->
  virtual_address ph mod 4096 + file_size ph <= 4096 -> virtual_address ph + file_size ph < 2 ^ 64 ->
  translate s root (virtual_address ph / 4096 * 4096) = Some (f, fl) -> frame_ok f -> canonical (off + f) ->
  exists s', load_segment off data h root s i = Ret (Ok s') /\
    forall o, 0 <= o < file_size ph ->
      pmem s' (off + (f + virtual_address ph mod 4096) + o) = seg_byte data ph o.
Proof.
  intros Ho Hc Hrf Hrc Hmax [Hht Hhe] Hi Hl Hb Hva Hms Hpage Hend Ht Hf Hfc. unfold kernel_half in Hva.
  assert (0 < file_size ph /\ 0 <= file_offset ph /\ file_offset ph + file_size ph <= len data) as (Hfs & Hfo & Hlen).
  { unfold loadable, bad_entry, segment_verdict in *.
    assert (0 <= file_offset (segment_fields data (entry_start h i)) /\ 0 <= file_size (segment_fields data (entry_start h i)))
      as [? ?] by (split; apply field_bound; lia). repeat case_if; simplify_eq. lia. }
  unfold load_segment. rewrite parse_program_header_eq by done. unfold loadable in Hl.
  destruct (segment_verdict data h i) as [[q|]|]; [|done|done]. destruct (memory_size q =? 0) eqn:E; [done|].
  injection Hl as ->. cbn [at_state mbind outcome_bind try_bind]. rewrite E.
  assert (checked_add 64 (file_offset ph) (file_size ph) = Some (file_offset ph + file_size ph)) as ->.
  { apply checked_add_Some. unfold isize_max in Hmax. lia. }
  cbn [ok_or at_state mbind outcome_bind try_bind]. replace (len data <? file_offset ph + file_size ph) with false by lia.
  set (va := virtual_address ph) in *. set (n := file_size ph) in *. rewrite Hms.
  pose proof (Z.div_mod va 4096 ltac:(lia)) as Hdm. pose proof (Z.mod_pos_bound va 4096 ltac:(lia)) as Hmod.
  rewrite virt_addr_new_ok by (unfold canonical; lia). cbn [mbind outcome_bind].
  unfold map_user_region. rewrite (table_ptr_ok off (conj Ho Hc)) by done. cbn [mbind outcome_bind].
  unfold region_pages. rewrite (virt_addr_add_ok va n) by (unfold canonical; lia). cbn [mbind outcome_bind].
  rewrite virt_addr_sub_ok by (unfold canonical; lia). cbn [mbind outcome_bind]. rewrite page_range_spec by lia.
  assert ((va + n - 1) / 4096 = va / 4096) as ->.
  { symmetry. apply (Z.div_unique _ _ _ (va mod 4096 + n - 1)); lia. }
  rewrite Z.sub_diag. change (seqZ 0 (0 + 1)) with [0]. cbn [map for_each]. rewrite Z.mul_0_l, Z.add_0_r.
  unfold map_user_page at 1. rewrite translate_addr_page, Ht by (apply Z.mod_mul; lia).
  cbn [fmap option_fmap option_map mbind outcome_bind].
  unfold open_entry. destruct (set_flags_ok (entry_at (pmem s) (off + root) (p4_index va))
    (Z.lor (entry_flags (entry_at (pmem s) (off + root) (p4_index va))) USER_ACCESSIBLE)) as (e & -> & Heu & Hea & Hef).
  { apply flags_ok_lor; [apply entry_flags_ok|done]. }
  pose proof (user_bit_space s root (p4_index va) e (table_index_bound 4 va ltac:(lia)) Heu Hea Hef) as [Htr _ _].
  cbn [mbind outcome_bind]. set (s1 := set_pmem _ s) in *.
  assert (exists m, fill_fuel n = Datatypes.S (Datatypes.S m)) as [m ->].
  { exists (Z.to_nat (n / 4096 + 1)). unfold fill_fuel. assert (0 <= n / 4096) by (apply Z.div_pos; lia). lia. }
  cbn [fill_loop]. replace (0 <? n) with true by lia. rewrite (virt_addr_add_ok va 0), Z.add_0_r by (unfold canonical; lia).
  cbn [mbind outcome_bind]. unfold translate_addr. rewrite Htr, Ht. cbn [fmap option_fmap option_map unwrap mbind outcome_bind fst].
  rewrite (virt_addr_add_ok off); [|done|exact (canonical_in_frame off (conj Ho Hc) f va Hf Hfc)]. cbn [mbind outcome_bind].
  replace (Z.min (n - 0) (4096 - va mod 4096)) with n by lia.
  assert (file_bytes data (file_offset ph) 0 n = Ret (sub_list data (file_offset ph) n)) as ->.
  { unfold file_bytes. rewrite add_u_Ret by (unfold isize_max in *; lia). rewrite Z.add_0_r. cbn [mbind outcome_bind].
    by destruct (idx_returns data (file_offset ph)) as [b ->]; [lia|]. }
  cbn [mbind outcome_bind]. replace (0 + n <? n) with false by lia. cbn [mbind outcome_bind fst snd].
  replace (0 + n <? n) with false by lia. cbn [mbind outcome_bind snd].
  eexists; split; [done|]. intros o Hoo. rewrite pmem_set. unfold seg_byte. fold n. replace (o <? n) with true by lia.
  destruct (zget_is_Some data (file_offset ph + o)) as [b Hbb]; [lia|]. rewrite Hbb.
  apply write_mem_in. by rewrite zget_sub_list by lia.
Qed.

(** ** Concrete inputs *)

Lemma pool_answers n (l : list Z) (m : mem) : (n <= length l)%nat -> answers n (l, m).
Proof.
  revert l. induction n as [|n IH]; intros [|f l] Hn; cbn [length] in Hn; try done || lia.
  exists f, (l, m). split; [done|]. apply IH. lia.
Qed.

(** A program of four bytes with four more zeroed, and a machine with empty
    tables and 64 free frames. *)
Definition demo_segment : ProgramHeader :=
  {| ph_flags := 6; file_offset := 120; virtual_address := 0x400080; physical_address := 0x400080;
     file_size := 4; memory_size := 8; align := 0x1000 |}.
Definition demo_program : list byte := elf_image 0x400080 [demo_segment] [x0f; x05; xeb; xfe].
Definition demo_header : ElfHeader := mkElfHeader 0x400080 64 56 1.
Definition demo_pool : list Z := map (fun i => 0x100000 + 4096 * i) (seqZ 0 64).
Definition demo_procs : Procs (S := list Z * mem) := mkProcs 1 (demo_pool, zero_mem).

Lemma demo_pool_frames f : f ∈ demo_pool -> f mod 4096 = 0 /\ 0x100000 <= f < 0x140000.
Proof.
  unfold demo_pool. intros (i & -> & Hi%elem_of_seqZ)%list_elem_of_fmap. split; [|lia].
  replace (0x100000 + 4096 * i) with ((0x100 + i) * 4096) by lia. apply Z.mod_mul. lia.
Qed.

Lemma demo_ready : ready off (mach demo_procs).
Proof.
  split.
  - split; [apply NoDup_fmap_2; [intros ???; lia|apply NoDup_seqZ]|]. apply Forall_forall. intros f Hf. by apply demo_pool_frames.
  - intros f Hf. destruct (demo_pool_frames f Hf) as [Hm Hb]. split; [split; [done|lia]|].
    unfold canonical, off, Paging.demo_offset. lia.
Qed.

Lemma demo_root_ok : root_ok off (mach demo_procs) 0x1000.
Proof.
  split; [split; [done|lia]|]. split; [unfold canonical, off, Paging.demo_offset; lia|].
  intros Hf. apply demo_pool_frames in Hf. lia.
Qed.

Lemma demo_kernel_space : kernel_space off (mach demo_procs) 0x1000.
Proof.
  split; [apply demo_ready|apply demo_root_ok| | |done].
  - intros f Hf [Hp|[_ Hp]]; apply demo_pool_frames in Hf; unfold off, Paging.demo_offset in *; lia.
  - intros p [->|[Hp _]]; done.
Qed.

Lemma demo_loadable i : 0 <= i < 1 -> loadable demo_program demo_header i = Some demo_segment.
Proof. intros Hi. replace i with 0 by lia. by vm_compute. Qed.

Lemma demo_runnable : runnable demo_program demo_header (mach demo_procs).
Proof.
  assert (omap (loadable demo_program demo_header) (seqZ 0 (program_header_count demo_header)) = [demo_segment]) as Hs
    by (by vm_compute).
  split; rewrite ?Hs.
  - by vm_compute.
  - by vm_compute.
  - unfold canonical, demo_header. simpl. lia.
  - intros i Hi. change (program_header_count demo_header) with 1 in Hi. pose proof (demo_loadable i Hi) as Hl.
    unfold loadable in Hl. destruct (segment_verdict demo_program demo_header i); [by eexists|done].
  - repeat constructor; try (vm_compute; congruence).
  - repeat constructor.
  - apply pool_answers. change (length demo_pool) with 64%nat. by vm_compute; lia.
Qed.

Lemma process_image_witness : exists root s, new_from_elf off 0x1000 demo_program demo_procs =
    Ret (Ok (mkProcess 1 root 0x400080 0x700000008000, mkProcs 2 s)) /\
  user_byte off s root 0x400082 = Some xeb /\ user_byte off s root 0x400085 = Some x00 /\
  (fun e => e.2) <$> translate s root 0x400000 = Some (NO_EXECUTE + 7) /\ translate s root 0x401000 = None.
Proof.
  destruct (process_image off 0x1000 demo_program demo_header demo_procs eq_refl
    ltac:(unfold canonical, off, Paging.demo_offset; lia) demo_kernel_space demo_runnable) as (root & s & Hr & Hseg & _ & Hfl & _).
  exists root, s. split; [exact Hr|].
  assert (demo_segment ∈ omap (loadable demo_program demo_header) (seqZ 0 (program_header_count demo_header))) as Hin.
  { apply list_elem_of_omap. exists 0. split; [apply elem_of_seqZ; simpl; lia|apply demo_loadable; lia]. }
  assert (omap (loadable demo_program demo_header) (seqZ 0 (program_header_count demo_header)) = [demo_segment]) as Hs by (by vm_compute).
  split; [|split; [|split]].
  1,2: etransitivity; [apply (Hseg demo_segment _ Hin); unfold in_segment; cbn [virtual_address memory_size demo_segment]; lia|];
    vm_compute; reflexivity.
  - etransitivity; [apply Hfl; [split; [done|lia]|intros [_ Hb]; change (0x700000000000 <= 0x400000 <= 0x700000007000) in Hb; lia]|]. rewrite Hs. by vm_compute.
  - specialize (Hfl 0x401000 ltac:(split; [done|lia])). rewrite Hs in Hfl. destruct (translate s root 0x401000); [|done].
    exfalso. assert (~ stack_page 0x401000) as Hns by (intros [_ Hb]; change (0x700000000000 <= 0x401000 <= 0x700000007000) in Hb; lia). specialize (Hfl Hns). vm_compute in Hfl. discriminate.
Defined.

(** An empty file, and a program whose segment lies outside the file. *)
Definition demo_broken : list byte := elf_image 0x400080 [demo_segment] [].

Lemma new_from_elf_errors_witness :
  new_from_elf off 0x1000 [] demo_procs = Ret (Err (FileTooSmall, demo_procs)) /\
  exists s, new_from_elf off 0x1000 demo_broken demo_procs = Ret (Err (ProgramHeaderOutOfBounds, mkProcs 2 s)).
Proof.
  assert (forall data, len data <= isize_max -> _) as Hall by
    exact (fun data => new_from_elf_errors off 0x1000 data demo_procs eq_refl
      ltac:(unfold canonical, off, Paging.demo_offset; lia) demo_kernel_space).
  split.
  - apply (Hall []); [vm_compute; congruence|reflexivity].
  - destruct (Hall demo_broken) as [_ Hbad]; [vm_compute; congruence|].
    destruct (Hbad demo_header 0 ProgramHeaderOutOfBounds) as (s & Hs & _).
    + vm_compute. reflexivity.
    + unfold canonical. cbn [entry demo_header]. lia.
    + cbn [program_header_count demo_header]. lia.
    + vm_compute. reflexivity.
    + intros i Hi. lia.
    + constructor.
    + constructor.
    + apply pool_answers. change (length demo_pool) with 64%nat. vm_compute. lia.
    + exists s. exact Hs.
Defined.

(** The process of [Paging.demo_machine] forks. *)
Definition demo_parent : Process := mkProcess 1 0x1000 0x400000 0x700000008000.

Lemma demo_forkable : forkable Paging.demo_offset demo_live (pml4_frame demo_parent) demo_machine.
Proof.
  destruct demo_clonable as [Hr [_ _ Hl Ho _] Hs [Hc _] Ht _]. split; done.
Qed.

Lemma fork_copies_witness : exists child s,
  fork Paging.demo_offset 0x1000 demo_parent (mkProcs 2 demo_machine) = Ret (child, mkProcs 3 s) /\ proc_id child = 2 /\
  exists e, page_entry Paging.demo_offset (pmem s) (pml4_frame child) [0; 0; 0; 5] = Some e /\
    entry_addr e = 0x200000 /\ entry_flags e = 0x205.
Proof.
  destruct (fork_copies Paging.demo_offset demo_live 0x1000 demo_parent (mkProcs 2 demo_machine) eq_refl
    ltac:(unfold canonical, Paging.demo_offset; lia) demo_forkable) as (child & s & Hf & Hid & _ & _ & _ & Hp & _).
  - split; [split; [reflexivity|lia]|]. split; [unfold canonical, Paging.demo_offset; lia|].
    intros Hin. change (0x1000 ∈ [0x6000; 0x7000; 0x8000; 0x9000]) in Hin. 
    repeat apply elem_of_cons in Hin as [Hin|Hin]; [lia..|by apply elem_of_nil in Hin].
  - replace (user_tables _ _ _) with 3%nat by (by vm_compute). by apply pool_answers.
  - exists child, s. split; [exact Hf|]. split; [exact Hid|].
    specialize (Hp 0 [0; 0; 5] ltac:(lia) ltac:(split; [repeat constructor; lia|reflexivity])).
    assert (page_entry Paging.demo_offset (pmem demo_machine) 0x1000 [0; 0; 0; 5] = Some 0x200007) as He by (by vm_compute).
    change (page_entry Paging.demo_offset (pmem (mach (mkProcs 2 demo_machine))) (pml4_frame demo_parent) [0; 0; 0; 5])
      with (page_entry Paging.demo_offset (pmem demo_machine) 0x1000 [0; 0; 0; 5]) in Hp.
    rewrite He in Hp. inversion Hp as [e e' Hc|]; subst. exists e'. split; [done|exact Hc].
Defined.
