(* ===== verification/UserSpace.v ===== *)
(** * User stacks of a plain address space ([kernel/src/memory/user.rs])

    [UserSpace] maps sixteen pages below [USER_STACK_BASE]; it is compiled
    into the kernel, whose processes get their stack from
    [Process::new_from_elf] instead.  The mapper and the frame allocator are
    those of [Process]; an error keeps the frames taken so far. *)

From S2P Require Import Prelude X86 FrameAlloc Paging Process.

Definition USER_STACK_BASE : Z := 0x7ffff000.
Definition USER_STACK_SIZE_PAGES : Z := 16.

Record UserSpace := mkUserSpace { page_tables : list Z }.

Definition UserSpace_new : UserSpace := mkUserSpace [].

(** [PRESENT | WRITABLE | USER_ACCESSIBLE]. *)
Definition user_stack_flags : Z := Z.lor (Z.lor PRESENT WRITABLE) USER_ACCESSIBLE.

(** The value left in CR3. *)
Definition switch_to_user (user_pml4 cr3 : Z) : Z := user_pml4.

Section UserSpace.
Context {S : Type} `{Machine S} `{VirtAddrs} `{AddressSpaces S}.

(** One turn of the loop of [alloc_user_stack]. *)
Definition user_stack_turn (root : Z) (us : UserSpace * S) (i : Z) : outcome (result (UserSpace * S) (UserSpace * S)) :=
  r ← allocate_frame us.2;
  match r.1 with
  | None => Ret (Err (us.1, r.2))
  | Some frame =>
      below ← mul_u 64 i 4096;
      addr ← sub_u USER_STACK_BASE below;
      virt ← virt_addr_new addr;
      if negb (virt mod 4096 =? 0) then Ret (Err (us.1, r.2)) else
      m ← map_to r.2 root virt frame user_stack_flags;
      if m.1 : bool then Ret (Ok (mkUserSpace (page_tables us.1 ++ [frame]), m.2)) else Ret (Err (us.1, m.2))
  end.

Definition alloc_user_stack (root : Z) (us : UserSpace) (s : S) : outcome (result (UserSpace * S) (Z * UserSpace * S)) :=
  r ←? try_each (user_stack_turn root) (seqZ 0 USER_STACK_SIZE_PAGES) (us, s);
  Ret (Ok (USER_STACK_BASE, r.1, r.2)).
End UserSpace.

(** ** What the stack is *)

Definition stack_slot (i : Z) : Z := USER_STACK_BASE - i * 4096.

Lemma stack_slot_user i : 0 <= i < 16 -> user_page (stack_slot i).
Proof. intros Hi. unfold user_page, stack_slot, USER_STACK_BASE. split; [Z.div_mod_to_equations; lia|lia]. Qed.

Lemma stack_slot_inj i j : stack_slot i = stack_slot j -> i = j.
Proof. unfold stack_slot. lia. Qed.

Section Spec.
Context {S : Type} `{Machine S} `{VirtAddrs} `{PageEntries} `{AddressSpaces S} (off : Z) `{!Mapper S off}.
Hypothesis off_ok : off mod 4096 = 0 /\ canonical off.

(** A turn does to an unmapped page what the loop of [map_user_region]
    does, and records the frame. *)
Lemma user_stack_turn_maps root us s i s' (live : Z -> Prop) : coherent s live -> live root -> 0 <= i < 16 -> translate s root (stack_slot i) = None ->
  map_user_page root user_stack_flags s (stack_slot i) = Ret s' ->
  exists f, user_stack_turn root (us, s) i = Ret (Ok (mkUserSpace (page_tables us ++ [f]), s')) /\
    translate s' root (stack_slot i) = Some (f, user_stack_flags).
Proof.
  intros Hco Hl Hi Hno Hm. destruct (stack_slot_user i Hi) as [Ha Hb]. unfold map_user_page in Hm.
  rewrite translate_addr_page, Hno in Hm by done. cbn [fmap option_fmap option_map] in Hm.
  apply bind_Ret_inv in Hm as ([r s1] & Hr & Hm). cbn [fst snd] in Hm.
  destruct r as [f|]; [|done]. cbn [unwrap mbind outcome_bind] in Hm.
  apply bind_Ret_inv in Hm as ([b s2] & Hb2 & Hm). cbn [fst snd] in Hm. destruct b; [|done].
  cbn [assert_b mbind outcome_bind] in Hm. injection Hm as ->. exists f. split.
  2: { rewrite <- take_frame_allocates in Hr. apply (map_to_ok _ _ _ _ _ _ live Hb2); [|done].
       exact (proj2 (take_frame_ok _ _ _ Hr) _ Hco). }
  unfold user_stack_turn. cbn [fst snd]. rewrite Hr. cbn [mbind outcome_bind fst snd].
  rewrite mul_u_Ret by lia. cbn [mbind outcome_bind].
  rewrite sub_u_Ret by (unfold USER_STACK_BASE; lia). cbn [mbind outcome_bind]. fold (stack_slot i).
  rewrite virt_addr_new_ok by (unfold canonical; lia). cbn [mbind outcome_bind].
  rewrite Ha. change (negb (0 =? 0)) with false. cbv iota. rewrite Hb2. done.
Qed.

Lemma user_stack_turns cr3 s0 root l : NoDup l -> Forall (fun i => 0 <= i < 16) l -> forall us s,
  building off cr3 s0 root s -> (forall i, i ∈ l -> translate s root (stack_slot i) = None) -> answers (4 * length l) s ->
  exists frames s' k, try_each (user_stack_turn root) l (us, s) = Ret (Ok (mkUserSpace (page_tables us ++ frames), s')) /\
    (k <= 4 * length l)%nat /\ spent k s s' /\ building off cr3 s0 root s' /\
    extends off root (fun v => v ∈ map stack_slot l) user_stack_flags s s' /\
    Forall2 (fun i f => translate s' root (stack_slot i) = Some (f, user_stack_flags)) l frames.
Proof.
  intros Hnd Hl. induction Hl as [|i l Hi Hl IH]; intros us s Hb Hno Hans.
  { exists [], s, O. rewrite app_nil_r. split; [by destruct us|]. split; [lia|]. split; [apply spent_refl|].
    split; [done|]. split; [|done]. split; try done. intros v Hv. by apply elem_of_nil in Hv. }
  apply NoDup_cons in Hnd as [Hni Hnd]. cbn [length] in Hans. pose proof (stack_slot_user i Hi) as Hup.
  assert (translate s root (stack_slot i) = None) as Hfree by (apply Hno; left).
  destruct (map_user_page_spec off off_ok cr3 s0 root user_stack_flags s (stack_slot i) Hb Hup) as (t & k & Ht & Hk & Hsp & Hbt & Het);
    [by vm_compute|done|done|eapply answers_le; [|exact Hans]; lia|].
  destruct (user_stack_turn_maps root us s i t _ (b_coherent _ _ _ _ _ Hb) (or_introl eq_refl) Hi Hfree Ht) as (f & Hturn & Htf).
  destruct (IH Hnd (mkUserSpace (page_tables us ++ [f])) t Hbt) as (frames & u & j & Hu & Hj & Hsp' & Hbu & Heu & Hfr).
  { intros x Hx. rewrite (ex_old _ _ _ _ _ _ Het); [apply Hno; by right|]. intros ->%stack_slot_inj. done. }
  { eapply (answers_spent k); [exact Hsp|]. eapply answers_le; [|exact Hans]. lia. }
  exists (f :: frames), u, (k + j)%nat. cbn [try_each]. rewrite Hturn. cbn [try_bind mbind outcome_bind]. rewrite Hu.
  cbn [page_tables]. rewrite <- app_assoc. split; [done|]. split; [cbn [length]; lia|].
  split; [exact (spent_trans _ _ _ _ _ Hsp Hsp')|]. split; [done|].
  split; [by apply (extends_cons off root _ _ _ s t u)|]. constructor; [|done].
  by apply (ex_kept _ _ _ _ _ _ Heu).
Qed.

(** With frames for the stack and its tables, and nothing mapped there,
    [alloc_user_stack] maps the sixteen pages down from the base, writable
    by the user, to frames of their own that it records in order; the rest of
    the address space is as before. *)
Lemma alloc_user_stack_maps cr3 s0 root us s : building off cr3 s0 root s ->
  (forall i, 0 <= i < 16 -> translate s root (stack_slot i) = None) -> answers 64 s ->
  exists frames s', alloc_user_stack root us s = Ret (Ok (USER_STACK_BASE, mkUserSpace (page_tables us ++ frames), s')) /\
    building off cr3 s0 root s' /\ extends off root (fun v => v ∈ map stack_slot (seqZ 0 16)) user_stack_flags s s' /\
    NoDup frames /\
    Forall2 (fun i f => translate s' root (stack_slot i) = Some (f, user_stack_flags)) (seqZ 0 16) frames.
Proof.
  intros Hb Hno Hans. destruct (user_stack_turns cr3 s0 root (seqZ 0 16)) with (us := us) (s := s)
    as (frames & s' & k & Hr & _ & _ & Hb' & He & Hf); try done.
  { apply NoDup_seqZ. } { apply Forall_forall. intros i Hi%elem_of_seqZ. lia. } { intros i Hi%elem_of_seqZ. apply Hno. lia. }
  exists frames, s'. unfold alloc_user_stack, USER_STACK_SIZE_PAGES. rewrite Hr. split; [done|]. split; [done|].
  split; [done|]. split; [|done]. apply NoDup_alt. intros i j f Hi Hj.
  destruct (Forall2_lookup_r _ _ _ _ _ Hf Hi) as (x & Hx & Htx). destruct (Forall2_lookup_r _ _ _ _ _ Hf Hj) as (y & Hy & Hty).
  apply lookup_seqZ in Hx as [-> Hx]. apply lookup_seqZ in Hy as [-> Hy]. cbv beta in *.
  assert (stack_slot (0 + Z.of_nat i) = stack_slot (0 + Z.of_nat j)) as Heq%stack_slot_inj; [|lia].
  eapply (b_inj _ _ _ _ _ Hb'); [apply stack_slot_user; lia|apply stack_slot_user; lia|done|done].
Qed.

(** A page of the stack that is mapped already makes it fail. *)
Lemma alloc_user_stack_taken root us s r us' s' (live : Z -> Prop) : coherent s live -> live root ->
  alloc_user_stack root us s = Ret (Ok (r, us', s')) ->
  translate s root USER_STACK_BASE = None.
Proof.
  intros Hco Hl. unfold alloc_user_stack. change (seqZ 0 USER_STACK_SIZE_PAGES) with (0 :: seqZ 1 15). cbn [try_each].
  destruct (user_stack_turn root (us, s) 0) as [[u|e]| |] eqn:E; try done. intros _.
  unfold user_stack_turn in E. cbn [fst snd] in E. apply bind_Ret_inv in E as ([[f|] s1] & Hr & E); [|done]. cbn [fst snd] in E.
  change (mul_u 64 0 4096) with (Ret 0) in E. cbn [mbind outcome_bind] in E.
  change (sub_u USER_STACK_BASE 0) with (Ret USER_STACK_BASE) in E. cbn [mbind outcome_bind] in E.
  rewrite virt_addr_new_ok in E by (unfold canonical, USER_STACK_BASE; lia). cbn [mbind outcome_bind] in E.
  change (negb (USER_STACK_BASE mod 4096 =? 0)) with false in E. cbv iota in E.
  apply bind_Ret_inv in E as ([b s2] & Hm & E). cbn [fst snd] in E. destruct b; [|done].
  rewrite <- take_frame_allocates in Hr. destruct (take_frame_ok _ _ _ Hr) as [Htr Hc1].
  destruct (map_to_ok _ _ _ _ _ _ live Hm (Hc1 _ Hco) Hl) as [Hno _]. by rewrite <- Hno, Htr.
Qed.
End Spec.
