(* ===== verification/LoaderMain.v ===== *)
(** * The UEFI loader ([boot/uefi-loader/src/main.rs])

    Placing the ramdisk, the page tables for the kernel, and the block handed
    to the kernel.  What the firmware answers is an argument; [map_to] of the
    crate is the class [LoaderTables], of which [LoaderPaging.v] has an
    instance that keeps four-level tables in memory. *)

From S2P Require Import Prelude Abi X86 LoaderElf FrameAlloc Paging.

Definition PHYSICAL_MEMORY_OFFSET : Z := 0xffff800000000000.
Definition RAMDISK_VIRTUAL_BASE : Z := 0xffff900000000000.

(** ** The ramdisk *)

(** The bytes of the file (or none, with a warning), copied to pages of the
    firmware; physical address and size. *)
Definition load_ramdisk (alloc : Z -> option Z) (file : option (list byte)) (m : mem) : outcome (Z * Z * mem) :=
  let ramdisk_bytes := default [] file in
  match ramdisk_bytes with
  | [] => Ret (0, 0, m)
  | _ =>
      let size := len ramdisk_bytes in
      phys_addr ← unwrap (alloc (div_ceil size 4096));
      Ret (phys_addr, size, write_mem m phys_addr ramdisk_bytes)
  end.

(** ** The hand-off block *)

Inductive PixelFormat := Rgb | Bgr | Bitmask | BltOnly.

(** What the firmware says about the memory map and the screen. *)
Record MapMeta := mkMapMeta { meta_map_size : Z; meta_desc_size : Z; meta_desc_version : Z }.
Record Gop := mkGop {
  gop_addr : Z; gop_size : Z; resolution : Z * Z; stride : Z; pixel_format : PixelFormat }.

Definition boot_block (kernel : LoadedKernel) (ramdisk_size map_buffer : Z) (meta : MapMeta) (gop : Gop) : BootInfo :=
  let b := uefi ABI_VERSION in
  {| abi_version := abi_version b; environment := environment b; loader := loader b;
     flags := Z.lor (flags b) BOOT_FLAG_BOOT_SERVICES_EXITED;
     kernel_image_base := lk_virtual_base kernel;
     kernel_image_size := lk_image_size kernel;
     physical_memory_offset := PHYSICAL_MEMORY_OFFSET;
     ramdisk_addr := if 0 <? ramdisk_size then RAMDISK_VIRTUAL_BASE else 0;
     ramdisk_size := ramdisk_size;
     memory_map := mkMemoryMap map_buffer (meta_map_size meta) (meta_desc_size meta) (wrap 32 (meta_desc_version meta));
     framebuffer := mkBootFramebuffer (gop_addr gop) (gop_size gop) (wrap 32 (resolution gop).1)
       (wrap 32 (resolution gop).2) (wrap 32 (stride gop))
       (match pixel_format gop with Bgr => 0 | Rgb => 1 | _ => 0 end);
     rsdp_addr := 0 |}.

(** ** The page tables *)

(** Memory with the next free address of the scratchpad, and what else the
    mapper keeps.  The loader runs with the identity mapping: tables are at
    their physical addresses. *)
Record LState (T : Type) := mkLState { lmem : mem; next_scratch_phys : Z; lrest : T }.
Arguments mkLState {T}. Arguments lmem {T}. Arguments next_scratch_phys {T}. Arguments lrest {T}.

Definition set_lmem {T} (m : mem) (s : LState T) : LState T := mkLState m (next_scratch_phys s) (lrest s).
Definition set_scratch {T} (n : Z) (s : LState T) : LState T := mkLState (lmem s) n (lrest s).

(** What the loader needs of the crate's [map_to] ([lmap_to]) with its scratch allocator,
    for pages of the upper half.  [fresh s root]: the tables of the upper half
    of [root] are scratch pages between [root]'s own and the next free one.
    A new page takes a table for each level that no page mapped before has
    made; everything is written between [root] and the next free scratch page;
    and the other translations of the upper half stay, also when memory changes
    from the next free scratch page on or in the lower top-level entries. *)
Definition upper (v : Z) : Prop := v mod 4096 = 0 /\ 2 ^ 64 - 2 ^ 47 <= v < 2 ^ 64.

Definition PW : Z := Z.lor PRESENT WRITABLE.

Class LoaderTables (T : Type) `{PageEntries} := {
  ltranslate : LState T -> Z -> Z -> option (Z * Z);
  lmap_to : LState T -> Z -> Z -> Z -> Z -> outcome (bool * LState T);
  fresh : LState T -> Z -> Prop;
  fresh_empty : forall s root, root mod 4096 = 0 -> next_scratch_phys s mod 4096 = 0 -> 0 <= root ->
    root + 4096 <= next_scratch_phys s -> (forall i, 256 <= i < 512 -> entry_at (lmem s) root i = 0) ->
    fresh s root /\ forall v, upper v -> ltranslate s root v = None;
  fresh_local : forall s root m n, fresh s root ->
    (forall x, m x <> lmem s x -> (exists i, 0 <= i <= 256 /\ in_slot root i x) \/ next_scratch_phys s <= x) ->
    forall v, upper v -> p4_index v <> 256 ->
    ltranslate (mkLState m n (lrest s)) root v = ltranslate s root v;
  map_to_fresh : forall s root page frame, fresh s root -> upper page -> ltranslate s root page = None ->
    frame_ok frame -> next_scratch_phys s + 4096 * 3 <= 2 ^ 52 ->
    exists s' k, lmap_to s root page frame PW = Ret (true, s') /\ fresh s' root /\
      ltranslate s' root page = Some (frame, PW) /\
      (forall v, upper v -> v <> page -> ltranslate s' root v = ltranslate s root v) /\
      (0 <= k <= 3 /\ next_scratch_phys s' = next_scratch_phys s + 4096 * k) /\
      (forall v l, upper v -> is_Some (ltranslate s root v) -> 1 <= l <= 3 -> v / 2 ^ (12 + 9 * l) = page / 2 ^ (12 + 9 * l) -> k <= l - 1) /\
      (forall x, x < root \/ next_scratch_phys s' <= x -> lmem s' x = lmem s x) /\
      forall i, 0 <= i < 512 -> i <> p4_index page -> entry_at (lmem s') root i = entry_at (lmem s) root i }.

Section Mappings.
Context {T : Type} `{LoaderTables T} `{VirtAddrs} `{PhysFrames}.

Definition lupd (f : mem -> mem) (s : LState T) : LState T := set_lmem (f (lmem s)) s.

(** The closure [alloc]. *)
Definition scratch_alloc (size : Z) (s : LState T) : outcome (Z * LState T) :=
  let addr := next_scratch_phys s in
  n ← add_u 64 addr size;
  f ← frame_containing addr;
  Ret (f, set_scratch n s).

(** [pml4[i] = old_pml4[i].clone()]. *)
Definition clone_identity (old_pml4 pml4 : Z) (s : LState T) (i : Z) : outcome (LState T) :=
  Ret (lupd (fun m => put_entry m pml4 i (entry_at m old_pml4 i)) s).

(** One page of a run of pages mapped at [virt] to frames from [phys]. *)
Definition map_run_page (pml4 virt phys : Z) (s : LState T) (i : Z) : outcome (LState T) :=
  o ← mul_u 64 i 4096;
  a ← add_u 64 virt o;
  v ← virt_addr_new a;
  p ← add_u 64 phys o;
  frame ← frame_containing p;
  r ← lmap_to s pml4 (v / 4096 * 4096) frame PW;
  _ ← assert_b r.1;
  Ret r.2.

(** Make sure that entry [i] of [table] leads to a table; where it is. *)
Definition ensure_table (table i : Z) (s : LState T) : outcome (Z * LState T) :=
  s ← (if is_unused (entry_at (lmem s) table i) then
         r ← scratch_alloc 4096 s;
         let '(new_frame, s) := r in
         e ← set_frame new_frame PW;
         let s := lupd (fun m => put_entry m table i e) s in
         Ret (lupd (fun m => write_mem m new_frame (replicate 4096 x00)) s)
       else Ret s);
  f ← frame_unwrap (entry_at (lmem s) table i);
  Ret (f, s).

(** One 2 MiB page of the window on physical memory. *)
Definition map_window_page (pml4 : Z) (s : LState T) (i : Z) : outcome (LState T) :=
  let addr := PHYSICAL_MEMORY_OFFSET + i * 2 * 1024 * 1024 in
  v ← virt_addr_new addr;
  let start := page_2m v in
  frame ← frame_2m (i * 2 * 1024 * 1024);
  r ← ensure_table pml4 (p4_index start) s;
  let '(pdpt, s) := r in
  r ← ensure_table pdpt (p3_index start) s;
  let '(pd, s) := r in
  e ← set_addr frame (Z.lor PW HUGE_PAGE);
  Ret (lupd (fun m => put_entry m pd (p2_index start) e) s).

Definition setup_mappings (old_pml4 pml4 scratchpad_phys : Z) (kernel : LoadedKernel) (ramdisk_phys ramdisk_size : Z)
    (s : LState T) : outcome (LState T) :=
  s ← for_each (clone_identity old_pml4 pml4) (seqZ 0 256) s;
  next ← add_u 64 scratchpad_phys 4096;
  let s := set_scratch next s in
  s ← for_each (map_run_page pml4 (lk_virtual_base kernel) (lk_physical_base kernel))
        (seqZ 0 (div_ceil (lk_image_size kernel) 4096)) s;
  s ← (if 0 <? ramdisk_size
       then for_each (map_run_page pml4 RAMDISK_VIRTUAL_BASE ramdisk_phys) (seqZ 0 (div_ceil ramdisk_size 4096)) s
       else Ret s);
  for_each (map_window_page pml4) (seqZ 0 (4096 / 2)) s.

(** ** [main]

    What the firmware provides: the two files, pages for each request, the
    size of the memory map before and the map after leaving boot services, the
    screen, and the current top-level table. *)
Record Firmware := mkFirmware {
  fw_kernel : option (list byte);
  fw_ramdisk : option (list byte);
  fw_ramdisk_pages : Z -> option Z;
  fw_boot_info_page : option Z;
  fw_scratchpad : Z -> option Z;
  fw_map_meta : option MapMeta;
  fw_map_buffer : Z -> option Z;
  fw_gop : option Gop;
  fw_memory_map : list byte * MapMeta;
  fw_cr3 : Z }.

(** The block, where it is, the new top-level table and the kernel's entry
    point, with the state in which the kernel is entered.  Messages on the
    serial line are left out. *)
Definition main `{PageAllocator} (fw : Firmware) (s : LState T) : outcome (BootInfo * Z * Z * Z * LState T) :=
  kernel_bytes ← unwrap (fw_kernel fw);
  k ← load_kernel kernel_bytes (lmem s);
  loaded_kernel ← match k.1 with Ok k => Ret k | Err _ => Panic end;
  rd ← load_ramdisk (fw_ramdisk_pages fw) (fw_ramdisk fw) k.2;
  let '(ramdisk_phys, ramdisk_size, m) := rd in
  boot_info_ptr ← unwrap (fw_boot_info_page fw);
  scratchpad_phys ← unwrap (fw_scratchpad fw 256);
  map_meta ← unwrap (fw_map_meta fw);
  pages ← add_u 64 (div_ceil (meta_map_size map_meta) 4096) 1;
  map_buffer ← unwrap (fw_map_buffer fw pages);
  let s := set_lmem (write_mem m scratchpad_phys (replicate 4096 x00)) s in
  s ← setup_mappings (fw_cr3 fw) scratchpad_phys scratchpad_phys loaded_kernel ramdisk_phys ramdisk_size s;
  gop ← unwrap (fw_gop fw);
  let '(map_bytes, meta) := fw_memory_map fw in
  let s := lupd (fun m => write_mem m map_buffer (sub_list map_bytes 0 (meta_map_size meta))) s in
  let boot_info := boot_block loaded_kernel ramdisk_size map_buffer meta gop in
  Ret (boot_info, boot_info_ptr, scratchpad_phys, lk_entry_point loaded_kernel, s).

(** ** The window *)

Lemma window_index a : 0 <= a < 2 ^ 32 ->
  p4_index (PHYSICAL_MEMORY_OFFSET + a) = 256 /\ p3_index (PHYSICAL_MEMORY_OFFSET + a) = a / 2 ^ 30 /\
  p2_index (PHYSICAL_MEMORY_OFFSET + a) = a / 2 ^ 21 mod 512.
Proof.
  intros Ha. rewrite !table_index_spec by lia. unfold PHYSICAL_MEMORY_OFFSET. cbn [Z.sub Z.mul Z.add Z.opp Pos.mul Pos.add].
  replace (0xffff800000000000 + a) with (a + (2 ^ 25 - 2 ^ 8) * 2 ^ 39) by lia.
  split; [|replace (a + (2 ^ 25 - 2 ^ 8) * 2 ^ 39) with (a + (2 ^ 34 - 2 ^ 17) * 2 ^ 30) by lia; split;
    [|replace (a + (2 ^ 34 - 2 ^ 17) * 2 ^ 30) with (a + (2 ^ 43 - 2 ^ 26) * 2 ^ 21) by lia]].
  - change (2 ^ (12 + 9 * (4 - 1))) with (2 ^ 39). rewrite Z.div_add, Z.div_small by lia. reflexivity.
  - change (2 ^ (12 + 9 * (3 - 1))) with (2 ^ 30). rewrite Z.div_add by lia.
    replace (a / 2 ^ 30 + (2 ^ 34 - 2 ^ 17)) with (a / 2 ^ 30 + (2 ^ 25 - 2 ^ 8) * 512) by lia.
    rewrite Z.mod_add by lia. apply Z.mod_small. split; [apply Z.div_pos; lia|apply Z.div_lt_upper_bound; lia].
  - change (2 ^ (12 + 9 * (2 - 1))) with (2 ^ 21). rewrite Z.div_add by lia.
    replace (a / 2 ^ 21 + (2 ^ 43 - 2 ^ 26)) with (a / 2 ^ 21 + (2 ^ 34 - 2 ^ 17) * 512) by lia.
    by rewrite Z.mod_add by lia.
Qed.

(** An entry that points to the table at [f]. *)
Definition points (e f : Z) : Prop := entry_addr e = f /\ entry_flags e = PW.

Lemma points_frame e f : points e f -> entry_frame e = Ok f /\ is_unused e = false.
Proof.
  intros [Ha Hf]. rewrite entry_frame_spec, is_unused_spec, Hf, Ha. split; [done|].
  destruct (e =? 0) eqn:E; [|done]. apply Z.eqb_eq in E as ->. by rewrite entry_flags_zero in Hf.
Qed.

Lemma ensure_table_used table i f s : points (entry_at (lmem s) table i) f -> ensure_table table i s = Ret (f, s).
Proof.
  intros Hp. destruct (points_frame _ _ Hp) as [Hf Hu]. unfold ensure_table. rewrite Hu. cbn [mbind outcome_bind].
  unfold frame_unwrap. by rewrite Hf.
Qed.

Lemma ensure_table_new table i s : slot table i -> entry_at (lmem s) table i = 0 ->
  let n := next_scratch_phys s in n mod 4096 = 0 -> 0 <= n -> n + 4096 <= 2 ^ 52 -> n <> table ->
  exists s', ensure_table table i s = Ret (n, s') /\ next_scratch_phys s' = n + 4096 /\ lrest s' = lrest s /\
    points (entry_at (lmem s') table i) n /\ (forall j, 0 <= j < 512 -> entry_at (lmem s') n j = 0) /\
    forall x, ~ in_slot table i x -> ~ in_page n x -> lmem s' x = lmem s x.
Proof.
  intros Hs Hz n Hn H0n Hmax Hne. unfold ensure_table. rewrite Hz, is_unused_spec. cbn [Z.eqb].
  unfold scratch_alloc. fold n. rewrite (add_u_Ret 64 n 4096) by lia. cbn [mbind outcome_bind].
  rewrite frame_containing_ok by lia. replace (n / 4096 * 4096) with n by (pose proof (Z.div_mod n 4096); lia).
  cbn [mbind outcome_bind]. assert (frame_ok n) as Hfn by (split; [done|lia]).
  destruct (set_frame_ok n PW) as (e & -> & He & Hea & Hef); [done|done|done|]. cbn [mbind outcome_bind].
  set (m1 := put_entry (lmem s) table i e). unfold lupd.
  set (s' := set_lmem _ _). assert (lmem s' = write_mem m1 n (replicate 4096 x00)) as Hm by done.
  assert (forall x, ~ in_page n x -> lmem s' x = m1 x) as Hout.
  { intros x Hx. rewrite Hm. apply write_mem_out. rewrite len_replicate. unfold in_page in Hx. lia. }
  assert (points (entry_at (lmem s') table i) n) as Hp.
  { replace (entry_at (lmem s') table i) with e; [by split|]. rewrite <- (entry_at_put (lmem s) table i e) by done.
    symmetry. apply entry_at_ext. intros x Hx. apply Hout. apply (pages_disjoint table); [apply Hs|done|done|].
    apply (slot_in_page table i); [apply Hs|done]. }
  unfold frame_unwrap. rewrite (proj1 (points_frame _ _ Hp)). cbn [mbind outcome_bind].
  exists s'. split; [done|]. split; [done|]. split; [done|]. split; [done|]. split.
  - intros j Hj. rewrite Hm. by apply entry_at_zeroed.
  - intros x Hx Hx'. rewrite Hout by done. by apply put_entry_out.
Qed.

(** The window's tables after [k] pages, with [d] page directories: the
    page-directory-pointer table is at [s0], directory [j] follows it. *)
Definition dir (s0 j : Z) : Z := s0 + 4096 * (1 + j).
Definition huge_to (e a : Z) : Prop := entry_addr e = a /\ entry_flags e = Z.lor PW HUGE_PAGE.

Record window (root s0 : Z) (m0 : mem) (r0 : T) (d k : Z) (s : LState T) : Prop := mkWindow {
  w_rest : lrest s = r0;
  w_scratch : next_scratch_phys s = dir s0 d;
  w_root : points (entry_at (lmem s) root 256) s0;
  w_dirs : forall j, 0 <= j < d -> points (entry_at (lmem s) s0 j) (dir s0 j);
  w_none : forall j, d <= j < 512 -> entry_at (lmem s) s0 j = 0;
  w_pages : forall j t, 0 <= j < d -> 0 <= t < 512 -> j * 512 + t < k ->
    huge_to (entry_at (lmem s) (dir s0 j) t) ((j * 512 + t) * 2 ^ 21);
  w_out : forall x, ~ in_slot root 256 x -> ~ (s0 <= x < dir s0 4) -> lmem s x = m0 x }.

(** The top-level table is apart from the five frames the window takes. *)
Definition scratch_ok (root s0 : Z) : Prop :=
  root mod 4096 = 0 /\ s0 mod 4096 = 0 /\ 0 <= s0 /\ dir s0 4 <= 2 ^ 52 /\ (root + 4096 <= s0 \/ dir s0 4 <= root).

Lemma dir_page s0 j : s0 mod 4096 = 0 -> dir s0 j mod 4096 = 0.
Proof. intros Hs. unfold dir. replace (s0 + 4096 * (1 + j)) with (s0 + (1 + j) * 4096) by lia. by rewrite Z.mod_add by lia. Qed.

(** Entries outside the slot written and the new page. *)
Lemma entry_kept m m' p i q j n : slot p i -> slot q j -> n mod 4096 = 0 ->
  (forall x, ~ in_slot q j x -> ~ in_page n x -> m' x = m x) -> (p, i) <> (q, j) -> p <> n ->
  entry_at m' p i = entry_at m p i.
Proof.
  intros Hp Hq Hn Hm Hne Hpn. apply entry_at_ext. intros x Hx. apply Hm.
  - exact (slots_disjoint p i q j x Hp Hq Hne Hx).
  - apply (pages_disjoint p n x); [apply Hp|done|done|]. apply (slot_in_page p i); [apply Hp|done].
Qed.

Lemma window_start root s0 s : scratch_ok root s0 -> next_scratch_phys s = s0 -> entry_at (lmem s) root 256 = 0 ->
  exists s', ensure_table root 256 s = Ret (s0, s') /\ window root s0 (lmem s) (lrest s) 0 0 s'.
Proof.
  intros (Hr & Hs & Hpos & Hmax & Hap) Hn Hz. unfold dir in *.
  destruct (ensure_table_new root 256 s) as (s' & Hs' & Hn' & Hrs & Hp & Hzero & Hout); rewrite ?Hn in *; try done; try lia.
  exists s'. split; [done|]. split; [done|unfold dir; lia|done|lia|intros j Hj; apply Hzero; lia|lia|].
  intros x Hx Hx'. apply Hout; [done|]. unfold in_page, dir in *. lia.
Qed.

Lemma window_new_dir root s0 m0 r0 d s : scratch_ok root s0 -> 0 <= d < 4 -> window root s0 m0 r0 d (d * 512) s ->
  exists s', ensure_table s0 d s = Ret (dir s0 d, s') /\ window root s0 m0 r0 (d + 1) (d * 512) s'.
Proof.
  intros (Hr & Hs & Hpos & Hmax & Hap) Hd [Hrest Hsc Hroot Hdirs Hnone Hpages Hout0].
  pose proof (dir_page s0 d Hs) as Hdp. assert (slot s0 d) as Hsl by (split; [done|lia]).
  assert (forall j, 0 <= j -> s0 <> dir s0 j) as Hsd by (unfold dir; lia).
  destruct (ensure_table_new s0 d s Hsl) as (s' & Hs' & Hn' & Hrs & Hp & Hzero & Hout);
    rewrite ?Hsc in *; [apply Hnone; lia|done|unfold dir; lia|unfold dir in *; lia|intros Hb; by apply (Hsd d); [lia|]|].
  assert (forall p i, slot p i -> (p, i) <> (s0, d) -> p <> dir s0 d -> entry_at (lmem s') p i = entry_at (lmem s) p i) as Hk.
  { intros p i Hpi Hne Hpn. by apply (entry_kept _ _ p i s0 d (dir s0 d)). }
  exists s'. split; [done|]. split.
  - by rewrite Hrs.
  - unfold dir in *. lia.
  - rewrite Hk; [done|by split|intros [= -> _]; unfold dir in *; lia|unfold dir in *; lia].
  - intros j Hj. destruct (decide (j = d)) as [->|Hne]; [done|]. rewrite Hk; [apply Hdirs; lia|split; [done|lia]|congruence|apply Hsd; lia].
  - intros j Hj. rewrite Hk; [apply Hnone; lia|split; [done|lia]|congruence || (intros [=]; lia)|apply Hsd; lia].
  - intros j t Hj Ht Hlt. rewrite Hk; [apply Hpages; lia|split; [by apply dir_page|done]| |unfold dir; lia].
    intros [= Hb _]. unfold dir in Hb. lia.
  - intros x Hx Hx'. rewrite Hout; [by apply Hout0| |].
    + intros Hi. apply slot_in_page in Hi; [|lia]. unfold in_page, dir in *. lia.
    + intros Hi. unfold in_page, dir in *. lia.
Qed.

Lemma window_put root s0 m0 r0 d k s e : scratch_ok root s0 -> 0 <= k < 512 * d -> d <= 4 -> in_u64 e ->
  huge_to e (k * 2 ^ 21) -> window root s0 m0 r0 d k s ->
  window root s0 m0 r0 d (k + 1) (lupd (fun m => put_entry m (dir s0 (k / 512)) (k mod 512) e) s).
Proof.
  intros (Hr & Hs & Hpos & Hmax & Hap) Hk Hd He Hh [Hrest Hsc Hroot Hdirs Hnone Hpages Hout0].
  pose proof (Z.div_mod k 512 ltac:(lia)) as Hdm. pose proof (Z.mod_pos_bound k 512 ltac:(lia)) as Hmb.
  assert (0 <= k / 512 < d) as Hkd by (split; [apply Z.div_pos; lia|apply Z.div_lt_upper_bound; lia]).
  assert (slot (dir s0 (k / 512)) (k mod 512)) as Hsl by (split; [by apply dir_page|done]).
  unfold lupd, set_lmem. split; cbn [lmem next_scratch_phys lrest].
  - done.
  - done.
  - rewrite entry_at_put_ne; [done|by split|done|intros [= Hb _]; unfold dir in *; lia].
  - intros j Hj. rewrite entry_at_put_ne; [by apply Hdirs|split; [done|lia]|done|intros [= Hb _]; unfold dir in *; lia].
  - intros j Hj. rewrite entry_at_put_ne; [by apply Hnone|split; [done|lia]|done|intros [= Hb _]; unfold dir in *; lia].
  - intros j t Hj Ht Hlt. destruct (decide (j = k / 512 /\ t = k mod 512)) as [[-> ->]|Hne].
    + rewrite entry_at_put by done. by replace (k / 512 * 512 + k mod 512) with k by lia.
    + rewrite entry_at_put_ne; [apply Hpages; try done; lia|split; [by apply dir_page|done]|done|].
      intros [= Hb ->]. apply Hne. unfold dir in Hb. lia.
  - intros x Hx Hx'. rewrite put_entry_out; [by apply Hout0|]. intros Hi. apply slot_in_page in Hi; [|lia].
    unfold in_page, dir in *. lia.
Qed.

Lemma map_window_page_eq root s k : 0 <= k < 2048 ->
  map_window_page root s k =
    (r ← ensure_table root 256 s;
     r ← ensure_table r.1 (k / 512) r.2;
     e ← set_addr (k * 2 ^ 21) (Z.lor PW HUGE_PAGE);
     Ret (lupd (fun m => put_entry m r.1 (k mod 512) e) r.2)).
Proof.
  intros Hk. unfold map_window_page. replace (k * 2 * 1024 * 1024) with (k * 2 ^ 21) by lia.
  destruct (window_index (k * 2 ^ 21) ltac:(lia)) as (Hi4 & Hi3 & Hi2).
  rewrite virt_addr_new_ok by (unfold canonical, PHYSICAL_MEMORY_OFFSET; lia). cbn [mbind outcome_bind].
  rewrite frame_2m_ok, page_2m_ok by lia. rewrite Z.div_mul by lia. cbn [mbind outcome_bind].
  replace ((PHYSICAL_MEMORY_OFFSET + k * 2 ^ 21) / 2 ^ 21 * 2 ^ 21) with (PHYSICAL_MEMORY_OFFSET + k * 2 ^ 21).
  2: { unfold PHYSICAL_MEMORY_OFFSET. rewrite Z.div_add by lia. rewrite Z.mul_add_distr_r. done. }
  rewrite Hi4, Hi3, Hi2, Z.div_mul by lia.
  replace (k * 2 ^ 21 / 2 ^ 30) with (k / 512).
  2: { change (2 ^ 30) with (2 ^ 21 * 512). rewrite <- Z.div_div, Z.div_mul by lia. done. }
  destruct (ensure_table root 256 s) as [[pdpt s1]| |]; [|done|done]. cbn [mbind outcome_bind fst snd].
  by destruct (ensure_table pdpt (k / 512) s1) as [[pd s2]| |].
Qed.

Definition dirs (k : Z) : Z := (k + 511) / 512.

Lemma window_step root s0 m0 r0 d k s : scratch_ok root s0 -> 0 <= k < 2048 -> d = dirs k -> window root s0 m0 r0 d k s ->
  exists s', map_window_page root s k = Ret s' /\ window root s0 m0 r0 (dirs (k + 1)) (k + 1) s'.
Proof.
  intros Hok Hk -> Hw. rewrite map_window_page_eq by done.
  pose proof (Z.div_mod k 512 ltac:(lia)) as Hdm. pose proof (Z.mod_pos_bound k 512 ltac:(lia)) as Hmb.
  rewrite (ensure_table_used root 256 s0) by apply Hw. cbn [mbind outcome_bind fst snd].
  assert (0 <= k / 512 < 4) as Hq by (split; [apply Z.div_pos; lia|apply Z.div_lt_upper_bound; lia]).
  assert (dirs (k + 1) = k / 512 + 1) as Hd1.
  { unfold dirs. replace (k + 1 + 511) with (k + 1 * 512) by lia. by rewrite Z.div_add by lia. }
  assert (exists s1, ensure_table s0 (k / 512) s = Ret (dir s0 (k / 512), s1) /\ window root s0 m0 r0 (k / 512 + 1) k s1)
    as (s1 & -> & Hw1).
  { destruct (decide (k mod 512 = 0)) as [Hz|Hnz].
    - assert (dirs k = k / 512) as Hdk.
      { unfold dirs. symmetry. apply (Z.div_unique _ _ _ 511); lia. }
      rewrite Hdk in Hw. replace k with (k / 512 * 512) in Hw at 2 by lia.
      destruct (window_new_dir root s0 m0 r0 (k / 512) s Hok Hq Hw) as (s1 & Hs1 & Hw1).
      exists s1. split; [done|]. by replace (k / 512 * 512) with k in Hw1 by lia.
    - assert (dirs k = k / 512 + 1) as Hdk.
      { unfold dirs. symmetry. apply (Z.div_unique _ _ _ (k mod 512 - 1)); lia. }
      rewrite Hdk in Hw. exists s. split; [|done]. apply ensure_table_used. apply (w_dirs _ _ _ _ _ _ _ Hw). lia. }
  cbn [mbind outcome_bind fst snd].
  destruct (set_addr_ok (k * 2 ^ 21) (Z.lor PW HUGE_PAGE)) as (e & -> & He & Hea & Hef); [|done|].
  { split; [|lia]. replace (k * 2 ^ 21) with (k * 512 * 4096) by lia. apply Z.mod_mul. lia. }
  cbn [mbind outcome_bind]. eexists; split; [done|]. rewrite Hd1. apply window_put; try done; lia.
Qed.

Lemma window_loop root s0 s : scratch_ok root s0 -> next_scratch_phys s = s0 -> entry_at (lmem s) root 256 = 0 ->
  exists s', for_each (map_window_page root) (seqZ 0 (4096 / 2)) s = Ret s' /\ window root s0 (lmem s) (lrest s) 4 2048 s'.
Proof.
  intros Hok Hn Hz. set (I := fun k t => (k = 0 /\ t = s) \/ window root s0 (lmem s) (lrest s) (dirs k) k t).
  assert (forall k t, 0 <= k < 0 + 2048 -> I k t ->
    match map_window_page root t k with Ret t' => I (k + 1) t' | Panic => False | Loop => False end) as Hstep.
  { intros k t Hk [[-> ->]|Hw].
    - destruct (window_start root s0 s Hok Hn Hz) as (s1 & Hs1 & Hw1).
      destruct (window_step root s0 (lmem s) (lrest s) 0 0 s1 Hok Hk eq_refl Hw1) as (s' & Hs' & Hw').
      assert (map_window_page root s 0 = Ret s') as ->; [|by right]. rewrite <- Hs', !map_window_page_eq by lia.
      rewrite Hs1, (ensure_table_used root 256 s0 s1); [done|apply Hw1].
    - destruct (window_step root s0 (lmem s) (lrest s) (dirs k) k t Hok Hk eq_refl Hw) as (s' & -> & Hw'). by right. }
  pose proof (for_each_range I False (map_window_page root) 0 2048 s ltac:(lia) Hstep) as Hl.
  change (4096 / 2) with 2048. specialize (Hl ltac:(by left)).
  destruct (for_each _ _ s) as [s'| |]; [|done|done]. exists s'. split; [done|]. by destruct Hl as [[Hb _]|Hw].
Qed.

(** Following the tables to a 2 MiB page. *)
Definition huge_walk (m : mem) (root v : Z) : option Z :=
  match entry_frame (entry_at m root (p4_index v)) with
  | Ok f3 =>
      match entry_frame (entry_at m f3 (p3_index v)) with
      | Ok f2 =>
          let e := entry_at m f2 (p2_index v) in
          if negb (Z.land (entry_flags e) PRESENT =? 0) && negb (Z.land (entry_flags e) HUGE_PAGE =? 0)
          then Some (entry_addr e + v mod 2 ^ 21) else None
      | Err _ => None
      end
  | Err _ => None
  end.

Lemma window_walk root s0 m0 r0 s a : window root s0 m0 r0 4 2048 s -> 0 <= a < 2 ^ 32 ->
  huge_walk (lmem s) root (PHYSICAL_MEMORY_OFFSET + a) = Some a.
Proof.
  intros Hw Ha. destruct (window_index a Ha) as (Hi4 & Hi3 & Hi2). unfold huge_walk. rewrite Hi4, Hi3, Hi2.
  rewrite (proj1 (points_frame _ _ (w_root _ _ _ _ _ _ _ Hw))).
  assert (0 <= a / 2 ^ 30 < 4) as Hq by (split; [apply Z.div_pos; lia|apply Z.div_lt_upper_bound; lia]).
  rewrite (proj1 (points_frame _ _ (w_dirs _ _ _ _ _ _ _ Hw (a / 2 ^ 30) Hq))).
  pose proof (Z.div_mod (a / 2 ^ 21) 512 ltac:(lia)) as Hdm. pose proof (Z.mod_pos_bound (a / 2 ^ 21) 512 ltac:(lia)) as Hmb.
  assert (a / 2 ^ 21 / 512 = a / 2 ^ 30) as Hdd by (rewrite Z.div_div by lia; done).
  assert (a / 2 ^ 21 < 2048) by (apply Z.div_lt_upper_bound; lia).
  destruct (w_pages _ _ _ _ _ _ _ Hw (a / 2 ^ 30) (a / 2 ^ 21 mod 512) Hq Hmb ltac:(lia)) as [Hea Hef].
  cbv zeta. rewrite Hef, Hea. cbn -[Z.add Z.mul Z.div Z.modulo Z.pow]. f_equal.
  assert ((PHYSICAL_MEMORY_OFFSET + a) mod 2 ^ 21 = a mod 2 ^ 21) as ->.
  { rewrite Z.add_mod by lia. change (PHYSICAL_MEMORY_OFFSET mod 2 ^ 21) with 0. rewrite Z.add_0_l. by apply Z.mod_mod. }
  pose proof (Z.div_mod a (2 ^ 21)). lia.
Qed.

(** ** Kernel and ramdisk *)

Definition run_page (virt n v : Z) : Prop := exists i, 0 <= i < n /\ v = virt + 4096 * i.

(** The pages of a run. *)
Record run_ok (virt phys n : Z) : Prop := mkRunOk {
  ro_virt : upper virt;
  ro_top : virt + 4096 * n <= 2 ^ 64;
  ro_phys : frame_ok phys;
  ro_phys_top : phys + 4096 * n <= 2 ^ 52;
  ro_count : 0 <= n;
  ro_slot : forall i, 0 <= i < n -> p4_index (virt + 4096 * i) <> 256 }.

(** The most tables a run of [n] pages can need: one of each level for its
    first page, and one more whenever it crosses into another 2 MiB, 1 GiB or
    512 GiB. *)
Definition crossings (virt n l : Z) : Z := (virt + 4096 * (n - 1)) / 2 ^ (12 + 9 * l) - virt / 2 ^ (12 + 9 * l).
Definition tables_for (virt n : Z) : Z :=
  if n <=? 0 then 0 else 3 + crossings virt n 1 + crossings virt n 2 + crossings virt n 3.

Record run_mapped (root virt phys n : Z) (s s' : LState T) : Prop := mkRunMapped {
  rm_fresh : fresh s' root;
  rm_pages : forall i, 0 <= i < n -> ltranslate s' root (virt + 4096 * i) = Some (phys + 4096 * i, PW);
  rm_other : forall v, upper v -> ~ run_page virt n v -> ltranslate s' root v = ltranslate s root v;
  rm_scratch : exists k, 0 <= k <= tables_for virt n /\ next_scratch_phys s' = next_scratch_phys s + 4096 * k;
  rm_out : forall x, x < root \/ next_scratch_phys s' <= x -> lmem s' x = lmem s x;
  rm_top : forall i, 0 <= i <= 256 -> entry_at (lmem s') root i = entry_at (lmem s) root i }.

Lemma tables_for_one virt : tables_for virt 1 = 3.
Proof. unfold tables_for, crossings. cbn [Z.leb Z.compare]. rewrite Z.sub_diag, Z.mul_0_r, Z.add_0_r. lia. Qed.

(** The next page of a run, from what the law on [map_to] allows. *)
Lemma tables_for_next virt n k : 1 <= n -> 0 <= k <= 3 ->
  (forall l, 1 <= l <= 3 -> (virt + 4096 * (n - 1)) / 2 ^ (12 + 9 * l) = (virt + 4096 * n) / 2 ^ (12 + 9 * l) -> k <= l - 1) ->
  tables_for virt n + k <= tables_for virt (n + 1).
Proof.
  intros Hn Hk Hl. unfold tables_for, crossings. replace (n <=? 0) with false by lia. replace (n + 1 <=? 0) with false by lia.
  replace (n + 1 - 1) with n by lia.
  assert (forall l, 1 <= l <= 3 -> (virt + 4096 * (n - 1)) / 2 ^ (12 + 9 * l) <= (virt + 4096 * n) / 2 ^ (12 + 9 * l)) as Hmono.
  { intros l Hll. apply Z.div_le_mono; [apply Z.pow_pos_nonneg; lia|lia]. }
  pose proof (Hmono 1 ltac:(lia)). pose proof (Hmono 2 ltac:(lia)). pose proof (Hmono 3 ltac:(lia)).
  pose proof (Hl 1 ltac:(lia)). pose proof (Hl 2 ltac:(lia)). pose proof (Hl 3 ltac:(lia)).
  destruct (Z.eq_dec ((virt + 4096 * (n - 1)) / 2 ^ (12 + 9 * 1)) ((virt + 4096 * n) / 2 ^ (12 + 9 * 1)));
    destruct (Z.eq_dec ((virt + 4096 * (n - 1)) / 2 ^ (12 + 9 * 2)) ((virt + 4096 * n) / 2 ^ (12 + 9 * 2)));
    destruct (Z.eq_dec ((virt + 4096 * (n - 1)) / 2 ^ (12 + 9 * 3)) ((virt + 4096 * n) / 2 ^ (12 + 9 * 3))); lia.
Qed.

Lemma tables_for_mono virt n k : 0 <= n <= k -> 0 <= tables_for virt n <= tables_for virt k.
Proof.
  intros Hn. unfold tables_for, crossings.
  assert (forall l a b, a <= b -> (virt + 4096 * a) / 2 ^ (12 + 9 * l) <= (virt + 4096 * b) / 2 ^ (12 + 9 * l) \/ l < 0) as Hm.
  { intros l a b Hab. destruct (Z.lt_ge_cases l 0); [by right|left]. apply Z.div_le_mono; [apply Z.pow_pos_nonneg; lia|lia]. }
  assert (forall l, virt / 2 ^ (12 + 9 * l) = (virt + 4096 * 0) / 2 ^ (12 + 9 * l)) as H0' by (intros l; by rewrite Z.mul_0_r, Z.add_0_r).
  rewrite !H0'. pose proof (Hm 1 0 (n - 1)). pose proof (Hm 2 0 (n - 1)). pose proof (Hm 3 0 (n - 1)).
  pose proof (Hm 1 (n - 1) (k - 1)). pose proof (Hm 2 (n - 1) (k - 1)). pose proof (Hm 3 (n - 1) (k - 1)).
  pose proof (Hm 1 0 (k - 1)). pose proof (Hm 2 0 (k - 1)). pose proof (Hm 3 0 (k - 1)).
  destruct (Z.leb_spec n 0), (Z.leb_spec k 0); lia.
Qed.

Lemma map_run root virt phys n s : run_ok virt phys n -> fresh s root ->
  (forall v, run_page virt n v -> ltranslate s root v = None) ->
  (forall i v, 0 <= i < 256 -> upper v -> p4_index v <> i) ->
  next_scratch_phys s + 4096 * (3 + tables_for virt n) <= 2 ^ 52 ->
  exists s', for_each (map_run_page root virt phys) (seqZ 0 n) s = Ret s' /\ run_mapped root virt phys n s s'.
Proof.
  intros [[Hv Hvb] Htop [Hp Hpb] Hptop Hn Hslot] Hfr Hnone Hidx Hsc.
  assert (forall k t, 0 <= k < 0 + n -> run_mapped root virt phys k s t ->
    match map_run_page root virt phys t k with Ret t' => run_mapped root virt phys (k + 1) s t'
      | Panic => False | Loop => False end) as Hstep.
  { intros k t Hk [Hf Hpg Hoth (c & Hc & Hsct) Hout Htp]. unfold map_run_page.
    rewrite mul_u_Ret by lia. cbn [mbind outcome_bind]. rewrite (add_u_Ret 64 virt) by lia. cbn [mbind outcome_bind].
    rewrite (virt_addr_new_ok (virt + k * 4096)) by (unfold canonical; lia). cbn [mbind outcome_bind].
    rewrite (add_u_Ret 64 phys) by lia. cbn [mbind outcome_bind]. rewrite frame_containing_ok by lia. cbn [mbind outcome_bind].
    assert ((virt + k * 4096) mod 4096 = 0 /\ (phys + k * 4096) mod 4096 = 0) as [Hva Hpa] by (by rewrite !Z.mod_add by lia).
    replace ((virt + k * 4096) / 4096 * 4096) with (virt + 4096 * k) by (pose proof (Z.div_mod (virt + k * 4096) 4096); lia).
    replace ((phys + k * 4096) / 4096 * 4096) with (phys + 4096 * k) by (pose proof (Z.div_mod (phys + k * 4096) 4096); lia).
    assert (forall i, 0 <= i < n -> upper (virt + 4096 * i)) as Hups.
    { intros i Hi. split; [|lia]. replace (virt + 4096 * i) with (virt + i * 4096) by lia. by rewrite Z.mod_add by lia. }
    pose proof (Hups k ltac:(lia)) as Hup. pose proof (tables_for_mono virt k n ltac:(lia)) as Htm.
    destruct (map_to_fresh t root (virt + 4096 * k) (phys + 4096 * k)) as
      (t' & c' & Hm & Hf' & Hnew & Ho & (Hc' & Hsc') & Hcount & Hout' & Htp'); try done.
    - rewrite Hoth; [apply Hnone; exists k; lia|done|]. intros (i & Hi & He). lia.
    - split; [by replace (phys + 4096 * k) with (phys + k * 4096) by lia|lia].
    - lia.
    - rewrite Hm. cbn [mbind outcome_bind fst snd assert_b]. split; [done| | | | |].
      + intros i Hi. destruct (decide (i = k)) as [->|Hne]; [done|]. rewrite Ho; [apply Hpg; lia|apply Hups; lia|lia].
      + intros v Hv' Hnv. rewrite Ho; [apply Hoth; [done|]; intros (i & Hi & ->); apply Hnv; exists i; lia|done|].
        intros ->. apply Hnv. exists k. lia.
      + exists (c + c'). split; [|lia]. destruct (decide (k = 0)) as [->|Hk0].
        { change (tables_for virt 0) with 0 in Hc. rewrite Z.add_0_l, tables_for_one. lia. }
        enough (tables_for virt k + c' <= tables_for virt (k + 1)) by lia. apply tables_for_next; [lia|done|].
        intros l Hl He. apply (Hcount (virt + 4096 * (k - 1)) l); [apply Hups; lia| |done|done].
        rewrite Hpg by lia. by eexists.
      + intros x Hx. rewrite Hout', Hout; [done|lia|lia].
      + intros i Hi. rewrite Htp'; [by apply Htp|lia|]. destruct (decide (i = 256)) as [->|]; [by intros Hb; apply (Hslot k); [lia|]|].
        intros Hb. by apply (Hidx i (virt + 4096 * k)); [lia|done|]. }
  pose proof (for_each_range (fun k t => run_mapped root virt phys k s t) False (map_run_page root virt phys) 0 n s Hn Hstep) as Hl.
  cbn beta in Hl. specialize (Hl ltac:(split; [done|lia|done|exists 0; change (tables_for virt 0) with 0; lia|done|done])).
  destruct (for_each _ _ s) as [s'| |]; [|done|done]. by exists s'.
Qed.

Lemma upper_index v : upper v -> p4_index v = 256 + (v - PHYSICAL_MEMORY_OFFSET) / 2 ^ 39 /\ 256 <= p4_index v < 512.
Proof.
  intros [_ Hv]. rewrite table_index_spec by lia. change (2 ^ (12 + 9 * (4 - 1))) with (2 ^ 39). unfold PHYSICAL_MEMORY_OFFSET.
  set (w := v - 0xffff800000000000). assert (0 <= w / 2 ^ 39 < 256) as Hw.
  { split; [apply Z.div_pos; lia|apply Z.div_lt_upper_bound; lia]. }
  assert (v / 2 ^ 39 = w / 2 ^ 39 + (2 ^ 25 - 2 ^ 8)) as ->.
  { rewrite <- Z.div_add by lia. f_equal. lia. }
  replace (w / 2 ^ 39 + (2 ^ 25 - 2 ^ 8)) with (256 + w / 2 ^ 39 + (2 ^ 16 - 1) * 512) by lia.
  rewrite Z.mod_add by lia. rewrite Z.mod_small by lia. lia.
Qed.

(** A run above the window's top-level entry. *)
Lemma run_ok_above virt phys n : upper virt -> PHYSICAL_MEMORY_OFFSET + 2 ^ 39 <= virt -> 0 <= n ->
  virt + 4096 * n <= 2 ^ 64 -> frame_ok phys -> phys + 4096 * n <= 2 ^ 52 -> run_ok virt phys n.
Proof.
  intros [Hm Hv] Habove Hn Htop Hp Hpt. split; [by split|done..|]. intros i Hi.
  destruct (upper_index (virt + 4096 * i)) as [-> _].
  { split; [|lia]. replace (virt + 4096 * i) with (virt + i * 4096) by lia. by rewrite Z.mod_add by lia. }
  assert (1 <= (virt + 4096 * i - PHYSICAL_MEMORY_OFFSET) / 2 ^ 39) by (apply Z.div_le_lower_bound; lia). lia.
Qed.

(** The clone of the lower half. *)
Lemma clone_identity_loop old root s : old mod 4096 = 0 -> root mod 4096 = 0 -> old <> root ->
  exists s', for_each (clone_identity old root) (seqZ 0 256) s = Ret s' /\
    next_scratch_phys s' = next_scratch_phys s /\ lrest s' = lrest s /\
    (forall i, 0 <= i < 256 -> entry_at (lmem s') root i = entry_at (lmem s) old i) /\
    forall x, (forall i, 0 <= i < 256 -> ~ in_slot root i x) -> lmem s' x = lmem s x.
Proof.
  intros Ho Hr Hne.
  set (I := fun k (t : LState T) => next_scratch_phys t = next_scratch_phys s /\ lrest t = lrest s /\
    (forall i, 0 <= i < k -> entry_at (lmem t) root i = entry_at (lmem s) old i) /\
    forall x, (forall i, 0 <= i < k -> ~ in_slot root i x) -> lmem t x = lmem s x).
  assert (forall k t, 0 <= k < 0 + 256 -> I k t -> match clone_identity old root t k with
    Ret t' => I (k + 1) t' | Panic => False | Loop => False end) as Hstep.
  { intros k t Hk (Hn & Hl & Hc & Hout). unfold clone_identity, lupd, set_lmem. split; [done|]. split; [done|]. cbn [lmem]. split.
    - intros i Hi. destruct (decide (i = k)) as [->|Hik].
      + rewrite entry_at_put by apply entry_at_u64. apply entry_at_ext. intros x Hx. apply Hout. intros j Hj.
        apply (slots_disjoint old k root j x); [split; [done|lia]|split; [done|lia]|congruence|done].
      + rewrite entry_at_put_ne; [apply Hc; lia|split; [done|lia]|split; [done|lia]|congruence].
    - intros x Hx. rewrite put_entry_out by (apply Hx; lia). apply Hout. intros i Hi. apply Hx. lia. }
  pose proof (for_each_range I False (clone_identity old root) 0 256 s ltac:(lia) Hstep) as Hloop.
  specialize (Hloop ltac:(split; [done|split; [done|split; [intros; lia|done]]])).
  destruct (for_each _ _ s) as [s'| |]; [|done|done]. exists s'. split; [done|]. exact Hloop.
Qed.

(** The scratch pages used: the top-level table, the tables of the two runs,
    and five for the window. *)
Definition scratch_pages (kernel : LoadedKernel) (ramdisk_size : Z) : Z :=
  6 + tables_for (lk_virtual_base kernel) (div_ceil (lk_image_size kernel) 4096) +
  tables_for RAMDISK_VIRTUAL_BASE (div_ceil ramdisk_size 4096).

(** The tables the kernel starts with. *)
Record mappings (old root : Z) (kernel : LoadedKernel) (ramdisk_phys ramdisk_size : Z) (s s' : LState T) : Prop := mkMappings {
  mp_lower : forall i, 0 <= i < 256 -> entry_at (lmem s') root i = entry_at (lmem s) old i;
  mp_kernel : forall i, 0 <= i < div_ceil (lk_image_size kernel) 4096 ->
    ltranslate s' root (lk_virtual_base kernel + 4096 * i) = Some (lk_physical_base kernel + 4096 * i, PW);
  mp_ramdisk : forall i, 0 <= i < div_ceil ramdisk_size 4096 ->
    ltranslate s' root (RAMDISK_VIRTUAL_BASE + 4096 * i) = Some (ramdisk_phys + 4096 * i, PW);
  mp_window : forall a, 0 <= a < 2 ^ 32 -> huge_walk (lmem s') root (PHYSICAL_MEMORY_OFFSET + a) = Some a;
  mp_out : forall x, x < root \/ root + 4096 * scratch_pages kernel ramdisk_size <= x -> lmem s' x = lmem s x }.

Record mappable (old root : Z) (kernel : LoadedKernel) (ramdisk_phys ramdisk_size : Z) (s : LState T) : Prop := mkMappable {
  ma_old : old mod 4096 = 0 /\ old <> root;
  ma_root : root mod 4096 = 0 /\ 0 <= root;
  ma_empty : forall i, 0 <= i < 512 -> entry_at (lmem s) root i = 0;
  ma_kernel : run_ok (lk_virtual_base kernel) (lk_physical_base kernel) (div_ceil (lk_image_size kernel) 4096);
  ma_ramdisk : run_ok RAMDISK_VIRTUAL_BASE ramdisk_phys (div_ceil ramdisk_size 4096);
  ma_order : RAMDISK_VIRTUAL_BASE + 4096 * div_ceil ramdisk_size 4096 <= lk_virtual_base kernel;
  ma_ramdisk_size : 0 <= ramdisk_size;
  ma_scratch : root + 4096 * (scratch_pages kernel ramdisk_size + 3) <= 2 ^ 52 }.

Lemma no_pages : div_ceil 0 4096 = 0.
Proof. done. Qed.

Lemma setup_mappings_spec old root kernel rp rs s : mappable old root kernel rp rs s ->
  exists s', setup_mappings old root root kernel rp rs s = Ret s' /\ mappings old root kernel rp rs s s'.
Proof.
  intros [[Ho Hne] [Hr Hr0] Hempty Hk Hrd Hord Hrs Hsc]. unfold setup_mappings, scratch_pages in *.
  set (nk := div_ceil (lk_image_size kernel) 4096) in *. set (nr := div_ceil rs 4096) in *.
  pose proof (ro_count _ _ _ Hk) as Hnk. pose proof (ro_count _ _ _ Hrd) as Hnr.
  pose proof (tables_for_mono (lk_virtual_base kernel) 0 nk ltac:(lia)) as Htk. change (tables_for (lk_virtual_base kernel) 0) with 0 in Htk.
  pose proof (tables_for_mono RAMDISK_VIRTUAL_BASE 0 nr ltac:(lia)) as Htr. change (tables_for RAMDISK_VIRTUAL_BASE 0) with 0 in Htr.
  destruct (clone_identity_loop old root s Ho Hr Hne) as (s1 & -> & Hn1 & Hl1 & Hc1 & Ho1). cbn [mbind outcome_bind].
  rewrite (add_u_Ret 64 root 4096) by lia. cbn [mbind outcome_bind]. set (s2 := set_scratch (root + 4096) s1).
  assert (forall i, 256 <= i < 512 -> entry_at (lmem s2) root i = 0) as Hup.
  { intros i Hi. rewrite <- (Hempty i) by lia. apply entry_at_ext. intros x Hx. apply Ho1. intros j Hj. unfold in_slot in *. lia. }
  destruct (fresh_empty s2 root Hr) as [Hf2 Hnone2]; [unfold s2; cbn [next_scratch_phys set_scratch]|done|unfold s2; simpl; lia|exact Hup|].
  { replace (root + 4096) with (root + 1 * 4096) by lia. by rewrite Z.mod_add by lia. }
  assert (forall virt phys n, run_ok virt phys n -> forall v, run_page virt n v -> upper v /\ p4_index v <> 256) as Hrun.
  { intros virt phys n [[Hm Hv] Htop _ _ _ Hsl] v (i & Hi & ->). split; [|by apply Hsl]. split; [|lia].
    replace (virt + 4096 * i) with (virt + i * 4096) by lia. by rewrite Z.mod_add by lia. }
  assert (forall i v, 0 <= i < 256 -> upper v -> p4_index v <> i) as Hidx.
  { intros i v Hi Hv. destruct (upper_index v Hv). lia. }
  destruct (map_run root _ _ nk s2 Hk Hf2) as (s3 & -> & [Hf3 Hp3 Ho3 (c3 & Hc3 & Hs3) Hout3 Ht3]); [|done| |].
  { intros v Hv. destruct (Hrun _ _ _ Hk v Hv). by apply Hnone2. } { unfold s2. cbn [next_scratch_phys set_scratch]. lia. }
  cbn [mbind outcome_bind]. change (next_scratch_phys s2) with (root + 4096) in Hs3.
  assert (forall v, run_page RAMDISK_VIRTUAL_BASE nr v -> ~ run_page (lk_virtual_base kernel) nk v) as Hdis.
  { intros v (i & Hi & ->) (j & Hj & He). lia. }
  assert (exists s4, (if 0 <? rs then for_each (map_run_page root RAMDISK_VIRTUAL_BASE rp) (seqZ 0 nr) s3 else Ret s3) = Ret s4 /\
    run_mapped root RAMDISK_VIRTUAL_BASE rp nr s3 s4) as (s4 & -> & [Hf4 Hp4 Ho4 (c4 & Hc4 & Hs4) Hout4 Ht4]).
  { destruct (0 <? rs) eqn:E.
    - apply map_run; try done; [|lia]. intros v Hv. destruct (Hrun _ _ _ Hrd v Hv). rewrite Ho3; [by apply Hnone2|done|by apply Hdis].
    - exists s3. split; [done|]. assert (rs = 0) as -> by lia. change nr with 0.
      split; [done|lia|done|exists 0; change (tables_for RAMDISK_VIRTUAL_BASE 0) with 0; lia|done|done]. }
  cbn [mbind outcome_bind]. set (s0 := root + 4096 * (1 + c3 + c4)).
  assert (scratch_ok root s0) as Hok.
  { unfold scratch_ok, s0, dir. split; [done|]. split; [|lia].
    replace (root + 4096 * (1 + c3 + c4)) with (root + (1 + c3 + c4) * 4096) by lia. by rewrite Z.mod_add by lia. }
  destruct (window_loop root s0 s4 Hok) as (s' & -> & Hw); [unfold s0; lia|rewrite Ht4, Ht3 by lia; apply Hup; lia|].
  exists s'. split; [done|].
  assert (forall v, upper v -> p4_index v <> 256 -> ltranslate s' root v = ltranslate s4 root v) as Hkeep.
  { intros v Hv Hi. replace s' with (mkLState (lmem s') (next_scratch_phys s') (lrest s4)).
    2: { rewrite <- (w_rest _ _ _ _ _ _ _ Hw). by destruct s'. }
    apply fresh_local; [done| |done|done]. intros x Hx.
    destruct (decide (root + 8 * 256 <= x < root + 8 * 256 + 8)) as [Hin|Hout]; [left; exists 256; split; [lia|exact Hin]|].
    destruct (decide (s0 <= x)) as [Hge|Hlt]; [right; unfold s0 in Hge; lia|].
    exfalso. apply Hx, (w_out _ _ _ _ _ _ _ Hw); [exact Hout|lia]. }
  split.
  - intros i Hi. rewrite <- Hc1 by done. change (lmem s1) with (lmem s2). rewrite <- (Ht3 i), <- (Ht4 i) by lia. apply entry_at_ext. intros x Hx.
    apply (w_out _ _ _ _ _ _ _ Hw); unfold in_slot, s0 in *; lia.
  - intros i Hi. destruct (Hrun _ _ _ Hk (lk_virtual_base kernel + 4096 * i)) as [Hu Hi']; [by exists i|].
    rewrite Hkeep, Ho4 by (try done; intros Hb; apply (Hdis _ Hb); by exists i). by apply Hp3.
  - intros i Hi. destruct (Hrun _ _ _ Hrd (RAMDISK_VIRTUAL_BASE + 4096 * i)) as [Hu Hi']; [by exists i|].
    rewrite Hkeep by done. by apply Hp4.
  - intros a Ha. by apply (window_walk root s0 (lmem s4) (lrest s4)).
  - intros x Hx. unfold scratch_pages in Hx. fold nk nr in Hx. assert (lmem s' x = lmem s4 x) as ->.
    { apply (w_out _ _ _ _ _ _ _ Hw); unfold in_slot, dir, s0; lia. }
    rewrite Hout4, Hout3 by lia. change (lmem s2) with (lmem s1). apply Ho1. intros i Hi. unfold in_slot. lia.
Qed.
End Mappings.
