(* ===== verification/LoaderPaging.v ===== *)
(** * Four-level tables for the loader

    The class of [LoaderMain.v] on the crate's [map_to] has an instance that
    keeps its tables in memory, as the hardware reads them: a page is mapped
    by making the missing tables of its path from the scratchpad, zeroed, and
    writing its last entry.  The claim on the loader's page tables closes the
    file. *)

From S2P Require Import Prelude Abi X86 LoaderElf FrameAlloc Paging LoaderMain.

Section Tables.
Context `{PageEntries} `{PhysFrames}.

(** ** Walk and [map_to] *)

Definition step (m : mem) (table i : Z) : option Z :=
  match entry_frame (entry_at m table i) with Ok f => Some f | Err _ => None end.

Definition leaf (m : mem) (table i : Z) : option (Z * Z) :=
  let e := entry_at m table i in
  if is_unused e then None else Some (entry_addr e, entry_flags e).

Definition walk (m : mem) (root v : Z) : option (Z * Z) :=
  t3 ← step m root (p4_index v);
  t2 ← step m t3 (p3_index v);
  t1 ← step m t2 (p2_index v);
  leaf m t1 (p1_index v).

Definition map_page (s : LState unit) (root page frame flags : Z) : outcome (bool * LState unit) :=
  r ← ensure_table root (p4_index page) s;
  r ← ensure_table r.1 (p3_index page) r.2;
  r ← ensure_table r.1 (p2_index page) r.2;
  if is_unused (entry_at (lmem r.2) r.1 (p1_index page)) then
    e ← set_frame frame flags;
    Ret (true, lupd (fun m => put_entry m r.1 (p1_index page) e) r.2)
  else Ret (false, r.2).

(** ** The tables of the upper half

    [G] says where the table of each path is, a path being the indices that
    lead to it, the last one first. *)
#[local] Abbreviation paths := (list Z -> option Z).

Record tree (G : paths) (root : Z) (s : LState unit) : Prop := mkTree {
  tr_root : G [] = Some root;
  tr_aligned : root mod 4096 = 0 /\ next_scratch_phys s mod 4096 = 0;
  tr_pos : 0 <= root /\ root + 4096 <= next_scratch_phys s;
  tr_place : forall p t, G p = Some t -> p = [] \/ (t mod 4096 = 0 /\ root + 4096 <= t /\ t + 4096 <= next_scratch_phys s);
  tr_inj : forall p q t, G p = Some t -> G q = Some t -> p = q;
  tr_prefix : forall i p t, G (i :: p) = Some t -> 0 <= i < 512 /\ (length p <= 2)%nat /\ is_Some (G p);
  tr_entry : forall p t i, G p = Some t -> (length p <= 2)%nat -> 0 <= i < 512 -> (p = [] -> 256 <= i) ->
    match G (i :: p) with Some f => points (entry_at (lmem s) t i) f | None => entry_at (lmem s) t i = 0 end }.

Definition upper_tables (s : LState unit) (root : Z) : Prop := exists G, tree G root s.

Lemma tr_table G root s p t : tree G root s -> G p = Some t ->
  t mod 4096 = 0 /\ root <= t /\ t + 4096 <= next_scratch_phys s.
Proof.
  intros [Hr [Ha _] Hp Hpl _ _ _] Ht. destruct (Hpl p t Ht) as [->|(H1 & H2 & H3)]; [|split; [done|lia]].
  rewrite Hr in Ht. injection Ht as <-. split; [done|lia].
Qed.

Lemma step_tree G root s p t i : tree G root s -> G p = Some t -> (length p <= 2)%nat -> 0 <= i < 512 -> (p = [] -> 256 <= i) ->
  step (lmem s) t i = G (i :: p).
Proof.
  intros HG Ht Hl Hi H256. pose proof (tr_entry _ _ _ HG p t i Ht Hl Hi H256) as He. unfold step. destruct (G (i :: p)) as [f|].
  - by rewrite (proj1 (points_frame _ _ He)).
  - by rewrite He, entry_frame_spec, entry_flags_zero.
Qed.

Definition path3 (v : Z) : list Z := [p2_index v; p3_index v; p4_index v].

Lemma upper_bounds v : upper v -> 256 <= p4_index v < 512 /\ 0 <= p3_index v < 512 /\ 0 <= p2_index v < 512 /\ 0 <= p1_index v < 512.
Proof. intros Hv. split; [by apply upper_index|]. split; [|split]; apply table_index_bound; lia. Qed.

Lemma walk_tree G root s v : tree G root s -> upper v ->
  walk (lmem s) root v = (t ← G (path3 v); leaf (lmem s) t (p1_index v)).
Proof.
  intros HG Hv. destruct (upper_bounds v Hv) as (H4 & H3 & H2 & _). unfold walk, path3.
  rewrite (step_tree G root s [] root) by first [done | simpl; lia | apply HG].
  destruct (G [p4_index v]) as [t3|] eqn:E3; cbn [mbind option_bind].
  - rewrite (step_tree G root s [p4_index v] t3) by first [done | simpl; lia].
    destruct (G [p3_index v; p4_index v]) as [t2|] eqn:E2; cbn [mbind option_bind].
    + by rewrite (step_tree G root s [p3_index v; p4_index v] t2) by first [done | simpl; lia].
    + destruct (G (p2_index v :: _)) eqn:E1; [|done]. destruct (tr_prefix _ _ _ HG _ _ _ E1) as (_ & _ & [x Hx]). congruence.
  - destruct (G (p2_index v :: _)) eqn:E1; [|done]. destruct (tr_prefix _ _ _ HG _ _ _ E1) as (_ & _ & [x Hx]).
    destruct (tr_prefix _ _ _ HG _ _ _ Hx) as (_ & _ & [y Hy]). congruence.
Qed.

(** ** Making a table *)

Definition put_path (G : paths) (p : list Z) (t : Z) : paths := fun q => if decide (q = p) then Some t else G q.

Lemma put_path_eq G p t : put_path G p t p = Some t.
Proof. unfold put_path. by rewrite decide_True. Qed.

Lemma put_path_ne G p t q : q <> p -> put_path G p t q = G q.
Proof. intros Hq. unfold put_path. by rewrite decide_False. Qed.

(** What making the tables of a path may change. *)
Record grows (root : Z) (G G' : paths) (s s' : LState unit) (k : Z) : Prop := mkGrows {
  gr_keep : forall p t, G p = Some t -> G' p = Some t;
  gr_walk : forall v, upper v -> walk (lmem s') root v = walk (lmem s) root v;
  gr_next : next_scratch_phys s' = next_scratch_phys s + 4096 * k;
  gr_out : forall x, x < root \/ next_scratch_phys s' <= x -> lmem s' x = lmem s x }.

Lemma leaf_zero m t i : entry_at m t i = 0 -> leaf m t i = None.
Proof. intros He. unfold leaf. by rewrite He, is_unused_spec. Qed.

Lemma tree_extend G root s s' p t i : tree G root s -> G p = Some t -> (length p <= 2)%nat -> 0 <= i < 512 -> (p = [] -> 256 <= i) ->
  G (i :: p) = None -> let n := next_scratch_phys s in
  next_scratch_phys s' = n + 4096 -> points (entry_at (lmem s') t i) n -> (forall j, 0 <= j < 512 -> entry_at (lmem s') n j = 0) ->
  (forall x, ~ in_slot t i x -> ~ in_page n x -> lmem s' x = lmem s x) ->
  tree (put_path G (i :: p) n) root s'.
Proof.
  intros HG Ht Hl Hi H256 Hnone n Hn Hpt Hz Hout. destruct (tr_table _ _ _ _ _ HG Ht) as (Hta & Htr & Htn).
  pose proof HG as [Hroot [Hra Hna] [Hr0 Hrn] Hpl Hinj Hpre Hent].
  assert (forall q u, G q = Some u -> u <> n) as Hfresh by (intros q u Hq ->; destruct (tr_table _ _ _ _ _ HG Hq); subst n; lia).
  assert (forall q, is_Some (G q) -> q <> i :: p) as Hne by (intros q [u Hu] ->; congruence).
  split.
  - rewrite put_path_ne by done. done.
  - split; [done|]. rewrite Hn. subst n. replace (next_scratch_phys s + 4096) with (next_scratch_phys s + 1 * 4096) by lia. by rewrite Z.mod_add by lia.
  - lia.
  - intros q u. unfold put_path. destruct (decide (q = i :: p)) as [->|Hq].
    + intros [= <-]. right. subst n. split; [done|lia].
    + intros Hu. destruct (Hpl q u Hu) as [->|(H1 & H2 & H3)]; [by left|right]. split; [done|lia].
  - intros q r u. unfold put_path. destruct (decide (q = i :: p)) as [->|Hq], (decide (r = i :: p)) as [->|Hr]; try done.
    + intros [= <-] Hu. by destruct (Hfresh r n Hu).
    + intros Hu [= <-]. by destruct (Hfresh q n Hu).
    + apply Hinj.
  - intros j q u. unfold put_path at 1. destruct (decide (j :: q = i :: p)) as [[= -> ->]|Hq].
    + intros _. split; [done|]. split; [done|]. rewrite put_path_ne; [by rewrite Ht|]. apply Hne. by rewrite Ht.
    + intros Hu. destruct (Hpre j q u Hu) as (H1 & H2 & H3). split; [done|]. split; [done|]. rewrite put_path_ne by (by apply Hne). done.
  - intros q u j. unfold put_path at 1. destruct (decide (q = i :: p)) as [->|Hq].
    + intros [= <-] Hl' Hj _. rewrite put_path_ne.
      * destruct (G (j :: i :: p)) eqn:E; [|by apply Hz]. destruct (Hpre _ _ _ E) as (_ & _ & [w Hw]). congruence.
      * intros [= _ Hb]. apply (f_equal length) in Hb. simpl in Hb. lia.
    + intros Hu Hl' Hj Hj256. destruct (decide (j :: q = i :: p)) as [[= -> ->]|Hjq].
      * rewrite put_path_eq. replace u with t by congruence. done.
      * rewrite put_path_ne by done. pose proof (Hent q u j Hu Hl' Hj Hj256) as He.
        destruct (tr_table _ _ _ _ _ HG Hu) as (Hua & _).
        rewrite (entry_kept (lmem s) (lmem s') u j t i n); [done|by split|by split|done|done| |by apply (Hfresh q)].
        intros [= Hb ->]. apply Hjq. f_equal. subst u. by apply (Hinj q p t).
Qed.

Lemma ensure_tree G root s p t i : tree G root s -> G p = Some t -> (length p <= 2)%nat -> 0 <= i < 512 -> (p = [] -> 256 <= i) ->
  next_scratch_phys s + 4096 <= 2 ^ 52 ->
  exists G' s' f k, ensure_table t i s = Ret (f, s') /\ tree G' root s' /\ G' (i :: p) = Some f /\ grows root G G' s s' k /\
    0 <= k <= 1 /\ (is_Some (G (i :: p)) -> k = 0) /\
    forall j, 0 <= j < 512 -> (root, j) <> (t, i) -> entry_at (lmem s') root j = entry_at (lmem s) root j.
Proof.
  intros HG Ht Hl Hi H256 Hmax. pose proof (tr_entry _ _ _ HG p t i Ht Hl Hi H256) as He.
  destruct (tr_table _ _ _ _ _ HG Ht) as (Hta & Htr & Htn). destruct (G (i :: p)) as [f|] eqn:E.
  { exists G, s, f, 0. rewrite (ensure_table_used t i f s He). split; [done|]. split; [done|]. split; [done|]. split; [|split; [lia|done]].
    split; [done|done|lia|done]. }
  pose proof (tr_pos _ _ _ HG) as [Hr0 Hrn]. pose proof (tr_aligned _ _ _ HG) as [Hra Hna].
  destruct (ensure_table_new t i s) as (s' & Hs' & Hn & _ & Hp & Hz & Hout); [by split|done|done|lia|lia|lia|].
  pose proof (tree_extend G root s s' p t i HG Ht Hl Hi H256 E Hn Hp Hz Hout) as HG'. set (n := next_scratch_phys s) in *.
  assert (forall q, is_Some (G q) -> q <> i :: p) as Hne by (intros q [u Hu] ->; congruence).
  exists (put_path G (i :: p) n), s', n, 1. split; [done|]. split; [done|]. split; [apply put_path_eq|]. split; [|split; [lia|split; [by intros [? ?]|]]].
  - split.
    + intros q u Hq. by rewrite put_path_ne by (apply Hne; by rewrite Hq).
    + intros v Hv. rewrite (walk_tree _ root s' v HG' Hv), (walk_tree _ root s v HG Hv). destruct (upper_bounds v Hv) as (_ & _ & _ & H1).
      unfold put_path. destruct (decide (path3 v = i :: p)) as [->|Hq].
      * rewrite E. cbn [mbind option_bind]. apply leaf_zero. by apply Hz.
      * destruct (G (path3 v)) as [u|] eqn:Eu; [|done]. cbn [mbind option_bind]. unfold leaf.
        destruct (tr_table _ _ _ _ _ HG Eu) as (Hua & _ & Hun).
        rewrite (entry_kept (lmem s) (lmem s') u (p1_index v) t i n); [done|by split|by split|done|done| |lia].
        intros [= -> _]. pose proof (tr_inj _ _ _ HG _ _ _ Eu Ht) as Hb. rewrite <- Hb in Hl. simpl in Hl. lia.
    + lia.
    + intros x Hx. apply Hout; [|unfold in_page; lia]. intros Hs. apply slot_in_page in Hs; [|done]. unfold in_page in Hs. lia.
  - intros j Hj Hne'. apply (entry_kept (lmem s) (lmem s') root j t i n); [by split|by split|done|done|done|lia].
Qed.

(** ** Writing the last entry *)

Lemma index_chain v : p1_index v = v / 2 ^ 12 mod 512 /\ p2_index v = v / 2 ^ 12 / 512 mod 512 /\
  p3_index v = v / 2 ^ 12 / 512 / 512 mod 512 /\ p4_index v = v / 2 ^ 12 / 512 / 512 / 512 mod 512.
Proof. rewrite !table_index_spec by lia. rewrite !Z.div_div by lia. done. Qed.

Lemma upper_eq v w : upper v -> upper w -> path3 v = path3 w -> p1_index v = p1_index w -> v = w.
Proof.
  intros [Hv Hvb] [Hw Hwb]. unfold path3. destruct (index_chain v) as (-> & -> & -> & ->), (index_chain w) as (-> & -> & -> & ->).
  intros [= E2 E3 E4] E1. change (2 ^ 12) with 4096 in *. change (2 ^ 47) with 140737488355328 in *. change (2 ^ 64) with 18446744073709551616 in *.
  enough (v / 4096 = w / 4096) by (pose proof (Z.div_mod v 4096); pose proof (Z.div_mod w 4096); lia).
  assert (4503565267632128 <= v / 4096 < 4503599627370496) as Ha by (split; [apply Z.div_le_lower_bound|apply Z.div_lt_upper_bound]; lia).
  assert (4503565267632128 <= w / 4096 < 4503599627370496) as Hb by (split; [apply Z.div_le_lower_bound|apply Z.div_lt_upper_bound]; lia).
  generalize dependent (v / 4096). generalize dependent (w / 4096). clear. intros b Hb a E1 E2 E3 E4 Ha. Z.to_euclidean_division_equations. lia.
Qed.

Lemma same_region v w l : 1 <= l <= 3 -> v / 2 ^ (12 + 9 * l) = w / 2 ^ (12 + 9 * l) ->
  forall j, l < j <= 4 -> table_index j v = table_index j w.
Proof.
  intros Hl He j Hj. rewrite !table_index_spec by lia.
  replace (2 ^ (12 + 9 * (j - 1))) with (2 ^ (12 + 9 * l) * 2 ^ (9 * (j - 1 - l))) by (rewrite <- Z.pow_add_r by lia; f_equal; lia).
  rewrite <- !Z.div_div by (apply Z.pow_nonzero || apply Z.pow_pos_nonneg; lia). by rewrite He.
Qed.

Lemma tree_leaf G root s page t e : tree G root s -> upper page -> G (path3 page) = Some t -> in_u64 e -> is_unused e = false ->
  let s' := lupd (fun m => put_entry m t (p1_index page) e) s in
  tree G root s' /\ walk (lmem s') root page = Some (entry_addr e, entry_flags e) /\
  (forall v, upper v -> v <> page -> walk (lmem s') root v = walk (lmem s) root v) /\
  (forall x, x < root \/ next_scratch_phys s' <= x -> lmem s' x = lmem s x) /\
  forall i, 0 <= i < 512 -> entry_at (lmem s') root i = entry_at (lmem s) root i.
Proof.
  intros HG Hup Ht He Hu s'. destruct (tr_table _ _ _ _ _ HG Ht) as (Hta & Htr & Htn).
  destruct (upper_bounds page Hup) as (_ & _ & _ & H1). assert (slot t (p1_index page)) as Hsl by (by split).
  assert (forall p u i, G p = Some u -> 0 <= i < 512 -> (p, i) <> (path3 page, p1_index page) ->
    entry_at (lmem s') u i = entry_at (lmem s) u i) as Hkeep.
  { intros p u i Hp Hi Hne. destruct (tr_table _ _ _ _ _ HG Hp) as (Hua & _). apply entry_at_put_ne; [by split|done|].
    intros [= -> ->]. apply Hne. f_equal. by apply (tr_inj _ _ _ HG p (path3 page) t). }
  assert (forall p i, (length p <= 2)%nat -> (p, i) <> (path3 page, p1_index page)) as Hshort.
  { intros p i Hl [= -> _]. simpl in Hl. lia. }
  assert (tree G root s') as HG'.
  { destruct HG as [H1' H2' H3' H4' H5' H6' H7']. split; try done. intros p u i Hp Hl Hi H256.
    rewrite (Hkeep p u i Hp Hi) by (by apply Hshort). by apply H7'. }
  split; [done|]. split; [|split; [|split]].
  - rewrite (walk_tree _ _ _ _ HG' Hup), Ht. cbn [mbind option_bind]. unfold leaf. unfold s', lupd, set_lmem. cbn [lmem].
    rewrite entry_at_put by done. by rewrite Hu.
  - intros v Hv Hne. rewrite (walk_tree _ _ _ _ HG' Hv), (walk_tree _ _ _ _ HG Hv). destruct (G (path3 v)) as [u|] eqn:E; [|done].
    cbn [mbind option_bind]. unfold leaf. destruct (upper_bounds v Hv) as (_ & _ & _ & Hv1).
    rewrite (Hkeep (path3 v) u _ E Hv1); [done|]. intros [= E2 E3 E4 E1]. apply Hne. apply upper_eq; [done|done|unfold path3; congruence|done].
  - intros x Hx. apply put_entry_out. intros Hb. apply slot_in_page in Hb; [|done]. unfold in_page in Hb.
    change (next_scratch_phys s') with (next_scratch_phys s) in Hx. lia.
  - intros i Hi. apply (Hkeep []); [apply HG|done|]. by apply Hshort; simpl; lia.
Qed.

(** ** [map_page] *)

Lemma map_page_spec s root page frame : upper_tables s root -> upper page -> walk (lmem s) root page = None ->
  frame_ok frame -> next_scratch_phys s + 4096 * 3 <= 2 ^ 52 ->
  exists s' k, map_page s root page frame PW = Ret (true, s') /\ upper_tables s' root /\
    walk (lmem s') root page = Some (frame, PW) /\
    (forall v, upper v -> v <> page -> walk (lmem s') root v = walk (lmem s) root v) /\
    (0 <= k <= 3 /\ next_scratch_phys s' = next_scratch_phys s + 4096 * k) /\
    (forall v l, upper v -> is_Some (walk (lmem s) root v) -> 1 <= l <= 3 -> v / 2 ^ (12 + 9 * l) = page / 2 ^ (12 + 9 * l) -> k <= l - 1) /\
    (forall x, x < root \/ next_scratch_phys s' <= x -> lmem s' x = lmem s x) /\
    forall i, 0 <= i < 512 -> i <> p4_index page -> entry_at (lmem s') root i = entry_at (lmem s) root i.
Proof.
  intros [G HG] Hup Hnone Hf Hmax. destruct (upper_bounds page Hup) as (H4 & H3 & H2 & H1). unfold map_page.
  destruct (ensure_tree G root s [] root (p4_index page)) as (G1 & s1 & t3 & k1 & -> & HG1 & Ht3 & [Hk1 Hw1 Hn1 Ho1] & Hb1 & Hz1 & He1);
    first [done | simpl; lia | apply HG | idtac]. cbn [mbind outcome_bind fst snd].
  destruct (ensure_tree G1 root s1 [p4_index page] t3 (p3_index page)) as (G2 & s2 & t2 & k2 & -> & HG2 & Ht2 & [Hk2 Hw2 Hn2 Ho2] & Hb2 & Hz2 & He2);
    first [done | simpl; lia | idtac]. cbn [mbind outcome_bind fst snd].
  destruct (ensure_tree G2 root s2 [p3_index page; p4_index page] t2 (p2_index page)) as (G3 & s3 & t1 & k3 & -> & HG3 & Ht1 & [Hk3 Hw3 Hn3 Ho3] & Hb3 & Hz3 & He3);
    first [done | simpl; lia | idtac]. cbn [mbind outcome_bind fst snd].
  assert (walk (lmem s3) root page = None) as Hnone3 by (by rewrite Hw3, Hw2, Hw1).
  rewrite (walk_tree _ _ _ _ HG3 Hup) in Hnone3. unfold path3 in Hnone3. rewrite Ht1 in Hnone3. cbn [mbind option_bind] in Hnone3.
  unfold leaf in Hnone3. destruct (is_unused (entry_at (lmem s3) t1 (p1_index page))); [|done].
  destruct (set_frame_ok frame PW) as (e & -> & Hu & Hea & Hef); [done|done|done|]. cbn [mbind outcome_bind].
  assert (is_unused e = false) as Hue.
  { rewrite is_unused_spec. destruct (e =? 0) eqn:E; [|done]. apply Z.eqb_eq in E as ->. by rewrite entry_flags_zero in Hef. }
  destruct (tree_leaf G3 root s3 page t1 e HG3 Hup Ht1 Hu Hue) as (HG4 & Hp4 & Hw4 & Ho4 & He4).
  set (s4 := lupd _ s3) in *. exists s4, (k1 + k2 + k3). split; [done|]. split; [by exists G3|]. rewrite Hea, Hef in Hp4. split; [done|].
  change (next_scratch_phys s4) with (next_scratch_phys s3) in *.
  split; [|split; [|split; [|split]]].
  - intros v Hv Hne. by rewrite Hw4, Hw3, Hw2, Hw1.
  - split; [lia|]. lia.
  - intros v l Hv [w Hw] Hl He. rewrite (walk_tree _ _ _ _ HG Hv) in Hw. destruct (G (path3 v)) as [u|] eqn:Eu; [|done].
    pose proof (same_region v page l Hl He) as Hs. unfold path3 in Eu.
    destruct (tr_prefix _ _ _ HG _ _ _ Eu) as (_ & _ & [u2 Eu2]). destruct (tr_prefix _ _ _ HG _ _ _ Eu2) as (_ & _ & [u3 Eu3]).
    rewrite (Hs 4) in * by lia. specialize (Hz1 (ex_intro _ _ Eu3)). destruct (decide (l = 3)) as [->|]; [lia|].
    rewrite (Hs 3) in * by lia. specialize (Hz2 (ex_intro _ _ (Hk1 _ _ Eu2))). destruct (decide (l = 2)) as [->|]; [lia|].
    rewrite (Hs 2) in * by lia. specialize (Hz3 (ex_intro _ _ (Hk2 _ _ (Hk1 _ _ Eu)))). lia.
  - intros x Hx. rewrite Ho4, Ho3, Ho2, Ho1 by lia. done.
  - intros i Hi Hne. assert (t3 <> root /\ t2 <> root) as [Hr3 Hr2].
    { pose proof (tr_root _ _ _ HG1) as Hr1. pose proof (tr_root _ _ _ HG2) as Hr2. split; intros ->.
      - by pose proof (tr_inj _ _ _ HG1 _ _ _ Ht3 Hr1).
      - by pose proof (tr_inj _ _ _ HG2 _ _ _ Ht2 Hr2). }
    rewrite He4, He3, He2, He1 by (done || congruence). done.
Qed.

Lemma empty_tables s root : root mod 4096 = 0 -> next_scratch_phys s mod 4096 = 0 -> 0 <= root ->
  root + 4096 <= next_scratch_phys s -> (forall i, 256 <= i < 512 -> entry_at (lmem s) root i = 0) ->
  tree (fun p => match p with [] => Some root | _ => None end) root s.
Proof.
  intros Hr Hn H0r Hrn Hz. split; try done.
  - intros [|i p] t; [by left|done].
  - by intros [|i p] [|j q] t.
  - intros [|j p] t i; [|done]. intros [= <-] _ Hi H256. apply Hz. specialize (H256 eq_refl). lia.
Qed.

(** Only the tables, and of the top-level one only the entries above the
    window, decide a translation. *)
Lemma tree_local G root s m v : tree G root s ->
  (forall x, m x <> lmem s x -> (exists i, 0 <= i <= 256 /\ in_slot root i x) \/ next_scratch_phys s <= x) ->
  upper v -> p4_index v <> 256 -> walk m root v = walk (lmem s) root v.
Proof.
  intros HG Hm Hv H256. destruct (upper_bounds v Hv) as (H4 & H3 & H2 & H1).
  assert (forall p t i, G p = Some t -> 0 <= i < 512 -> (p = [] -> 256 < i) -> entry_at m t i = entry_at (lmem s) t i) as He.
  { intros p t i Hp Hi Hi'. apply entry_at_ext. intros x Hx. destruct (decide (m x = lmem s x)) as [|Hne]; [done|exfalso].
    pose proof (tr_pos _ _ _ HG) as [Hr0 Hrn]. destruct (Hm x Hne) as [(j & Hj & Hs)|Hge].
    - destruct (tr_place _ _ _ HG p t Hp) as [->|(_ & Hlo & _)]; [|unfold in_slot in *; lia].
      rewrite (tr_root _ _ _ HG) in Hp. injection Hp as <-. specialize (Hi' eq_refl). unfold in_slot in *. lia.
    - destruct (tr_table _ _ _ _ _ HG Hp) as (_ & _ & Htn). unfold in_slot in Hx. lia. }
  assert (forall p t i, G p = Some t -> (length p <= 2)%nat -> 0 <= i < 512 -> (p = [] -> 256 < i) -> step m t i = G (i :: p)) as Hst.
  { intros p t i Hp Hl Hi Hi'. rewrite <- (step_tree G root s p t i) by (try done; intros ->; specialize (Hi' eq_refl); lia).
    unfold step. by rewrite (He p t i). }
  rewrite (walk_tree _ _ _ _ HG Hv). unfold walk, path3.
  rewrite (Hst [] root) by first [apply HG | simpl; lia]. destruct (G [p4_index v]) as [t3|] eqn:E3; cbn [mbind option_bind].
  - rewrite (Hst [p4_index v] t3) by first [done | simpl; lia]. destruct (G [p3_index v; p4_index v]) as [t2|] eqn:E2; cbn [mbind option_bind].
    + rewrite (Hst [p3_index v; p4_index v] t2) by first [done | simpl; lia].
      destruct (G [p2_index v; p3_index v; p4_index v]) as [t1|] eqn:E1; [|done]. cbn [mbind option_bind]. unfold leaf.
      by rewrite (He _ t1 _ E1).
    + destruct (G (p2_index v :: _)) eqn:E1; [|done]. destruct (tr_prefix _ _ _ HG _ _ _ E1) as (_ & _ & [x Hx]). congruence.
  - destruct (G (p2_index v :: _)) eqn:E1; [|done]. destruct (tr_prefix _ _ _ HG _ _ _ E1) as (_ & _ & [x Hx]).
    destruct (tr_prefix _ _ _ HG _ _ _ Hx) as (_ & _ & [y Hy]). congruence.
Qed.

#[global] Instance memory_tables : LoaderTables unit.
Proof.
  refine {| ltranslate s root v := walk (lmem s) root v; lmap_to := map_page; fresh := upper_tables |}.
  - intros s root Hr Hn H0r Hrn Hz. pose proof (empty_tables s root Hr Hn H0r Hrn Hz) as HG. split; [by eexists|].
    intros v Hv. by rewrite (walk_tree _ _ _ _ HG Hv).
  - intros s root m n [G HG] Hm v Hv H256. cbn [lmem]. by apply (tree_local G root s m v).
  - apply map_page_spec.
Defined.
End Tables.

(** ** Property *)

(** C14: the loader's page tables: setting them up returns, the lower half is
    the firmware's, every page of the kernel image and of the ramdisk is
    mapped, present and writable, to its frame, and each of the first 4 GiB of
    physical bytes is reached through the window at the physical memory
    offset, by 2 MiB pages.  Nothing is written outside [scratch_pages] pages
    from the start of the scratchpad: as many as the kernel and the ramdisk
    span tables, and six.  Nothing in the code compares that number with the
    256 pages it asked the firmware for. *)
Theorem loader_mappings {T} `{LoaderTables T} `{VirtAddrs} `{PhysFrames}
    old root kernel ramdisk_phys ramdisk_size (s : LState T) :
  mappable old root kernel ramdisk_phys ramdisk_size s ->
  exists s', setup_mappings old root root kernel ramdisk_phys ramdisk_size s = Ret s' /\
    mappings old root kernel ramdisk_phys ramdisk_size s s'.
Proof. apply setup_mappings_spec. Qed.

(** ** Concrete inputs *)

Definition demo_image : LoadedKernel := mkLoadedKernel 0xffffffff80001000 0xffffffff80000000 0x200000 0x3000.
Definition demo_lstate : LState unit := mkLState zero_mem 0 tt.

Lemma demo_mappable : mappable 0x1000 0x8000 demo_image 0x300000 5000 demo_lstate.
Proof.
  split; try done.
  - apply run_ok_above; try done; vm_compute; split; congruence.
  - apply run_ok_above; try done; vm_compute; split; congruence.
Qed.

Lemma loader_mappings_witness : scratch_pages demo_image 5000 = 12 /\ exists s',
  setup_mappings 0x1000 0x8000 0x8000 demo_image 0x300000 5000 demo_lstate = Ret s' /\
  walk (lmem s') 0x8000 0xffffffff80002000 = Some (0x202000, PW) /\
  huge_walk (lmem s') 0x8000 (PHYSICAL_MEMORY_OFFSET + 0x12345678) = Some 0x12345678.
Proof.
  split; [reflexivity|].
  destruct (loader_mappings 0x1000 0x8000 demo_image 0x300000 5000 demo_lstate demo_mappable) as (s' & Hs & [_ Hk _ Hw _]).
  exists s'. split; [exact Hs|]. split; [apply (Hk 2); vm_compute; split; congruence|apply Hw; lia].
Defined.

(** With a ramdisk of 500 MiB the number is above the 256 pages of the scratchpad. *)
Lemma scratchpad_too_small : scratch_pages demo_image (500 * 2 ^ 20) = 261.
Proof. reflexivity. Qed.
