(* ===== verification/TaskNew.v ===== *)
(** * Task creation ([kernel/src/task/mod.rs])

    [Task::new] and [Task::new_user]: a fresh identifier, a kernel stack with
    a guard page in the stack region, and the first context frame on it. *)

From S2P Require Import Prelude Context X86 Sched.

Definition KERNEL_STACK_REGION_BASE : Z := 0xFFFFFE0000000000.
Definition STACK_PAGES : Z := 8.
Definition GUARD_PAGES : Z := 1.
Definition STACK_SIZE : Z := STACK_PAGES * 4096.
Definition STACK_STRIDE : Z := (STACK_PAGES + GUARD_PAGES + 1) * 4096.

(** What creating tasks changes: [NEXT_ID], the address spaces, the words of
    the kernel stacks, and the threads of each process (by process id). *)
Record Spawner (S : Type) := mkSpawner {
  next_id : Z; spaces : S; stacks : words; threads : Z -> list Z }.
Arguments mkSpawner {S}. Arguments next_id {S}. Arguments spaces {S}.
Arguments stacks {S}. Arguments threads {S}.

Section Spawn.
Context {S : Type} `{VirtAddrs} `{AddressSpaces S}.

(** [TaskId::new]. *)
Definition TaskId_new (k : Spawner S) : Z * Spawner S :=
  (next_id k, mkSpawner (wrap 64 (next_id k + 1)) (spaces k) (stacks k) (threads k)).

Definition add_thread (pid id : Z) (k : Spawner S) : Spawner S :=
  mkSpawner (next_id k) (spaces k) (stacks k)
    (fun p => if p =? pid then threads k p ++ [id] else threads k p).

(** (start of the usable stack, its top) for a task. *)
Definition stack_bounds (id : Z) : outcome (Z * Z) :=
  offset ← mul_u 64 id STACK_STRIDE;
  sum ← add_u 64 KERNEL_STACK_REGION_BASE offset;
  stack_region_base ← virt_addr_new sum;
  usable_stack_start ← virt_addr_add stack_region_base (GUARD_PAGES * 4096);
  stack_top_virt ← virt_addr_add usable_stack_start STACK_SIZE;
  Ret (usable_stack_start, stack_top_virt).

(** [Task::new]: one page of the stack, in the current address space. *)
Definition map_stack_page (kroot : Z) (s : S) (page : Z) : outcome S :=
  r ← take_frame s;
  frame ← unwrap r.1;
  m ← map_to r.2 kroot page frame (Z.lor PRESENT WRITABLE);
  _ ← assert_b m.1;
  Ret m.2.

(** [Task::new_user]: one page, in the current and in the process's address
    space, where it may be mapped already. *)
Definition map_user_stack_page (kroot proot : Z) (s : S) (page : Z) : outcome S :=
  r ← take_frame s;
  frame ← unwrap r.1;
  m ← map_to r.2 kroot page frame (Z.lor PRESENT WRITABLE);
  m' ← map_to m.2 proot page frame (Z.lor PRESENT WRITABLE);
  Ret m'.2.

(** The twenty words of the first context, pushed downwards. *)
Definition first_context (m : words) (top ss rsp cs rip : Z) : words * Z :=
  let s := pushes (m, top) [ss; rsp; 0x202; cs; rip] in
  pushes s (replicate 15 0).

Definition Task_new (kroot : Z) (kernel_process : Process) (entry : Z) (k : Spawner S)
    : outcome (Task * Spawner S) :=
  let '(id, k) := TaskId_new k in
  b ← stack_bounds id;
  let '(usable_stack_start, stack_top_virt) := b in
  last ← virt_addr_sub stack_top_virt 1;
  s ← for_each (map_stack_page kroot) (page_range usable_stack_start last) (spaces k);
  let '(m, sp) := first_context (stacks k) stack_top_virt 0x10 stack_top_virt 0x08 entry in
  let task := mkTask id sp stack_top_virt kernel_process Ready in
  Ret (task, add_thread (proc_id kernel_process) id (mkSpawner (next_id k) s m (threads k))).

Definition Task_new_user (kroot : Z) (p : Process) (k : Spawner S) : outcome (Task * Spawner S) :=
  let '(id, k) := TaskId_new k in
  b ← stack_bounds id;
  let '(usable_stack_start, stack_top_virt) := b in
  last ← virt_addr_sub stack_top_virt 1;
  s ← for_each (map_user_stack_page kroot (pml4_frame p)) (page_range usable_stack_start last) (spaces k);
  let '(m, sp) := first_context (stacks k) stack_top_virt 0x23 (stack_top p) 0x2b (entry_point p) in
  let k := add_thread (proc_id p) id (mkSpawner (next_id k) s m (threads k)) in
  Ret (mkTask id sp stack_top_virt p Ready, k).

(** [init_kernel_stack_region]: anchor the region's top-level entry. *)
Definition init_kernel_stack_region (kroot : Z) (s : S) : outcome S :=
  match translate s kroot KERNEL_STACK_REGION_BASE with
  | Some _ => Ret s
  | None =>
      r ← take_frame s;
      frame ← unwrap r.1;
      m ← map_to r.2 kroot KERNEL_STACK_REGION_BASE frame (Z.lor PRESENT WRITABLE);
      Ret m.2
  end.

(** ** Lemmas *)

(** Identifiers for which the stack lies in the region. *)
Definition id_ok (id : Z) : Prop := 0 <= id < 2 ^ 25.

Definition stack_low (id : Z) : Z := KERNEL_STACK_REGION_BASE + id * STACK_STRIDE + 4096.
Definition stack_high (id : Z) : Z := stack_low id + STACK_SIZE.

Lemma stack_bounds_ok id : id_ok id -> stack_bounds id = Ret (stack_low id, stack_high id).
Proof.
  unfold id_ok. intros Hid. unfold stack_bounds, stack_low, stack_high, STACK_SIZE, STACK_STRIDE,
    STACK_PAGES, GUARD_PAGES, KERNEL_STACK_REGION_BASE.
  rewrite mul_u_Ret by lia. cbn [mbind outcome_bind]. rewrite add_u_Ret by lia. cbn [mbind outcome_bind].
  rewrite virt_addr_new_ok by (unfold canonical; lia). cbn [mbind outcome_bind].
  rewrite virt_addr_add_ok by (unfold canonical; lia). cbn [mbind outcome_bind].
  rewrite virt_addr_add_ok by (unfold canonical; lia). cbn [mbind outcome_bind].
  do 2 f_equal; lia.
Qed.

Lemma stack_pages id last :
  id_ok id -> virt_addr_sub (stack_high id) 1 = Ret last ->
  page_range (stack_low id) last = map (fun i => stack_low id + i * 4096) (seqZ 0 8).
Proof.
  intros Hid Hl. unfold id_ok in Hid. unfold stack_high, STACK_SIZE, STACK_PAGES in *.
  rewrite virt_addr_sub_ok in Hl by
    (unfold canonical, stack_low, STACK_STRIDE, KERNEL_STACK_REGION_BASE, STACK_PAGES, GUARD_PAGES; lia).
  injection Hl as <-. apply page_range_ok; [|lia].
  unfold stack_low, STACK_STRIDE, KERNEL_STACK_REGION_BASE, STACK_PAGES, GUARD_PAGES.
  change ((8 + 1 + 1) * 4096) with (10 * 4096).
  replace (0xFFFFFE0000000000 + id * (10 * 4096) + 4096)
    with ((0xFFFFFE0000000 + id * 10 + 1) * 4096) by lia.
  apply Z.mod_mul. lia.
Qed.

(** The pages mapped by a loop of single-page steps. *)
Lemma map_pages_inv (step : S -> Z -> outcome S) (live : Z -> Prop) root pages s s' :
  (forall t page t', step t page = Ret t' -> coherent t live ->
     coherent t' live /\ (exists frame, translate t' root page = Some (frame, Z.lor PRESENT WRITABLE)) /\
     forall root' page', live root' -> page' <> page -> translate t' root' page' = translate t root' page') ->
  live root -> coherent s live -> NoDup pages -> for_each step pages s = Ret s' ->
  (forall page, page ∈ pages -> exists frame, translate s' root page = Some (frame, Z.lor PRESENT WRITABLE)) /\
  (forall root' page, live root' -> page ∉ pages -> translate s' root' page = translate s root' page).
Proof.
  intros Hstep Hl. revert s. induction pages as [|p pages IH]; intros s Hco Hnd Hr; cbn [for_each] in Hr.
  { injection Hr as <-. split; [intros page Hp; by apply elem_of_nil in Hp|done]. }
  inv_out. apply NoDup_cons in Hnd as [Hp Hnd].
  destruct (Hstep _ _ _ Ha Hco) as (Hco' & [frame Hf] & Hother). destruct (IH _ Hco' Hnd Hr) as [Hin Hout]. split.
  - intros page [->|Hpg]%elem_of_cons; [|by apply Hin]. exists frame. by rewrite Hout.
  - intros root' page Hl' [Hne Hpg]%not_elem_of_cons. by rewrite Hout, Hother.
Qed.

Lemma map_stack_page_spec kroot (live : Z -> Prop) s page s' : live kroot ->
  map_stack_page kroot s page = Ret s' -> coherent s live ->
  coherent s' live /\ (exists frame, translate s' kroot page = Some (frame, Z.lor PRESENT WRITABLE)) /\
  forall root' page', live root' -> page' <> page -> translate s' root' page' = translate s root' page'.
Proof.
  unfold map_stack_page. intros Hl Hm Hco. inv_out. destruct a as [r s1], a1 as [b s2]. cbn [fst snd] in *. subst b.
  destruct (take_frame_ok _ _ _ Ha) as [Htr Hc1]. specialize (Hc1 _ Hco).
  destruct (map_to_ok _ _ _ _ _ _ live Ha1 Hc1 Hl) as [_ Ht]. split; [by apply (map_to_coherent _ _ _ _ _ _ _ live Ha1)|].
  split; [by eexists|]. intros root' page' Hl' Hne. by rewrite (map_to_other _ _ _ _ _ _ _ live Ha1), Htr.
Qed.

Lemma first_context_frame m top ss rsp cs rip m' sp :
  first_context m top ss rsp cs rip = (m', sp) ->
  sp = top - FRAME_BYTES /\
  read_frame m' sp = mkFrame (mkRegs 0 0 0 0 0 0 0 0 0 0 0 0 0 0 0) rip cs 0x202 rsp ss /\
  (forall a, a < sp \/ top <= a -> m' a = m a).
Proof.
  unfold first_context. destruct (pushes (m, top) _) as [m5 sp5] eqn:E5.
  apply pushes_inv in E5 as (Hsp5 & Hout5 & Hin). unfold len in Hsp5. cbn [length] in Hsp5.
  set (zero := mkRegs 0 0 0 0 0 0 0 0 0 0 0 0 0 0 0).
  change (replicate 15 0) with (gpr_list zero).
  pose proof (read_frame_saved m5 sp5 zero) as Hfr. intros E15. rewrite E15 in Hfr. cbn [fst] in Hfr.
  apply pushes_inv in E15 as (Hsp & Hout & _). unfold len, FRAME_BYTES in *. cbn [length gpr_list] in Hsp.
  replace sp with (sp5 - 120) in * by lia. split_and!; [lia| |].
  - rewrite Hfr. f_equal; [eapply (Hin 4%nat)|eapply (Hin 3%nat)|eapply (Hin 2%nat)|eapply (Hin 1%nat)
      |eapply (Hin 0%nat)]; first [reflexivity|lia].
  - intros a Ha. rewrite Hout, Hout5 by lia. done.
Qed.
End Spawn.

Definition zero_regs : regs := mkRegs 0 0 0 0 0 0 0 0 0 0 0 0 0 0 0.

(** the kernel stacks of distinct tasks do not overlap, and between the
    end of one and the start of the next usable stack there are at least two
    pages, so that running off the low end hits an unmapped guard page. *)
Theorem kernel_stacks_apart `{VirtAddrs} i j :
  id_ok i -> id_ok j -> i < j ->
  exists low1 high1 low2 high2, stack_bounds i = Ret (low1, high1) /\ stack_bounds j = Ret (low2, high2) /\
    high1 = low1 + STACK_SIZE /\ low1 < high1 /\ high1 + 2 * 4096 <= low2.
Proof.
  intros Hi Hj Hij. exists (stack_low i), (stack_high i), (stack_low j), (stack_high j).
  rewrite !stack_bounds_ok by done. split_and!; try done;
  unfold stack_high, stack_low, STACK_SIZE, STACK_STRIDE, STACK_PAGES, GUARD_PAGES; lia.
Qed.

(** A new kernel task gets the next identifier and a stack whose eight
    pages are mapped writable in the kernel's address space while no other
    page of a space in use, the guard page included, changes; and the first switch to it starts
    [entry] in ring 0 with interrupts enabled, zeroed registers and an empty
    stack. *)
Theorem Task_new_starts {S} `{VirtAddrs} `{AddressSpaces S} kroot kp entry (live : Z -> Prop) (k : Spawner S) t k' :
  live kroot -> coherent (spaces k) live ->
  id_ok (next_id k) -> Task_new kroot kp entry k = Ret (t, k') ->
  task_id t = next_id k /\ next_id k' = next_id k + 1 /\ kernel_stack_top t = stack_high (next_id k) /\
  state t = Ready /\
  (forall page, page ∈ map (fun i => stack_low (next_id k) + i * 4096) (seqZ 0 8) ->
     exists frame, translate (spaces k') kroot page = Some (frame, Z.lor PRESENT WRITABLE)) /\
  (forall root page, live root -> page ∉ map (fun i => stack_low (next_id k) + i * 4096) (seqZ 0 8) ->
     translate (spaces k') root page = translate (spaces k) root page) /\
  (forall c, restore_context (stack_ptr t) c (stacks k') =
     Some (mkCpu zero_regs entry 0x08 0x202 (kernel_stack_top t) 0x10 (gs_base c) (kernel_gs_base c))).
Proof.
  intros Hl Hco Hid Hn. unfold Task_new in Hn. cbn [TaskId_new] in Hn.
  rewrite stack_bounds_ok in Hn by done. cbn [mbind outcome_bind] in Hn. inv_out.
  rewrite (stack_pages _ _ Hid Ha) in Ha0.
  destruct (first_context _ _ _ _ _ _) as [m sp] eqn:Ec in Hn.
  injection Hn as <- <-. cbn [task_id kernel_stack_top state stack_ptr spaces stacks add_thread next_id].
  apply first_context_frame in Ec as (_ & Hfr & _).
  apply (map_pages_inv _ live kroot) in Ha0 as [Hin Hout];
    [|intros ? ? ? Hs Hc; exact (map_stack_page_spec _ live _ _ _ Hl Hs Hc)|done|done|].
  2: { change (map ?f ?l) with (f <$> l). apply NoDup_fmap_2; [intros x y; lia|apply NoDup_seqZ]. }
  split_and!; try done.
  - unfold wrap. apply Z.mod_small. unfold id_ok in Hid. lia.
  - intros c. rewrite restore_context_eq, Hfr. done.
Qed.

(** C26: a new user task, when first switched to, enters user mode at its
    process's entry point on the process's stack with interrupts enabled,
    zeroed registers and the user GS base, and creating it writes only to its
    own kernel stack. *)
Theorem Task_new_user_starts {S} `{VirtAddrs} `{AddressSpaces S} kroot p (k : Spawner S) t k' :
  id_ok (next_id k) -> Task_new_user kroot p k = Ret (t, k') ->
  task_id t = next_id k /\ state t = Ready /\ process t = p /\
  threads k' (proc_id p) = threads k (proc_id p) ++ [task_id t] /\
  (forall a, a < stack_low (task_id t) \/ stack_high (task_id t) <= a -> stacks k' a = stacks k a) /\
  (forall c percpu, gs_base c = percpu -> kernel_gs_base c = 0 ->
     exists u, restore_context (stack_ptr t) c (stacks k') = Some u /\ gs_ok percpu u /\
       gpr u = zero_regs /\ rip u = entry_point p /\ rsp u = stack_top p /\ rflags u = 0x202 /\
       user_selector (cs u) = true).
Proof.
  intros Hid Hn. unfold Task_new_user in Hn. cbn [TaskId_new] in Hn.
  rewrite stack_bounds_ok in Hn by done. cbn [mbind outcome_bind] in Hn. inv_out.
  destruct (first_context _ _ _ _ _ _) as [m sp] eqn:Ec in Hn.
  injection Hn as <- <-. cbn [task_id kernel_stack_top state stack_ptr spaces stacks add_thread next_id process threads].
  rewrite Z.eqb_refl. apply first_context_frame in Ec as (Hsp & Hfr & Hout). split_and!; try done.
  - intros x Hx. apply Hout. unfold FRAME_BYTES, stack_high, STACK_SIZE, STACK_PAGES in *. lia.
  - intros c percpu Hg Hk. rewrite restore_context_eq, Hfr. eexists. split; [done|].
    cbn [user_cs user_rip user_rflags user_rsp user_ss f_gpr gpr rip cs rflags rsp].
    split_and!; try done. unfold gs_ok. cbn [cs gs_base kernel_gs_base]. rewrite Hg, Hk. done.
Qed.

(** the identifiers of new tasks are fresh: if all tasks the scheduler
    holds were created before, a new one can be queued, and the scheduler's
    invariant and this freshness continue to hold. *)
Theorem spawned_task_queued {S} `{VirtAddrs} `{AddressSpaces S} kroot kp entry (k : Spawner S) t k' s s' :
  id_ok (next_id k) -> Task_new kroot kp entry k = Ret (t, k') ->
  wf s -> Forall (fun u => task_id u < next_id k) (ring s) -> add_task t s = Ret s' ->
  wf s' /\ Forall (fun u => task_id u < next_id k') (ring s') /\ ring s' = ring s ++ [t].
Proof.
  intros Hid Hn Hwf Hlt Ha. unfold Task_new in Hn. cbn [TaskId_new] in Hn.
  rewrite stack_bounds_ok in Hn by done. cbn [mbind outcome_bind] in Hn.
  inv_out. destruct (first_context _ _ _ _ _ _) as [m sp] in Hn. injection Hn as <- <-.
  assert (ring s' = ring s ++ [mkTask (next_id k) sp (stack_high (next_id k)) kp Ready]) as Hring.
  { unfold add_task in Ha. inv_out. unfold ring. cbn. by destruct (current_task (sched s)). }
  split_and!; [|rewrite Hring; cbn [next_id add_thread]|done].
  - eapply (add_task_wf (mkTask (next_id k) _ _ _ _) s s' Hwf); [|reflexivity| |exact Ha].
    + cbn [task_id]. intros (u & Hu & Hin)%list_elem_of_fmap. rewrite Forall_forall in Hlt.
      specialize (Hlt _ Hin). lia.
    + cbn [kernel_stack_top]. unfold canonical, stack_high, stack_low, STACK_SIZE, STACK_STRIDE, STACK_PAGES,
        GUARD_PAGES, KERNEL_STACK_REGION_BASE, id_ok in *. lia.
  - unfold wrap, id_ok in *. rewrite Z.mod_small by lia. apply Forall_app. split.
    + eapply Forall_impl; [done|]. cbv beta. intros u. lia.
    + apply Forall_singleton. cbn [task_id]. lia.
Qed.

(** ** Concrete inputs *)

Definition demo_spawner : Spawner demo_tables :=
  mkSpawner 5 (∅, 0x100000) (fun _ => 0) (fun _ => []).
Definition demo_kernel_process : Process := mkProcess 0 0x1000 0 0.
Definition demo_process : Process := mkProcess 1 0x2000 0x400000 0x700000008000.

Lemma kernel_stacks_apart_witness :
  exists low1 high1 low2 high2, stack_bounds 1 = Ret (low1, high1) /\ stack_bounds 2 = Ret (low2, high2) /\
    high1 + 2 * 4096 <= low2.
Proof.
  destruct (kernel_stacks_apart 1 2) as (l1 & h1 & l2 & h2 & H1 & H2 & _ & _ & Hap);
    [unfold id_ok; lia..|]. eauto 10.
Defined.

Lemma Task_new_starts_witness :
  match Task_new 0x1000 demo_kernel_process 0xABC demo_spawner with
  | Ret (t, k') => task_id t = 5 /\ next_id k' = 6
  | _ => False
  end.
Proof.
  assert (match Task_new 0x1000 demo_kernel_process 0xABC demo_spawner with Ret _ => true | _ => false end = true)
    as Hok by (vm_compute; reflexivity).
  destruct (Task_new 0x1000 demo_kernel_process 0xABC demo_spawner) as [[t k']| |] eqn:E;
    [|discriminate Hok..].
  destruct (Task_new_starts 0x1000 demo_kernel_process 0xABC (fun _ => True) demo_spawner t k') as (Hid & Hnext & _);
    [done|done|unfold id_ok; simpl; lia|exact E|]. by split.
Defined.

Lemma Task_new_user_starts_witness :
  match Task_new_user 0x1000 demo_process demo_spawner with
  | Ret (t, k') => exists u, restore_context (stack_ptr t) (mkCpu zero_regs 0 8 2 0 0 0x9000 0) (stacks k') = Some u /\
                     rip u = 0x400000 /\ user_selector (cs u) = true
  | _ => False
  end.
Proof.
  assert (match Task_new_user 0x1000 demo_process demo_spawner with Ret _ => true | _ => false end = true)
    as Hok by (vm_compute; reflexivity).
  destruct (Task_new_user 0x1000 demo_process demo_spawner) as [[t k']| |] eqn:E;
    [|discriminate Hok..].
  destruct (Task_new_user_starts 0x1000 demo_process demo_spawner t k') as (_ & _ & _ & _ & _ & Hrun);
    [unfold id_ok; simpl; lia|exact E|].
  destruct (Hrun (mkCpu zero_regs 0 8 2 0 0 0x9000 0) 0x9000 eq_refl eq_refl)
    as (u & Hu & _ & _ & Hrip & _ & _ & Hsel).
  exists u. split; [exact Hu|]. split; [exact Hrip|exact Hsel].
Defined.

Lemma spawned_task_queued_witness :
  match Task_new 0x1000 demo_kernel_process 0xABC demo_spawner with
  | Ret (t, k') => exists s', add_task t demo_sys = Ret s' /\ wf s' /\ map task_id (ring s') = [1; 2; 3; 5]
  | _ => False
  end.
Proof.
  assert (match Task_new 0x1000 demo_kernel_process 0xABC demo_spawner with Ret (t, _) => Some (task_id t) | _ => None end
    = Some 5) as Hok by (vm_compute; reflexivity).
  destruct (Task_new 0x1000 demo_kernel_process 0xABC demo_spawner) as [[t k']| |] eqn:E;
    [|discriminate Hok..].
  injection Hok as Hid. eexists. split; [reflexivity|].
  destruct (spawned_task_queued 0x1000 demo_kernel_process 0xABC demo_spawner t k' demo_sys _
    ltac:(unfold id_ok; simpl; lia) E (reachable_wf (mkHw 0 0 0) demo_sys demo_reachable)
    ltac:(repeat (apply Forall_cons; split; [simpl; lia|]); by apply Forall_nil) eq_refl) as (Hwf & _ & Hring).
  split; [exact Hwf|]. rewrite Hring, map_app. cbn [map]. by rewrite Hid.
Defined.
