(* ===== verification/Bus.v ===== *)
(** * Device access

    The kernel reaches devices through I/O ports, memory-mapped registers,
    model-specific registers and a few system instructions.  [io] is a state
    monad over a device that answers such requests ([Hardware]), the log of
    all requests made, and the statics of the drivers; [wp] is its total
    weakest precondition. *)

From S2P Require Import Prelude.

(** ** Requests *)

Inductive request :=
| In8 (port : Z) | Out8 (port v : Z)
| In32 (port : Z) | Out32 (port v : Z)
| Read32 (a : Z) | Write32 (a v : Z)
| ReadMsr (r : Z) | WriteMsr (r v : Z)
| ReadTsc
| LoadGdt | LoadIdt | LoadTss (sel : Z)
| SetCs (sel : Z) | SetDs (sel : Z) | SetEs (sel : Z) | SetSs (sel : Z).

#[global] Instance request_eq_dec : EqDecision request.
Proof. solve_decision. Defined.

(** A device answers a request and may change; the answer to a request that
    reads nothing is not used. *)
Class Hardware (D : Type) := { respond : D -> request -> Z * D }.

(** A request with its answer. *)
Abbreviation event := (request * Z)%type.

(** ** Statics of the drivers *)

Record AhciController := mkAhci { abar : Z; ports_base : Z }.

Record PerCpuData := mkPerCpu {
  cpu_id : Z; pc_kernel_stack_top : Z; pc_current_task_id : Z; uptime_ticks : Z; is_bsp : bool }.

Definition PerCpuData_new : PerCpuData := mkPerCpu 0 0 0 0 true.

Definition MAX_CPUS : nat := 256.

(** [LAPIC] and [IOAPIC] (lazily created, by their base address),
    [AHCI_CONTROLLER], the three statics of [acpi.rs], the four of
    [smp.rs], and the interrupt stack [gdt::init] puts into the TSS. *)
Record Statics := mkStatics {
  LAPIC : option Z; IOAPIC : option Z;
  AHCI_CONTROLLER : option AhciController;
  LAPIC_ADDRESS : option Z; BOOT_APIC_ID : option Z; AP_APIC_IDS : list Z;
  PER_CPU_AREA : list PerCpuData; CPU_COUNT : Z; BSP_CPU_ID : Z; AP_READY : Z;
  TSS_IST0 : Z }.

Definition initial_statics : Statics :=
  mkStatics None None None None None [] (replicate MAX_CPUS PerCpuData_new) 1 0 0 0.

Definition set_lapic (b : Z) (g : Statics) : Statics :=
  mkStatics (Some b) (IOAPIC g) (AHCI_CONTROLLER g) (LAPIC_ADDRESS g) (BOOT_APIC_ID g) (AP_APIC_IDS g)
    (PER_CPU_AREA g) (CPU_COUNT g) (BSP_CPU_ID g) (AP_READY g) (TSS_IST0 g).
Definition set_ioapic (b : Z) (g : Statics) : Statics :=
  mkStatics (LAPIC g) (Some b) (AHCI_CONTROLLER g) (LAPIC_ADDRESS g) (BOOT_APIC_ID g) (AP_APIC_IDS g)
    (PER_CPU_AREA g) (CPU_COUNT g) (BSP_CPU_ID g) (AP_READY g) (TSS_IST0 g).
Definition set_ahci (c : AhciController) (g : Statics) : Statics :=
  mkStatics (LAPIC g) (IOAPIC g) (Some c) (LAPIC_ADDRESS g) (BOOT_APIC_ID g) (AP_APIC_IDS g)
    (PER_CPU_AREA g) (CPU_COUNT g) (BSP_CPU_ID g) (AP_READY g) (TSS_IST0 g).
Definition set_lapic_address (a : Z) (g : Statics) : Statics :=
  mkStatics (LAPIC g) (IOAPIC g) (AHCI_CONTROLLER g) (Some a) (BOOT_APIC_ID g) (AP_APIC_IDS g)
    (PER_CPU_AREA g) (CPU_COUNT g) (BSP_CPU_ID g) (AP_READY g) (TSS_IST0 g).
Definition set_boot_apic_id (i : Z) (g : Statics) : Statics :=
  mkStatics (LAPIC g) (IOAPIC g) (AHCI_CONTROLLER g) (LAPIC_ADDRESS g) (Some i) (AP_APIC_IDS g)
    (PER_CPU_AREA g) (CPU_COUNT g) (BSP_CPU_ID g) (AP_READY g) (TSS_IST0 g).
Definition push_ap_apic_id (i : Z) (g : Statics) : Statics :=
  mkStatics (LAPIC g) (IOAPIC g) (AHCI_CONTROLLER g) (LAPIC_ADDRESS g) (BOOT_APIC_ID g) (AP_APIC_IDS g ++ [i])
    (PER_CPU_AREA g) (CPU_COUNT g) (BSP_CPU_ID g) (AP_READY g) (TSS_IST0 g).
Definition set_smp (area : list PerCpuData) (count bsp ready : Z) (g : Statics) : Statics :=
  mkStatics (LAPIC g) (IOAPIC g) (AHCI_CONTROLLER g) (LAPIC_ADDRESS g) (BOOT_APIC_ID g) (AP_APIC_IDS g)
    area count bsp ready (TSS_IST0 g).
Definition set_ist0 (a : Z) (g : Statics) : Statics :=
  mkStatics (LAPIC g) (IOAPIC g) (AHCI_CONTROLLER g) (LAPIC_ADDRESS g) (BOOT_APIC_ID g) (AP_APIC_IDS g)
    (PER_CPU_AREA g) (CPU_COUNT g) (BSP_CPU_ID g) (AP_READY g) a.

(** ** The monad *)

(** The requests are kept newest first. *)
Record Io (D : Type) := mkIo { dev : D; newest : list event; st : Statics }.
Arguments mkIo {D}. Arguments dev {D}. Arguments newest {D}. Arguments st {D}.

Definition log {D} (s : Io D) : list event := rev (newest s).

Definition io (D A : Type) : Type := Io D -> outcome (A * Io D).

#[global] Instance io_ret {D} : MRet (io D) := fun A a s => Ret (a, s).
#[global] Instance io_bind {D} : MBind (io D) := fun A B k m s =>
  match m s with Ret (a, s') => k a s' | Panic => Panic | Loop => Loop end.

Section Primitives.
Context {D : Type} `{Hardware D}.

Definition io_step (s : Io D) (r : request) : Io D :=
  mkIo (respond (dev s) r).2 ((r, (respond (dev s) r).1) :: newest s) (st s).

Lemma log_step s r : log (io_step s r) = log s ++ [(r, (respond (dev s) r).1)].
Proof. done. Qed.

Definition perform (r : request) : io D Z := fun s => Ret ((respond (dev s) r).1, io_step s r).
Definition tell (r : request) : io D unit := _ ← perform r; mret tt.

(** A computation that may panic but touches no device. *)
Definition lift {A} (m : outcome A) : io D A := fun s =>
  match m with Ret a => Ret (a, s) | Panic => Panic | Loop => Loop end.

Definition statics : io D Statics := fun s => Ret (st s, s).
Definition update (f : Statics -> Statics) : io D unit := fun s => Ret (tt, mkIo (dev s) (newest s) (f (st s))).

(** [for x in l { .. }]. *)
Fixpoint for_io {A} (f : A -> io D unit) (l : list A) : io D unit :=
  match l with
  | [] => mret tt
  | x :: l' => _ ← f x; for_io f l'
  end.

(** [while reg & mask != 0 { spin_loop() }]. *)
Fixpoint spin_while_set (fuel : nat) (a mask : Z) : io D unit :=
  match fuel with
  | O => fun _ => Loop
  | S fuel' => v ← perform (Read32 a); if Z.land v mask =? 0 then mret tt else spin_while_set fuel' a mask
  end.

(** ** Total correctness *)

Definition wp {A} (m : io D A) (s : Io D) (Q : A -> Io D -> Prop) : Prop :=
  exists a s', m s = Ret (a, s') /\ Q a s'.

Lemma wp_ret {A} (a : A) s Q : Q a s -> wp (mret a) s Q.
Proof. intros HQ. by exists a, s. Qed.

Lemma wp_bind {A B} (m : io D A) (k : A -> io D B) s Q : wp m s (fun a s' => wp (k a) s' Q) -> wp (m ≫= k) s Q.
Proof.
  intros (a & s' & Hm & b & s'' & Hk & HQ). exists b, s''. split; [|done].
  unfold mbind, io_bind. by rewrite Hm.
Qed.

Lemma wp_mono {A} (m : io D A) s (Q Q' : A -> Io D -> Prop) : (forall a s', Q a s' -> Q' a s') -> wp m s Q -> wp m s Q'.
Proof. intros Himp (a & s' & Hm & HQ). exists a, s'. auto. Qed.

Lemma wp_perform r s Q : Q (respond (dev s) r).1 (io_step s r) -> wp (perform r) s Q.
Proof. intros HQ. by eexists _, _. Qed.

Lemma wp_tell r s Q : Q tt (io_step s r) -> wp (tell r) s Q.
Proof. intros HQ. by apply wp_bind, wp_perform, wp_ret. Qed.

Lemma wp_lift {A} (m : outcome A) a s Q : m = Ret a -> Q a s -> wp (lift m) s Q.
Proof. intros -> HQ. by exists a, s. Qed.

Lemma wp_statics s Q : Q (st s) s -> wp statics s Q.
Proof. intros HQ. by exists (st s), s. Qed.

Lemma wp_update f s Q : Q tt (mkIo (dev s) (newest s) (f (st s))) -> wp (update f) s Q.
Proof. intros HQ. by eexists _, _. Qed.

(** A loop invariant over the part of the list already visited. *)
Lemma wp_for {A} (I : list A -> Io D -> Prop) f l s Q :
  I [] s ->
  (forall l1 x l2 s', l = l1 ++ x :: l2 -> I l1 s' -> wp (f x) s' (fun _ s'' => I (l1 ++ [x]) s'')) ->
  (forall s', I l s' -> Q tt s') ->
  wp (for_io f l) s Q.
Proof.
  intros H0 Hstep Hend.
  assert (forall l2 l1 s', l = l1 ++ l2 -> I l1 s' -> wp (for_io f l2) s' (fun _ s'' => I l s'')) as Hall.
  { induction l2 as [|x l2 IH]; intros l1 s' Hl HI; cbn [for_io].
    - apply wp_ret. rewrite Hl. by rewrite app_nil_r.
    - apply wp_bind. eapply wp_mono; [|exact (Hstep l1 x l2 s' Hl HI)]. intros u s'' HI'.
      apply (IH (l1 ++ [x])); [by rewrite <- app_assoc|done]. }
  eapply wp_mono; [|exact (Hall l [] s eq_refl H0)]. intros [] s'. apply Hend.
Qed.

(** One of the next [n] reads of [a] finds the bits of [mask] clear. *)
Fixpoint clears (n : nat) (d : D) (a mask : Z) : Prop :=
  match n with
  | O => False
  | S n' => let r := respond d (Read32 a) in Z.land r.1 mask = 0 \/ clears n' r.2 a mask
  end.

(** [reads a s s']: from [s] to [s'] only [a] was read. *)
Definition reads (a : Z) (s s' : Io D) : Prop :=
  exists vs, log s' = log s ++ map (fun v => (Read32 a, v)) vs /\ st s' = st s /\
    rtc (fun d d' => d' = (respond d (Read32 a)).2) (dev s) (dev s').

Lemma reads_step a s s' : reads a (io_step s (Read32 a)) s' -> reads a s s'.
Proof.
  intros (vs & Hl & Hst & Hd). eexists (_ :: vs). cbn [map]. rewrite Hl, log_step. cbn [io_step st] in *.
  split; [by rewrite <- app_assoc|]. split; [done|]. eapply rtc_l; [reflexivity|exact Hd].
Qed.

Lemma wp_spin fuel a mask s (Q : unit -> Io D -> Prop) : clears fuel (dev s) a mask ->
  (forall s', reads a s s' -> Q tt s') -> wp (spin_while_set fuel a mask) s Q.
Proof.
  revert s Q. induction fuel as [|fuel IH]; intros s Q Hc HQ; [done|]. cbn [spin_while_set clears] in *.
  apply wp_bind, wp_perform. destruct (Z.eqb_spec (Z.land (respond (dev s) (Read32 a)).1 mask) 0) as [Hz|Hz].
  - apply wp_ret, HQ. apply reads_step. exists []. rewrite app_nil_r. by split_and!.
  - destruct Hc as [Hc|Hc]; [done|]. apply IH; [done|]. intros s' Hr. by apply HQ, reads_step.
Qed.
End Primitives.

(** Symbolic execution of one step. *)
Ltac io_step :=
  lazymatch goal with
  | |- wp (_ ≫= _) _ _ => apply wp_bind
  | |- wp (mret _) _ _ => apply wp_ret
  | |- wp (perform _) _ _ => apply wp_perform
  | |- wp (tell _) _ _ => apply wp_tell
  | |- wp statics _ _ => apply wp_statics
  | |- wp (update _) _ _ => apply wp_update
  end.
Ltac io_steps := repeat (io_step; cbv beta).

(** The requests of a log that may change a register: all but the reads. *)
Definition is_write (r : request) : bool :=
  match r with In8 _ | In32 _ | Read32 _ | ReadMsr _ | ReadTsc => false | _ => true end.

Definition writes (l : list event) : list request := filter (fun r => is_write r) (map fst l).

Lemma writes_app l1 l2 : writes (l1 ++ l2) = writes l1 ++ writes l2.
Proof. unfold writes. rewrite map_app. apply filter_app. Qed.

Lemma writes_reads a vs : writes (map (fun v => (Read32 a, v)) vs) = [].
Proof. induction vs as [|v vs IH]; [done|]. unfold writes in *. cbn [map fst]. rewrite filter_cons_False by (intros []). exact IH. Qed.

(** What a driver did: the requests that may change something, in order. *)
Definition wrote {D} (s s' : Io D) (l : list request) : Prop := writes (log s') = writes (log s) ++ l.

Lemma wrote_refl {D} (s : Io D) : wrote s s [].
Proof. unfold wrote. by rewrite app_nil_r. Qed.

Lemma wrote_trans {D} (s1 s2 s3 : Io D) l1 l2 : wrote s1 s2 l1 -> wrote s2 s3 l2 -> wrote s1 s3 (l1 ++ l2).
Proof. unfold wrote. intros H1 H2. by rewrite H2, H1, <- app_assoc. Qed.

Lemma wrote_step {D} `{Hardware D} (s s' : Io D) l r :
  wrote s s' l -> wrote s (io_step s' r) (if is_write r then l ++ [r] else l).
Proof.
  unfold wrote. intros Hl. rewrite log_step, writes_app, Hl. unfold writes at 2. cbn [map fst].
  destruct (is_write r) eqn:E.
  - rewrite filter_cons_True by (by rewrite E). by rewrite <- app_assoc.
  - rewrite filter_cons_False by (rewrite E; intros []). apply app_nil_r.
Qed.

Lemma wrote_reads {D} `{Hardware D} a (s s1 s' : Io D) l : wrote s s1 l -> reads a s1 s' -> wrote s s' l.
Proof.
  unfold wrote. intros Hl (vs & -> & _). by rewrite writes_app, writes_reads, app_nil_r.
Qed.

Lemma wrote_update {D} (s s' : Io D) l g : wrote s s' l -> wrote s (mkIo (dev s') (newest s') g) l.
Proof. done. Qed.

(** ** A bench device

    Registers that read back what was written to them, and a PCI host bridge
    with an address latch over a fixed configuration space. *)
Record bench := mkBench { mmio : Z -> Z; msrs : Z -> Z; latch : Z; cfg : Z -> Z }.

Definition bench_put (f : Z -> Z) (a v : Z) : Z -> Z := fun x => if x =? a then v else f x.

#[global] Instance bench_hardware : Hardware bench := {
  respond d r :=
    match r with
    | Read32 a => (mmio d a, d)
    | Write32 a v => (0, mkBench (bench_put (mmio d) a v) (msrs d) (latch d) (cfg d))
    | ReadMsr a => (msrs d a, d)
    | WriteMsr a v => (0, mkBench (mmio d) (bench_put (msrs d) a v) (latch d) (cfg d))
    | In32 p => ((if p =? 0xCFC then cfg d (latch d) mod 2 ^ 32 else 0), d)
    | Out32 p v => (0, if p =? 0xCF8 then mkBench (mmio d) (msrs d) v (cfg d) else d)
    | _ => (0, d)
    end }.
