(* ===== verification/SerialPort.v ===== *)
(** * The serial port ([shared/serial/src/lib.rs])

    The driver of the first serial port over the bus of [Bus]: configuration,
    polling of the line-status register, one byte at a time.  The port is any
    device with the registers of a 16550 ([Uart]), which accepts a byte only
    when its transmitter is empty; what it has accepted is the serial line of
    [Serial]. *)

From S2P Require Import Prelude Utf8 Serial Bus.

Definition COM1_BASE : Z := 0x3F8.

Section Driver.
Context {D : Type} `{Hardware D}.

Definition out8 (port value : Z) : io D unit := tell (Out8 port value).
Definition in8 (port : Z) : io D Z := perform (In8 port).

Definition serial_init : io D unit :=
  _ ← out8 (COM1_BASE + 1) 0x00;
  _ ← out8 (COM1_BASE + 3) 0x80;
  _ ← out8 COM1_BASE 0x03;
  _ ← out8 (COM1_BASE + 1) 0x00;
  _ ← out8 (COM1_BASE + 3) 0x03;
  _ ← out8 (COM1_BASE + 2) 0xC7;
  out8 (COM1_BASE + 4) 0x0B.

(** [while (in8(COM1_BASE + 5) & 0x20) == 0 {}]. *)
Fixpoint wait_ready (fuel : nat) : io D unit :=
  match fuel with
  | O => fun _ => Loop
  | S fuel' => v ← in8 (COM1_BASE + 5); if Z.land v 0x20 =? 0 then wait_ready fuel' else mret tt
  end.

Definition write_byte (fuel : nat) (b : byte) : io D unit :=
  _ ← wait_ready fuel; out8 COM1_BASE (u8 b).

(** [SerialWriter::write_str] on the device. *)
Definition port_write_str (fuel : nat) (value : list byte) : io D unit :=
  for_io (fun b =>
    if bool_decide (b = x0a) then _ ← write_byte fuel x0d; write_byte fuel x0a
    else write_byte fuel b) value.

(** [_print]: the pieces of a formatted text. *)
Definition port_print (fuel : nat) (pieces : list (list byte)) : io D unit := for_io (port_write_str fuel) pieces.
End Driver.

(** ** The device *)

(** One of the next [n] reads of the line status finds the transmitter
    empty. *)
Fixpoint drains {D} `{Hardware D} (n : nat) (d : D) : Prop :=
  match n with
  | O => False
  | S n' => let r := respond d (In8 0x3FD) in Z.land r.1 0x20 <> 0 \/ drains n' r.2
  end.

(** The registers of a 16550 the driver relies on: bit 7 of the line control
    register turns the first two ports into the divisor latch; bit 5 of the
    line status tells whether the transmitter is empty ([ready]); a byte
    written to the data port is transmitted if it is, and may be lost if not;
    the transmitter drains. *)
Class Uart (D : Type) `{Hardware D} (fuel : nat) := {
  transmitted : D -> list byte;
  ready : D -> bool;
  divisor : D -> Z * Z;
  line_control : D -> Z;
  interrupt_enable : D -> Z;
  out_data : forall d v, 0 <= v < 256 -> let d' := (respond d (Out8 0x3F8 v)).2 in
    line_control d' = line_control d /\ interrupt_enable d' = interrupt_enable d /\
    if Z.testbit (line_control d) 7
    then divisor d' = (v, (divisor d).2) /\ transmitted d' = transmitted d
    else divisor d' = divisor d /\ (ready d = true -> transmitted d' = transmitted d ++ [byte_of v]);
  out_ier : forall d v, 0 <= v < 256 -> let d' := (respond d (Out8 0x3F9 v)).2 in
    line_control d' = line_control d /\ transmitted d' = transmitted d /\
    if Z.testbit (line_control d) 7
    then divisor d' = ((divisor d).1, v) /\ interrupt_enable d' = interrupt_enable d
    else divisor d' = divisor d /\ interrupt_enable d' = v;
  out_lcr : forall d v, 0 <= v < 256 -> let d' := (respond d (Out8 0x3FB v)).2 in
    line_control d' = v /\ transmitted d' = transmitted d /\ divisor d' = divisor d /\ interrupt_enable d' = interrupt_enable d;
  other_port : forall d r, r = In8 0x3FD \/ (exists v, r = Out8 0x3FA v) \/ (exists v, r = Out8 0x3FC v) ->
    let d' := (respond d r).2 in
    line_control d' = line_control d /\ transmitted d' = transmitted d /\ divisor d' = divisor d /\ interrupt_enable d' = interrupt_enable d;
  in_status : forall d, let r := respond d (In8 0x3FD) in Z.land r.1 0x20 <> 0 -> ready r.2 = true;
  uart_drains : forall d, drains fuel d }.

(** The port transmits data at 38400 baud, 8 data bits, no parity, one stop
    bit, without interrupts. *)
Record configured {D} {fuel} `{Uart D fuel} (d : D) : Prop := mkConfigured {
  co_lcr : line_control d = 3;
  co_div : divisor d = (3, 0);
  co_ier : interrupt_enable d = 0 }.

Section Port.
Context {D : Type} {fuel : nat} `{Uart D fuel}.

(** From [s] to [s'] the port transmitted [bytes], the drivers' state did not
    change, and [ws] was all that was written. *)
Record sent (s : Io D) (ws : list request) (bytes : list byte) (s' : Io D) : Prop := mkSent {
  se_conf : configured (dev s');
  se_out : transmitted (dev s') = transmitted (dev s) ++ bytes;
  se_st : st s' = st s;
  se_wrote : wrote s s' ws }.

Lemma sent_nil s : configured (dev s) -> sent s [] [] s.
Proof. intros Hc. split; [done|by rewrite app_nil_r|done|apply wrote_refl]. Qed.

Lemma sent_trans s1 w1 b1 s2 w2 b2 s3 : sent s1 w1 b1 s2 -> sent s2 w2 b2 s3 -> sent s1 (w1 ++ w2) (b1 ++ b2) s3.
Proof.
  intros [_ Ho1 Hs1 Hw1] [Hc Ho2 Hs2 Hw2]. split; [done|by rewrite Ho2, Ho1, <- app_assoc|congruence|].
  exact (wrote_trans _ _ _ _ _ Hw1 Hw2).
Qed.

(** The bytes as written to the data port. *)
Definition data_writes (bytes : list byte) : list request := map (fun b => Out8 0x3F8 (u8 b)) bytes.

Lemma wp_wait_ready n s (Q : unit -> Io D -> Prop) : drains n (dev s) -> configured (dev s) ->
  (forall s', sent s [] [] s' -> ready (dev s') = true -> Q tt s') -> wp (wait_ready n) s Q.
Proof.
  revert s Q. induction n as [|n IH]; intros s Q Hd Hc HQ; [done|]. cbn [wait_ready drains] in *.
  apply wp_bind, wp_perform. change (COM1_BASE + 5) with 0x3FD.
  destruct (other_port (dev s) (In8 0x3FD)) as (Hl & Ht & Hv & Hi); [by left|].
  assert (sent s [] [] (io_step s (In8 0x3FD))) as Hs1.
  { destruct Hc. split; [split; cbn [io_step dev]; congruence|cbn [io_step dev]; by rewrite app_nil_r|done|].
    exact (wrote_step s s [] (In8 0x3FD) (wrote_refl s)). }
  destruct (Z.eqb_spec (Z.land (respond (dev s) (In8 0x3FD)).1 0x20) 0) as [Hz|Hz].
  - destruct Hd as [Hd|Hd]; [done|]. apply IH; [done|exact (se_conf _ _ _ _ Hs1)|].
    intros s' Hs'. apply HQ. exact (sent_trans _ _ _ _ _ _ _ Hs1 Hs').
  - apply wp_ret, HQ; [done|]. by apply in_status.
Qed.

Lemma wp_write_byte b s (Q : unit -> Io D -> Prop) : configured (dev s) ->
  (forall s', sent s (data_writes [b]) [b] s' -> Q tt s') -> wp (write_byte fuel b) s Q.
Proof.
  intros Hc HQ. apply wp_bind. apply wp_wait_ready; [apply uart_drains|done|]. intros s1 Hs1 Hready. apply wp_tell, HQ.
  change COM1_BASE with 0x3F8. destruct (out_data (dev s1) (u8 b) (u8_bound b)) as (Hl & Hi & Hif).
  pose proof (se_conf _ _ _ _ Hs1) as [Hc1 Hc2 Hc3]. rewrite Hc1 in Hif. destruct Hif as [Hd Ht].
  refine (sent_trans _ [] [] _ _ [b] _ Hs1 _). rewrite byte_of_u8 in Ht.
  split; [split; cbn [io_step dev]; congruence|by apply Ht|done|]. exact (wrote_step s1 s1 [] _ (wrote_refl s1)).
Qed.

Lemma wp_port_write_str value s (Q : unit -> Io D -> Prop) : configured (dev s) ->
  (forall s', sent s (data_writes (Serial.write_str value)) (Serial.write_str value) s' -> Q tt s') -> wp (port_write_str fuel value) s Q.
Proof.
  revert s Q. induction value as [|b value IH]; intros s Q Hc HQ; cbn [port_write_str for_io Serial.write_str] in *.
  { apply wp_ret, HQ. by apply sent_nil. }
  apply wp_bind. case_bool_decide as Hb.
  - apply wp_bind, wp_write_byte; [done|]. intros s1 Hs1. apply wp_write_byte; [exact (se_conf _ _ _ _ Hs1)|]. intros s2 Hs2.
    apply IH; [exact (se_conf _ _ _ _ Hs2)|]. intros s3 Hs3. apply HQ.
    exact (sent_trans _ _ _ _ _ _ _ Hs1 (sent_trans _ _ _ _ _ _ _ Hs2 Hs3)).
  - apply wp_write_byte; [done|]. intros s1 Hs1. apply IH; [exact (se_conf _ _ _ _ Hs1)|]. intros s2 Hs2. apply HQ.
    exact (sent_trans _ _ _ _ _ _ _ Hs1 Hs2).
Qed.

Lemma wp_port_print pieces s (Q : unit -> Io D -> Prop) : let bytes := concat (map Serial.write_str pieces) in configured (dev s) ->
  (forall s', sent s (data_writes bytes) bytes s' -> Q tt s') -> wp (port_print fuel pieces) s Q.
Proof.
  cbv zeta. revert s Q. induction pieces as [|t pieces IH]; intros s Q Hc HQ; cbn [port_print for_io map concat] in *.
  { apply wp_ret, HQ. by apply sent_nil. }
  apply wp_bind, wp_port_write_str; [done|]. intros s1 Hs1. apply IH; [exact (se_conf _ _ _ _ Hs1)|]. intros s2 Hs2. apply HQ.
  unfold data_writes. rewrite map_app. exact (sent_trans _ _ _ _ _ _ _ Hs1 Hs2).
Qed.

(** The writes of the configuration. *)
Definition init_writes : list request :=
  [Out8 0x3F9 0x00; Out8 0x3FB 0x80; Out8 0x3F8 0x03; Out8 0x3F9 0x00; Out8 0x3FB 0x03; Out8 0x3FA 0xC7; Out8 0x3FC 0x0B].

(** The configuration transmits nothing: the speed goes to the divisor latch,
    which is closed again.  It must be closed before, as after a reset, or the
    interrupts are not turned off. *)
Lemma wp_serial_init s (Q : unit -> Io D -> Prop) : Z.testbit (line_control (dev s)) 7 = false ->
  (forall s', sent s init_writes [] s' -> Q tt s') -> wp serial_init s Q.
Proof.
  intros Hdl HQ. unfold serial_init, out8. change (COM1_BASE + 1) with 0x3F9. change (COM1_BASE + 2) with 0x3FA.
  change (COM1_BASE + 3) with 0x3FB. change (COM1_BASE + 4) with 0x3FC. change COM1_BASE with 0x3F8.
  io_steps. match goal with |- Q tt ?s7 => assert (wrote s s7 init_writes) as Hw end.
  { exact (wrote_step _ _ _ _ (wrote_step _ _ _ _ (wrote_step _ _ _ _ (wrote_step _ _ _ _ (wrote_step _ _ _ _
      (wrote_step _ _ _ _ (wrote_step _ _ _ _ (wrote_refl s)))))))). }
  apply HQ. unfold io_step in *. cbn [dev st] in *.
  pose proof (out_ier (dev s) 0 ltac:(lia)) as (Hl1 & Ht1 & Hd1). rewrite Hdl in Hd1. destruct Hd1 as [_ Hi1].
  set (d1 := (respond (dev s) (Out8 0x3F9 0)).2) in *. clearbody d1.
  pose proof (out_lcr d1 0x80 ltac:(lia)) as (Hl2 & Ht2 & _ & Hi2). set (d2 := (respond d1 (Out8 0x3FB 0x80)).2) in *. clearbody d2.
  pose proof (out_data d2 3 ltac:(lia)) as (Hl3 & Hi3 & Hd3). rewrite Hl2 in Hd3. destruct Hd3 as [Hd3 Ht3].
  set (d3 := (respond d2 (Out8 0x3F8 3)).2) in *. clearbody d3.
  pose proof (out_ier d3 0 ltac:(lia)) as (Hl4 & Ht4 & Hd4). rewrite Hl3, Hl2 in Hd4. destruct Hd4 as [Hd4 Hi4].
  set (d4 := (respond d3 (Out8 0x3F9 0)).2) in *. clearbody d4.
  pose proof (out_lcr d4 3 ltac:(lia)) as (Hl5 & Ht5 & Hd5 & Hi5). set (d5 := (respond d4 (Out8 0x3FB 3)).2) in *. clearbody d5.
  pose proof (other_port d5 (Out8 0x3FA 0xC7) ltac:(eauto)) as (Hl6 & Ht6 & Hd6 & Hi6).
  set (d6 := (respond d5 (Out8 0x3FA 0xC7)).2) in *. clearbody d6.
  pose proof (other_port d6 (Out8 0x3FC 0x0B) ltac:(eauto)) as (Hl7 & Ht7 & Hd7 & Hi7).
  split; [split|cbn [dev]; rewrite app_nil_r, Ht7, Ht6, Ht5, Ht4, Ht3, Ht2; exact Ht1|done|exact Hw]; cbn [dev].
  - congruence.
  - rewrite Hd7, Hd6, Hd5, Hd4, Hd3. done.
  - congruence.
Qed.
End Port.

(** C20: from a port in its reset state, initialisation followed by any number
    of prints returns, and the port, configured for 38400 baud and eight data
    bits, has transmitted exactly the texts in order with every newline as
    carriage return and newline, however long the transmitter takes for each
    byte and although it loses a byte written while it is busy; the
    configuration itself puts nothing on the line.  What was written to ports
    is the configuration and those bytes, nothing else. *)
Theorem serial_port_refines_line {D} {fuel} `{Uart D fuel} pieces (s : Io D) :
  Z.testbit (line_control (dev s)) 7 = false ->
  wp (_ ← serial_init; port_print fuel pieces) s (fun _ s' =>
    transmitted (dev s') = fold_left Serial.print pieces (transmitted (dev s)) /\
    configured (dev s') /\ st s' = st s /\
    wrote s s' (init_writes ++ data_writes (fold_left Serial.print pieces []))).
Proof.
  intros Hdl. apply wp_bind, wp_serial_init; [done|]. intros s1 Hs1. apply wp_port_print; [exact (se_conf _ _ _ _ Hs1)|].
  intros s2 Hs2. destruct (sent_trans _ _ _ _ _ _ _ Hs1 Hs2) as [Hc Ho Hst Hw].
  assert (forall line, line ++ concat (map Serial.write_str pieces) = fold_left Serial.print pieces line) as Hfold.
  { clear. induction pieces as [|t pieces IH]; intros line; cbn [map concat fold_left]; [apply app_nil_r|].
    unfold Serial.print at 2. by rewrite <- IH, app_assoc. }
  split_and!; [|done|done|].
  - rewrite Ho. cbn [app]. apply Hfold.
  - by rewrite <- Hfold.
Qed.

(** ** Concrete inputs *)

(** A port that is busy for one poll after each byte, and then loses what is
    written to it. *)
Record port := mkPort { p_lcr : Z; p_ier : Z; p_div : Z * Z; p_busy : bool; p_out : list byte }.

#[global] Instance port_hardware : Hardware port := {
  respond d r :=
    match r with
    | In8 p => if p =? 0x3FD then (if p_busy d then 0 else 0x60,
                                   mkPort (p_lcr d) (p_ier d) (p_div d) false (p_out d))
               else (0, d)
    | Out8 p v =>
        (0, if p =? 0x3F8 then
              if Z.testbit (p_lcr d) 7 then mkPort (p_lcr d) (p_ier d) (v, (p_div d).2) (p_busy d) (p_out d)
              else mkPort (p_lcr d) (p_ier d) (p_div d) true (if p_busy d then p_out d else p_out d ++ [byte_of v])
            else if p =? 0x3F9 then
              if Z.testbit (p_lcr d) 7 then mkPort (p_lcr d) (p_ier d) ((p_div d).1, v) (p_busy d) (p_out d)
              else mkPort (p_lcr d) v (p_div d) (p_busy d) (p_out d)
            else if p =? 0x3FB then mkPort v (p_ier d) (p_div d) (p_busy d) (p_out d) else d)
    | _ => (0, d)
    end }.

#[global] Instance port_uart : Uart port 2.
Proof.
  refine {| transmitted := p_out; ready d := negb (p_busy d); divisor := p_div; line_control := p_lcr; interrupt_enable := p_ier |}.
  - intros d v Hv. cbn [respond port_hardware snd]. change (0x3F8 =? 0x3F8) with true. cbv iota.
    destruct (Z.testbit (p_lcr d) 7); [done|]. split_and!; [done..|]. by destruct (p_busy d).
  - intros d v Hv. cbn [respond port_hardware snd]. change (0x3F9 =? 0x3F8) with false. change (0x3F9 =? 0x3F9) with true. cbv iota.
    by destruct (Z.testbit (p_lcr d) 7).
  - done.
  - by intros d r [->|[[v ->]|[v ->]]].
  - done.
  - intros d. cbn [drains respond port_hardware]. change (0x3FD =? 0x3FD) with true. cbv iota.
    destruct (p_busy d); [by right; left|by left].
Defined.

Definition demo_port : Io port := mkIo (mkPort 0 0xFF (0, 0) true []) [] initial_statics.

Lemma serial_port_refines_line_witness :
  exists s', (_ ← serial_init; port_print 2 [str "a" ++ [x0a]; str "b"]) demo_port = Ret (tt, s') /\
    transmitted (dev s') = [x61; x0d; x0a; x62].
Proof.
  destruct (serial_port_refines_line (fuel := 2) [str "a" ++ [x0a]; str "b"] demo_port) as ([] & s' & Hr & Ht & _); [by vm_compute|].
  exists s'. split; [exact Hr|exact Ht].
Defined.
