(* ===== verification/Arch.v ===== *)
(** * Processor and interrupt-controller set-up

    Segment descriptors and the TSS ([kernel/src/gdt.rs]), the interrupt
    descriptor table and the interrupt controllers
    ([kernel/src/interrupts/mod.rs], [interrupts/apic.rs]), the system-call
    registers ([kernel/src/syscall/mod.rs]). *)

From S2P Require Import Prelude X86 Bus.

(** ** Segment descriptors *)

(** The descriptors of the [x86_64] crate the kernel uses, with the entries
    each takes and its privilege level. *)
Inductive Descriptor :=
| kernel_code_segment | kernel_data_segment | user_code_segment | user_data_segment | tss_segment.

Definition descriptor_entries (d : Descriptor) : Z := if d is tss_segment then 2 else 1.
Definition descriptor_dpl (d : Descriptor) : Z :=
  match d with user_code_segment | user_data_segment => 3 | _ => 0 end.

(** The crate's [GlobalDescriptorTable]: eight entries, the first one null;
    [append] puts a descriptor behind the others and returns its selector. *)
Class GdtCrate := {
  Gdt : Type;
  gdt_new : Gdt;
  gdt_len : Gdt -> Z;
  gdt_append : Gdt -> Descriptor -> outcome (Z * Gdt);
  gdt_entry : Gdt -> Z -> option Descriptor;
  gdt_new_len : gdt_len gdt_new = 1;
  gdt_append_ok : forall g d, gdt_len g + descriptor_entries d <= 8 ->
    exists g', gdt_append g d = Ret (8 * gdt_len g + descriptor_dpl d, g') /\
      gdt_len g' = gdt_len g + descriptor_entries d /\ gdt_entry g' (gdt_len g) = Some d /\
      forall i, i < gdt_len g -> gdt_entry g' i = gdt_entry g i }.

(** The descriptor that loading a selector gives, at the privilege level the
    selector asks for. *)
Definition selects `{GdtCrate} (g : Gdt) (sel : Z) (d : Descriptor) : Prop :=
  gdt_entry g (sel / 8) = Some d /\ sel mod 4 = descriptor_dpl d.

(** Entries in a list, a null word behind the descriptor of the TSS. *)
#[global] Instance list_gdt : GdtCrate.
Proof.
  refine {| Gdt := list (option Descriptor); gdt_new := [None]; gdt_len g := len g; gdt_entry g i := mjoin (zget g i);
    gdt_append g d :=
      if len g + descriptor_entries d <=? 8
      then Ret (8 * len g + descriptor_dpl d, g ++ Some d :: (if d is tss_segment then [None] else [])) else Panic |}; [done|].
  intros g d Hd. rewrite (proj2 (Z.leb_le _ _) Hd). pose proof (len_nonneg g) as Hg. eexists. split; [done|].
  split; [rewrite len_app; by destruct d|].
  assert (forall i, 0 <= i -> zget (g ++ Some d :: (if d is tss_segment then [None] else [])) i =
    if i <? len g then zget g i else zget (Some d :: (if d is tss_segment then [None] else [])) (i - len g)) as Hz.
  { intros i Hi. rewrite !zget_lookup by (try lia; case_if; lia). case_if; [apply lookup_app_l|rewrite lookup_app_r]; unfold len in *; try lia.
    rewrite zget_lookup by lia. f_equal. lia. }
  split.
  - rewrite Hz, Z.ltb_irrefl, Z.sub_diag by lia. done.
  - intros i Hi. destruct (Z.lt_ge_cases i 0) as [Hneg|Hpos]; [unfold zget; by replace (i <? 0) with true by lia|].
    by rewrite Hz, (proj2 (Z.ltb_lt _ _) Hi) by lia.
Defined.

Record Selectors := mkSelectors {
  kernel_code : Z; kernel_data : Z; user_code_32 : Z; user_code_64 : Z; user_data : Z; tss : Z }.

Section Gdt.
Context `{GdtCrate}.

(** The lazily built table and its selectors. *)
Definition GDT : outcome (Gdt * Selectors) :=
  '(kernel_code, gdt) ← gdt_append gdt_new kernel_code_segment;
  '(kernel_data, gdt) ← gdt_append gdt kernel_data_segment;
  '(user_code_32, gdt) ← gdt_append gdt user_code_segment;
  '(user_data, gdt) ← gdt_append gdt user_data_segment;
  '(user_code_64, gdt) ← gdt_append gdt user_code_segment;
  '(tss, gdt) ← gdt_append gdt tss_segment;
  Ret (gdt, mkSelectors kernel_code kernel_data user_code_32 user_code_64 user_data tss).

Lemma GDT_selectors : exists g, GDT = Ret (g, mkSelectors 0x08 0x10 0x1b 0x2b 0x23 0x30) /\ gdt_len g = 8 /\
  selects g 0x08 kernel_code_segment /\ selects g 0x10 kernel_data_segment /\ selects g 0x1b user_code_segment /\
  selects g 0x23 user_data_segment /\ selects g 0x2b user_code_segment /\ selects g 0x30 tss_segment.
Proof.
  unfold GDT. pose proof gdt_new_len as Hlen.
  destruct (gdt_append_ok gdt_new kernel_code_segment) as (g1 & -> & H1 & E1 & K1); [simpl; lia|]. cbn [mbind outcome_bind].
  destruct (gdt_append_ok g1 kernel_data_segment) as (g2 & -> & H2 & E2 & K2); [simpl in *; lia|]. cbn [mbind outcome_bind].
  destruct (gdt_append_ok g2 user_code_segment) as (g3 & -> & H3 & E3 & K3); [simpl in *; lia|]. cbn [mbind outcome_bind].
  destruct (gdt_append_ok g3 user_data_segment) as (g4 & -> & H4 & E4 & K4); [simpl in *; lia|]. cbn [mbind outcome_bind].
  destruct (gdt_append_ok g4 user_code_segment) as (g5 & -> & H5 & E5 & K5); [simpl in *; lia|]. cbn [mbind outcome_bind].
  destruct (gdt_append_ok g5 tss_segment) as (g6 & -> & H6 & E6 & K6); [simpl in *; lia|]. cbn [mbind outcome_bind].
  cbn [descriptor_entries descriptor_dpl] in *. rewrite Hlen in H1. rewrite H1 in H2. rewrite H2 in H3. rewrite H3 in H4.
  rewrite H4 in H5. rewrite H5 in H6. rewrite Hlen in *. rewrite H1 in *. rewrite H2 in *. rewrite H3 in *. rewrite H4 in *.
  rewrite H5 in *. exists g6. split; [done|]. split; [done|]. unfold selects.
  split_and!; try done.
  - rewrite K6, K5, K4, K3, K2 by (vm_compute; reflexivity). exact E1.
  - rewrite K6, K5, K4, K3 by (vm_compute; reflexivity). exact E2.
  - rewrite K6, K5, K4 by (vm_compute; reflexivity). exact E3.
  - rewrite K6, K5 by (vm_compute; reflexivity). exact E4.
  - rewrite K6 by (vm_compute; reflexivity). exact E5.
Qed.
End Gdt.

(** ** Loading them *)

Definition MSR_GS_BASE : Z := 0xC0000101.
Definition MSR_KERNEL_GS_BASE : Z := 0xC0000102.
Definition MSR_APIC_BASE : Z := 0x1B.
Definition MSR_EFER : Z := 0xC0000080.
Definition MSR_STAR : Z := 0xC0000081.
Definition MSR_LSTAR : Z := 0xC0000082.
Definition MSR_SFMASK : Z := 0xC0000084.

(** Addresses the linker chooses: [PER_CPU], the double-fault stack, the
    system-call entry point. *)
Record Linked := mkLinked { per_cpu_addr : Z; double_fault_stack : Z; syscall_entry_addr : Z }.

Definition is_port8 (r : request) : Prop := match r with In8 _ | Out8 _ _ => True | _ => False end.

(** The [pic8259] crate's [ChainedPics::disable]: it masks the legacy
    controllers and touches nothing but their ports. *)
Class LegacyPics (D : Type) `{Hardware D} := {
  pics_disable : io D unit;
  pics_disable_ok : forall s, wp pics_disable s (fun _ s' =>
    exists rs, Forall is_port8 rs /\ s' = fold_left io_step rs s) }.

Inductive Handler :=
| breakpoint_entry | double_fault_entry | page_fault_entry | gpf_entry
| timer_entry | yield_entry | keyboard_entry | syscall_entry80.

Definition PIC_1_OFFSET : Z := 32.
Definition TIMER_INTERRUPT_VECTOR : Z := 32.
Definition KEYBOARD_INTERRUPT_VECTOR : Z := 33.
Definition SYSCALL_VECTOR : Z := 0x80.
Definition YIELD_INTERRUPT_VECTOR : Z := 0x81.
Definition DOUBLE_FAULT_IST_INDEX : Z := 0.

(** Handler and interrupt-stack index of each vector of the table. *)
Definition IDT (vector : Z) : option (Handler * option Z) :=
  if vector =? 3 then Some (breakpoint_entry, None) else
  if vector =? 8 then Some (double_fault_entry, Some DOUBLE_FAULT_IST_INDEX) else
  if vector =? 14 then Some (page_fault_entry, None) else
  if vector =? 13 then Some (gpf_entry, None) else
  if vector =? TIMER_INTERRUPT_VECTOR then Some (timer_entry, None) else
  if vector =? YIELD_INTERRUPT_VECTOR then Some (yield_entry, None) else
  if vector =? KEYBOARD_INTERRUPT_VECTOR then Some (keyboard_entry, None) else
  if vector =? SYSCALL_VECTOR then Some (syscall_entry80, None) else None.

Section Init.
Context {D : Type} `{Hardware D} `{VirtAddrs} `{GdtCrate}.

(** The part of [gdt::init] every processor runs ([gdt::init_for_cpu]). *)
Definition gdt_init_for_cpu (k : Linked) : io D unit :=
  '(_, sel) ← lift GDT;
  _ ← tell LoadGdt;
  _ ← tell (SetCs (kernel_code sel));
  _ ← tell (SetDs 0);
  _ ← tell (SetEs 0);
  _ ← tell (SetSs 0);
  _ ← tell (LoadTss (tss sel));
  per_cpu_ptr ← lift (virt_addr_new (per_cpu_addr k));
  _ ← tell (WriteMsr MSR_GS_BASE per_cpu_ptr);
  tell (WriteMsr MSR_KERNEL_GS_BASE 0).

Definition gdt_init (k : Linked) : io D unit :=
  stack_start ← lift (virt_addr_new (double_fault_stack k));
  top ← lift (virt_addr_add stack_start (4096 * 2));
  _ ← update (set_ist0 top);
  gdt_init_for_cpu k.

(** [LocalApic]: registers relative to its base. *)
Definition LocalApic_read (base offset : Z) : io D Z :=
  ptr ← lift (add_u 64 base offset);
  perform (Read32 ptr).

Definition LocalApic_write (base offset value : Z) : io D unit :=
  ptr ← lift (add_u 64 base offset);
  tell (Write32 ptr value).

Definition LocalApic_initialize (base : Z) : io D unit :=
  v ← LocalApic_read base 0xF0;
  LocalApic_write base 0xF0 (Z.lor (Z.lor v 0x100) 0xFF).

Definition LocalApic_start_timer (base count : Z) : io D unit :=
  _ ← LocalApic_write base 0x3E0 0x3;
  _ ← LocalApic_write base 0x320 (Z.lor 0x20000 32);
  LocalApic_write base 0x380 count.

Definition LocalApic_signal_eoi (base : Z) : io D unit := LocalApic_write base 0xB0 0.

(** [IoApic]: the register number, then its value sixteen bytes further. *)
Definition IoApic_write (base reg value : Z) : io D unit :=
  _ ← tell (Write32 base reg);
  tell (Write32 (base + 4 * 4) value).

Definition IoApic_route_irq (base irq vector : Z) : io D unit :=
  two ← lift (mul_u 32 irq 2);
  low_reg ← lift (add_u 32 0x10 two);
  high_reg ← lift (add_u 32 low_reg 1);
  _ ← IoApic_write base low_reg vector;
  IoApic_write base high_reg 0.

Definition get_base_addr : io D Z :=
  base ← perform (ReadMsr MSR_APIC_BASE);
  _ ← (if Z.land base 0x800 =? 0 then tell (WriteMsr MSR_APIC_BASE (Z.lor base 0x800)) else mret tt);
  lift (virt_addr_new (Z.land base 0xFFFFFFFFFF000)).

Definition apic_init_for_cpu : io D unit :=
  base ← get_base_addr;
  LocalApic_initialize base.

(** [LAPIC.lock()]: the static is created on first use. *)
Definition lapic_lock : io D Z :=
  g ← statics;
  match LAPIC g with
  | Some b => mret b
  | None => b ← get_base_addr; _ ← update (set_lapic b); mret b
  end.

Definition interrupts_init `{!LegacyPics D} (phys_mem_offset : Z) : io D unit :=
  _ ← tell LoadIdt;
  _ ← pics_disable;
  lapic_phys ← get_base_addr;
  lapic_virt ← lift (virt_addr_add phys_mem_offset lapic_phys);
  _ ← lapic_lock;
  _ ← update (set_lapic lapic_virt);
  _ ← LocalApic_initialize lapic_virt;
  _ ← LocalApic_start_timer lapic_virt 0x10000;
  ioapic_virt ← lift (virt_addr_add phys_mem_offset 0xFEC00000);
  _ ← update (set_ioapic ioapic_virt);
  IoApic_route_irq ioapic_virt 1 KEYBOARD_INTERRUPT_VECTOR.

Definition syscall_init (k : Linked) : io D unit :=
  let kernel_base := 0x08 in
  let user_base := 0x1B in
  _ ← tell (WriteMsr MSR_STAR (Z.lor (Z.shiftl user_base 48) (Z.shiftl kernel_base 32)));
  entry ← lift (virt_addr_new (syscall_entry_addr k));
  _ ← tell (WriteMsr MSR_LSTAR entry);
  _ ← tell (WriteMsr MSR_SFMASK 0x200);
  efer ← perform (ReadMsr MSR_EFER);
  tell (WriteMsr MSR_EFER (Z.lor efer 1)).

(** [early_boot], step 3. *)
Definition arch_init `{!LegacyPics D} (k : Linked) (phys_mem_offset : Z) : io D unit :=
  _ ← gdt_init k;
  _ ← interrupts_init phys_mem_offset;
  syscall_init k.
End Init.

(** ** What the set-up does *)

(** The APIC base register holds what was last written to it. *)
Class ApicBase (D : Type) `{Hardware D} := {
  apic_base : D -> Z;
  apic_base_read : forall d, (respond d (ReadMsr MSR_APIC_BASE)).1 = apic_base d;
  apic_base_write : forall d v, apic_base (respond d (WriteMsr MSR_APIC_BASE v)).2 = v;
  apic_base_other : forall d r, (forall v, r <> WriteMsr MSR_APIC_BASE v) -> apic_base (respond d r).2 = apic_base d }.

Definition apic_addr (b : Z) : Z := Z.land b 0xFFFFFFFFFF000.

Lemma apic_addr_enable b : apic_addr (Z.lor b 0x800) = apic_addr b.
Proof. unfold apic_addr. by rewrite Z.land_lor_distr_l, Z.lor_0_r. Qed.

Lemma enabled_lor b : Z.land (Z.lor b 0x800) 0x800 =? 0 = false.
Proof.
  apply Z.eqb_neq. intros Hz. apply (f_equal (fun z => Z.testbit z 11)) in Hz.
  by rewrite Z.land_spec, Z.lor_spec, orb_true_r in Hz.
Qed.

(** Enabling the controller, if it is not. *)
Definition enable_writes (b : Z) : list request :=
  if Z.land b 0x800 =? 0 then [WriteMsr MSR_APIC_BASE (Z.lor b 0x800)] else [].

Section Trace.
Context {D : Type} `{Hardware D} `{!ApicBase D} `{VirtAddrs} `{GdtCrate}.

(** From [s0]: the writes made, the controller's register and the statics. *)
Record after (s0 : Io D) (l : list request) (b : Z) (g : Statics) (s : Io D) : Prop := mkAfter {
  af_wrote : wrote s0 s l; af_base : apic_base (dev s) = b; af_st : st s = g }.

Lemma after_step s0 l b g s r : after s0 l b g s -> (forall v, r <> WriteMsr MSR_APIC_BASE v) ->
  after s0 (if is_write r then l ++ [r] else l) b g (io_step s r).
Proof.
  intros [Hw Hb Hg] Hr. split; [by apply wrote_step| |done].
  cbn [io_step dev]. by rewrite apic_base_other.
Qed.

Lemma wp_tell_after r s0 l b g s (Q : unit -> Io D -> Prop) : after s0 l b g s -> is_write r = true ->
  (forall v, r <> WriteMsr MSR_APIC_BASE v) -> (forall s', after s0 (l ++ [r]) b g s' -> Q tt s') -> wp (tell r) s Q.
Proof. intros Ha Hw Hr HQ. apply wp_tell, HQ. pose proof (after_step _ _ _ _ _ r Ha Hr) as Hs. by rewrite Hw in Hs. Qed.

Lemma wp_lapic_write base offset v s0 l b g s (Q : unit -> Io D -> Prop) :
  after s0 l b g s -> base + offset < 2 ^ 64 ->
  (forall s', after s0 (l ++ [Write32 (base + offset) v]) b g s' -> Q tt s') -> wp (LocalApic_write base offset v) s Q.
Proof.
  intros Ha Hlt HQ. apply wp_bind. eapply wp_lift; [by apply add_u_Ret|]. by eapply wp_tell_after.
Qed.

Lemma wp_update_after f s0 l b g s (Q : unit -> Io D -> Prop) :
  after s0 l b g s -> (forall s', after s0 l b (f g) s' -> Q tt s') -> wp (update f) s Q.
Proof. intros [Hw Hb Hg] HQ. apply wp_update, HQ. split; [exact Hw|exact Hb|]. cbn [st]. by rewrite Hg. Qed.

Lemma wp_get_base_addr s0 l b g s (Q : Z -> Io D -> Prop) : after s0 l b g s -> canonical (apic_addr b) ->
  (forall s', after s0 (l ++ enable_writes b) (if Z.land b 0x800 =? 0 then Z.lor b 0x800 else b) g s' ->
     Q (apic_addr b) s') -> wp get_base_addr s Q.
Proof.
  intros Ha Hc HQ. pose proof Ha as [Hw Hb Hg]. apply wp_bind, wp_perform. rewrite apic_base_read, Hb.
  pose proof (after_step _ _ _ _ _ (ReadMsr MSR_APIC_BASE) Ha ltac:(done)) as Ha1. cbn [is_write] in Ha1.
  apply wp_bind. unfold enable_writes in HQ. destruct (Z.land b 0x800 =? 0).
  - apply wp_tell. eapply wp_lift; [by apply virt_addr_new_ok|]. apply HQ. destruct Ha1 as [Hw1 Hb1 Hg1].
    split; [by apply (wrote_step _ _ _ (WriteMsr _ _))| |done]. apply apic_base_write.
  - apply wp_ret. eapply wp_lift; [by apply virt_addr_new_ok|]. apply HQ. by rewrite app_nil_r.
Qed.
Lemma port8_after rs s0 l b g s : after s0 l b g s -> Forall is_port8 rs ->
  after s0 (l ++ filter (fun r => is_write r) rs) b g (fold_left io_step rs s).
Proof.
  revert l s. induction rs as [|r rs IH]; intros l s Ha Hrs; cbn [fold_left].
  { by rewrite filter_nil, app_nil_r. }
  apply Forall_cons in Hrs as [Hr Hrs].
  pose proof (after_step _ _ _ _ _ r Ha ltac:(intros v ->; exact Hr)) as Hs. specialize (IH _ _ Hs Hrs).
  destruct (is_write r) eqn:E.
  - rewrite filter_cons_True by (by rewrite E). by rewrite <- app_assoc in IH.
  - rewrite filter_cons_False by (rewrite E; intros []). done.
Qed.

Definition gdt_writes (k : Linked) : list request :=
  [LoadGdt; SetCs 0x08; SetDs 0; SetEs 0; SetSs 0; LoadTss 0x30;
   WriteMsr MSR_GS_BASE (per_cpu_addr k); WriteMsr MSR_KERNEL_GS_BASE 0].

(** The local APIC at [lapic] (whose spurious-vector register read [v]) and
    the I/O APIC at [ioapic]. *)
Definition controller_writes (lapic ioapic v : Z) : list request :=
  [Write32 (lapic + 0xF0) (Z.lor (Z.lor v 0x100) 0xFF);
   Write32 (lapic + 0x3E0) 0x3; Write32 (lapic + 0x320) 0x20020; Write32 (lapic + 0x380) 0x10000;
   Write32 ioapic 0x12; Write32 (ioapic + 16) KEYBOARD_INTERRUPT_VECTOR;
   Write32 ioapic 0x13; Write32 (ioapic + 16) 0].

Definition syscall_writes (k : Linked) (efer : Z) : list request :=
  [WriteMsr MSR_STAR 0x1B000800000000; WriteMsr MSR_LSTAR (syscall_entry_addr k);
   WriteMsr MSR_SFMASK 0x200; WriteMsr MSR_EFER (Z.lor efer 1)].

Record linked_ok (k : Linked) : Prop := mkLinkedOk {
  lk_per_cpu : canonical (per_cpu_addr k);
  lk_stack : canonical (double_fault_stack k) /\ canonical (double_fault_stack k + 8192);
  lk_entry : canonical (syscall_entry_addr k) }.

Lemma wp_gdt_init_for_cpu k s0 l b g s (Q : unit -> Io D -> Prop) : after s0 l b g s -> canonical (per_cpu_addr k) ->
  (forall s', after s0 (l ++ gdt_writes k) b g s' -> Q tt s') -> wp (gdt_init_for_cpu k) s Q.
Proof.
  intros Ha Hp HQ. unfold gdt_init_for_cpu. destruct GDT_selectors as (gdt & Hg & _).
  apply wp_bind. eapply wp_lift; [exact Hg|]. cbn [kernel_code tss].
  do 6 (apply wp_bind; eapply wp_tell_after; [eassumption|done|done|]; clear dependent s; intros s Ha).
  apply wp_bind. eapply wp_lift; [by apply virt_addr_new_ok|].
  apply wp_bind; eapply wp_tell_after; [eassumption|done|done|]; clear dependent s; intros s Ha.
  eapply wp_tell_after; [eassumption|done|done|]; clear dependent s; intros s Ha.
  apply HQ. by rewrite <- !app_assoc in Ha.
Qed.

Lemma wp_syscall_init k s0 l b g s (Q : unit -> Io D -> Prop) : after s0 l b g s -> canonical (syscall_entry_addr k) ->
  (forall efer s', after s0 (l ++ syscall_writes k efer) b g s' -> Q tt s') -> wp (syscall_init k) s Q.
Proof.
  intros Ha Hp HQ. unfold syscall_init.
  apply wp_bind; eapply wp_tell_after; [eassumption|done|done|]; clear dependent s; intros s Ha.
  apply wp_bind. eapply wp_lift; [by apply virt_addr_new_ok|].
  do 2 (apply wp_bind; eapply wp_tell_after; [eassumption|done|done|]; clear dependent s; intros s Ha).
  apply wp_bind, wp_perform. eapply (after_step _ _ _ _ _ (ReadMsr MSR_EFER)) in Ha; [|done]. cbn [is_write] in Ha.
  eapply wp_tell_after; [exact Ha|done|done|]. intros s' Ha'. rewrite <- !app_assoc in Ha'. eapply HQ. exact Ha'.
Qed.

(** The window over physical memory covers the controllers. *)
Definition controllers_mapped (off b : Z) : Prop :=
  canonical (apic_addr b) /\ 2 ^ 64 - 2 ^ 47 <= off /\ off + apic_addr b + 4096 <= 2 ^ 64 /\ off + 2 ^ 32 <= 2 ^ 64.

Lemma wp_interrupts_init `{!LegacyPics D} off s0 l b g s (Q : unit -> Io D -> Prop) : after s0 l b g s ->
  LAPIC g = None -> controllers_mapped off b ->
  (forall rs v b' s', Forall is_port8 rs ->
     after s0 (l ++ LoadIdt :: rs ++ enable_writes b ++ controller_writes (off + apic_addr b) (off + 0xFEC00000) v) b'
       (set_ioapic (off + 0xFEC00000) (set_lapic (off + apic_addr b) g)) s' -> Q tt s') ->
  wp (interrupts_init off) s Q.
Proof.
  intros Ha Hg (Hc & Hoff & Htop & Htop2) HQ. unfold interrupts_init.
  assert (0 <= apic_addr b) as Hpos by (apply Z.land_nonneg; lia).
  apply wp_bind. eapply wp_tell_after; [exact Ha|done|done|]. clear dependent s. intros s Ha.
  apply wp_bind. eapply wp_mono; [|apply pics_disable_ok]. intros [] s1 (rs & Hrs & ->).
  apply (port8_after rs) in Ha; [|done]. revert Ha. generalize (fold_left io_step rs s). clear s. intros s Ha.
  apply wp_bind. eapply wp_get_base_addr; [exact Ha|exact Hc|]. clear dependent s. intros s Ha.
  apply wp_bind. eapply wp_lift; [apply virt_addr_add_ok; unfold canonical; lia|].
  set (b1 := if Z.land b 0x800 =? 0 then Z.lor b 0x800 else b) in Ha.
  assert (canonical (apic_addr b1) /\ Z.land b1 0x800 =? 0 = false) as [Hc1 He1].
  { subst b1. destruct (Z.land b 0x800 =? 0) eqn:E; [|done]. rewrite apic_addr_enable. split; [done|apply enabled_lor]. }
  apply wp_bind. unfold lapic_lock. apply wp_bind, wp_statics. pose proof (af_st _ _ _ _ _ Ha) as ->. rewrite Hg.
  apply wp_bind. eapply wp_get_base_addr; [exact Ha|exact Hc1|]. unfold enable_writes at 2. rewrite He1, app_nil_r.
  clear dependent s. intros s Ha.
  apply wp_bind. eapply wp_update_after; [exact Ha|]. clear dependent s. intros s Ha. apply wp_ret.
  apply wp_bind. eapply wp_update_after; [exact Ha|]. clear dependent s. intros s Ha.
  apply wp_bind. unfold LocalApic_initialize, LocalApic_read. apply wp_bind, wp_bind. eapply wp_lift; [apply add_u_Ret; lia|].
  apply wp_perform. eapply (after_step _ _ _ _ _ (Read32 (off + apic_addr b + 0xF0))) in Ha; [|done]. cbn [is_write] in Ha.
  eapply wp_lapic_write; [exact Ha|lia|]. generalize (respond (dev s) (Read32 (off + apic_addr b + 0xF0))).1.
  clear dependent s. intros v s Ha.
  unfold LocalApic_start_timer. apply wp_bind.
  do 2 (apply wp_bind; eapply wp_lapic_write; [exact Ha|lia|]; clear dependent s; intros s Ha).
  eapply wp_lapic_write; [exact Ha|lia|]; clear dependent s; intros s Ha.
  apply wp_bind. eapply wp_lift; [apply virt_addr_add_ok; unfold canonical; lia|].
  apply wp_bind. eapply wp_update_after; [exact Ha|]. clear dependent s. intros s Ha.
  unfold IoApic_route_irq. do 3 (apply wp_bind; eapply wp_lift; [reflexivity|]).
  unfold IoApic_write. apply wp_bind.
  apply wp_bind; eapply wp_tell_after; [exact Ha|done|done|]; clear dependent s; intros s Ha.
  eapply wp_tell_after; [exact Ha|done|done|]; clear dependent s; intros s Ha.
  apply wp_bind; eapply wp_tell_after; [exact Ha|done|done|]; clear dependent s; intros s Ha.
  eapply wp_tell_after; [exact Ha|done|done|]; clear dependent s; intros s Ha.
  rewrite <- !app_assoc in Ha. eapply (HQ (filter (fun r => is_write r) rs)); [|exact Ha].
  rewrite Forall_forall in Hrs |- *. intros r [_ Hr]%list_elem_of_filter. by apply Hrs.
Qed.
End Trace.

(** The whole of the set-up. *)
Lemma wp_arch_init {D} `{Hardware D} `{!ApicBase D} `{!LegacyPics D} `{VirtAddrs} `{GdtCrate} k off (s : Io D) :
  let b := apic_base (dev s) in
  linked_ok k -> controllers_mapped off b -> LAPIC (st s) = None ->
  wp (arch_init k off) s (fun _ s' =>
    (exists pics v efer, Forall is_port8 pics /\
       wrote s s' (gdt_writes k ++ LoadIdt :: pics ++ enable_writes b ++
         controller_writes (off + apic_addr b) (off + 0xFEC00000) v ++ syscall_writes k efer)) /\
    st s' = set_ioapic (off + 0xFEC00000) (set_lapic (off + apic_addr b) (set_ist0 (double_fault_stack k + 8192) (st s)))).
Proof.
  intros b [Hpc [Hs1 Hs2] He] Hmap Hl. unfold arch_init, gdt_init.
  assert (after s [] b (st s) s) as Ha by (split; [apply wrote_refl|done|done]).
  apply wp_bind, wp_bind. eapply wp_lift; [by apply virt_addr_new_ok|].
  apply wp_bind. eapply wp_lift; [by apply virt_addr_add_ok|].
  apply wp_bind. eapply wp_update_after; [exact Ha|]. intros s1 Ha1.
  eapply wp_gdt_init_for_cpu; [exact Ha1|done|]. intros s2 Ha2.
  apply wp_bind. eapply wp_interrupts_init; [exact Ha2|exact Hl|exact Hmap|]. intros rs v b' s3 Hrs Ha3.
  eapply wp_syscall_init; [exact Ha3|done|]. intros efer s4 [Hw4 _ Hg4].
  split; [|exact Hg4]. exists rs, v, efer. split; [done|].
  cbn [app] in Hw4. rewrite <- !app_assoc in Hw4. cbn [app] in Hw4. by rewrite <- !app_assoc in Hw4.
Qed.

(** *** The state the accesses leave *)

(** What was written last to a register. *)
Definition last_of (f : request -> option Z) (l : list request) : option Z := last (omap f l).

Definition msr_write (r : Z) (q : request) : option Z :=
  match q with WriteMsr r' v => if r' =? r then Some v else None | _ => None end.
Definition mmio_write (a : Z) (q : request) : option Z :=
  match q with Write32 a' v => if a' =? a then Some v else None | _ => None end.
Definition cs_load (q : request) : option Z := match q with SetCs sel => Some sel | _ => None end.
Definition tr_load (q : request) : option Z := match q with LoadTss sel => Some sel | _ => None end.

(** The registers behind the index and data words of an I/O APIC. *)
Definition ioapic_step (base : Z) (regs : Z * (Z -> option Z)) (q : request) : Z * (Z -> option Z) :=
  match q with
  | Write32 a v =>
      if a =? base then (v, regs.2)
      else if a =? base + 16 then (regs.1, fun r => if r =? regs.1 then Some v else regs.2 r) else regs
  | _ => regs
  end.
Definition ioapic_regs (base : Z) (l : list request) : Z -> option Z := (fold_left (ioapic_step base) l (0, fun _ => None)).2.

(** [SYSCALL] loads CS from bits 32 to 47 of STAR and SS from the entry behind
    it; [SYSRET] to 64-bit code loads SS from the entry behind the selector in
    bits 48 to 63 and CS from the one behind that. *)
Record syscall_layout `{GdtCrate} (g : Gdt) (star : Z) : Prop := mkSyscallLayout {
  syscall_cs : selects g (star / 2 ^ 32 mod 2 ^ 16) kernel_code_segment;
  syscall_ss : selects g (star / 2 ^ 32 mod 2 ^ 16 + 8) kernel_data_segment;
  sysret_ss : selects g (star / 2 ^ 48 mod 2 ^ 16 + 8) user_data_segment;
  sysret_cs : selects g (star / 2 ^ 48 mod 2 ^ 16 + 16) user_code_segment }.

Lemma last_of_app f l1 l2 : last_of f (l1 ++ l2) = match last_of f l2 with Some v => Some v | None => last_of f l1 end.
Proof. unfold last_of. rewrite omap_app, last_app. by destruct (last (omap f l2)). Qed.

Lemma last_of_port8 f l : (forall q, is_port8 q -> f q = None) -> Forall is_port8 l -> last_of f l = None.
Proof.
  intros Hf. unfold last_of. induction 1 as [|q l Hq _ IH]; [done|]. cbn [omap list_omap]. by rewrite Hf.
Qed.

Lemma apic_addr_aligned b : exists q, apic_addr b = 4096 * q.
Proof.
  exists (apic_addr b / 4096). pose proof (Z.div_mod (apic_addr b) 4096 ltac:(lia)) as Hd.
  replace (apic_addr b mod 4096) with 0 in Hd; [lia|]. unfold apic_addr.
  change 4096 with (2 ^ 12). rewrite <- Z.land_ones, <- Z.land_assoc by lia. by rewrite Z.land_0_r.
Qed.

(** The last write to one of the local APIC's registers. *)
Ltac solve_lapic Hne :=
  unfold last_of, controller_writes; cbn [omap list_omap mmio_write];
  rewrite ?Z.eqb_refl; repeat rewrite (proj2 (Z.eqb_neq _ _)) by lia; reflexivity.

Section Programmed.
Context (k : Linked) (pics : list request) (b lapic ioapic v efer : Z).
Hypothesis Hpics : Forall is_port8 pics.

(** The writes of [arch_init]. *)
Definition arch_writes : list request :=
  gdt_writes k ++ LoadIdt :: pics ++ enable_writes b ++ controller_writes lapic ioapic v ++ syscall_writes k efer.

Lemma arch_last f : (forall q, is_port8 q -> f q = None) ->
  last_of f arch_writes = match last_of f (syscall_writes k efer) with Some v => Some v | None =>
    match last_of f (controller_writes lapic ioapic v) with Some v => Some v | None =>
    match last_of f (enable_writes b) with Some v => Some v | None => last_of f (gdt_writes k ++ [LoadIdt]) end end end.
Proof.
  intros Hf. unfold arch_writes. change (LoadIdt :: ?l) with ([LoadIdt] ++ l). rewrite app_assoc, !last_of_app.
  rewrite (last_of_port8 f pics) by done. by destruct (last_of f (syscall_writes k efer)), (last_of f (controller_writes lapic ioapic v)),
    (last_of f (enable_writes b)).
Qed.

Lemma arch_msr r x : last_of (msr_write r) (syscall_writes k efer) = Some x -> last_of (msr_write r) arch_writes = Some x.
Proof. intros Hx. rewrite arch_last by (by intros []). by rewrite Hx. Qed.

Lemma arch_gs r : r <> MSR_APIC_BASE -> last_of (msr_write r) (syscall_writes k efer) = None ->
  last_of (msr_write r) arch_writes = last_of (msr_write r) (gdt_writes k).
Proof.
  intros Hr Hx. rewrite arch_last by (by intros []). rewrite Hx. change (last_of (msr_write r) (controller_writes lapic ioapic v)) with (@None Z).
  assert (last_of (msr_write r) (enable_writes b) = None) as ->.
  { unfold enable_writes. case_if; [|done]. unfold last_of. cbn [omap list_omap msr_write].
    by rewrite (proj2 (Z.eqb_neq _ _)). }
  rewrite last_of_app. done.
Qed.

Lemma arch_segment f x : (forall q, is_port8 q -> f q = None) -> (forall q, q ∈ syscall_writes k efer -> f q = None) ->
  (forall a w, f (Write32 a w) = None) -> (forall w, f (WriteMsr MSR_APIC_BASE w) = None) ->
  last_of f (gdt_writes k ++ [LoadIdt]) = x -> last_of f arch_writes = x.
Proof.
  intros Hp Hs Hw Hm Hx. rewrite arch_last by done.
  assert (last_of f (syscall_writes k efer) = None) as ->.
  { unfold last_of, syscall_writes in *. cbn [omap list_omap]. by rewrite !Hs by set_solver. }
  assert (last_of f (controller_writes lapic ioapic v) = None) as ->.
  { unfold last_of, controller_writes. cbn [omap list_omap]. by rewrite !Hw. }
  assert (last_of f (enable_writes b) = None) as ->; [|done].
  unfold enable_writes. case_if; [|done]. unfold last_of. cbn [omap list_omap]. by rewrite Hm.
Qed.

Lemma arch_lapic o x : last_of (mmio_write (lapic + o)) (controller_writes lapic ioapic v) = Some x ->
  last_of (mmio_write (lapic + o)) arch_writes = Some x.
Proof. intros Hx. rewrite arch_last by (by intros []). change (last_of _ (syscall_writes k efer)) with (@None Z). by rewrite Hx. Qed.

Lemma arch_ioapic : ioapic_regs ioapic arch_writes 0x12 = Some KEYBOARD_INTERRUPT_VECTOR /\ ioapic_regs ioapic arch_writes 0x13 = Some 0.
Proof.
  unfold ioapic_regs, arch_writes. change (controller_writes lapic ioapic v) with
    (take 4 (controller_writes lapic ioapic v) ++ drop 4 (controller_writes lapic ioapic v)).
  rewrite <- app_assoc. change (LoadIdt :: ?l) with ([LoadIdt] ++ l). rewrite !fold_left_app.
  set (st0 := fold_left (ioapic_step ioapic) (take 4 _) _). cbn [drop controller_writes fold_left syscall_writes ioapic_step].
  rewrite !Z.eqb_refl. replace (ioapic + 16 =? ioapic) with false by lia. done.
Qed.
End Programmed.

(** C38: bringing up the processor never panics, and afterwards: CS selects
    the kernel's code segment and the task register the TSS, in a descriptor
    table in which STAR makes SYSCALL enter kernel code and data and makes
    SYSRET return to the user's code and data segments at ring 3 (selectors
    0x2b and 0x23, which the saved frames use); SYSCALL enters
    [syscall_entry] with interrupts off; GS is the per-CPU block; double
    faults have a stack of their own.  The local APIC is enabled, its timer
    runs periodically and unmasked at the vector whose handler is the
    timer's, and the keyboard line is routed, unmasked, to the vector of the
    keyboard's handler; the interrupt table was loaded before the first access
    to either controller. *)
Theorem arch_init_programs {D} `{Hardware D} `{!ApicBase D} `{!LegacyPics D} `{VirtAddrs} `{GdtCrate} k off (s : Io D) :
  let b := apic_base (dev s) in
  linked_ok k -> controllers_mapped off b -> LAPIC (st s) = None ->
  wp (arch_init k off) s (fun _ s' => exists l g sel,
    wrote s s' l /\ GDT = Ret (g, sel) /\
    (exists cs tr, last_of cs_load l = Some cs /\ selects g cs kernel_code_segment /\
       last_of tr_load l = Some tr /\ selects g tr tss_segment) /\
    (exists star, last_of (msr_write MSR_STAR) l = Some star /\ syscall_layout g star /\
       star / 2 ^ 48 mod 2 ^ 16 + 16 = 0x2b /\ star / 2 ^ 48 mod 2 ^ 16 + 8 = 0x23) /\
    last_of (msr_write MSR_LSTAR) l = Some (syscall_entry_addr k) /\
    (exists mask, last_of (msr_write MSR_SFMASK) l = Some mask /\ Z.testbit mask 9 = true) /\
    (exists efer, last_of (msr_write MSR_EFER) l = Some efer /\ Z.testbit efer 0 = true) /\
    last_of (msr_write MSR_GS_BASE) l = Some (per_cpu_addr k) /\ last_of (msr_write MSR_KERNEL_GS_BASE) l = Some 0 /\
    IDT 8 = Some (double_fault_entry, Some 0) /\ TSS_IST0 (st s') = double_fault_stack k + 8192 /\
    (exists lapic, LAPIC (st s') = Some lapic /\ lapic = off + apic_addr b /\
       (exists v, last_of (mmio_write (lapic + 0xF0)) l = Some v /\ Z.testbit v 8 = true) /\
       (exists t, last_of (mmio_write (lapic + 0x320)) l = Some t /\ Z.testbit t 17 = true /\ Z.testbit t 16 = false /\
          IDT (t mod 2 ^ 8) = Some (timer_entry, None)) /\
       exists count, last_of (mmio_write (lapic + 0x380)) l = Some count /\ 0 < count) /\
    (exists ioapic low, IOAPIC (st s') = Some ioapic /\ ioapic = off + 0xFEC00000 /\
       ioapic_regs ioapic l 0x12 = Some low /\ Z.testbit low 16 = false /\ IDT (low mod 2 ^ 8) = Some (keyboard_entry, None) /\
       ioapic_regs ioapic l 0x13 = Some 0) /\
    exists l1 l2, l = l1 ++ LoadIdt :: l2 /\ Forall (fun q => forall a, mmio_write a q = None) l1).
Proof.
  intros b Hk Hmap Hl. eapply wp_mono; [|by apply wp_arch_init].
  intros _ s' [(pics & v & efer & Hp & Hw) Hst]. fold b in Hw, Hst. set (lapic := off + apic_addr b) in *. set (ioapic := off + 0xFEC00000) in *.
  destruct GDT_selectors as (g & Hg & _ & S1 & S2 & S3 & S4 & S5 & S6).
  exists (arch_writes k pics b lapic ioapic v efer), g, (mkSelectors 0x08 0x10 0x1b 0x2b 0x23 0x30).
  assert (lapic + 0xF0 <> ioapic /\ lapic + 0xF0 <> ioapic + 16 /\ lapic + 0x320 <> ioapic /\ lapic + 0x320 <> ioapic + 16 /\
    lapic + 0x380 <> ioapic /\ lapic + 0x380 <> ioapic + 16) as Hne.
  { destruct (apic_addr_aligned b) as [q Hq]. unfold lapic, ioapic. rewrite Hq. lia. }
  split; [exact Hw|]. split; [exact Hg|]. split_and!.
  - exists 0x08, 0x30. split; [by apply arch_segment; [done|by intros []|set_solver|..]|]. split; [done|].
    split; [by apply arch_segment; [done|by intros []|set_solver|..]|done].
  - exists 0x1B000800000000. split; [by apply arch_msr|]. split; [by split|done].
  - by apply arch_msr.
  - eexists. split; [by apply arch_msr|done].
  - eexists. split; [by apply arch_msr|]. by rewrite Z.lor_spec, orb_true_r.
  - by rewrite arch_gs.
  - by rewrite arch_gs.
  - done.
  - by rewrite Hst.
  - exists lapic. rewrite Hst. split; [done|]. split; [done|].
    split; [eexists; split; [apply arch_lapic; [done|]; solve_lapic Hne|by rewrite !Z.lor_spec, orb_true_r]|].
    split; eexists; (split; [apply arch_lapic; [done|]; solve_lapic Hne|done]).
  - exists ioapic, KEYBOARD_INTERRUPT_VECTOR. rewrite Hst. destruct (arch_ioapic k pics b lapic ioapic v efer) as [Hlo Hhi].
    by split_and!.
  - exists (gdt_writes k). eexists. split; [reflexivity|]. repeat (apply Forall_cons; split; [done|]). by apply Forall_nil.
Qed.

(** ** Concrete inputs *)

#[global] Instance bench_apic : ApicBase bench.
Proof.
  refine {| apic_base d := msrs d MSR_APIC_BASE |}; [done|done|].
  intros d r Hr. destruct r as [p|p v|p|p v|a|a v|a|a v| | | |a|a|a|a|a]; try done.
  - cbn [respond snd bench_hardware]. by case_if.
  - cbn [respond snd bench_hardware msrs]. unfold bench_put. destruct (Z.eqb_spec MSR_APIC_BASE a) as [E|]; [|done].
    subst a. by destruct (Hr v).
Defined.

#[global] Instance bench_pics : LegacyPics bench.
Proof.
  refine {| pics_disable := _ ← tell (Out8 0x21 0xff); tell (Out8 0xA1 0xff) |}.
  intros s. apply wp_bind, wp_tell, wp_tell. exists [Out8 0x21 0xff; Out8 0xA1 0xff]. split; [|done].
  repeat (apply Forall_cons; split; [exact I|]). by apply Forall_nil.
Defined.

Definition demo_bench : bench :=
  mkBench (fun _ => 0) (fun r => if r =? MSR_APIC_BASE then 0xFEE00100 else 0) 0 (fun _ => 0xFFFFFFFF).
Definition demo_io : Io bench := mkIo demo_bench [] initial_statics.
Definition demo_linked : Linked := mkLinked 0xffffffff80100000 0xffffffff80102000 0xffffffff80003000.

Lemma arch_init_programs_witness :
  exists s' star, arch_init demo_linked 0xffff800000000000 demo_io = Ret (tt, s') /\
    LAPIC (st s') = Some 0xffff8000fee00000 /\ last_of (msr_write MSR_STAR) (writes (log s')) = Some star.
Proof.
  destruct (arch_init_programs demo_linked 0xffff800000000000 demo_io)
    as (a & s' & Hr & l & g & sel & Hw & _ & _ & (star & Hstar & _) & _ & _ & _ & _ & _ & _ & _ & (lapic & Hl & -> & _) & _);
    [split; unfold canonical, demo_linked; simpl; lia|unfold controllers_mapped, canonical; vm_compute; intuition congruence
    |reflexivity|]. destruct a. exists s', star. split; [exact Hr|]. split; [exact Hl|].
  unfold wrote in Hw. change (writes (log demo_io)) with (@nil request) in Hw. by rewrite Hw.
Defined.
