(* ===== verification/Drivers.v ===== *)
(** * PCI enumeration and the AHCI driver

    [kernel/src/drivers/pci.rs] and [drivers/ahci.rs]: configuration-space
    reads, the scan of all buses, and the set-up of the SATA controllers it
    finds.  Lines of the serial log are left out. *)

From S2P Require Import Prelude Utf8 X86 Bus.

(** ** Layout of the register blocks *)

(** Fields of a [repr(C)] struct of 32-bit words, with their words. *)
Abbreviation layout := (list (list byte * Z)).

Definition Ghc : layout :=
  [(str "cap", 1); (str "ghc", 1); (str "is", 1); (str "pi", 1); (str "vs", 1); (str "ccc_ctl", 1);
   (str "ccc_ports", 1); (str "_reserved", 12); (str "cap2", 1); (str "bohc", 1)].

Definition PortRegs : layout :=
  [(str "clb", 1); (str "clbu", 1); (str "fb", 1); (str "fbu", 1); (str "is", 1); (str "ie", 1); (str "cmd", 1);
   (str "_reserved", 1); (str "tfd", 1); (str "sig", 1); (str "ssts", 1); (str "sctl", 1); (str "err", 1);
   (str "ci", 1); (str "sact", 1)].

Fixpoint offset_of (l : layout) (field : list byte) : Z :=
  match l with
  | [] => 0
  | (name, n) :: l' => if bool_decide (name = field) then 0 else 4 * n + offset_of l' field
  end.

Definition size_of_layout (l : layout) : Z := foldr (fun f n => 4 * f.2 + n) 0 l.

Section Drivers.
Context {D : Type} `{Hardware D} `{VirtAddrs} (fuel : nat).

(** ** AHCI *)

Definition ghc_reg (abar : Z) (field : list byte) : Z := abar + offset_of Ghc field.

(** [self.ports\[n\].field], an array of [PortRegs]. *)
Definition port_reg (base n : Z) (field : list byte) : Z := base + size_of_layout PortRegs * n + offset_of PortRegs field.

(** [reg |= mask], [reg &= !mask]. *)
Definition set_bits (a mask : Z) : io D unit := v ← perform (Read32 a); tell (Write32 a (Z.lor v mask)).
Definition clear_bits (a mask : Z) : io D unit := v ← perform (Read32 a); tell (Write32 a (Z.land v (not_u 32 mask))).

Definition ahci_init (abar : Z) : io D (option AhciController) :=
  _ ← perform (Read32 (ghc_reg abar (str "vs")));
  _ ← perform (Read32 (ghc_reg abar (str "vs")));
  _ ← set_bits (ghc_reg abar (str "ghc")) 0x80000000;
  _ ← perform (Read32 (ghc_reg abar (str "pi")));
  ports_base ← lift (virt_addr_add abar 0x100);
  mret (Some (mkAhci abar ports_base)).

Definition init_port (c : AhciController) (port_num : Z) : io D unit :=
  let cmd := port_reg (ports_base c) port_num (str "cmd") in
  _ ← clear_bits cmd 0x1;
  _ ← spin_while_set fuel cmd 0x1;
  _ ← clear_bits cmd 0x10;
  _ ← spin_while_set fuel cmd 0x10;
  _ ← set_bits cmd 0x10;
  set_bits cmd 0x1.

(** One turn of the loop of [probe_ports]; only a SATA signature has an
    effect besides the log. *)
Definition probe_port (c : AhciController) (ports_impl port_num : Z) : io D unit :=
  if Z.land (Z.shiftr ports_impl port_num) 1 =? 0 then mret tt else
  sig ← perform (Read32 (port_reg (ports_base c) port_num (str "sig")));
  if sig =? 0x101 then init_port c port_num else mret tt.

Definition probe_ports (c : AhciController) : io D unit :=
  ports_impl ← perform (Read32 (ghc_reg (abar c) (str "pi")));
  for_io (probe_port c ports_impl) (seqZ 0 32).

Definition init_from_pci (bar5_addr phys_mem_offset : Z) : io D bool :=
  if bar5_addr =? 0 then mret false else
  abar ← lift (virt_addr_add phys_mem_offset bar5_addr);
  controller ← ahci_init abar;
  match controller with
  | None => mret false
  | Some c =>
      _ ← update (set_ahci c);
      g ← statics;
      _ ← match AHCI_CONTROLLER g with Some ctrl => probe_ports ctrl | None => mret tt end;
      mret true
  end.

(** The block read other code may ask for. *)
Definition ahci_read_blocks (device lba count : Z) (buffer : list byte) : bool * list byte := (false, buffer).

(** ** PCI *)

Definition CONFIG_ADDRESS : Z := 0xCF8.
Definition CONFIG_DATA : Z := 0xCFC.

Definition pci_config_read_word (bus slot func offset : Z) : io D Z :=
  let address := Z.lor (Z.lor (Z.lor (Z.lor (Z.shiftl bus 16) (Z.shiftl slot 11)) (Z.shiftl func 8))
                   (Z.land offset 0xFC)) 0x80000000 in
  _ ← tell (Out32 CONFIG_ADDRESS address);
  v ← perform (In32 CONFIG_DATA);
  mret (Z.land (Z.shiftr v (Z.land offset 2 * 8)) 0xFFFF).

Definition get_vendor_id (bus slot func : Z) : io D Z := pci_config_read_word bus slot func 0.
Definition get_device_id (bus slot func : Z) : io D Z := pci_config_read_word bus slot func 2.
Definition get_class_code (bus slot func : Z) : io D Z :=
  w ← pci_config_read_word bus slot func 0x0A; mret (Z.shiftr w 8 mod 2 ^ 8).
Definition get_subclass (bus slot func : Z) : io D Z :=
  w ← pci_config_read_word bus slot func 0x0A; mret (Z.land w 0xFF).
Definition get_bar5 (bus slot func : Z) : io D Z :=
  bar5_low ← pci_config_read_word bus slot func 0x24;
  bar5_high ← pci_config_read_word bus slot func 0x26;
  mret (Z.land (Z.lor (Z.shiftl bar5_high 16) bar5_low) 0xFFFFFFF0).

Definition probe_slot (phys_mem_offset bus slot : Z) : io D unit :=
  vendor ← get_vendor_id bus slot 0;
  if vendor =? 0xFFFF then mret tt else
  _ ← get_device_id bus slot 0;
  class ← get_class_code bus slot 0;
  subclass ← get_subclass bus slot 0;
  if (class =? 0x01) && (subclass =? 0x06) then
    bar5 ← get_bar5 bus slot 0;
    _ ← init_from_pci bar5 phys_mem_offset;
    mret tt
  else mret tt.

Definition enumerate_pci (phys_mem_offset : Z) : io D unit :=
  for_io (fun bus => for_io (probe_slot phys_mem_offset bus) (seqZ 0 32)) (seqZ 0 256).

Definition pci_init (phys_mem_offset : Z) : io D unit := enumerate_pci phys_mem_offset.
End Drivers.

(** ** The hardware the drivers rely on *)

(** A PCI host bridge (configuration mechanism 1): a write to 0xCF8 selects
    the word that 0xCFC then shows; nothing but a write to 0xCFC changes the
    configuration space. *)
Class PciHost (D : Type) `{Hardware D} := {
  selected : D -> Z;
  config : D -> Z -> Z;
  config_u32 : forall d a, in_u32 (config d a);
  pci_select : forall d a, selected (respond d (Out32 0xCF8 a)).2 = a;
  pci_data : forall d, (respond d (In32 0xCFC)).1 = config d (selected d);
  pci_keeps : forall d r a, (forall v, r <> Out32 0xCFC v) -> config (respond d r).2 a = config d a }.

(** *** SATA controllers in a configuration space *)

Definition cw (C : Z -> Z) (bus slot reg : Z) : Z := C (2 ^ 31 + bus * 2 ^ 16 + slot * 2 ^ 11 + reg).

(** The register base of a SATA controller at function 0 of a slot. *)
Definition sata_bar (C : Z -> Z) (bs : Z * Z) : option Z :=
  let '(bus, slot) := bs in
  if cw C bus slot 0 mod 2 ^ 16 =? 0xFFFF then None else
  if (cw C bus slot 8 / 2 ^ 24 =? 0x01) && (cw C bus slot 8 / 2 ^ 16 mod 2 ^ 8 =? 0x06) then
    let bar := Z.land (cw C bus slot 0x24) 0xFFFFFFF0 in if bar =? 0 then None else Some bar
  else None.

Definition bars (C : Z -> Z) (slots : list (Z * Z)) : list Z := omap (sata_bar C) slots.

(** Every bus and slot, in the order of the scan. *)
Definition slots_of (buses : list Z) : list (Z * Z) := concat (map (fun bus => map (pair bus) (seqZ 0 32)) buses).
Definition all_slots : list (Z * Z) := slots_of (seqZ 0 256).

Lemma all_slots_elem bus slot : 0 <= bus < 256 -> 0 <= slot < 32 -> (bus, slot) ∈ all_slots.
Proof.
  intros Hb Hs. apply list_elem_of_In, in_concat. exists (map (pair bus) (seqZ 0 32)).
  split; [apply (in_map (fun bus => map (pair bus) (seqZ 0 32)))|apply in_map]; apply list_elem_of_In, elem_of_seqZ; lia.
Qed.

Lemma bars_ext C C' l : (forall a, C a = C' a) -> bars C l = bars C' l.
Proof.
  intros HC. unfold bars. assert (forall bs, sata_bar C bs = sata_bar C' bs) as Hs.
  { intros [bus slot]. unfold sata_bar, cw. by rewrite !HC. }
  induction l as [|x l IH]; [done|]. cbn [omap list_omap]. by rewrite Hs, IH.
Qed.

(** The command register the driver uses for port [n] of the controller whose
    registers are at [abar]. *)
Definition command_register (abar n : Z) : Z := abar + 0x100 + 60 * n + 0x18.

(** Once [ST] or [FRE] was cleared in the command register of a port of a SATA
    controller, it shows the bit as clear within [fuel] reads. *)
Class Settles (D : Type) `{PciHost D} (fuel : nat) (off : Z) := {
  settles : forall d bar n v mask, bar ∈ bars (config d) all_slots -> 0 <= n < 32 -> mask = 0x1 \/ mask = 0x10 ->
    Z.land v mask = 0 -> clears fuel (respond d (Write32 (command_register (off + bar) n) v)).2 (command_register (off + bar) n) mask }.

(** *** What bringing up a controller looks like on the bus

    Reads with their answers, and writes, of memory-mapped registers. *)
Inductive act := Rd (a v : Z) | Wr (a v : Z).

Definition act_of (e : event) : option act :=
  match e.1 with Read32 a => Some (Rd a e.2) | Write32 a v => Some (Wr a v) | _ => None end.

Definition mmio_acts (l : list event) : list act := omap act_of l.

(** Reads of [a] up to the first that shows the bits of [mask] clear. *)
Inductive polled (a mask : Z) : list act -> Prop :=
| polled_clear v : Z.land v mask = 0 -> polled a mask [Rd a v]
| polled_again v t : Z.land v mask <> 0 -> polled a mask t -> polled a mask (Rd a v :: t).

(** [ST] is cleared and seen clear, then [FRE]; then [FRE] is set, then [ST]. *)
Definition port_started (cmd : Z) (t : list act) : Prop :=
  exists v1 p1 v2 p2 v3 v4, polled cmd 0x1 p1 /\ polled cmd 0x10 p2 /\
    t = Rd cmd v1 :: Wr cmd (Z.land v1 (not_u 32 0x1)) :: p1 ++
        Rd cmd v2 :: Wr cmd (Z.land v2 (not_u 32 0x10)) :: p2 ++
        [Rd cmd v3; Wr cmd (Z.lor v3 0x10); Rd cmd v4; Wr cmd (Z.lor v4 0x1)].

(** A port that is implemented is asked for its signature, and started when it
    is that of a SATA device. *)
Definition port_probed (abar impl n : Z) (t : list act) : Prop :=
  if Z.testbit impl n then
    exists sig rest, t = Rd (abar + 0x100 + 60 * n + 0x24) sig :: rest /\
      if sig =? 0x101 then port_started (command_register abar n) rest else rest = []
  else t = [].

(** The controller at [abar] is switched to AHCI mode, and its 32 ports are
    probed in order. *)
Definition brought_up (abar : Z) (t : list act) : Prop :=
  exists v1 v2 v p impl ports, Forall2 (port_probed abar impl) (seqZ 0 32) ports /\
    t = Rd (abar + 0x10) v1 :: Rd (abar + 0x10) v2 :: Rd (abar + 4) v :: Wr (abar + 4) (Z.lor v (2 ^ 31)) ::
        Rd (abar + 0xC) p :: Rd (abar + 0xC) impl :: concat ports.

(** The configuration word at byte [reg] (a multiple of four) of a function. *)
Definition config_word {D} `{PciHost D} (d : D) (bus slot func reg : Z) : Z :=
  config d (2 ^ 31 + bus * 2 ^ 16 + slot * 2 ^ 11 + func * 2 ^ 8 + reg).

(** ** Configuration reads *)

Lemma lor_low b n a : 0 <= n -> 0 <= a < 2 ^ n -> Z.lor (Z.shiftl b n) a = b * 2 ^ n + a.
Proof.
  intros Hn Ha. rewrite <- Z.shiftl_mul_pow2 by done. symmetry. apply Z.add_nocarry_lor.
  apply Z.bits_inj'. intros i Hi. rewrite Z.land_spec, Z.bits_0, Z.shiftl_spec by done.
  destruct (Z.lt_ge_cases i n) as [Hlt|Hge]; [by rewrite Z.testbit_neg_r by lia|].
  destruct (Z.eq_dec a 0) as [->|]; [by rewrite Z.bits_0, andb_false_r|].
  rewrite (Z.bits_above_log2 a i), andb_false_r; [done|lia|]. apply Z.log2_lt_pow2; [lia|].
  eapply Z.lt_le_trans; [apply Ha|apply Z.pow_le_mono_r; lia].
Qed.

Lemma config_address bus slot func reg :
  0 <= bus < 2 ^ 8 -> 0 <= slot < 2 ^ 5 -> 0 <= func < 2 ^ 3 -> 0 <= reg < 2 ^ 8 ->
  Z.lor (Z.lor (Z.lor (Z.lor (Z.shiftl bus 16) (Z.shiftl slot 11)) (Z.shiftl func 8)) reg) 0x80000000 =
  2 ^ 31 + bus * 2 ^ 16 + slot * 2 ^ 11 + func * 2 ^ 8 + reg.
Proof.
  intros Hb Hs Hf Hr. rewrite <- !Z.lor_assoc, (Z.lor_comm reg). rewrite (Z.lor_assoc (Z.shiftl func 8)), (Z.lor_comm (Z.shiftl func 8)).
  rewrite <- Z.lor_assoc, (lor_low func 8) by lia. change 0x80000000 with (Z.shiftl 1 31).
  rewrite (Z.lor_assoc (Z.shiftl slot 11)), (Z.lor_comm (Z.shiftl slot 11)), <- Z.lor_assoc.
  rewrite (lor_low slot 11) by lia.
  rewrite (Z.lor_assoc (Z.shiftl bus 16)), (Z.lor_comm (Z.shiftl bus 16)), <- Z.lor_assoc.
  rewrite (lor_low bus 16), (lor_low 1 31) by lia. lia.
Qed.

Section Scan.
Context {D : Type} `{Hardware D} `{!PciHost D} `{VirtAddrs}.

Definition pinned (C : Z -> Z) (d : D) : Prop := forall a, config d a = C a.

(** A memory-mapped register, or a read of the configuration space. *)
Definition bus_request (r : request) : Prop :=
  match r with Read32 _ | Write32 _ _ => True | Out32 p _ => p = 0xCF8 | In32 p => p = 0xCFC | _ => False end.

(** From [s] to [s']: the registers were accessed as [t] says, otherwise only
    the configuration space was read, and it stays as it is. *)
Record effect (C : Z -> Z) (t : list act) (s s' : Io D) : Prop := mkEffect {
  ef_log : exists l, log s' = log s ++ l /\ mmio_acts l = t /\ Forall (fun e => bus_request e.1) l;
  ef_pinned : pinned C (dev s) -> pinned C (dev s') }.

Lemma effect_refl C s : effect C [] s s.
Proof. split; [|done]. exists []. by rewrite app_nil_r. Qed.

Lemma effect_trans C t1 t2 s1 s2 s3 : effect C t1 s1 s2 -> effect C t2 s2 s3 -> effect C (t1 ++ t2) s1 s3.
Proof.
  intros [(l1 & Hw1 & Ht1 & Hl1) Hp1] [(l2 & Hw2 & Ht2 & Hl2) Hp2]. split; [|auto]. exists (l1 ++ l2).
  rewrite Hw2, Hw1, app_assoc. split; [done|]. split; [|by apply Forall_app].
  unfold mmio_acts in *. by rewrite omap_app, Ht1, Ht2.
Qed.

Lemma effect_step C s r t : bus_request r -> mmio_acts [(r, (respond (dev s) r).1)] = t -> effect C t s (io_step s r).
Proof.
  intros Hr Ht. split.
  - exists [(r, (respond (dev s) r).1)]. rewrite log_step. split; [done|]. split; [done|]. by apply Forall_singleton.
  - intros Hs x. cbn [io_step dev]. rewrite pci_keeps; [apply Hs|]. intros v ->. discriminate Hr.
Qed.

Lemma effect_read C s a : effect C [Rd a (respond (dev s) (Read32 a)).1] s (io_step s (Read32 a)).
Proof. by apply effect_step. Qed.

Lemma effect_write C s a v : effect C [Wr a v] s (io_step s (Write32 a v)).
Proof. by apply effect_step. Qed.

Lemma effect_st C t s0 s g : effect C t s0 s -> effect C t s0 (mkIo (dev s) (newest s) g).
Proof. by intros [Hw Hp]. Qed.

Lemma effect_st_l C t s0 s g : effect C t (mkIo (dev s0) (newest s0) g) s -> effect C t s0 s.
Proof. by intros [Hw Hp]. Qed.

(** Reads of the configuration space. *)
Lemma wp_config_word C bus slot offset reg sh s (Q : Z -> Io D -> Prop) :
  pinned C (dev s) -> 0 <= bus < 256 -> 0 <= slot < 32 -> 0 <= reg < 256 ->
  Z.land offset 0xFC = reg -> Z.land offset 2 * 8 = sh -> 0 <= sh ->
  (forall s', effect C [] s s' -> st s' = st s ->
     Q (C (2 ^ 31 + bus * 2 ^ 16 + slot * 2 ^ 11 + reg) / 2 ^ sh mod 2 ^ 16) s') ->
  wp (pci_config_read_word bus slot 0 offset) s Q.
Proof.
  intros Hp Hb Hs Hr Hreg Hsh Hpos HQ. unfold pci_config_read_word. rewrite Hreg, Hsh, config_address by lia.
  apply wp_bind, wp_tell, wp_bind, wp_perform, wp_ret.
  change 0xFFFF with (Z.ones 16). rewrite Z.land_ones, Z.shiftr_div_pow2 by lia.
  rewrite pci_data. cbn [io_step dev]. rewrite pci_select, pci_keeps, Hp by done.
  replace (2 ^ 31 + bus * 2 ^ 16 + slot * 2 ^ 11 + 0 * 2 ^ 8 + reg)
    with (2 ^ 31 + bus * 2 ^ 16 + slot * 2 ^ 11 + reg) by lia.
  apply HQ; [|done]. eapply (effect_trans C [] []); [|by apply effect_step]. by apply effect_step.
Qed.
(** *** The controller *)

Context (fuel : nat) (off : Z) `{!Settles D fuel off}.

(** [m] accesses the registers in one of the ways [P] allows, and changes no
    static. *)
Definition does (C : Z -> Z) (P : list act -> Prop) {A} (m : io D A) (s : Io D) : Prop :=
  wp m s (fun _ s' => st s' = st s /\ exists t, P t /\ effect C t s s').

Lemma wp_does C P {A B} (m : io D A) (k : A -> io D B) s Q : does C P m s ->
  (forall a s' t, P t -> effect C t s s' -> st s' = st s -> wp (k a) s' Q) -> wp (m ≫= k) s Q.
Proof. intros Hm Hk. apply wp_bind. eapply wp_mono; [|exact Hm]. intros a s' (Hst & t & Ht & He). by eapply Hk. Qed.

Lemma does_set_bits C a mask s : does C (fun t => exists v, t = [Rd a v; Wr a (Z.lor v mask)]) (set_bits a mask) s.
Proof.
  apply wp_bind, wp_perform, wp_tell. split; [done|]. eexists. split; [by eexists|].
  exact (effect_trans _ _ _ _ _ _ (effect_read C s a) (effect_write C _ a _)).
Qed.

Lemma does_spin C n a mask s : clears n (dev s) a mask -> does C (polled a mask) (spin_while_set n a mask) s.
Proof.
  revert s. induction n as [|n IH]; intros s Hc; [done|]. cbn [spin_while_set clears] in *.
  apply wp_bind, wp_perform. destruct (Z.eqb_spec (Z.land (respond (dev s) (Read32 a)).1 mask) 0) as [Hz|Hz].
  - apply wp_ret. split; [done|]. exists [Rd a (respond (dev s) (Read32 a)).1]. split; [by constructor|apply effect_read].
  - destruct Hc as [Hc|Hc]; [done|]. eapply wp_mono; [|exact (IH (io_step s (Read32 a)) Hc)].
    intros [] s' (Hst & t & Ht & He). split; [done|]. eexists. split; [by apply polled_again|].
    exact (effect_trans _ _ _ _ _ _ (effect_read C s a) He).
Qed.

Lemma land_cleared v mask : 0 <= mask < 2 ^ 32 -> Z.land (Z.land v (not_u 32 mask)) mask = 0.
Proof.
  intros Hm. rewrite <- Z.land_assoc. unfold not_u. replace (2 ^ 32 - 1 - mask) with (Z.ldiff (Z.ones 32) mask).
  - apply Z.bits_inj'. intros i Hi. rewrite !Z.land_spec, Z.ldiff_spec, Z.bits_0.
    by destruct (Z.testbit v i), (Z.testbit (Z.ones 32) i), (Z.testbit mask i).
  - rewrite <- Z.sub_nocarry_ldiff; [by rewrite Z.ones_equiv|].
    apply Z.bits_inj'. intros i Hi. rewrite Z.ldiff_spec, Z.bits_0.
    destruct (Z.lt_ge_cases i 32) as [Hlt|Hge]; [rewrite Z.ones_spec_low by lia; apply andb_false_r|].
    destruct (Z.eq_dec mask 0) as [->|]; [by rewrite Z.bits_0|].
    rewrite (Z.bits_above_log2 mask i); [done|lia|]. apply Z.log2_lt_pow2; [lia|].
    eapply Z.lt_le_trans; [apply Hm|apply Z.pow_le_mono_r; lia].
Qed.

(** Clearing a bit of a command register and waiting for it. *)
Lemma does_clear_wait C bar n mask s : pinned C (dev s) -> bar ∈ bars C all_slots -> 0 <= n < 32 -> mask = 0x1 \/ mask = 0x10 ->
  let cmd := command_register (off + bar) n in
  does C (fun t => exists v p, polled cmd mask p /\ t = Rd cmd v :: Wr cmd (Z.land v (not_u 32 mask)) :: p)
    (_ ← clear_bits cmd mask; spin_while_set fuel cmd mask) s.
Proof.
  intros Hp Hb Hn Hm cmd. apply wp_bind, wp_bind, wp_perform, wp_tell.
  set (w := Z.land (respond (dev s) (Read32 cmd)).1 (not_u 32 mask)). set (s1 := io_step s (Read32 cmd)).
  eapply wp_mono; [|apply (does_spin C fuel cmd mask (io_step s1 (Write32 cmd w)))].
  - intros [] s' (Hst & t & Ht & He). split; [done|]. eexists. split; [by eexists _, t|].
    exact (effect_trans _ _ _ _ _ _ (effect_read C s cmd) (effect_trans _ _ _ _ _ _ (effect_write C s1 cmd w) He)).
  - apply settles; [|done|done|apply land_cleared; lia]. rewrite (bars_ext (config (dev s1)) C); [done|].
    intros x. cbn [s1 io_step dev]. by rewrite pci_keeps.
Qed.

Lemma bind_assoc_io {A B} (m : io D A) (f : A -> io D B) {E} (k : B -> io D E) s :
  (m ≫= (fun a => f a ≫= k)) s = ((m ≫= f) ≫= k) s.
Proof. unfold mbind, io_bind. by destruct (m s) as [[a s']| |]. Qed.

(** Two steps with what follows them. *)
Lemma wp_does_then C P {A} (m : io D A) (f : A -> io D unit) (k : io D unit) s Q : does C P (m ≫= f) s ->
  (forall s' t, P t -> effect C t s s' -> st s' = st s -> wp k s' Q) -> wp (m ≫= fun a => f a ≫= fun _ => k) s Q.
Proof.
  intros Hm Hk. assert (wp ((m ≫= f) ≫= fun _ => k) s Q) as (u & s' & Hr & Hq) by (eapply wp_does; [exact Hm|eauto]).
  exists u, s'. split; [|done]. rewrite <- Hr. apply (bind_assoc_io m f (fun _ => k)).
Qed.

Lemma does_init_port C bar n s : pinned C (dev s) -> bar ∈ bars C all_slots -> 0 <= n < 32 ->
  does C (port_started (command_register (off + bar) n)) (init_port fuel (mkAhci (off + bar) (off + bar + 0x100)) n) s.
Proof.
  intros Hp Hb Hn. unfold init_port. change (port_reg _ _ _) with (command_register (off + bar) n).
  set (cmd := command_register (off + bar) n). unfold does.
  eapply wp_does_then; [apply (does_clear_wait C bar n 0x1 s); auto|]. intros s1 t1 (v1 & p1 & Hp1 & ->) He1 Hs1.
  eapply wp_does_then; [apply (does_clear_wait C bar n 0x10 s1); auto; by apply (ef_pinned _ _ _ _ He1)|].
  intros s2 t2 (v2 & p2 & Hp2 & ->) He2 Hs2.
  eapply wp_does; [apply (does_set_bits C cmd 0x10 s2)|]. intros _ s3 t3 (v3 & ->) He3 Hs3.
  eapply wp_mono; [|apply (does_set_bits C cmd 0x1 s3)]. intros [] s4 (Hs4 & t4 & (v4 & ->) & He4).
  split; [congruence|]. eexists. split; [|exact (effect_trans _ _ _ _ _ _ He1 (effect_trans _ _ _ _ _ _ He2
    (effect_trans _ _ _ _ _ _ He3 He4)))].
  exists v1, p1, v2, p2, v3, v4. split; [done|]. split; [done|]. cbn [app]. by rewrite <- ?app_assoc.
Qed.

Lemma implemented impl n : 0 <= n -> (Z.land (Z.shiftr impl n) 1 =? 0) = negb (Z.testbit impl n).
Proof.
  intros Hn. change 1 with (Z.ones 1). rewrite Z.land_ones by lia. change (2 ^ 1) with 2.
  rewrite <- Z.bit0_mod, Z.shiftr_spec by lia. rewrite Z.add_0_l. by destruct (Z.testbit impl n).
Qed.

Lemma does_probe_port C bar impl n s : pinned C (dev s) -> bar ∈ bars C all_slots -> 0 <= n < 32 ->
  does C (port_probed (off + bar) impl n) (probe_port fuel (mkAhci (off + bar) (off + bar + 0x100)) impl n) s.
Proof.
  intros Hp Hb Hn. unfold probe_port, does, port_probed. rewrite implemented by lia.
  destruct (Z.testbit impl n) eqn:E; cbn [negb].
  2: { apply wp_ret. split; [done|]. exists []. split; [done|apply effect_refl]. }
  change (port_reg _ _ _) with (off + bar + 0x100 + 60 * n + 0x24). set (a := off + bar + 0x100 + 60 * n + 0x24).
  apply wp_bind, wp_perform. set (sig := (respond (dev s) (Read32 a)).1).
  pose proof (effect_read C s a) as He. destruct (sig =? 0x101) eqn:Es.
  - eapply wp_mono; [|apply (does_init_port C bar n (io_step s (Read32 a))); [by apply (ef_pinned _ _ _ _ He)|done|done]].
    intros [] s' (Hst & t & Ht & He'). split; [done|]. eexists. split; [|exact (effect_trans _ _ _ _ _ _ He He')].
    exists sig, t. by rewrite Es.
  - apply wp_ret. split; [done|]. eexists. split; [|exact He]. exists sig, []. by rewrite Es.
Qed.

Lemma does_ports C bar impl s : pinned C (dev s) -> bar ∈ bars C all_slots ->
  does C (fun t => exists ports, Forall2 (port_probed (off + bar) impl) (seqZ 0 32) ports /\ t = concat ports)
    (for_io (probe_port fuel (mkAhci (off + bar) (off + bar + 0x100)) impl) (seqZ 0 32)) s.
Proof.
  intros Hp Hb. apply (wp_for (fun l s' => st s' = st s /\ exists ports,
    Forall2 (port_probed (off + bar) impl) l ports /\ effect C (concat ports) s s')).
  - split; [done|]. exists []. split; [constructor|apply effect_refl].
  - intros l1 n l2 s1 Hl (Hs1 & ports & Hf & He). assert (0 <= n < 32) as Hn.
    { assert (n ∈ seqZ 0 32) as Hin by (rewrite Hl; apply elem_of_app; right; left). apply elem_of_seqZ in Hin. lia. }
    eapply wp_mono; [|apply (does_probe_port C bar impl n s1); [by apply (ef_pinned _ _ _ _ He)|done|done]].
    intros [] s2 (Hs2 & t & Ht & He2). split; [congruence|]. exists (ports ++ [t]).
    split; [by apply Forall2_app; [|constructor]|]. rewrite concat_app. cbn [concat]. rewrite app_nil_r. by eapply effect_trans.
  - intros s' (Hs' & ports & Hf & He). split; [done|]. exists (concat ports). split; [by exists ports|done].
Qed.

Lemma wp_init_from_pci C s bar : pinned C (dev s) -> bar ∈ bars C all_slots -> bar <> 0 ->
  canonical off -> canonical (off + bar) -> canonical (off + bar + 0x100) ->
  wp (init_from_pci fuel bar off) s (fun _ s' => st s' = set_ahci (mkAhci (off + bar) (off + bar + 0x100)) (st s) /\
    exists t, brought_up (off + bar) t /\ effect C t s s').
Proof.
  intros Hp Hin Hbar Hc1 Hc2 Hc3. unfold init_from_pci. rewrite (proj2 (Z.eqb_neq _ _) Hbar).
  apply wp_bind. eapply wp_lift; [by apply virt_addr_add_ok|]. unfold ahci_init.
  set (abar := off + bar). change (ghc_reg abar (str "vs")) with (abar + 0x10). change (ghc_reg abar (str "ghc")) with (abar + 4).
  change (ghc_reg abar (str "pi")) with (abar + 0xC).
  apply wp_bind, wp_bind, wp_perform, wp_bind, wp_perform.
  set (s1 := io_step s (Read32 (abar + 0x10))). set (s2 := io_step s1 (Read32 (abar + 0x10))).
  pose proof (effect_read C s (abar + 0x10)) as He1. fold s1 in He1.
  pose proof (effect_read C s1 (abar + 0x10)) as He2. fold s2 in He2.
  eapply wp_does; [apply (does_set_bits C (abar + 4) 0x80000000 s2)|]. intros _ s3 t3 (v & ->) He3 Hs3.
  apply wp_bind, wp_perform, wp_bind. eapply wp_lift; [by apply virt_addr_add_ok|]. apply wp_ret.
  set (s4 := io_step s3 (Read32 (abar + 0xC))). pose proof (effect_read C s3 (abar + 0xC)) as He4. fold s4 in He4.
  apply wp_bind, wp_update, wp_bind, wp_statics. cbn [st AHCI_CONTROLLER set_ahci]. apply wp_bind.
  apply wp_bind, wp_perform. cbn [Bus.abar]. change (ghc_reg abar (str "pi")) with (abar + 0xC).
  set (s5 := mkIo (dev s4) (newest s4) _). set (s6 := io_step s5 (Read32 (abar + 0xC))).
  pose proof (effect_read C s5 (abar + 0xC)) as He6. fold s6 in He6.
  pose proof (effect_trans _ _ _ _ _ _ He1 (effect_trans _ _ _ _ _ _ He2 (effect_trans _ _ _ _ _ _ He3
    (effect_trans _ _ _ _ _ _ He4 (effect_st_l C _ s4 _ _ He6))))) as He. cbn [app] in He.
  eapply wp_mono; [|apply (does_ports C bar _ s6); [by apply (ef_pinned _ _ _ _ He)|done]].
  intros [] s7 (Hs7 & t & (ports & Hf & ->) & He7). apply wp_ret. split.
  - rewrite Hs7. cbn [s6 s5 s4 io_step st]. by rewrite Hs3.
  - eexists. split; [|exact (effect_trans _ _ _ _ _ _ He He7)]. do 5 eexists. exists ports. split; [exact Hf|reflexivity].
Qed.
(** *** The scan *)

Definition found (off : Z) (bs : list Z) (g : Statics) : Statics :=
  match last bs with Some bar => set_ahci (mkAhci (off + bar) (off + bar + 0x100)) g | None => g end.

Lemma halves w : in_u32 w -> Z.lor (Z.shiftl (w / 2 ^ 16 mod 2 ^ 16) 16) (w mod 2 ^ 16) = w.
Proof.
  intros Hw. unfold in_range in Hw. rewrite lor_low by (try lia; apply Z.mod_pos_bound; lia).
  rewrite (Z.mod_small (w / 2 ^ 16)) by (split; [apply Z.div_pos; lia|apply Z.div_lt_upper_bound; lia]).
  rewrite Z.mul_comm. symmetry. apply Z.div_mod. lia.
Qed.

Lemma class_byte w : in_u32 w -> Z.shiftr (w / 2 ^ 16 mod 2 ^ 16) 8 mod 2 ^ 8 = w / 2 ^ 24.
Proof.
  intros Hw. unfold in_range in Hw. rewrite Z.shiftr_div_pow2 by lia.
  rewrite (Z.mod_small (w / 2 ^ 16)) by (split; [apply Z.div_pos; lia|apply Z.div_lt_upper_bound; lia]).
  rewrite Z.div_div by lia. change (2 ^ 16 * 2 ^ 8) with (2 ^ 24).
  apply Z.mod_small. split; [apply Z.div_pos; lia|apply Z.div_lt_upper_bound; lia].
Qed.

Lemma subclass_byte w : Z.land (w / 2 ^ 16 mod 2 ^ 16) 0xFF = w / 2 ^ 16 mod 2 ^ 8.
Proof.
  change 0xFF with (Z.ones 8). rewrite Z.land_ones by lia.
  apply Z.mod_mod_divide. by exists (2 ^ 8).
Qed.

Lemma bar_range w : 0 <= Z.land w 0xFFFFFFF0 < 2 ^ 32.
Proof.
  replace (Z.land w 0xFFFFFFF0) with (Z.land (Z.land w 0xFFFFFFF0) (Z.ones 32))
    by (by rewrite <- Z.land_assoc). rewrite Z.land_ones by lia. apply Z.mod_pos_bound. lia.
Qed.

(** What has been done after some slots: a session with each controller. *)
Record scanned (C : Z -> Z) (s0 : Io D) (visited : list (Z * Z)) (s : Io D) : Prop := mkScanned {
  sc_effect : exists sessions, Forall2 (fun bar => brought_up (off + bar)) (bars C visited) sessions /\
    effect C (concat sessions) s0 s;
  sc_pinned : pinned C (dev s);
  sc_st : st s = found off (bars C visited) (st s0) }.

Definition window (off : Z) : Prop := 2 ^ 64 - 2 ^ 47 <= off /\ off + 2 ^ 32 + 0x100 <= 2 ^ 64.

Lemma wp_probe_slot C s0 visited s bus slot : (forall a, in_u32 (C a)) -> window off ->
  scanned C s0 visited s -> 0 <= bus < 256 -> 0 <= slot < 32 ->
  wp (probe_slot fuel off bus slot) s (fun _ s' => scanned C s0 (visited ++ [(bus, slot)]) s').
Proof.
  intros HC [Hw1 Hw2] [(sessions & Hf & He) Hp Hst] Hb Hs.
  assert (bars C (visited ++ [(bus, slot)]) = bars C visited ++ bars C [(bus, slot)]) as Hbars by apply omap_app.
  (* a slot without a controller *)
  assert (forall s', effect C [] s s' -> st s' = st s -> sata_bar C (bus, slot) = None ->
    scanned C s0 (visited ++ [(bus, slot)]) s') as Hnone.
  { intros s' He' Hs' Hn. assert (bars C [(bus, slot)] = []) as Hnil by (unfold bars; cbn [omap list_omap]; by rewrite Hn).
    rewrite Hnil, app_nil_r in Hbars. split; [|by eapply ef_pinned|by rewrite Hs', Hst, Hbars].
    exists sessions. rewrite Hbars. split; [done|]. rewrite <- (app_nil_r (concat sessions)). by eapply effect_trans. }
  unfold probe_slot, get_vendor_id, get_device_id, get_class_code, get_subclass, get_bar5.
  apply wp_bind. eapply (wp_config_word C bus slot 0 0 0); [done..|lia|]. intros s1 He1 Hs1. rewrite Z.div_1_r.
  fold (cw C bus slot 0). destruct (cw C bus slot 0 mod 2 ^ 16 =? 0xFFFF) eqn:Ev.
  { apply wp_ret. apply Hnone; [done..|]. cbn. by rewrite Ev. }
  apply wp_bind. eapply (wp_config_word C bus slot 2 0 16); [by eapply ef_pinned|done..|]. intros s2 He2 Hs2.
  pose proof (effect_trans C [] [] _ _ _ He1 He2) as He12.
  apply wp_bind, wp_bind. eapply (wp_config_word C bus slot 0x0A 8 16); [by eapply ef_pinned|done..|]. intros s3 He3 Hs3.
  pose proof (effect_trans C [] [] _ _ _ He12 He3) as He13. apply wp_ret.
  apply wp_bind, wp_bind. eapply (wp_config_word C bus slot 0x0A 8 16); [by eapply ef_pinned|done..|]. intros s4 He4 Hs4.
  pose proof (effect_trans C [] [] _ _ _ He13 He4) as He14. apply wp_ret.
  fold (cw C bus slot 8). rewrite class_byte, subclass_byte by apply HC.
  destruct (_ && _) eqn:Ec.
  2: { apply wp_ret. apply Hnone; [done|congruence|]. cbn [sata_bar]. by rewrite Ev, Ec. }
  apply wp_bind, wp_bind. eapply (wp_config_word C bus slot 0x24 0x24 0); [by eapply ef_pinned|done..|]. intros s5 He5 Hs5.
  pose proof (effect_trans C [] [] _ _ _ He14 He5) as He15.
  apply wp_bind. eapply (wp_config_word C bus slot 0x26 0x24 16); [by eapply ef_pinned|done..|]. intros s6 He6 Hs6.
  pose proof (effect_trans C [] [] _ _ _ He15 He6) as He16. apply wp_ret.
  rewrite Z.div_1_r. fold (cw C bus slot 0x24). rewrite halves by apply HC.
  pose proof (bar_range (cw C bus slot 0x24)) as Hbr.
  set (bar := Z.land (cw C bus slot 0x24) 0xFFFFFFF0) in *. apply wp_bind.
  destruct (Z.eq_dec bar 0) as [Hz|Hz].
  { rewrite Hz. apply wp_ret, wp_ret. apply Hnone; [done|congruence|]. cbn [sata_bar]. rewrite Ev, Ec. cbv zeta.
    fold bar. by rewrite Hz. }
  assert (sata_bar C (bus, slot) = Some bar) as Hbar.
  { cbn [sata_bar]. rewrite Ev, Ec. cbv zeta. fold bar. by rewrite (proj2 (Z.eqb_neq _ _) Hz). }
  assert (bar ∈ bars C all_slots) as Hin.
  { apply list_elem_of_omap. exists (bus, slot). split; [by apply all_slots_elem|done]. }
  eapply wp_mono; [|apply (wp_init_from_pci C s6 bar); [by apply (ef_pinned _ _ _ _ He16)|done|done|unfold canonical; lia..]].
  intros ok s7 (Hs7 & t & Ht & He7). apply wp_ret.
  assert (bars C [(bus, slot)] = [bar]) as Hone by (unfold bars; cbn [omap list_omap]; by rewrite Hbar).
  rewrite Hone in Hbars. split.
  - exists (sessions ++ [t]). rewrite Hbars. split; [by apply Forall2_app; [|constructor]|].
    rewrite concat_app. cbn [concat]. rewrite app_nil_r. eapply effect_trans; [exact He|].
    by apply (effect_trans C [] t _ _ _ He16).
  - by eapply ef_pinned, ef_pinned.
  - rewrite Hs7, Hbars. unfold found. rewrite last_snoc.
    assert (st s6 = st s) as -> by congruence. rewrite Hst. unfold found. by destruct (last (bars C visited)).
Qed.

Lemma wp_enumerate_pci C s : (forall a, in_u32 (C a)) -> window off -> pinned C (dev s) ->
  wp (enumerate_pci fuel off) s (fun _ s' => scanned C s all_slots s').
Proof.
  intros HC Hw Hp. unfold enumerate_pci. apply (wp_for (fun buses s' => scanned C s (slots_of buses) s')).
  - split; [|done|done]. exists []. split; [constructor|apply effect_refl].
  - intros l1 bus l2 s1 Hl Hs1. assert (0 <= bus < 256) as Hb.
    { assert (bus ∈ seqZ 0 256) as Hin by (rewrite Hl; apply elem_of_app; right; left). apply elem_of_seqZ in Hin. lia. }
    assert (slots_of (l1 ++ [bus]) = slots_of l1 ++ map (pair bus) (seqZ 0 32)) as ->.
    { unfold slots_of. rewrite map_app, concat_app. cbn [map concat]. by rewrite app_nil_r. }
    apply (wp_for (fun slots s' => scanned C s (slots_of l1 ++ map (pair bus) slots) s')).
    + by rewrite app_nil_r.
    + intros k1 slot k2 s2 Hk Hs2. assert (0 <= slot < 32) as Hs.
      { assert (slot ∈ seqZ 0 32) as Hin by (rewrite Hk; apply elem_of_app; right; left). apply elem_of_seqZ in Hin. lia. }
      rewrite map_app, app_assoc. by apply wp_probe_slot.
    + done.
  - done.
Qed.
End Scan.

(** C39: the PCI scan ends, and brings up exactly the SATA controllers, in bus
    and slot order: over any configuration space, whatever the devices answer
    otherwise, the memory-mapped accesses of the scan are one session after
    another with each function 0 of class 01/06 that has a register base.  A
    session sets the AHCI-enable bit, then goes through the 32 ports: each
    implemented one is asked for its signature, and a SATA device's port has
    [ST] and [FRE] cleared, each seen clear, and set again.  Nothing else is
    done on the bus but reading the configuration space, which does not change;
    the last of the controllers is kept (or the one from before the scan when
    there is none), and no other static changes. *)
Theorem pci_scan_finds_controllers {D} `{Hardware D} `{!PciHost D} `{VirtAddrs} fuel off `{!Settles D fuel off} (s : Io D) :
  let bs := bars (config (dev s)) all_slots in
  window off ->
  wp (pci_init fuel off) s (fun _ s' =>
    st s' = found off bs (st s) /\ (forall a, config (dev s') a = config (dev s) a) /\
    exists l sessions, log s' = log s ++ l /\ Forall (fun e => bus_request e.1) l /\
      mmio_acts l = concat sessions /\ Forall2 (fun bar => brought_up (off + bar)) bs sessions).
Proof.
  intros bs Hw. eapply wp_mono; [|apply (wp_enumerate_pci fuel off (config (dev s)) s)]; [|apply config_u32|done|done].
  intros u s' [(sessions & Hf & [(l & Hl & Ht & Hb) Hk]) Hp Hst]. split; [done|]. split; [done|]. by exists l, sessions.
Qed.

(** The array type of the port registers makes consecutive ports 60 bytes
    apart, where the controller has them 128 bytes apart. *)
Lemma port_stride : size_of_layout PortRegs = 60 /\ offset_of Ghc (str "cap2") = 0x4C.
Proof. by split. Qed.

(** ** Concrete inputs *)

#[global] Instance bench_pci : PciHost bench.
Proof.
  refine {| selected := latch; config d a := cfg d a mod 2 ^ 32 |}; try done.
  - intros d a. apply Z.mod_pos_bound. lia.
  - intros d r a _. destruct r; try done. cbn [respond bench_hardware snd]. by case_if.
Defined.

#[global] Instance bench_settles off : Settles bench 1 off.
Proof.
  refine {| settles := _ |}. intros d bar n v mask _ _ _ Hv. left. cbn [respond bench_hardware fst snd mmio]. unfold bench_put.
  by rewrite Z.eqb_refl.
Defined.

(** One SATA controller, in slot 3 of bus 0, registers at 0xFEB00000. *)
Definition demo_config (a : Z) : Z :=
  if a =? 0x80001800 then 0x29228086 else
  if a =? 0x80001808 then 0x01060102 else
  if a =? 0x80001824 then 0xFEB00000 else 0xFFFFFFFF.

Definition demo_pci : Io bench := mkIo (mkBench (fun _ => 0) (fun _ => 0) 0 demo_config) [] initial_statics.

Lemma demo_bars : bars (config (dev demo_pci)) all_slots = [0xFEB00000].
Proof. vm_compute. reflexivity. Qed.

Lemma pci_scan_finds_controllers_witness :
  exists s', pci_init 1 0xffff800000000000 demo_pci = Ret (tt, s') /\
    AHCI_CONTROLLER (st s') = Some (mkAhci 0xffff8000feb00000 0xffff8000feb00100) /\
    exists t, mmio_acts (log s') = t /\ brought_up 0xffff8000feb00000 t.
Proof.
  destruct (pci_scan_finds_controllers 1 0xffff800000000000 demo_pci) as (u & s' & Hr & Hst & _ & l & sessions & Hl & _ & Ht & Hf);
    [unfold window; lia|]. destruct u. exists s'. split; [exact Hr|]. rewrite demo_bars in Hst, Hf.
  split; [by rewrite Hst|]. change (log demo_pci) with (@nil event) in Hl. rewrite Hl, app_nil_l, Ht.
  inversion Hf as [|? t ? rest Hb Hrest]; subst. inversion Hrest; subst. exists t.
  split; [apply app_nil_r|exact Hb].
Defined.
