(* ===== verification/Ext2.v ===== *)
(** * The ext2 driver and the mount table ([kernel/src/fs/ext2.rs],
    [kernel/src/fs/mod.rs])

    Mounting reads a superblock from a block device, checks it, computes the
    geometry and records the file system and the mount.  The block device is a
    parameter ([disk]); the kernel passes [ahci::read_blocks], a stub that
    fails ([Drivers.ahci_read_blocks]).  [heap_serves n]: the heap can serve a
    buffer of [n] bytes.  The record of a mount (a string of one byte and an
    element of the mount table) is assumed to be served.  Inodes and
    directories are not read yet. *)

From S2P Require Import Prelude Utf8 X86 Bus Drivers.

(** ** On-disk structures *)

Record Ext2Superblock := mkSuperblock {
  inode_count : Z; block_count : Z; reserved_blocks : Z; free_blocks : Z; free_inodes : Z;
  first_data_block : Z; log_block_size : Z; log_frag_size : Z; blocks_per_group : Z; frags_per_group : Z;
  inodes_per_group : Z; mtime : Z; wtime : Z; mnt_count : Z; max_mnt_count : Z; sb_magic : Z; sb_state : Z;
  sb_errors : Z; minor_rev_level : Z; lastcheck : Z; checkinterval : Z; creator_os : Z; rev_level : Z;
  sb_reserved : list byte }.

Definition is_valid (sb : Ext2Superblock) : bool := sb_magic sb =? 0xEF53.

(** [1024 << self.log_block_size]: a shift by 64 or more panics, bits shifted
    out are lost. *)
Definition block_size (sb : Ext2Superblock) : outcome Z :=
  if log_block_size sb <? 64 then Ret (wrap 64 (Z.shiftl 1024 (log_block_size sb))) else Panic.

(** [ptr::read_unaligned] of the packed structure. *)
Definition read_packed (b : list byte) : Ext2Superblock :=
  mkSuperblock (field b 0 4) (field b 4 4) (field b 8 4) (field b 12 4) (field b 16 4) (field b 20 4) (field b 24 4)
    (as_signed 32 (field b 28 4)) (field b 32 4) (field b 36 4) (field b 40 4) (field b 44 4) (field b 48 4)
    (field b 52 2) (field b 54 2) (field b 56 2) (field b 58 2) (field b 60 2) (field b 62 2)
    (field b 64 4) (field b 68 4) (field b 72 4) (field b 76 4) (sub_list b 80 768).

Record Ext2Inode := mkInode {
  mode : Z; i_uid : Z; size_low : Z; atime : Z; ctime : Z; i_mtime : Z; dtime : Z; i_gid : Z; links_count : Z;
  blocks : Z; i_flags : Z; osd1 : Z; block : list Z; generation : Z; file_acl : Z; dir_acl : Z; faddr : Z; osd2 : list byte }.

Definition is_directory (i : Ext2Inode) : bool := negb (Z.land (mode i) 0x4000 =? 0).
Definition is_regular_file (i : Ext2Inode) : bool := negb (Z.land (mode i) 0x8000 =? 0).
Definition inode_size (i : Ext2Inode) : Z := size_low i.

Record GroupDesc := mkGroupDesc {
  block_bitmap : Z; inode_bitmap : Z; inode_table : Z; free_blocks_count : Z; free_inodes_count : Z;
  used_dirs_count : Z; gd_pad : Z; gd_reserved : list byte }.

Record Ext2Fs := mkExt2Fs {
  superblock : Ext2Superblock; fs_block_size : Z; device_id : Z; group_desc : list GroupDesc }.

(** ** The mount table *)

Inductive FsType := FsExt2 | FsFat32 | FsUnknown.

Record Mount := mkMount { m_device : Z; fs_type : FsType; mount_point : list byte; root_inode : Z }.

(** The statics of both modules. *)
Record FsState := mkFsState { EXT2_FS : option Ext2Fs; MOUNTS : list Mount }.
Definition fs_initial : FsState := mkFsState None [].

Definition fs_mount (device : Z) (t : FsType) (point : list byte) (g : FsState) : bool * FsState :=
  (true, mkFsState (EXT2_FS g) (MOUNTS g ++ [mkMount device t point 2])).

(** ** Mounting *)

Section Ext2.
Context (disk : Z -> Z -> Z -> list byte -> bool * list byte) (heap_serves : Z -> bool).

(** [vec!\[0u8; n\]]: an empty one asks for nothing. *)
Definition vec_zeroed (n : Z) : outcome (list byte) :=
  if (n <=? isize_max) && ((n =? 0) || heap_serves n) then Ret (replicate (Z.to_nat n) x00) else Panic.

Definition dummy_superblock : Ext2Superblock :=
  mkSuperblock 0 0 0 0 0 1 0 0 8192 8192 1024 0 0 0 0 0xEF53 1 0 0 0 0 0 0 (replicate 768 x00).

Definition read_superblock (dev : Z) : outcome (option Ext2Superblock) :=
  buffer ← vec_zeroed 1024;
  let '(ok, buffer) := disk dev 2 1 buffer in
  if negb ok then Ret (Some dummy_superblock) else
  let sb := read_packed buffer in
  if negb (is_valid sb) then Ret None else Ret (Some sb).

(** [(block_count + blocks_per_group - 1) / blocks_per_group], in 32 bits. *)
Definition group_count (sb : Ext2Superblock) : outcome Z :=
  a ← add_u 32 (block_count sb) (blocks_per_group sb);
  b ← sub_u a 1;
  if blocks_per_group sb =? 0 then Panic else Ret (b / blocks_per_group sb).

(** The size of the descriptor table in whole blocks. *)
Definition descriptor_bytes (groups bs : Z) : outcome Z :=
  t ← mul_u 64 groups 32;
  a ← add_u 64 t bs;
  b ← sub_u a 1;
  if bs =? 0 then Panic else mul_u 64 (b / bs) bs.

Definition ext2_init (dev : Z) (g : FsState) : outcome (bool * FsState) :=
  o ← read_superblock dev;
  match o with
  | None => Ret (false, g)
  | Some sb =>
      bs ← block_size sb;
      groups ← group_count sb;
      gd_size ← descriptor_bytes groups bs;
      _ ← vec_zeroed gd_size;
      Ret (true, mkFsState (Some (mkExt2Fs sb bs dev [])) (MOUNTS g))
  end.

Definition ext2_mount (dev : Z) (g : FsState) : outcome (bool * FsState) :=
  r ← ext2_init dev g;
  let '(ok, g) := r in
  if negb ok then Ret (false, g) else
  Ret (true, (fs_mount dev FsExt2 (str "/") g).2).

Definition read_inode (dev ino : Z) : option Ext2Inode := None.
Definition ext2_list_dir (dev ino : Z) : list (Z * list byte * Z) := [].
End Ext2.

(** ** Which superblocks are accepted *)

Definition table_bytes (sb : Ext2Superblock) : Z :=
  let bs := 1024 * 2 ^ log_block_size sb in
  div_ceil (32 * div_ceil (block_count sb) (blocks_per_group sb)) bs * bs.

(** The geometry the arithmetic of [init] survives. *)
Record geometry_ok (heap_serves : Z -> bool) (sb : Ext2Superblock) : Prop := mkGeometry {
  ge_block : log_block_size sb <= 53;
  ge_groups : 0 < blocks_per_group sb;
  ge_blocks : block_count sb + blocks_per_group sb < 2 ^ 32;
  ge_table : table_bytes sb <= isize_max;
  ge_heap : table_bytes sb = 0 \/ heap_serves (table_bytes sb) = true }.

(** The fields that matter have their widths. *)
Definition superblock_typed (sb : Ext2Superblock) : Prop :=
  in_u32 (block_count sb) /\ in_u32 (blocks_per_group sb) /\ in_u32 (log_block_size sb).

Lemma read_packed_typed b : superblock_typed (read_packed b).
Proof.
  unfold superblock_typed, in_range. change (2 ^ 32) with (256 ^ 4).
  split_and!; cbn [read_packed block_count blocks_per_group log_block_size]; by apply field_bound.
Qed.

Lemma block_size_eq sb : 0 <= log_block_size sb ->
  block_size sb = if log_block_size sb <=? 53 then Ret (1024 * 2 ^ log_block_size sb)
                  else if log_block_size sb <? 64 then Ret 0 else Panic.
Proof.
  intros H0. unfold block_size. rewrite Z.shiftl_mul_pow2 by done. unfold wrap. set (n := log_block_size sb) in *.
  destruct (Z.leb_spec n 53) as [Hn|Hn].
  - replace (n <? 64) with true by lia. rewrite Z.mod_small; [done|]. pose proof (Z.pow_le_mono_r 2 n 53 ltac:(lia) ltac:(lia)).
    pose proof (Z.pow_pos_nonneg 2 n ltac:(lia) H0). lia.
  - case_if; [|done]. f_equal. replace n with (54 + (n - 54)) by lia. rewrite Z.pow_add_r by lia.
    replace (1024 * (2 ^ 54 * 2 ^ (n - 54))) with (2 ^ (n - 54) * 2 ^ 64) by lia. by apply Z.mod_mul.
Qed.

Lemma group_count_eq sb : superblock_typed sb ->
  group_count sb = if (0 <? blocks_per_group sb) && (block_count sb + blocks_per_group sb <? 2 ^ 32)
                   then Ret (div_ceil (block_count sb) (blocks_per_group sb)) else Panic.
Proof.
  intros (Hb & Hg & _). unfold in_range, group_count, add_u, sub_u, checked_add, checked_sub in *.
  destruct (Z.ltb_spec (block_count sb + blocks_per_group sb) (2 ^ 32)) as [Hs|Hs]; cbn [unwrap mbind outcome_bind];
    [|by rewrite andb_false_r].
  destruct (Z.ltb_spec 0 (blocks_per_group sb)) as [Hp|Hp]; cbn [andb].
  - replace (1 <=? block_count sb + blocks_per_group sb) with true by lia. cbn [unwrap mbind outcome_bind].
    by replace (blocks_per_group sb =? 0) with false by lia.
  - replace (blocks_per_group sb =? 0) with true by lia. by case_if.
Qed.

Lemma descriptor_bytes_eq groups bs : 0 <= groups < 2 ^ 32 -> 0 <= bs <= 2 ^ 63 ->
  descriptor_bytes groups bs = if bs =? 0 then Panic else Ret (div_ceil (32 * groups) bs * bs).
Proof.
  intros Hg Hb. unfold descriptor_bytes. rewrite mul_u_Ret by lia. cbn [mbind outcome_bind].
  rewrite add_u_Ret by lia. cbn [mbind outcome_bind]. destruct (Z.eqb_spec bs 0) as [->|Hz].
  - unfold sub_u, checked_sub. by case_if.
  - rewrite sub_u_Ret by lia. cbn [mbind outcome_bind]. rewrite (Z.mul_comm groups 32). apply mul_u_Ret.
    change ((32 * groups + bs - 1) / bs) with (div_ceil (32 * groups) bs).
    pose proof (div_ceil_spec (32 * groups) bs ltac:(lia)). lia.
Qed.

Section Verdict.
Context (disk : Z -> Z -> Z -> list byte -> bool * list byte) (heap_serves : Z -> bool).

(** What is read from the device, if anything. *)
Definition first_read (dev : Z) : bool * list byte := disk dev 2 1 (replicate 1024 x00).

Definition mounted (dev : Z) (sb : Ext2Superblock) (g : FsState) : FsState :=
  mkFsState (Some (mkExt2Fs sb (1024 * 2 ^ log_block_size sb) dev [])) (MOUNTS g ++ [mkMount dev FsExt2 (str "/") 2]).

Lemma mount_superblock dev sb g : read_superblock disk heap_serves dev = Ret (Some sb) -> superblock_typed sb ->
  (geometry_ok heap_serves sb -> ext2_mount disk heap_serves dev g = Ret (true, mounted dev sb g)) /\
  (~ geometry_ok heap_serves sb -> ext2_mount disk heap_serves dev g = Panic).
Proof.
  intros Hr Ht. pose proof Ht as (Hb & Hg & Hl). unfold in_range in *.
  unfold ext2_mount, ext2_init. rewrite Hr. cbn [mbind outcome_bind]. rewrite block_size_eq by lia.
  assert (forall n, 0 <= n <= 53 -> 0 < 1024 * 2 ^ n <= 2 ^ 63) as Hpow.
  { intros n Hn. pose proof (Z.pow_le_mono_r 2 n 53 ltac:(lia) ltac:(lia)). pose proof (Z.pow_pos_nonneg 2 n ltac:(lia) ltac:(lia)). lia. }
  destruct ((log_block_size sb <=? 53) && (0 <? blocks_per_group sb) && (block_count sb + blocks_per_group sb <? 2 ^ 32)) eqn:E.
  - apply andb_prop in E as [[E1 E2]%andb_prop E3]. rewrite E1. cbn [mbind outcome_bind]. rewrite group_count_eq, E2, E3 by done.
    cbn [andb mbind outcome_bind]. pose proof (Hpow (log_block_size sb) ltac:(lia)) as Hbs.
    pose proof (div_ceil_spec (block_count sb) (blocks_per_group sb) ltac:(lia)) as Hc.
    assert (0 <= div_ceil (block_count sb) (blocks_per_group sb) < 2 ^ 32) as Hgr by nia.
    rewrite descriptor_bytes_eq by lia. replace (1024 * 2 ^ log_block_size sb =? 0) with false by lia. cbn [mbind outcome_bind].
    fold (table_bytes sb). unfold vec_zeroed. split.
    + intros [_ _ _ H1 H2]. replace (table_bytes sb <=? isize_max) with true by lia. rewrite <- Z.eqb_eq in H2.
      by rewrite (proj2 (orb_true_iff _ _) H2).
    + intros Hn. destruct (_ && _) eqn:Ev; [|done]. apply andb_prop in Ev as [H1 H2%orb_true_iff]. rewrite Z.eqb_eq in H2.
      destruct Hn. by split; [lia|lia|lia|lia|].
  - split; [intros [H1 H2 H3 _ _]; exfalso; lia|]. intros _. destruct (log_block_size sb <=? 53) eqn:E1; cbn [mbind outcome_bind].
    + rewrite group_count_eq by done. cbn [andb] in E. by rewrite E.
    + case_if; [|done]. cbn [mbind outcome_bind]. rewrite group_count_eq by done. case_if; [|done]. cbn [mbind outcome_bind].
      pose proof (div_ceil_spec (block_count sb) (blocks_per_group sb) ltac:(lia)) as Hc.
      rewrite descriptor_bytes_eq; [done|nia|lia].
Qed.
End Verdict.

(** C34: mounting is decided by what the device returns: a superblock with a
    wrong magic number is refused and nothing changes; one with the right
    number and a survivable geometry is recorded together with a mount of the
    root; a geometry whose arithmetic overflows, divides by zero or asks for
    more memory than there is panics the kernel; and a device that cannot be
    read is mounted all the same, with an empty placeholder. *)
Theorem ext2_mount_verdict disk heap_serves dev g : heap_serves 1024 = true ->
  let '(ok, buffer) := first_read disk dev in
  let sb := read_packed buffer in
  (ok = true -> sb_magic sb <> 0xEF53 -> ext2_mount disk heap_serves dev g = Ret (false, g)) /\
  (ok = true -> sb_magic sb = 0xEF53 -> geometry_ok heap_serves sb ->
     ext2_mount disk heap_serves dev g = Ret (true, mounted dev sb g)) /\
  (ok = true -> sb_magic sb = 0xEF53 -> ~ geometry_ok heap_serves sb -> ext2_mount disk heap_serves dev g = Panic) /\
  (ok = false -> ext2_mount disk heap_serves dev g = Ret (true, mounted dev dummy_superblock g)).
Proof.
  intros Hh. destruct (first_read disk dev) as [ok buffer] eqn:Ed. cbv zeta.
  assert (read_superblock disk heap_serves dev =
    if negb ok then Ret (Some dummy_superblock) else
    if negb (sb_magic (read_packed buffer) =? 0xEF53) then Ret None else Ret (Some (read_packed buffer))) as Hr.
  { assert (vec_zeroed heap_serves 1024 = Ret (replicate 1024 x00)) as Hv by (unfold vec_zeroed; by rewrite Hh).
    unfold read_superblock. rewrite Hv. cbn [mbind outcome_bind]. unfold first_read in Ed. by rewrite Ed. }
  split_and!; intros ->; cbn [negb] in Hr.
  - intros Hm. rewrite (proj2 (Z.eqb_neq _ _) Hm) in Hr. unfold ext2_mount, ext2_init. by rewrite Hr.
  - intros Hm Hg. rewrite Hm in Hr. exact (proj1 (mount_superblock _ _ _ _ g Hr (read_packed_typed _)) Hg).
  - intros Hm Hg. rewrite Hm in Hr. exact (proj2 (mount_superblock _ _ _ _ g Hr (read_packed_typed _)) Hg).
  - apply mount_superblock; [done|by vm_compute|]. split; try by vm_compute. by left.
Qed.

(** With the kernel's own block driver, which reads nothing, every mount
    succeeds with the placeholder. *)
Lemma ahci_mounts_placeholder heap_serves dev g : heap_serves 1024 = true ->
  ext2_mount ahci_read_blocks heap_serves dev g = Ret (true, mounted dev dummy_superblock g).
Proof.
  intros Hh. apply mount_superblock; [unfold read_superblock, vec_zeroed; by rewrite Hh|by vm_compute|]. split; try by vm_compute. by left.
Qed.

(** The type of a file is a four-bit code, not a set of flags: a socket
    (0xC000) counts as a directory and as a regular file. *)
Lemma socket_is_directory_and_file i : mode i = 0xC000 -> is_directory i = true /\ is_regular_file i = true.
Proof. intros Hm. unfold is_directory, is_regular_file. rewrite Hm. by split. Qed.

(** ** Concrete inputs *)

(** A disk with 4 KiB blocks and one group. *)
Definition demo_sector : list byte :=
  replicate 4 x00 ++ le_bytes 4 100 ++ replicate 16 x00 ++ le_bytes 4 2 ++ replicate 4 x00 ++ le_bytes 4 8192 ++
  replicate 20 x00 ++ le_bytes 2 0xEF53 ++ replicate 966 x00.
Definition demo_disk (dev lba count : Z) (buffer : list byte) : bool * list byte := (true, demo_sector).

Lemma ext2_mount_verdict_witness :
  exists g, ext2_mount demo_disk (fun n => n <=? 102400) 1 fs_initial = Ret (true, g) /\
    fs_block_size <$> EXT2_FS g = Some 4096 /\ MOUNTS g = [mkMount 1 FsExt2 (str "/") 2].
Proof.
  pose proof (ext2_mount_verdict demo_disk (fun n => n <=? 102400) 1 fs_initial eq_refl) as Hv.
  destruct Hv as (_ & Hv & _). eexists. split; [apply Hv; [reflexivity|by vm_compute|split; first [by vm_compute|right; by vm_compute]]|]. by vm_compute.
Defined.
