(* ===== verification/Services.v ===== *)
(** * Security contexts, services and the network state
    ([kernel/src/security/mod.rs], [userland/service-manager/src/lib.rs],
    [kernel/src/drivers/net.rs])

    Three small state holders.  The log lines they print are kept only where
    they are the operation's result ([list]). *)

From S2P Require Import Prelude Utf8.

(** ** Security *)

Module Security.

Record Capabilities := mkCaps {
  can_read : bool; can_write : bool; can_exec : bool; can_network : bool; can_admin : bool }.

Definition full : Capabilities := mkCaps true true true true true.
Definition basic : Capabilities := mkCaps true true true false false.
Definition restricted : Capabilities := mkCaps true false false false false.

Record SecurityContext := mkContext { uid : Z; gid : Z; caps : Capabilities; is_privileged : bool }.

(** [CURRENT_CONTEXT]. *)
Abbreviation State := (option SecurityContext).

Definition security_init (g : State) : State := Some (mkContext 0 0 full true).

Definition set_context (u i : Z) (c : Capabilities) (g : State) : State := Some (mkContext u i c (u =? 0)).

Definition check_capability (cap : list byte) (g : State) : bool :=
  match g with
  | Some ctx =>
      if bool_decide (cap = str "read") then can_read (caps ctx)
      else if bool_decide (cap = str "write") then can_write (caps ctx)
      else if bool_decide (cap = str "exec") then can_exec (caps ctx)
      else if bool_decide (cap = str "network") then can_network (caps ctx)
      else if bool_decide (cap = str "admin") then can_admin (caps ctx)
      else false
  | None => false
  end.

Definition get_uid (g : State) : Z := match g with Some ctx => uid ctx | None => 0 end.

Definition authenticate (username password : list byte) (g : State) : bool := true.

(** The order of the predefined sets. *)
Definition grants (c : Capabilities) : list (list byte) :=
  (if can_read c then [str "read"] else []) ++ (if can_write c then [str "write"] else []) ++
  (if can_exec c then [str "exec"] else []) ++ (if can_network c then [str "network"] else []) ++
  (if can_admin c then [str "admin"] else []).

(** After a context is set, exactly its capabilities are granted, whatever
    the name asked for. *)
Lemma check_set_context u i c g cap : check_capability cap (set_context u i c g) = bool_decide (cap ∈ grants c).
Proof.
  apply eq_true_iff_eq. rewrite bool_decide_eq_true. cbn [check_capability set_context caps].
  destruct c as [[] [] [] [] []]; unfold grants; cbn [can_read can_write can_exec can_network can_admin app];
    repeat case_bool_decide; subst; rewrite ?elem_of_cons, ?elem_of_nil; naive_solver.
Qed.

Lemma predefined_nested : grants restricted ⊆ grants basic /\ grants basic ⊆ grants full.
Proof. split; intros x; unfold grants; cbn; rewrite !elem_of_cons, !elem_of_nil; naive_solver. Qed.

(** Before initialisation every capability is refused, yet the user is
    root. *)
Lemma uninitialised_is_root cap : check_capability cap None = false /\ get_uid None = 0.
Proof. done. Qed.
End Security.

(** ** The service manager *)

Module Manager.

Inductive ServiceStatus := Stopped | Running | Failed.

Record Service := mkService { name : list byte; description : list byte; status : ServiceStatus; auto_start : bool }.

Definition set_status (t : ServiceStatus) (s : Service) : Service := mkService (name s) (description s) t (auto_start s).

(** [ServiceManager]: its services, in order of registration. *)
Abbreviation ServiceManager := (list Service).
Definition manager_new : ServiceManager := [].

Definition register (s : Service) (m : ServiceManager) : ServiceManager := m ++ [s].

(** The loop of [start] and of [stop]: the first service of this name. *)
Fixpoint set_first (n : list byte) (t : ServiceStatus) (m : ServiceManager) : bool * ServiceManager :=
  match m with
  | [] => (false, [])
  | s :: m' =>
      if bool_decide (name s = n) then (true, set_status t s :: m')
      else let '(found, m') := set_first n t m' in (found, s :: m')
  end.

Definition start (n : list byte) (m : ServiceManager) : bool * ServiceManager := set_first n Running m.
Definition stop (n : list byte) (m : ServiceManager) : bool * ServiceManager := set_first n Stopped m.

Definition start_all (m : ServiceManager) : ServiceManager :=
  map (fun s => if auto_start s then set_status Running s else s) m.

Definition status_str (t : ServiceStatus) : list byte :=
  match t with Stopped => str "stopped" | Running => str "running" | Failed => str "failed" end.

(** The lines [list] prints. *)
Definition list_lines (m : ServiceManager) : list (list byte) :=
  str "[SRV] Services:" ::
  map (fun s => str "  - " ++ name s ++ str ": " ++ description s ++ str " (" ++ status_str (status s) ++ str ")") m.

Definition manager_main : ServiceManager :=
  let sm := register (mkService (str "network") (str "Network daemon") Stopped true) manager_new in
  let sm := register (mkService (str "logger") (str "Logging daemon") Stopped true) sm in
  start_all sm.

(** Exactly the first service of the name changes, and only its status; the
    answer says whether there is one. *)
Lemma set_first_spec n t m :
  (forall s, s ∈ m -> name s <> n) /\ set_first n t m = (false, m) \/
  exists m1 s m2, m = m1 ++ s :: m2 /\ name s = n /\ (forall s', s' ∈ m1 -> name s' <> n) /\
    set_first n t m = (true, m1 ++ set_status t s :: m2).
Proof.
  induction m as [|s m IH]; [left; split; [|done]; intros s Hs; by apply elem_of_nil in Hs|]. cbn [set_first].
  case_bool_decide as Hn.
  { right. exists [], s, m. split_and!; try done. intros s' Hs. by apply elem_of_nil in Hs. }
  destruct IH as [[Hno Heq]|(m1 & s1 & m2 & -> & Hs1 & Hno & Heq)]; rewrite Heq.
  - left. split; [|done]. intros s' [->|Hs']%elem_of_cons; [done|by apply Hno].
  - right. exists (s :: m1), s1, m2. split_and!; try done. intros s' [->|Hs']%elem_of_cons; [done|by apply Hno].
Qed.

(** Stopping what was just started succeeds and leaves it stopped. *)
Lemma start_stop n m : (start n m).1 = true -> stop n (start n m).2 = stop n m /\ (stop n m).1 = true.
Proof.
  unfold start, stop. induction m as [|s m IH]; [done|]. cbn [set_first]. case_bool_decide as Hn; cbn [fst snd].
  - intros _. cbn [set_first name set_status]. by rewrite bool_decide_eq_true_2.
  - destruct (set_first n Running m) as [found m'] eqn:E. cbn [fst snd] in *. intros Hf. destruct (IH Hf) as [IH1 IH2].
    cbn [set_first]. rewrite bool_decide_eq_false_2 by done. rewrite IH1. split; [done|].
    by destruct (set_first n Stopped m).
Qed.

(** After start-up both services run, and the listing says so. *)
Lemma main_runs : map status manager_main = [Running; Running] /\
  list_lines manager_main = [str "[SRV] Services:"; str "  - network: Network daemon (running)"; str "  - logger: Logging daemon (running)"].
Proof. done. Qed.
End Manager.

(** ** The network state *)

Module Net.
Record NetworkState := mkNet { initialized : bool }.
Definition NET_STATE : NetworkState := mkNet false.
Definition net_init (g : NetworkState) : NetworkState := mkNet true.
(** [poll] looks at the state and does nothing. *)
Definition poll (g : NetworkState) : NetworkState := if negb (initialized g) then g else g.
End Net.
