(* ===== verification/Smp.v ===== *)
(** * Processor discovery and start ([kernel/src/acpi.rs], [smp.rs])

    ACPI tables name the processors; the boot processor sends each of the
    others the start-up sequence, and each of them runs [ap_entry].  Lines of
    the serial log and pure delay loops are left out. *)

From S2P Require Import Prelude X86 Bus Arch.

(** ** The [acpi] crate *)

Inductive InterruptModel := Apic (local_apic_address : Z) | UnknownModel.

(** The local APIC identifiers of the processors. *)
Record ProcessorInfo := mkProcessorInfo { boot_processor : Z; application_processors : list Z }.
Record PlatformInfo := mkPlatformInfo { interrupt_model : InterruptModel; processor_info : option ProcessorInfo }.

Record PhysicalMapping := mkMapping { physical_start : Z; virtual_start : Z; region_length : Z; mapped_length : Z }.

(** [AcpiTables::from_rsdp] reads the tables through the handler's mappings;
    [PlatformInfo::new] extracts what the kernel uses.  Either may fail. *)
Class AcpiCrate := {
  AcpiTables : Type;
  from_rsdp : (Z -> Z -> outcome PhysicalMapping) -> Z -> outcome (option AcpiTables);
  PlatformInfo_new : AcpiTables -> option PlatformInfo }.

(** ** ACPI *)

Section Acpi.
Context {D : Type} `{Hardware D} `{VirtAddrs} `{AcpiCrate}.

(** [TurnixAcpiHandler::map_physical_region]. *)
Definition map_physical_region (phys_mem_offset physical_address size : Z) : outcome PhysicalMapping :=
  virtual_address ← virt_addr_add phys_mem_offset physical_address;
  p ← unwrap (if virtual_address =? 0 then None else Some virtual_address);
  Ret (mkMapping physical_address p size size).

Definition record_platform (info : PlatformInfo) : io D unit :=
  _ ← match interrupt_model info with
      | Apic a => update (set_lapic_address a)
      | UnknownModel => mret tt
      end;
  match processor_info info with
  | Some p =>
      _ ← update (set_boot_apic_id (boot_processor p));
      for_io (fun id => update (push_ap_apic_id id)) (application_processors p)
  | None => mret tt
  end.

Definition acpi_init (rsdp_addr phys_mem_offset : Z) : io D unit :=
  if rsdp_addr =? 0 then mret tt else
  tables ← lift (from_rsdp (map_physical_region phys_mem_offset) rsdp_addr);
  match tables with
  | Some t => match PlatformInfo_new t with Some info => record_platform info | None => mret tt end
  | None => mret tt
  end.
End Acpi.

(** ** Processors *)

Definition TRAMPOLINE_ADDR : Z := 0x8000.

Section Smp.
Context {D : Type} `{Hardware D} `{VirtAddrs} `{GdtCrate} (fuel : nat).

Definition get_cpu_count (g : Statics) : Z := CPU_COUNT g.
Definition get_bsp_cpu_id (g : Statics) : Z := BSP_CPU_ID g.

(** [read_volatile] and [write_volatile] check their pointer. *)
Definition check_ptr (a : Z) : io D unit := lift (assert_b (negb (a =? 0) && (a mod 4 =? 0))).

Definition get_current_cpu_id : io D Z :=
  g ← statics;
  match LAPIC_ADDRESS g with
  | Some lapic_base =>
      a ← lift (add_u 64 lapic_base 0x20);
      _ ← check_ptr a;
      lapic_id_reg ← perform (Read32 a);
      mret (Z.shiftr lapic_id_reg 24)
  | None => mret 0
  end.

Definition set_current_cpu_data (data : PerCpuData) (g : Statics) : Statics :=
  if cpu_id data <? Z.of_nat MAX_CPUS
  then set_smp (<[Z.to_nat (cpu_id data) := data]> (PER_CPU_AREA g)) (CPU_COUNT g) (BSP_CPU_ID g) (AP_READY g) g
  else g.

Definition get_cpu_data (id : Z) (g : Statics) : outcome PerCpuData :=
  if id <? Z.of_nat MAX_CPUS then idx (PER_CPU_AREA g) id else idx (PER_CPU_AREA g) 0.

Definition get_current_cpu_data : io D PerCpuData :=
  id ← get_current_cpu_id;
  g ← statics;
  lift (get_cpu_data id g).

Definition increment_cpu_count (g : Statics) : Statics :=
  set_smp (PER_CPU_AREA g) (wrap 32 (CPU_COUNT g + 1)) (BSP_CPU_ID g) (AP_READY g) g.
Definition set_bsp_cpu_id (id : Z) (g : Statics) : Statics :=
  set_smp (PER_CPU_AREA g) (CPU_COUNT g) id (AP_READY g) g.
Definition signal_ap_ready (g : Statics) : Statics :=
  set_smp (PER_CPU_AREA g) (CPU_COUNT g) (BSP_CPU_ID g) (wrap 32 (AP_READY g + 1)) g.

Fixpoint wait_loop (n : nat) (start timeout_us : Z) : io D Z :=
  match n with
  | O => fun _ => Loop
  | S n' =>
      g ← statics;
      let ready := AP_READY g in
      others ← lift (sub_u (get_cpu_count g) 1);
      if others <=? ready then mret ready else
      now ← perform ReadTsc;
      elapsed ← lift (sub_u now start);
      limit ← lift (mul_u 64 timeout_us 1000);
      if limit <? elapsed then mret ready else wait_loop n' start timeout_us
  end.

Definition wait_for_aps (timeout_us : Z) : io D Z :=
  start ← perform ReadTsc;
  wait_loop fuel start timeout_us.

(** Destination, command, and the wait for the delivery-status bit, which
    reads through the pointer checked before. *)
Definition send_ipi (icr_low icr_high apic_id command : Z) : io D unit :=
  _ ← check_ptr icr_high;
  _ ← tell (Write32 icr_high (wrap 32 (Z.shiftl apic_id 24)));
  _ ← check_ptr icr_low;
  _ ← tell (Write32 icr_low command);
  spin_while_set fuel icr_low (Z.shiftl 1 12).

Definition send_init_sipi_sipi (apic_id : Z) : io D bool :=
  g ← statics;
  match LAPIC_ADDRESS g with
  | None => mret false
  | Some lapic_base =>
      icr_low ← lift (add_u 64 lapic_base 0x300);
      icr_high ← lift (add_u 64 lapic_base 0x310);
      let trampoline_vec := wrap 32 (Z.shiftr TRAMPOLINE_ADDR 12) in
      let sipi := Z.lor 0x0000C600 (Z.land trampoline_vec 0xFF) in
      _ ← send_ipi icr_low icr_high apic_id 0x0000C500;
      _ ← send_ipi icr_low icr_high apic_id sipi;
      _ ← send_ipi icr_low icr_high apic_id sipi;
      mret true
  end.

Definition start_aps (ap_ids : list Z) : io D unit :=
  _ ← for_io (fun apic_id => _ ← send_init_sipi_sipi apic_id; mret tt) ap_ids;
  _ ← wait_for_aps 1000000;
  mret tt.

Definition smp_init : io D unit :=
  g ← statics;
  _ ← update (set_bsp_cpu_id (default 0 (BOOT_APIC_ID g)));
  let ap_ids := AP_APIC_IDS g in
  if (0 <? len ap_ids) then start_aps ap_ids else mret tt.

(** [ap_entry] up to its idle loop. *)
Definition ap_entry (k : Linked) (apic_id : Z) : io D unit :=
  let cpu_data := mkPerCpu apic_id 0 0 0 false in
  _ ← update (set_current_cpu_data cpu_data);
  _ ← gdt_init_for_cpu k;
  _ ← apic_init_for_cpu;
  update signal_ap_ready.
End Smp.

(** ** What is sent *)

(** The local APIC at [base] reports a command as delivered within [fuel]
    reads. *)
Class Delivers (D : Type) `{Hardware D} (fuel : nat) (base : Z) := {
  delivers : forall d v, Z.land v (2 ^ 12) = 0 -> clears fuel (respond d (Write32 (base + 0x300) v)).2 (base + 0x300) (2 ^ 12) }.

(** INIT, then twice the start-up command with page 8 of the trampoline. *)
Definition start_sequence (base id : Z) : list request :=
  let to := Write32 (base + 0x310) (wrap 32 (id * 2 ^ 24)) in
  [to; Write32 (base + 0x300) 0xC500; to; Write32 (base + 0x300) 0xC608; to; Write32 (base + 0x300) 0xC608].

(** What the tables say, as the statics record it. *)
Definition platform_statics (info : PlatformInfo) (g : Statics) : Statics :=
  let g := match interrupt_model info with Apic a => set_lapic_address a g | UnknownModel => g end in
  match processor_info info with
  | Some p => fold_left (fun g id => push_ap_apic_id id g) (application_processors p) (set_boot_apic_id (boot_processor p) g)
  | None => g
  end.

Section Proofs.
Context {D : Type} `{Hardware D} `{VirtAddrs}.

(** From [s]: the writes made, the statics. *)
Definition did (s0 : Io D) (l : list request) (g : Statics) (s : Io D) : Prop := wrote s0 s l /\ st s = g.

Lemma wp_for_update {A} (f : A -> Statics -> Statics) l s0 w g s (Q : unit -> Io D -> Prop) : did s0 w g s ->
  (forall s', did s0 w (fold_left (fun g x => f x g) l g) s' -> Q tt s') -> wp (for_io (fun x => update (f x)) l) s Q.
Proof.
  revert g s. induction l as [|x l IH]; intros g s [Hw Hg] HQ; cbn [for_io fold_left] in *; [by apply wp_ret, HQ|].
  apply wp_bind, wp_update. apply (IH (f x g)); [|done]. split; [exact Hw|]. cbn [st]. by rewrite Hg.
Qed.

Lemma wp_record_platform info s0 w g s (Q : unit -> Io D -> Prop) : did s0 w g s ->
  (forall s', did s0 w (platform_statics info g) s' -> Q tt s') -> wp (record_platform info) s Q.
Proof.
  intros Hd HQ. unfold record_platform, platform_statics in *. apply wp_bind.
  set (g1 := match interrupt_model info with Apic a => set_lapic_address a g | UnknownModel => g end) in *.
  assert (forall P : unit -> Io D -> Prop, (forall s', did s0 w g1 s' -> P tt s') ->
    wp (match interrupt_model info with Apic a => update (set_lapic_address a) | UnknownModel => mret tt end) s P) as Hmod.
  { intros P HP. destruct Hd as [Hw Hg]. subst g1. destruct (interrupt_model info).
    - apply wp_update, HP. split; [exact Hw|]. cbn [st]. by rewrite Hg.
    - apply wp_ret, HP. by split. }
  apply Hmod. intros s1 [Hw1 Hg1]. destruct (processor_info info) as [p|]; [|by apply wp_ret, HQ].
  apply wp_bind, wp_update. eapply (wp_for_update push_ap_apic_id); [|exact HQ].
  split; [exact Hw1|]. cbn [st]. by rewrite Hg1.
Qed.

Lemma wp_send_ipi fuel base `{!Delivers D fuel base} id command s0 l g s (Q : unit -> Io D -> Prop) : did s0 l g s ->
  Z.land command (2 ^ 12) = 0 -> 0 <= base -> base mod 4 = 0 ->
  (forall s', did s0 (l ++ [Write32 (base + 0x310) (wrap 32 (id * 2 ^ 24)); Write32 (base + 0x300) command]) g s' -> Q tt s') ->
  wp (send_ipi fuel (base + 0x300) (base + 0x310) id command) s Q.
Proof.
  intros [Hw Hg] Hc Hpos Hal HQ. unfold send_ipi. rewrite (Z.shiftl_mul_pow2 id) by lia. change (Z.shiftl 1 12) with (2 ^ 12).
  assert (forall k, 0 < k -> k mod 4 = 0 -> assert_b (negb (base + k =? 0) && ((base + k) mod 4 =? 0)) = Ret tt) as Hptr.
  { intros k Hk Hm. replace ((base + k) mod 4) with 0 by (rewrite Z.add_mod, Hal, Hm by lia; done).
    by replace (base + k =? 0) with false by lia. }
  unfold check_ptr. apply wp_bind. eapply wp_lift; [by apply Hptr|]. apply wp_bind, wp_tell.
  apply wp_bind. eapply wp_lift; [by apply Hptr|]. apply wp_bind, wp_tell. eapply wp_spin; [by apply delivers|]. intros s' Hr. apply HQ. split.
  - eapply wrote_reads; [|exact Hr].
    pose proof (wrote_step _ _ _ (Write32 (base + 0x300) command) (wrote_step _ _ _ (Write32 (base + 0x310) (wrap 32 (id * 2 ^ 24))) Hw))
      as Hw2. cbn [is_write] in Hw2. rewrite <- app_assoc in Hw2. exact Hw2.
  - destruct Hr as (vs & _ & -> & _). exact Hg.
Qed.

Lemma wp_send_start fuel base `{!Delivers D fuel base} id s0 l g s (Q : bool -> Io D -> Prop) : did s0 l g s ->
  LAPIC_ADDRESS g = Some base -> base + 0x310 < 2 ^ 64 -> 0 <= base -> base mod 4 = 0 ->
  (forall s', did s0 (l ++ start_sequence base id) g s' -> Q true s') -> wp (send_init_sipi_sipi fuel id) s Q.
Proof.
  intros Hd Hb Hlt Hpos Hal HQ. unfold send_init_sipi_sipi. apply wp_bind, wp_statics. pose proof (proj2 Hd) as Hst. rewrite Hst, Hb.
  apply wp_bind. eapply wp_lift; [apply add_u_Ret; lia|]. apply wp_bind. eapply wp_lift; [apply add_u_Ret; lia|].
  cbv zeta. apply wp_bind. eapply (wp_send_ipi fuel base); [exact Hd|done|done|done|]. intros s1 Hd1.
  apply wp_bind. eapply (wp_send_ipi fuel base); [exact Hd1|done|done|done|]. intros s2 Hd2.
  apply wp_bind. eapply (wp_send_ipi fuel base); [exact Hd2|done|done|done|]. intros s3 Hd3. apply wp_ret, HQ.
  rewrite <- !app_assoc in Hd3. exact Hd3.
Qed.

Lemma wp_start_aps fuel base `{!Delivers D fuel base} ids s0 l g s (Q : unit -> Io D -> Prop) : did s0 l g s ->
  LAPIC_ADDRESS g = Some base -> base + 0x310 < 2 ^ 64 -> 0 <= base -> base mod 4 = 0 -> CPU_COUNT g = 1 -> 0 <= AP_READY g -> (0 < fuel)%nat ->
  (forall s', did s0 (l ++ concat (map (start_sequence base) ids)) g s' -> Q tt s') -> wp (start_aps fuel ids) s Q.
Proof.
  intros Hd Hb Hlt Hpos Hal Hone Hr Hf HQ. unfold start_aps. apply wp_bind.
  apply (wp_for (fun done s' => did s0 (l ++ concat (map (start_sequence base) done)) g s')).
  - by rewrite app_nil_r.
  - intros l1 id l2 s1 _ Hd1. apply wp_bind. eapply (wp_send_start fuel base); [exact Hd1|done..|]. intros s2 Hd2. apply wp_ret.
    rewrite map_app, concat_app. cbn [map concat]. by rewrite app_nil_r, app_assoc.
  - intros s1 Hd1. apply wp_bind. unfold wait_for_aps. apply wp_bind, wp_perform.
    destruct fuel as [|fuel]; [lia|]. cbn [wait_loop]. destruct Hd1 as [Hw1 Hg1].
    apply wp_bind, wp_statics. cbn [io_step st]. rewrite Hg1. unfold get_cpu_count. rewrite Hone.
    apply wp_bind. eapply (wp_lift _ 0); [reflexivity|]. rewrite (proj2 (Z.leb_le _ _) Hr). apply wp_ret, wp_ret, HQ.
    split; [exact (wrote_step _ _ _ ReadTsc Hw1)|done].
Qed.
End Proofs.

Lemma push_ids ids g : let g' := fold_left (fun g id => push_ap_apic_id id g) ids g in
  AP_APIC_IDS g' = AP_APIC_IDS g ++ ids /\ LAPIC_ADDRESS g' = LAPIC_ADDRESS g /\ BOOT_APIC_ID g' = BOOT_APIC_ID g /\
  CPU_COUNT g' = CPU_COUNT g /\ AP_READY g' = AP_READY g.
Proof.
  revert g. induction ids as [|id ids IH]; intros g; cbn [fold_left]; [by rewrite app_nil_r|].
  destruct (IH (push_ap_apic_id id g)) as (-> & -> & -> & -> & ->). cbn. by rewrite <- app_assoc.
Qed.

(** The first command to a processor fails when the controller's address is
    not a multiple of four. *)
Lemma misaligned_start_panics {D} `{Hardware D} fuel base id ids (s : Io D) : LAPIC_ADDRESS (st s) = Some base ->
  0 <= base -> base + 0x310 < 2 ^ 64 -> base mod 4 <> 0 -> start_aps fuel (id :: ids) s = Panic.
Proof.
  intros Hb Hpos Hlt Hal. unfold start_aps, for_io, send_init_sipi_sipi, send_ipi, check_ptr, lift, statics, mbind, io_bind.
  rewrite Hb, !add_u_Ret by lia.
  replace (negb (base + 0x310 =? 0) && ((base + 0x310) mod 4 =? 0)) with false; [done|].
  symmetry. apply andb_false_iff. right. apply Z.eqb_neq. replace (base + 0x310) with (base + 196 * 4) by lia.
  by rewrite Z.mod_add by lia.
Qed.

(** Start-up on a platform with processors to start. *)
Lemma wp_platform_start {D} `{Hardware D} `{VirtAddrs} `{AcpiCrate} fuel base `{!Delivers D fuel base}
    rsdp off t bsp aps (s : Io D) :
  rsdp <> 0 -> from_rsdp (map_physical_region off) rsdp = Ret (Some t) ->
  PlatformInfo_new t = Some (mkPlatformInfo (Apic base) (Some (mkProcessorInfo bsp aps))) ->
  base + 0x310 < 2 ^ 64 -> 0 <= base -> (0 < fuel)%nat ->
  AP_APIC_IDS (st s) = [] -> CPU_COUNT (st s) = 1 -> AP_READY (st s) = 0 ->
  if (base mod 4 =? 0) || bool_decide (aps = []) then
    wp (_ ← acpi_init rsdp off; smp_init fuel) s (fun _ s' =>
      wrote s s' (concat (map (start_sequence base) aps)) /\
      BSP_CPU_ID (st s') = bsp /\ AP_APIC_IDS (st s') = aps /\ CPU_COUNT (st s') = 1 /\ AP_READY (st s') = 0)
  else (_ ← acpi_init rsdp off; smp_init fuel) s = Panic.
Proof.
  intros Hr Ht Hi Hlt Hpos Hf Hids Hone Hready. destruct ((base mod 4 =? 0) || bool_decide (aps = [])) eqn:Ecase.
  2: { apply orb_false_iff in Ecase as [Hal%Z.eqb_neq Hne%bool_decide_eq_false]. destruct aps as [|id ids]; [done|].
       assert (wp (acpi_init rsdp off) s (fun _ s' => st s' =
         fold_left (fun g id => push_ap_apic_id id g) (id :: ids) (set_boot_apic_id bsp (set_lapic_address base (st s)))))
         as ([] & s1 & E & Hs1).
       { unfold acpi_init. rewrite (proj2 (Z.eqb_neq _ _) Hr). apply wp_bind. eapply wp_lift; [exact Ht|]. cbv beta iota. rewrite Hi.
         eapply wp_record_platform; [by split; [apply (wrote_refl s)|]|]. by intros s1 [_ Hs1]. }
       unfold mbind at 1, io_bind at 1. rewrite E. unfold smp_init, mbind, io_bind, statics, update. rewrite Hs1.
       destruct (push_ids (id :: ids) (set_boot_apic_id bsp (set_lapic_address base (st s)))) as (Hg1 & Hg2 & _). cbv zeta in *.
       cbn [set_boot_apic_id set_lapic_address AP_APIC_IDS LAPIC_ADDRESS] in Hg1, Hg2. rewrite Hg1, Hids.
       cbn [app]. assert (0 <? len (id :: ids) = true) as -> by (apply Z.ltb_lt; unfold len; cbn [length]; lia).
       by apply (misaligned_start_panics fuel base). }
  assert (aps <> [] -> base mod 4 = 0) as Hal. { intros Hne. apply orb_true_iff in Ecase as [E|E%bool_decide_eq_true]; [lia|done]. }
  apply wp_bind. unfold acpi_init. rewrite (proj2 (Z.eqb_neq _ _) Hr).
  apply wp_bind. eapply wp_lift; [exact Ht|]. cbv beta iota. rewrite Hi.
  eapply wp_record_platform; [by split; [apply (wrote_refl s)|]|]. intros s1 Hd1.
  set (g0 := set_boot_apic_id bsp (set_lapic_address base (st s))).
  destruct (push_ids aps g0) as (Hg1 & Hg2 & Hg3 & Hg4 & Hg5). cbv zeta in *.
  set (g := fold_left (fun g id => push_ap_apic_id id g) aps g0) in *.
  change (platform_statics _ (st s)) with g in Hd1. unfold g0 in Hg1, Hg2, Hg3, Hg4, Hg5.
  cbn [set_boot_apic_id set_lapic_address AP_APIC_IDS LAPIC_ADDRESS BOOT_APIC_ID CPU_COUNT AP_READY] in *.
  rewrite Hids in Hg1. cbn [app] in Hg1. unfold smp_init. apply wp_bind, wp_statics. destruct Hd1 as [Hw1 Hs1]. rewrite Hs1.
  apply wp_bind, wp_update. rewrite Hs1, Hg1, Hg3. cbn [default].
  assert (did s [] (set_bsp_cpu_id bsp g) (mkIo (dev s1) (newest s1) (set_bsp_cpu_id bsp g))) as Hd2 by (by split).
  cbv zeta. destruct (0 <? len aps) eqn:El.
  - eapply (wp_start_aps fuel base); [exact Hd2|exact Hg2|done|done|apply Hal; by intros ->|cbn; congruence|cbn; lia|done|]. intros s2 [Hw2 ->].
    cbn [set_bsp_cpu_id set_smp BSP_CPU_ID AP_APIC_IDS CPU_COUNT AP_READY]. by rewrite Hg1, Hg4, Hg5.
  - destruct aps; [|done]. apply wp_ret. cbn [st set_bsp_cpu_id set_smp BSP_CPU_ID AP_APIC_IDS CPU_COUNT AP_READY].
    rewrite Hg1, Hg4, Hg5. by split; [apply Hd2|].
Qed.

(** C40: when the ACPI tables name an APIC at [base], a boot processor and
    application processors, start-up returns having sent exactly the INIT and
    two start-up commands (trampoline page 8) to each application processor,
    in the order of the tables, and having recorded the boot processor; and it
    does not wait for them: the processor count stays 1 and no counter
    moves.  An address that is not a multiple of four fails the pointer check
    of the first write instead, when there is a processor to start. *)
Theorem smp_starts_listed_processors {D} `{Hardware D} `{VirtAddrs} `{AcpiCrate} fuel base `{!Delivers D fuel base}
    rsdp off t bsp aps (s : Io D) :
  rsdp <> 0 -> from_rsdp (map_physical_region off) rsdp = Ret (Some t) ->
  PlatformInfo_new t = Some (mkPlatformInfo (Apic base) (Some (mkProcessorInfo bsp aps))) ->
  base + 0x310 < 2 ^ 64 -> 0 <= base -> (0 < fuel)%nat ->
  AP_APIC_IDS (st s) = [] -> CPU_COUNT (st s) = 1 -> AP_READY (st s) = 0 ->
  if (base mod 4 =? 0) || bool_decide (aps = []) then
    wp (_ ← acpi_init rsdp off; smp_init fuel) s (fun _ s' =>
      wrote s s' (concat (map (start_sequence base) aps)) /\
      BSP_CPU_ID (st s') = bsp /\ AP_APIC_IDS (st s') = aps /\ CPU_COUNT (st s') = 1 /\ AP_READY (st s') = 0)
  else (_ ← acpi_init rsdp off; smp_init fuel) s = Panic.
Proof. intros. by eapply (wp_platform_start fuel base). Qed.

(** An application processor that has run [ap_entry] has its own record in
    the per-CPU table when its identifier is below 256, and is counted as
    ready; the processor count does not move. *)
Lemma ap_entry_spec {D} `{Hardware D} `{!ApicBase D} `{VirtAddrs} `{GdtCrate} k id (s : Io D) :
  let b := apic_base (dev s) in
  canonical (per_cpu_addr k) -> canonical (apic_addr b) -> apic_addr b + 0xF0 < 2 ^ 64 -> 0 <= id ->
  wp (ap_entry k id) s (fun _ s' =>
    PER_CPU_AREA (st s') = (if id <? 256 then <[Z.to_nat id := mkPerCpu id 0 0 0 false]> (PER_CPU_AREA (st s))
                            else PER_CPU_AREA (st s)) /\
    CPU_COUNT (st s') = CPU_COUNT (st s) /\ AP_READY (st s') = wrap 32 (AP_READY (st s) + 1)).
Proof.
  intros b Hk Hb Hlt Hid. unfold ap_entry. apply wp_bind, wp_update. cbv zeta.
  set (g := set_current_cpu_data _ _). set (s1 := mkIo _ _ _).
  assert (after s1 [] b g s1) as Ha by (split; [apply wrote_refl|done|done]).
  apply wp_bind. eapply wp_gdt_init_for_cpu; [exact Ha|done|]. intros s2 Ha2.
  apply wp_bind. unfold apic_init_for_cpu. apply wp_bind. eapply wp_get_base_addr; [exact Ha2|done|]. intros s3 Ha3.
  unfold LocalApic_initialize, LocalApic_read. apply wp_bind, wp_bind. eapply wp_lift; [apply add_u_Ret; lia|].
  apply wp_perform. eapply (after_step _ _ _ _ _ (Read32 (apic_addr b + 0xF0))) in Ha3; [|done]. cbn [is_write] in Ha3.
  eapply wp_lapic_write; [exact Ha3|lia|]. intros s4 [_ _ Hg4]. apply wp_update. cbn [st]. rewrite Hg4. subst g.
  unfold set_current_cpu_data. cbn [cpu_id]. change (Z.of_nat MAX_CPUS) with 256.
  destruct (id <? 256); by split_and!.
Qed.

(** ** Concrete inputs *)

#[global] Instance bench_delivers base : Delivers bench 1 base.
Proof.
  refine {| delivers := _ |}. intros d v Hv. left. cbn [respond bench_hardware fst snd mmio]. unfold bench_put.
  by rewrite Z.eqb_refl.
Defined.

Definition demo_platform : PlatformInfo := mkPlatformInfo (Apic 0xFEE00000) (Some (mkProcessorInfo 0 [1; 2; 3])).

Definition demo_acpi : AcpiCrate := {|
  AcpiTables := PlatformInfo;
  from_rsdp handler rsdp := Ret (Some demo_platform);
  PlatformInfo_new t := Some t |}.

Lemma smp_starts_listed_processors_witness :
  exists s', (_ ← acpi_init (H1 := demo_acpi) 0xE0000 0xffff800000000000; smp_init 1) demo_io = Ret (tt, s') /\
    CPU_COUNT (st s') = 1 /\ AP_APIC_IDS (st s') = [1; 2; 3].
Proof.
  destruct (smp_starts_listed_processors (H1 := demo_acpi) 1 0xFEE00000 0xE0000 0xffff800000000000 demo_platform 0 [1; 2; 3] demo_io)
    as (u & s' & Hr & _ & _ & Hids & Hone & _); [lia|reflexivity|reflexivity|lia|lia|lia|reflexivity..|].
  destruct u. exists s'. split; [exact Hr|by split].
Defined.
