(* ===== verification/Interrupts.v ===== *)
(** * Interrupt handlers ([kernel/src/interrupts/mod.rs])

    The Rust halves of the timer, yield, keyboard and fault handlers, over the
    scheduler, the terminal and the local APIC. *)

From S2P Require Import Prelude Utf8 X86 Tty Context Sched Bus Arch.

(** The [pc_keyboard] crate: a scancode may complete a key event, which may
    be a character or another key; characters are Unicode scalar values. *)
Inductive DecodedKey := Unicode (c : Z) | RawKey.

Class Keyboard (K : Type) := {
  KeyEvent : Type;
  add_byte : K -> Z -> result unit (option KeyEvent) * K;
  process_keyevent : K -> KeyEvent -> option DecodedKey * K;
  decoded_scalar : forall k e c k', process_keyevent k e = (Some (Unicode c), k') -> scalar c }.

(** The state the keyboard interrupt works on. *)
Record Input (D K C : Type) := mkInput {
  in_io : Io D; KEYBOARD : K; TTY : Tty; CONSOLE : option C; KEYBOARD_BUFFER : list Z }.
Arguments mkInput {D K C}. Arguments in_io {D K C}. Arguments KEYBOARD {D K C}. Arguments TTY {D K C}.
Arguments CONSOLE {D K C}. Arguments KEYBOARD_BUFFER {D K C}.

Section Handlers.
Context {D : Type} `{Hardware D} `{VirtAddrs}.

(** [LAPIC.lock().signal_eoi()]. *)
Definition signal_eoi : io D unit := base ← lapic_lock; LocalApic_signal_eoi base.

Definition timer_interrupt_handler_inner (locked : bool) (stack_ptr : Z) (s : Io D) (k : Sys)
    : outcome (Z * Io D * Sys) :=
  '(_, s) ← signal_eoi s;
  '(next_stack, k) ← timer_tick locked stack_ptr k;
  Ret (next_stack, s, k).

Definition yield_interrupt_handler_inner (locked : bool) (stack_ptr : Z) (k : Sys) : outcome (Z * Sys) :=
  timer_tick locked stack_ptr k.

(** The key a scancode completes, if any. *)
Definition decode_key {K} `{Keyboard K} (k : K) (scancode : Z) : option DecodedKey * K :=
  match add_byte k scancode with
  | (Ok (Some key_event), k) => process_keyevent k key_event
  | (_, k) => (None, k)
  end.

Definition keyboard_interrupt_handler {K C} `{Keyboard K} `{Console C} (s : Input D K C) : outcome (Input D K C) :=
  '(scancode, io) ← perform (In8 0x60) (in_io s);
  let '(key, k) := decode_key (KEYBOARD s) scancode in
  '(tty, con, buffer) ←
    match key with
    | Some (Unicode character) =>
        '(tty, con) ← handle_input (TTY s) (CONSOLE s) character;
        Ret (tty, con, add_char (KEYBOARD_BUFFER s) character)
    | Some RawKey | None => Ret (TTY s, CONSOLE s, KEYBOARD_BUFFER s)
    end;
  '(_, io) ← signal_eoi io;
  Ret (mkInput io k tty con buffer).

(** The faults: a user task (by the privilege bits of the saved [CS]) is
    ended, in the kernel they are fatal. *)
Definition page_fault_handler (code_segment sp : Z) (k : Sys) : outcome (Z * Sys) :=
  if Z.land code_segment 0x3 =? 0x3 then exit_current_task sp k else Panic.
Definition gpf_handler (code_segment sp : Z) (k : Sys) : outcome (Z * Sys) :=
  if Z.land code_segment 0x3 =? 0x3 then exit_current_task sp k else Panic.
Definition double_fault_handler (k : Sys) : outcome (Z * Sys) := Panic.

(** ** Lemmas *)

Lemma signal_eoi_ok base s : LAPIC (st s) = Some base -> base + 0xB0 < 2 ^ 64 ->
  signal_eoi s = Ret (tt, io_step s (Write32 (base + 0xB0) 0)).
Proof.
  intros Hb Hlt. unfold signal_eoi, lapic_lock, LocalApic_signal_eoi, LocalApic_write, tell, statics, lift.
  unfold mbind, io_bind, mret, io_ret. rewrite Hb. rewrite add_u_Ret by done. done.
Qed.

Section Typing.
Context {K C : Type} `{Keyboard K} `{TotalConsole C}.

(** The characters typed by a sequence of scancodes. *)
Fixpoint typed (k : K) (codes : list Z) : list Z :=
  match codes with
  | [] => []
  | code :: codes =>
      let '(key, k') := decode_key k code in
      match key with Some (Unicode c) => c :: typed k' codes | _ => typed k' codes end
  end.

Lemma decode_key_scalar k code c k' : decode_key k code = (Some (Unicode c), k') -> scalar c.
Proof.
  unfold decode_key. destruct (add_byte k code) as [[[e|]|[]] k1]; try done. apply decoded_scalar.
Qed.

Lemma typed_scalar k codes : Forall scalar (typed k codes).
Proof.
  revert k. induction codes as [|code codes IH]; intros k; cbn [typed]; [by apply Forall_nil|].
  destruct (decode_key k code) as [[[c|]|] k'] eqn:E; try apply IH.
  apply Forall_cons. split; [exact (decode_key_scalar _ _ _ _ E)|apply IH].
Qed.

Definition handle_interrupts (n : nat) (s : Input D K C) : outcome (Input D K C) :=
  for_each (fun s _ => keyboard_interrupt_handler s) (replicate n tt) s.

(** The accesses of an interrupt that read [code]; [ack] is the answer to the
    acknowledgement. *)
Definition interrupt_log (base : Z) (e : Z * Z) : list event :=
  [(In8 0x60, e.1); (Write32 (base + 0xB0) 0, e.2)].

(** One interrupt, whatever the keyboard answers. *)
Lemma keyboard_interrupt_step base s : LAPIC (st (in_io s)) = Some base -> base + 0xB0 < 2 ^ 64 -> con_opt_ok (CONSOLE s) ->
  let code := (respond (dev (in_io s)) (In8 0x60)).1 in
  let key := (decode_key (KEYBOARD s) code).1 in
  let keys := match key with Some (Unicode c) => [c] | _ => [] end in
  exists tty con, type_keys keys (TTY s, CONSOLE s) = Ret (tty, con) /\ con_opt_ok con /\
    keyboard_interrupt_handler s = Ret (mkInput (io_step (io_step (in_io s) (In8 0x60)) (Write32 (base + 0xB0) 0))
      (decode_key (KEYBOARD s) code).2 tty con (foldl add_char (KEYBOARD_BUFFER s) keys)).
Proof.
  intros Hb Hlt Hc code key keys. unfold keyboard_interrupt_handler, perform. cbn [mbind outcome_bind]. fold code.
  subst keys key. destruct (decode_key (KEYBOARD s) code) as [key k] eqn:E. cbn [fst snd].
  set (io1 := io_step (in_io s) (In8 0x60)). pose proof (signal_eoi_ok base io1 Hb Hlt) as Heoi.
  destruct key as [[c|]|]; [|by exists (TTY s), (CONSOLE s); rewrite Heoi..].
  assert (scalar c) as Hs by exact (decode_key_scalar _ _ _ _ E).
  assert (exists tty con, handle_input (TTY s) (CONSOLE s) c = Ret (tty, con) /\ con_opt_ok con) as (tty & con & Hh & Hok).
  { destruct (is_newline c) eqn:En.
    - destruct (handle_input_newline (TTY s) (CONSOLE s) c Hc En) as (con & -> & Hok). by eexists _, _.
    - destruct (handle_input_key (TTY s) (CONSOLE s) c Hc Hs En) as (con & -> & Hok). by eexists _, _. }
  exists tty, con. unfold type_keys. cbn [for_each fst snd]. rewrite Hh. cbn [mbind outcome_bind]. by rewrite Heoi.
Qed.
Lemma handle_interrupts_spec base n s : LAPIC (st (in_io s)) = Some base -> base + 0xB0 < 2 ^ 64 -> con_opt_ok (CONSOLE s) ->
  exists s' evs, handle_interrupts n s = Ret s' /\ length evs = n /\
    log (in_io s') = log (in_io s) ++ concat (map (interrupt_log base) evs) /\
    type_keys (typed (KEYBOARD s) (map fst evs)) (TTY s, CONSOLE s) = Ret (TTY s', CONSOLE s') /\
    KEYBOARD_BUFFER s' = foldl add_char (KEYBOARD_BUFFER s) (typed (KEYBOARD s) (map fst evs)).
Proof.
  unfold handle_interrupts, type_keys. revert s. induction n as [|n IH]; intros s Hb Hlt Hc; cbn [replicate for_each].
  { exists s, []. split_and!; try done. by rewrite app_nil_r. }
  destruct (keyboard_interrupt_step base s Hb Hlt Hc) as (tty & con & Ht & Hok & ->). cbn [mbind outcome_bind].
  set (code := (respond (dev (in_io s)) (In8 0x60)).1) in *.
  set (s1 := mkInput _ _ _ _ _). destruct (IH s1 Hb Hlt Hok) as (s' & evs & -> & Hn & Hl & Hk & Hbuf).
  set (ack := (respond (dev (io_step (in_io s) (In8 0x60))) (Write32 (base + 0xB0) 0)).1).
  exists s', ((code, ack) :: evs). cbn [length map concat]. split_and!; [done|by rewrite Hn| |..].
  - rewrite Hl. cbn [in_io s1]. rewrite !log_step, <- !app_assoc. done.
  - cbn [typed fst]. unfold type_keys in Ht. cbn [KEYBOARD TTY CONSOLE s1] in Hk.
    destruct (decode_key (KEYBOARD s) code) as [[[c|]|] k'] eqn:E; cbn [fst snd] in *; cbn [for_each] in *;
      [|by injection Ht as -> ->..].
    destruct (handle_input _ _ c) as [[tty1 con1]| |]; try done. cbn [mbind outcome_bind] in *. by injection Ht as -> ->.
  - rewrite Hbuf. cbn [typed fst KEYBOARD KEYBOARD_BUFFER s1].
    by destruct (decode_key (KEYBOARD s) code) as [[[c|]|] k'].
Qed.

Lemma add_chars buf cs : len buf <= 128 -> foldl add_char buf cs = take 128 (buf ++ cs).
Proof.
  revert buf. induction cs as [|c cs IH]; intros buf Hb; cbn [foldl]; unfold len in *.
  { rewrite app_nil_r, take_ge by lia. done. }
  unfold add_char at 2, len. destruct (Z.ltb_spec (Z.of_nat (length buf)) 128) as [Hlt|Hge].
  - rewrite IH by (rewrite length_app; simpl; lia). by rewrite <- app_assoc.
  - rewrite IH by lia. by rewrite !take_app_le by lia.
Qed.
End Typing.
End Handlers.

(** C16: from an empty terminal, any number of keyboard interrupts, whatever
    scancodes the controller delivers, is handled without fault: each reads
    the port once and acknowledges the local APIC once, in this order; the
    terminal then holds exactly the finished lines of the characters the
    scancodes decode to, edited by their backspaces, and the line being typed;
    and the raw buffer holds these characters up to its limit of 128. *)
Theorem keyboard_interrupts_typed {D K C} `{Hardware D} `{VirtAddrs} `{Keyboard K} `{TotalConsole C} n base (s : Input D K C) :
  LAPIC (st (in_io s)) = Some base -> base + 0xB0 < 2 ^ 64 -> con_opt_ok (CONSOLE s) ->
  TTY s = Tty.new -> len (KEYBOARD_BUFFER s) <= 128 ->
  exists s' evs, handle_interrupts n s = Ret s' /\ length evs = n /\
    log (in_io s') = log (in_io s) ++ concat (map (interrupt_log base) evs) /\
    let chars := typed (KEYBOARD s) (map fst evs) in
    let '(lines, last) := split_keys chars in
    TTY s' = mkTty (edit_line last) (map (fun l => edit_line l ++ [10]) lines) /\
    KEYBOARD_BUFFER s' = take 128 (KEYBOARD_BUFFER s ++ chars).
Proof.
  intros Hb Hlt Hc Ht Hbuf. destruct (handle_interrupts_spec base n s Hb Hlt Hc) as (s' & evs & Hr & Hn & Hl & Hk & Hb').
  exists s', evs. split_and!; try done. cbv zeta. rewrite add_chars in Hb' by done. rewrite Ht in Hk.
  pose proof (type_keys_from (typed (KEYBOARD s) (map fst evs)) [] [] (CONSOLE s) Hc (typed_scalar _ _)) as (con & Hty & _).
  change (mkTty (edit_line []) []) with Tty.new in Hty. rewrite Hty in Hk.
  destruct (split_keys _) as [[|l ls] last]; by injection Hk as <- _.
Qed.

(** ** Concrete inputs *)

(** A keyboard whose scancodes are the characters, with 0 an incomplete one. *)
Definition plain_key (c : Z) : option Z := if (0 <? c) && (c <? 128) then Some c else None.

#[global] Instance plain_keyboard : Keyboard unit.
Proof.
  refine {| KeyEvent := Z; add_byte k c := (Ok (plain_key c), k);
    process_keyevent k c := (Some (if (0 <=? c) && (c <? 128) then Unicode c else RawKey), k) |}.
  intros k e c k' [= Hc _]. destruct ((0 <=? e) && (e <? 128)) eqn:E; [|done]. injection Hc as ->.
  unfold scalar. lia.
Defined.

(** A device that delivers the bytes of a list. *)
#[global] Instance scripted : Hardware (list Z) := {
  respond d r := match r with In8 _ => (default 0 (head d), tail d) | _ => (0, d) end }.

Definition demo_input : Input (list Z) unit (list con_event) :=
  mkInput (mkIo [108; 120; 8; 0; 115; 13; 112] [] (set_lapic 0xffff8000fee00000 initial_statics)) tt Tty.new (Some []) [].

Lemma keyboard_interrupts_typed_witness :
  exists s', handle_interrupts 7 demo_input = Ret s' /\ TTY s' = mkTty [112] [[108; 115; 10]].
Proof.
  destruct (keyboard_interrupts_typed 7 0xffff8000fee00000 demo_input) as (s' & evs & Hr & Hn & Hl & Ht);
    [reflexivity|lia|exact I|reflexivity|vm_compute; discriminate|].
  exists s'. split; [exact Hr|].
  assert (handle_interrupts 7 demo_input = Ret s') as Hr2 by exact Hr.
  vm_compute in Hr2. injection Hr2 as <-. reflexivity.
Defined.
