(* ===== verification/Boot.v ===== *)
(** * Start of the kernel ([kernel/src/boot.rs], [kernel/src/memory/heap.rs])

    The checks on the hand-off block, the heap's pages, and what the loader
    puts into the block ([LoaderMain.boot_block]). *)

From S2P Require Import Prelude Utf8 Abi X86 LoaderElf FrameAlloc Heap Paging Sched Context TaskNew LoaderMain.

(** ** The hand-off block *)

(** The messages of [validate_boot_info], in the order of the checks. *)
Definition validate_boot_info (b : BootInfo) : result (list byte) unit :=
  if negb (abi_version b =? 3) then Err (str "Unsupported BootInfo ABI version") else
  if descriptors (memory_map b) =? 0 then Err (str "Memory map descriptors pointer is null") else
  if negb (descriptors (memory_map b) mod 8 =? 0) then Err (str "Memory map descriptors must be 8-byte aligned") else
  if map_size (memory_map b) =? 0 then Err (str "Memory map is empty") else
  if desc_size (memory_map b) <? size_of_descriptor then Err (str "Memory map descriptor size is too small") else
  if physical_memory_offset b <? 0xffff800000000000 then Err (str "Physical memory offset must be in higher-half") else
  if kernel_image_base b <? 0xffffffff80000000 then Err (str "Kernel image base must be in higher-half kernel region") else
  if kernel_image_size b =? 0 then Err (str "Kernel image size cannot be zero") else
  if (0 <? ramdisk_size b) && (ramdisk_addr b =? 0) then Err (str "Ramdisk size is non-zero but address is null") else
  if negb (ramdisk_addr b =? 0) && (ramdisk_size b =? 0) then Err (str "Ramdisk address is non-zero but size is null") else
  Ok tt.

(** What an accepted block promises. *)
Record block_ok (b : BootInfo) : Prop := mkBlockOk {
  bk_version : abi_version b = ABI_VERSION;
  bk_map : descriptors (memory_map b) <> 0 /\ descriptors (memory_map b) mod 8 = 0;
  bk_entries : map_size (memory_map b) <> 0 /\ size_of_descriptor <= desc_size (memory_map b);
  bk_window : 0xffff800000000000 <= physical_memory_offset b;
  bk_kernel : 0xffffffff80000000 <= kernel_image_base b /\ kernel_image_size b <> 0;
  bk_ramdisk : ramdisk_addr b = 0 <-> ramdisk_size b = 0 }.

Lemma validate_boot_info_spec b : 0 <= ramdisk_size b -> validate_boot_info b = Ok tt <-> block_ok b.
Proof.
  intros Hs. unfold validate_boot_info. split.
  - repeat (case_if; [done|]). intros _. split; unfold ABI_VERSION; lia.
  - intros [Hv [Hm1 Hm2] [He1 He2] Hw [Hk1 Hk2] Hr]. unfold ABI_VERSION in *. rewrite Hv. cbn [Z.eqb negb Pos.eqb].
    repeat (case_if; [exfalso; lia|]). done.
Qed.

(** An accepted block never trips the steps that follow: the offset is a
    canonical address, and the memory map can be read. *)
Lemma block_ok_usable b : block_ok b -> in_u64 (physical_memory_offset b) -> in_usize (map_size (memory_map b)) ->
  canonical (physical_memory_offset b) /\ map_readable (memory_map b).
Proof.
  intros [_ [Hm _] [_ He] Hw _ _] Hp Hs. unfold in_range in *. split; [unfold canonical; lia|by split].
Qed.

(** ** The kernel heap's pages *)

Inductive MapToError := FrameAllocationFailed | MapToFailed.

Section Heap.
Context {S : Type} `{VirtAddrs} `{AddressSpaces S}.

(** One page of the heap, in the running address space [kroot]. *)
Definition map_heap_page (kroot : Z) (s : S) (page : Z) : outcome (result (MapToError * S) S) :=
  r ← take_frame s;
  match r.1 with
  | None => Ret (Err (FrameAllocationFailed, r.2))
  | Some frame =>
      m ← map_to r.2 kroot page frame (Z.lor PRESENT WRITABLE);
      Ret (if (m.1 : bool) then Ok m.2 else Err (MapToFailed, m.2))
  end.

Definition init_heap (kroot : Z) (s : S) : outcome (result (MapToError * S) (S * FixedSizeBlockAllocator)) :=
  heap_start ← virt_addr_new HEAP_START;
  stop ← virt_addr_add heap_start HEAP_SIZE;
  heap_end ← virt_addr_sub stop 1;
  s ←? try_each (map_heap_page kroot) (page_range heap_start heap_end) s;
  a ← fsb_init HEAP_START HEAP_SIZE;
  Ret (Ok (s, a)).

Definition heap_page (v : Z) : Prop := exists i, 0 <= i < 25 /\ v = HEAP_START + 4096 * i.

Lemma heap_pages : exists last, virt_addr_sub (HEAP_START + HEAP_SIZE) 1 = Ret last /\
  page_range HEAP_START last = map (fun i => HEAP_START + i * 4096) (seqZ 0 25).
Proof.
  exists (HEAP_START + HEAP_SIZE - 1). split.
  - apply virt_addr_sub_ok; unfold canonical, HEAP_START, HEAP_SIZE; lia.
  - apply (page_range_ok HEAP_START 25); [done|lia].
Qed.

(** Errors stop the loop; otherwise each page is mapped and nothing else. *)
Lemma map_heap_pages kroot (live : Z -> Prop) pages s r : live kroot -> coherent s live ->
  try_each (map_heap_page kroot) pages s = Ret r -> NoDup pages ->
  match r with
  | Ok s' => (forall v, v ∈ pages -> exists f, translate s' kroot v = Some (f, Z.lor PRESENT WRITABLE)) /\
      forall root v, live root -> v ∉ pages -> translate s' root v = translate s root v
  | Err (e, s') => forall root v, live root -> v ∉ pages -> translate s' root v = translate s root v
  end.
Proof.
  intros Hl. revert s. induction pages as [|p pages IH]; intros s Hco Hr Hnd; cbn [try_each] in Hr.
  { injection Hr as <-. split; [intros v Hv; by apply elem_of_nil in Hv|done]. }
  apply NoDup_cons in Hnd as [Hp Hnd]. unfold map_heap_page at 1 in Hr.
  destruct (take_frame s) as [[o s1]| |] eqn:Ht; try done. destruct (take_frame_ok _ _ _ Ht) as [Hs1 Hc1].
  specialize (Hc1 _ Hco).
  cbn [mbind outcome_bind fst snd] in Hr. destruct o as [frame|]; [|injection Hr as <-; intros root v _ _; by rewrite Hs1].
  destruct (map_to s1 kroot p frame _) as [[[] s2]| |] eqn:Em; try done; cbn [mbind outcome_bind fst snd try_bind] in Hr.
  - destruct (map_to_ok _ _ _ _ _ _ live Em Hc1 Hl) as [_ Hnew]. pose proof (map_to_other _ _ _ _ _ _ _ live Em Hc1 Hl) as Ho.
    specialize (IH s2 (map_to_coherent _ _ _ _ _ _ _ live Em Hc1 Hl) Hr Hnd). destruct r as [s'|[e s']].
    + destruct IH as [Hin Hout]. split.
      * intros v [->|Hv]%elem_of_cons; [exists frame; by rewrite Hout|by apply Hin].
      * intros root v Hr' [Hne Hv]%not_elem_of_cons. by rewrite Hout, Ho, Hs1.
    + intros root v Hr' [Hne Hv]%not_elem_of_cons. by rewrite IH, Ho, Hs1.
  - injection Hr as <-. intros root v Hr _. by rewrite (map_to_err _ _ _ _ _ _ live Em), Hs1.
Qed.

Lemma init_heap_spec kroot (live : Z -> Prop) s r : live kroot -> coherent s live -> init_heap kroot s = Ret r ->
  match r with
  | Ok (s', a) => fsb_init HEAP_START HEAP_SIZE = Ret a /\
      (forall v, heap_page v -> exists f, translate s' kroot v = Some (f, Z.lor PRESENT WRITABLE)) /\
      forall root v, live root -> ~ heap_page v -> translate s' root v = translate s root v
  | Err (e, s') => forall root v, live root -> ~ heap_page v -> translate s' root v = translate s root v
  end.
Proof.
  intros Hl Hco. unfold init_heap. rewrite (virt_addr_new_ok HEAP_START) by (unfold canonical, HEAP_START; lia). cbn [mbind outcome_bind].
  rewrite (virt_addr_add_ok HEAP_START HEAP_SIZE) by (unfold canonical, HEAP_START, HEAP_SIZE; lia). cbn [mbind outcome_bind].
  destruct heap_pages as (last & -> & Hpr). cbn [mbind outcome_bind]. rewrite Hpr.
  assert (forall v, v ∈ map (fun i => HEAP_START + i * 4096) (seqZ 0 25) <-> heap_page v) as Hin.
  { intros v. rewrite list_elem_of_fmap. unfold heap_page. setoid_rewrite elem_of_seqZ.
    split; intros (i & Hi1 & Hi2); exists i; [split; lia|split; [lia|lia]]. }
  assert (NoDup (map (fun i => HEAP_START + i * 4096) (seqZ 0 25))) as Hnd.
  { apply NoDup_fmap_2; [intros ???; lia|apply NoDup_seqZ]. }
  intros Hr. destruct (try_each _ _ s) as [r1| |] eqn:Et; try done. pose proof (map_heap_pages kroot live _ s r1 Hl Hco Et Hnd) as Hm.
  destruct r1 as [s'|[e s']]; cbn [try_bind] in Hr.
  - inv_out. destruct Hm as [Hm Ho]. split; [done|]. split; [intros v Hv; by apply Hm, Hin|].
    intros root v Hr' Hv. apply Ho; [done|]. by rewrite Hin.
  - injection Hr as <-. intros root v Hr' Hv. apply Hm; [done|]. by rewrite Hin.
Qed.
End Heap.

(** Which blocks of the loader the kernel accepts. *)
Lemma loader_block_accepted kernel rd_size map_buffer meta gop : 0 <= rd_size ->
  validate_boot_info (boot_block kernel rd_size map_buffer meta gop) = Ok tt <->
  (map_buffer <> 0 /\ map_buffer mod 8 = 0) /\ (meta_map_size meta <> 0 /\ size_of_descriptor <= meta_desc_size meta) /\
  0xffffffff80000000 <= lk_virtual_base kernel /\ lk_image_size kernel <> 0.
Proof.
  intros Hs. rewrite validate_boot_info_spec by done. split.
  - by intros [_ Hm He _ Hk _].
  - intros (Hm & He & Hk). split; try done. cbn [boot_block ramdisk_addr ramdisk_size].
    unfold RAMDISK_VIRTUAL_BASE. destruct (Z.ltb_spec 0 rd_size); lia.
Qed.
