(* ===== verification/EarlyBoot.v ===== *)
(** * From the hand-off to the first task ([kernel/src/boot.rs])

    [early_boot]: the block is checked, memory, processor and devices are set
    up, the ramdisk is mounted, the programs on it become tasks beside three
    kernel tasks, and the scheduler starts the first one.  Lines of the serial
    log are left out. *)

From stdpp Require Import gmap.
From S2P Require Import Prelude Alloc Utf8 Abi X86 Elf Tty Vfs Ramdisk VfsHeap Video FrameAlloc Heap Paging Context Sched Process TaskNew.
From S2P Require Import Bus Arch Drivers Smp Boot.

(** The addresses the linker and the leaked font data get. *)
Record Addresses := mkAddresses {
  linked : Linked; heartbeat_task : Z; worker_task : Z; idle_task : Z; font_addr : Z }.

(** The kernel's global state: the counter of process identifiers, task
    creation with the address spaces, files and terminal, the scheduler, the
    devices, the screen. *)
Record Kernel (S D : Type) := mkKernel {
  k_next_pid : Z; k_spawner : Spawner S; k_vfs : Vfs; k_tty : Tty; k_sys : Sys; k_io : Io D;
  k_framebuffer : option Framebuffer; k_vram : vram; k_console : option Screen }.
Arguments mkKernel {S D}. Arguments k_next_pid {S D}. Arguments k_spawner {S D}. Arguments k_vfs {S D}.
Arguments k_tty {S D}. Arguments k_sys {S D}. Arguments k_io {S D}. Arguments k_framebuffer {S D}.
Arguments k_vram {S D}. Arguments k_console {S D}.

(** [if let Some(fd) = vfs.open(path)], [stat(path).unwrap()], a buffer of
    that size, [read], and the part read. *)
Definition read_program (path : list byte) (v : Vfs) (tty : Tty) : outcome (option (list byte) * Vfs * Tty) :=
  match Vfs.open v path with
  | (Some fd, v) =>
      fs ← unwrap (Vfs.stat v path);
      r ← Vfs.read v tty fd (replicate (Z.to_nat (fs_size fs)) x00);
      let '(got, v, tty, buf) := r in
      match got with
      | Some n => data ← slice buf 0 n; Ret (Some data, v, tty)
      | None => Ret (None, v, tty)
      end
  | (None, v) => Ret (None, v, tty)
  end.

(** *** What the sequence asks of the heap *)

(** Opening and reading a file of [es]: the descriptor's name, the buffer of
    the file's size, and [more] once it is read. *)
Definition file_requests (es : list VfsEntry) (name : list byte) (more : Z -> list Request) : list Request :=
  match find (named name) es with
  | None => []
  | Some e =>
      match e_data e with
      | Some d => Text (len name) :: Bytes (len d) :: more (len d)
      | None => [Text (len name); Bytes 0]
      end
  end.

(** A process with its thread list, and its task as the [queued]-th of the
    queue. *)
Definition task_requests (queued : Z) : list Request := [Shared; Push 0; Push queued].

(** Step 5; the number of programs that became tasks. *)
Definition program_requests (es : list VfsEntry) : list Request * Z :=
  let count name := match e ← find (named name) es; e_data e with Some _ => 1 | None => 0 end in
  let load name n := file_requests es name (fun _ => task_requests n) in
  if count (str "init") =? 0 then (load (str "init") 0, 0)
  else
    let shell := count (str "shell") in
    (load (str "init") 0 ++ load (str "shell") 1 ++ load (str "fault-tester") (1 + shell),
     1 + shell + count (str "fault-tester")).

(** From the ACPI tables to the last task: the platform's tables, the files of
    the ramdisk, the font (read, then copied), the programs, the kernel's
    process and its three tasks. *)
Definition boot_requests (v : Vfs) : list Request :=
  let '(programs, n) := program_requests (entries v) in
  Tables :: mount_requests Vfs.new v ++ file_requests (entries v) (str "font.psf") (fun d => [Bytes d]) ++
  programs ++ [Shared] ++ concat (map (fun i => [Push i; Push (n + i)]) (seqZ 0 3)).

Section EarlyBoot.
Context {S D : Type} `{Machine S} `{VirtAddrs} `{PageEntries} `{AddressSpaces S}.
Context `{Hardware D} `{!LegacyPics D} `{GdtCrate} `{AcpiCrate} `{KernelHeap} (fuel : nat).

Definition set_files (v : Vfs) (tty : Tty) (k : Kernel S D) : Kernel S D :=
  mkKernel (k_next_pid k) (k_spawner k) v tty (k_sys k) (k_io k) (k_framebuffer k) (k_vram k) (k_console k).

Definition set_tasks (pid : Z) (sp : Spawner S) (sys : Sys) (k : Kernel S D) : Kernel S D :=
  mkKernel pid sp (k_vfs k) (k_tty k) sys (k_io k) (k_framebuffer k) (k_vram k) (k_console k).

(** The address space of a new process from an ELF file; an error is fatal
    during boot. *)
Definition load_process (off root : Z) (data : list byte) (k : Kernel S D) : outcome (Process * Kernel S D) :=
  let sp := k_spawner k in
  r ← new_from_elf off root data (mkProcs (k_next_pid k) (spaces sp));
  match r with
  | Ok (p, pr) =>
      Ret (p, set_tasks (next_pid pr) (mkSpawner (next_id sp) (mach pr) (stacks sp) (threads sp)) (k_sys k) k)
  | Err _ => Panic
  end.

(** [add_task(Task::new_user(..))]. *)
Definition queue_user (root : Z) (p : Process) (k : Kernel S D) : outcome (Kernel S D) :=
  '(t, sp) ← Task_new_user root p (k_spawner k);
  sys ← add_task t (k_sys k);
  Ret (set_tasks (k_next_pid k) sp sys k).

(** [add_task(Task::new(entry, ..))]. *)
Definition queue_kernel (root entry : Z) (k : Kernel S D) : outcome (Kernel S D) :=
  '(t, sp) ← Task_new root (kernel_process root) entry (k_spawner k);
  sys ← add_task t (k_sys k);
  Ret (set_tasks (k_next_pid k) sp sys k).

(** One program of the ramdisk; whether it could be read. *)
Definition start_program (off root : Z) (path : list byte) (k : Kernel S D) : outcome (bool * Kernel S D) :=
  '(data, v, tty) ← read_program path (k_vfs k) (k_tty k);
  let k := set_files v tty k in
  match data with
  | Some data =>
      '(p, k) ← load_process off root data k;
      k ← queue_user root p k;
      Ret (true, k)
  | None => Ret (false, k)
  end.

(** Step 5: [init], and with it [shell] and [fault-tester]. *)
Definition start_programs (off root : Z) (k : Kernel S D) : outcome (Kernel S D) :=
  '(ok, k) ← start_program off root (str "init") k;
  if (ok : bool) then
    '(_, k) ← start_program off root (str "shell") k;
    '(_, k) ← start_program off root (str "fault-tester") k;
    Ret k
  else Ret k.

(** Step 4.1: the text console with the font of the ramdisk. *)
Definition start_console (font_addr : Z) (k : Kernel S D) : outcome (Kernel S D) :=
  '(data, v, tty) ← read_program (str "font.psf") (k_vfs k) (k_tty k);
  let k := set_files v tty k in
  match data with
  | Some data =>
      con ← init_console font_addr data (k_framebuffer k) (k_vram k);
      Ret (mkKernel (k_next_pid k) (k_spawner k) (k_vfs k) (k_tty k) (k_sys k) (k_io k) (k_framebuffer k) (k_vram k) con)
  | None => Ret k
  end.

(** Steps 1 and 2, in the address space [root]: the window's view of the
    top-level table, the heap, the region of the kernel stacks. *)
Definition start_memory (off root : Z) (s : S) : outcome (S * FixedSizeBlockAllocator) :=
  _ ← table_ptr off root;
  h ← init_heap root s;
  '(s, heap) ← match h with Ok x => Ret x | Err _ => Panic end;
  s ← init_kernel_stack_region root s;
  Ret (s, heap).

(** Steps 3.2 to 3.4. *)
Definition start_devices (rsdp off : Z) : io D unit :=
  _ ← pci_init fuel off;
  _ ← acpi_init rsdp off;
  smp_init fuel.

(** The context the processor resumes first, and the state it is in.
    [machine] is the machine around a frame allocator, [stack_words] what the
    kernel stacks hold before; the page-table root is the one in CR3.  What
    the whole sequence asks of the heap is asked at once, when the files are
    known. *)
Definition early_boot (machine : FrameAllocator -> S) (ad : Addresses) (b : BootInfo) (screen : vram) (stack_words : words)
    (io : Io D) (h : Hw)
    : outcome (Z * Kernel S D) :=
  _ ← match validate_boot_info b with Ok _ => Ret tt | Err _ => Panic end;
  off ← virt_addr_new (physical_memory_offset b);
  '(s, _) ← start_memory off (cr3 h) (machine (FrameAlloc.new b));
  '(_, io) ← arch_init (linked ad) off io;
  '(fb, screen) ← Video.init (Abi.framebuffer b) screen;
  '(_, io) ← start_devices (rsdp_addr b) off io;
  v ← init_from_ramdisk (pmem s) Vfs.new (ramdisk_addr b) (ramdisk_size b);
  _ ← on_heap (boot_requests v) (Ret tt);
  let k := mkKernel 1 (mkSpawner 1 s stack_words (fun _ => [])) v Tty.new (initial h) io fb screen None in
  k ← start_console (font_addr ad) k;
  k ← start_programs off (cr3 h) k;
  k ← queue_kernel (cr3 h) (heartbeat_task ad) k;
  k ← queue_kernel (cr3 h) (worker_task ad) k;
  k ← queue_kernel (cr3 h) (idle_task ad) k;
  '(sp, sys) ← start_scheduling (k_sys k);
  Ret (sp, set_tasks (k_next_pid k) (k_spawner k) sys k).
End EarlyBoot.

(** ** Reading files *)

(** Every descriptor slot from [n] on is free. *)
Definition free_from (n : nat) (v : Vfs) : Prop :=
  forall j, (n <= j < MAX_OPEN_FILES)%nat -> open_files v !! j = Some None.

Lemma free_from_slot n v : free_from n v -> (n < MAX_OPEN_FILES)%nat ->
  exists j, free_slot (open_files v) = Some j /\ (j <= n)%nat /\ open_files v !! j = Some None.
Proof.
  intros Hf Hn. specialize (Hf n ltac:(lia)). destruct (free_slot (open_files v)) as [j|] eqn:E.
  - exists j. apply free_slot_Some in E as [Hj Hlt]. split; [done|]. split; [|done].
    destruct (le_lt_dec j n) as [|Hgt]; [done|]. by destruct (Hlt n None Hgt Hf).
  - apply free_slot_None in E. rewrite Forall_lookup in E. destruct (E _ _ Hf). done.
Qed.

Lemma free_from_insert n m v j s : free_from n v -> (n <= m)%nat -> (j < m)%nat ->
  free_from m (set_open v (<[j := s]> (open_files v))).
Proof. intros Hf Hnm Hj i Hi. cbn [open_files set_open]. rewrite list_lookup_insert_ne by lia. apply Hf. lia. Qed.

(** Reading a whole file leaves the files as they are and takes one slot. *)
Lemma read_program_spec path v tty n : Vfs.wf v -> free_from n v -> (n < MAX_OPEN_FILES)%nat -> path <> str "tty" ->
  exists v', read_program path v tty = Ret (contents v path, v', tty) /\ Vfs.wf v' /\
    entries v' = entries v /\ free_from (n + 1) v'.
Proof.
  intros Hwf Hf Hn Ht. pose proof (wf_open v path Hwf) as Hwf1. destruct (free_from_slot n v Hf Hn) as (j & Hj & Hjn & Hnone).
  unfold read_program, Vfs.open in *. rewrite open_loop_eq, Hj in *.
  unfold Vfs.stat, contents. destruct (find (named path) (entries v)) as [e|] eqn:He.
  2: { exists v. split_and!; try done. intros i Hi. apply Hf. lia. }
  cbn [snd] in Hwf1. set (fd := mkFd path (e_type e) 0) in *. set (v1 := set_open v (<[j := Some fd]> (open_files v))) in *.
  assert (open_files v1 !! Z.to_nat (Z.of_nat j) = Some (Some fd)) as Hfd.
  { rewrite Nat2Z.id. cbn [v1 open_files set_open]. apply list_lookup_insert_eq. by eapply lookup_lt_Some. }
  assert (free_from (n + 1) v1) as Hf1 by (apply (free_from_insert n); [done|lia..]).
  cbn [entries v1 set_open]. rewrite He. cbn [mbind option_bind unwrap outcome_bind fs_size].
  destruct (e_data e) as [d|] eqn:Hd.
  - pose proof (len_nonneg d) as Hlen. replace (Z.to_nat (len d)) with (length d) by (unfold len; lia).
    pose proof (read_file v1 (Z.of_nat j) fd Hwf1 ltac:(lia) Hfd tty (replicate (length d) x00) e d Ht He Hd) as Hr.
    cbv zeta in Hr. rewrite len_replicate in Hr. cbn [fd fd_offset] in Hr.
    replace (Z.min (Z.of_nat (length d)) (Z.max 0 (len d - 0))) with (len d) in Hr by (unfold len; lia).
    rewrite Hr. cbn [mbind outcome_bind]. replace (sub_list d 0 (len d)) with d.
    2: { unfold sub_list. rewrite drop_0, take_ge; [done|unfold len; lia]. }
    assert (copy_into (replicate (length d) x00) d = d) as ->.
    { unfold copy_into. by rewrite drop_ge, app_nil_r by (rewrite length_replicate; lia). }
    rewrite slice_Ret by lia. rewrite Z.sub_0_r. cbn [mbind outcome_bind]. unfold sub_list. rewrite drop_0, take_ge by (unfold len; lia).
    eexists. split; [done|]. pose proof (wf_data _ Hwf e d (proj1 (find_named _ _ _ He)) Hd) as Hdl.
    case_if; [done|]. split_and!; [|done|].
    + apply wf_set_offset; [done|by exists e|]. unfold in_range, isize_max in *. lia.
    + apply (free_from_insert (n + 1)); [done|lia|rewrite Nat2Z.id; lia].
  - destruct (fd_in_table v1 (Z.of_nat j) fd Hwf1 ltac:(lia) Hfd) as [Hlt Hidx].
    unfold Vfs.read. rewrite Hlt, Hidx. cbn [mbind outcome_bind]. rewrite bool_decide_eq_false_2 by done.
    cbn [entries v1 set_open fd fd_name]. rewrite He, Hd. by exists v1.
Qed.

(** ** The mounted files *)

Lemma ramdisk_loop_data fuel data offset es es' : ramdisk_loop fuel data offset es = Ret es' ->
  forall e d, e ∈ es' -> e_data e = Some d -> e ∈ es \/ len d <= len data.
Proof.
  revert offset es. induction fuel as [|fuel IH]; intros offset es Hr e d He Hd; cbn [ramdisk_loop] in Hr; [done|].
  inv_out. case_if; [injection Hr as <-; by left|]. inv_out. case_if; [|injection Hr as <-; by left]. inv_out.
  destruct (IH _ _ Hr e d He Hd) as [[Hin|Heq]%elem_of_app|Hlen]; [by left| |by right].
  apply list_elem_of_singleton in Heq. subst e. cbn [e_data] in Hd. injection Hd as <-. right.
  match goal with Hs : slice data _ _ = Ret _ |- _ => exact (slice_len _ _ _ _ Hs) end.
Qed.

Lemma mounted_files m addr size v : init_from_ramdisk m Vfs.new addr size = Ret v -> 0 <= size <= isize_max ->
  Vfs.wf v /\ free_from 0 v.
Proof.
  intros Hm Hs. assert (exists es, v = set_entries Vfs.new es /\ forall e d, e ∈ es -> e_data e = Some d -> len d <= isize_max)
    as (es & -> & Hes).
  { unfold init_from_ramdisk in Hm. assert (forall e d, e ∈ entries (init_defaults Vfs.new) -> e_data e <> Some d) as Hdef.
    { intros e d He Hd. cbn in He. repeat (apply elem_of_cons in He as [->|He]; [done|]). by apply elem_of_nil in He. }
    case_if.
    - rewrite raw_slice_ok in Hm by lia. cbn [mbind outcome_bind] in Hm. inv_out.
      eexists. split; [reflexivity|]. intros e d He Hd.
      destruct (ramdisk_loop_data _ _ _ _ _ Ha e d He Hd) as [Hin|Hl]; [by destruct (Hdef e d)|].
      rewrite len_read_mem in Hl by lia. lia.
    - injection Hm as <-. eexists. split; [reflexivity|]. intros e d He Hd. by destruct (Hdef e d). }
  split.
  - split; [done| |done]. intros j fd Hj. change (open_files _) with (replicate (A := option FileDescriptor) MAX_OPEN_FILES None) in Hj. apply lookup_replicate_1 in Hj as [[=] _].
  - intros j Hj. apply lookup_replicate_2. lia.
Qed.

(** ** New tasks *)

Inductive start := User (p : Process) | KernelTask (entry : Z).

(** The task made for entry [i] of a plan, and the context on its stack. *)
Definition planned (root : Z) (i : nat) (e : start) : Task :=
  let id := 1 + Z.of_nat i in
  mkTask id (stack_high id - FRAME_BYTES) (stack_high id)
    (match e with User p => p | KernelTask _ => kernel_process root end) Ready.

Definition start_frame (i : nat) (e : start) : SyscallFrame :=
  match e with
  | User p => mkFrame zero_regs (entry_point p) 0x2b 0x202 (stack_top p) 0x23
  | KernelTask entry => mkFrame zero_regs entry 0x08 0x202 (stack_high (1 + Z.of_nat i)) 0x10
  end.

Section Tasks.
Context {S D : Type} `{VirtAddrs} `{AddressSpaces S}.

(** What [Task::new] and [Task::new_user] leave behind. *)
Record spawned (root : Z) (i : nat) (e : start) (k : Spawner S) (t : Task) (k' : Spawner S) : Prop := mkSpawned {
  sp_task : t = planned root i e;
  sp_next : next_id k' = next_id k + 1;
  sp_frame : read_frame (stacks k') (stack_ptr t) = start_frame i e;
  sp_stacks : forall a, a < stack_low (task_id t) \/ stack_high (task_id t) <= a -> stacks k' a = stacks k a }.

Lemma frame_inside id m m' top ss rsp cs rip sp : top = stack_high id -> first_context m top ss rsp cs rip = (m', sp) ->
  sp = stack_high id - FRAME_BYTES /\ read_frame m' sp = mkFrame zero_regs rip cs 0x202 rsp ss /\
  forall a, a < stack_low id \/ stack_high id <= a -> m' a = m a.
Proof.
  intros -> (Hsp & Hfr & Hout)%first_context_frame. split_and!; [done|done|]. intros a Ha. apply Hout.
  unfold FRAME_BYTES, stack_high, STACK_SIZE, STACK_PAGES in *. lia.
Qed.

Lemma Task_new_user_spawned root p (k : Spawner S) t k' i : next_id k = 1 + Z.of_nat i -> id_ok (next_id k) ->
  Task_new_user root p k = Ret (t, k') -> spawned root i (User p) k t k'.
Proof.
  intros Hn Hid Ht. unfold Task_new_user in Ht. cbn [TaskId_new] in Ht. rewrite stack_bounds_ok in Ht by done.
  cbn [mbind outcome_bind] in Ht. inv_out. destruct (first_context _ _ _ _ _ _) as [m sp] eqn:Ec in Ht.
  injection Ht as <- <-. apply (frame_inside (next_id k)) in Ec as (-> & Hfr & Hout); [|done].
  split; cbn [next_id add_thread stack_ptr task_id stacks]; [|..].
  - unfold planned. by rewrite <- Hn.
  - unfold wrap. apply Z.mod_small. unfold id_ok in Hid. lia.
  - exact Hfr.
  - exact Hout.
Qed.

Lemma Task_new_spawned root entry (k : Spawner S) t k' i : next_id k = 1 + Z.of_nat i -> id_ok (next_id k) ->
  Task_new root (kernel_process root) entry k = Ret (t, k') -> spawned root i (KernelTask entry) k t k'.
Proof.
  intros Hn Hid Ht. unfold Task_new in Ht. cbn [TaskId_new] in Ht. rewrite stack_bounds_ok in Ht by done.
  cbn [mbind outcome_bind] in Ht. inv_out. destruct (first_context _ _ _ _ _ _) as [m sp] eqn:Ec in Ht.
  injection Ht as <- <-. apply (frame_inside (next_id k)) in Ec as (-> & Hfr & Hout); [|done].
  split; cbn [next_id add_thread stack_ptr task_id stacks]; [|..].
  - unfold planned. by rewrite <- Hn.
  - unfold wrap. apply Z.mod_small. unfold id_ok in Hid. lia.
  - rewrite Hfr. cbn [start_frame]. by rewrite <- Hn.
  - exact Hout.
Qed.
End Tasks.

(** ** The queue during boot *)

Section Queue.
Context {S D : Type} `{Machine S} `{VirtAddrs} `{PageEntries} `{AddressSpaces S}.

Record queued (root : Z) (plan : list start) (k : Kernel S D) : Prop := mkQueued {
  q_next : next_id (k_spawner k) = 1 + len plan;
  q_tasks : tasks (sched (k_sys k)) = imap (planned root) plan;
  q_none : current_task (sched (k_sys k)) = None /\ current_task_id (sched (k_sys k)) = None;
  q_frames : forall i e, plan !! i = Some e ->
    read_frame (stacks (k_spawner k)) (stack_ptr (planned root i e)) = start_frame i e }.

Definition plan_ok (plan : list start) : Prop := len plan < 2 ^ 24.

Lemma planned_id root i e : task_id (planned root i e) = 1 + Z.of_nat i.
Proof. done. Qed.

(** Frames on other stacks are not touched. *)
Lemma frame_kept (m m' : words) i j root e : (i <> j)%nat ->
  (forall a, a < stack_low (1 + Z.of_nat j) \/ stack_high (1 + Z.of_nat j) <= a -> m' a = m a) ->
  read_frame m' (stack_ptr (planned root i e)) = read_frame m (stack_ptr (planned root i e)).
Proof.
  intros Hij Hout. cbn [planned stack_ptr]. apply read_frame_ext. intros a Ha. apply Hout.
  unfold FRAME_BYTES, stack_high, stack_low, STACK_SIZE, STACK_STRIDE, STACK_PAGES, GUARD_PAGES in *.
  destruct (Z.lt_ge_cases (Z.of_nat i) (Z.of_nat j)); lia.
Qed.

(** A new task joins the end of the queue. *)
Lemma queue_step root plan e (k : Kernel S D) t sp' sys' : queued root plan k -> plan_ok plan ->
  spawned root (length plan) e (k_spawner k) t sp' -> add_task t (k_sys k) = Ret sys' ->
  queued root (plan ++ [e]) (set_tasks (k_next_pid k) sp' sys' k).
Proof.
  intros [Hn Ht Hc Hf] Hok [-> Hnext Hfr Hout] Ha. unfold add_task in Ha. inv_out.
  split; cbn [k_spawner k_sys set_tasks sched tasks current_task current_task_id].
  - rewrite Hnext, Hn, len_app. unfold len. simpl. lia.
  - rewrite Ht, imap_app. cbn [imap]. by rewrite Nat.add_0_r.
  - exact Hc.
  - intros i e' Hi. destruct (decide (i = length plan)) as [->|Hne].
    + rewrite lookup_app_r, Nat.sub_diag in Hi by done. injection Hi as <-. exact Hfr.
    + rewrite lookup_app_l in Hi by (apply lookup_lt_Some in Hi; rewrite length_app in Hi; simpl in Hi; lia).
      rewrite (frame_kept (stacks (k_spawner k)) _ i (length plan)); [by apply Hf|done|exact Hout].
Qed.

Lemma plan_id_ok (k : Kernel S D) root plan : queued root plan k -> plan_ok plan ->
  next_id (k_spawner k) = 1 + Z.of_nat (length plan) /\ id_ok (next_id (k_spawner k)).
Proof. intros [Hn _ _ _] Hok. unfold plan_ok, id_ok, len in *. lia. Qed.

Lemma queue_user_spec root plan p (k k' : Kernel S D) : queued root plan k -> plan_ok plan ->
  queue_user root p k = Ret k' -> queued root (plan ++ [User p]) k' /\ k_vfs k' = k_vfs k /\ k_next_pid k' = k_next_pid k.
Proof.
  intros Hq Hok Hr. destruct (plan_id_ok k root plan Hq Hok) as [Hn Hid]. unfold queue_user in Hr. inv_out.
  destruct a as [t sp]. inv_out. split; [|done].
  exact (queue_step _ _ _ _ _ _ _ Hq Hok (Task_new_user_spawned _ _ _ _ _ _ Hn Hid Ha) Ha0).
Qed.

Lemma queue_kernel_spec root plan entry (k k' : Kernel S D) : queued root plan k -> plan_ok plan ->
  queue_kernel root entry k = Ret k' ->
  queued root (plan ++ [KernelTask entry]) k' /\ k_vfs k' = k_vfs k.
Proof.
  intros Hq Hok Hr. destruct (plan_id_ok k root plan Hq Hok) as [Hn Hid]. unfold queue_kernel in Hr. inv_out.
  destruct a as [t sp]. inv_out. split; [|done].
  exact (queue_step _ _ _ _ _ _ _ Hq Hok (Task_new_spawned _ _ _ _ _ _ Hn Hid Ha) Ha0).
Qed.

(** The process of a program file. *)
Record program_of (data : list byte) (pid : Z) (p : Process) : Prop := mkProgramOf {
  po_entry : exists h, parse_header data = Ret (Ok h) /\ entry_point p = entry h;
  po_stack : stack_top p = STACK_START + USER_STACK_BYTES;
  po_id : proc_id p = pid }.

Lemma virt_addr_new_Ret a r : virt_addr_new a = Ret r -> r = a.
Proof.
  intros Ha. destruct (decide (canonical a)) as [Hc|Hc].
  - rewrite virt_addr_new_ok in Ha by done. congruence.
  - by rewrite virt_addr_new_panics in Ha.
Qed.

Lemma load_process_spec off root data (k k' : Kernel S D) p : load_process off root data k = Ret (p, k') ->
  program_of data (k_next_pid k) p /\ k_next_pid k' = wrap 64 (k_next_pid k + 1) /\ k_vfs k' = k_vfs k /\
  forall plan, queued root plan k -> queued root plan k'.
Proof.
  unfold load_process. intros Hl. inv_out. destruct a as [[p' pr]|[e pr]]; [|done]. injection Hl as -> <-.
  unfold new_from_elf in Ha. inv_out. unfold at_state in Ha0. inv_out.
  match goal with Hr : parse_header data = Ret ?r |- _ => destruct r as [h|]; [|done]; pose proof Hr as Hh end. inv_out.
  destruct a0 as [root' s1]. cbn [ProcessId_new] in Ha. inv_out.
  destruct a5 as [s2|[e s2]]; [|done]. injection Ha as <- <-.
  apply virt_addr_new_Ret in Ha0 as ->. apply virt_addr_new_Ret in Ha4 as ->.
  rewrite virt_addr_add_ok in Ha3 by (unfold canonical, STACK_START, USER_STACK_BYTES; lia). injection Ha3 as <-.
  split_and!; [|done|done|].
  - split; [by eexists|done|done].
  - by intros plan [Hn Ht Hc Hf].
Qed.

(** The state between two programs: the files [es], [n] slots in use. *)
Record files_ok (es : list VfsEntry) (n : nat) (k : Kernel S D) : Prop := mkFilesOk {
  fk_wf : Vfs.wf (k_vfs k); fk_entries : entries (k_vfs k) = es; fk_free : free_from n (k_vfs k) }.

Definition file (es : list VfsEntry) (name : list byte) : option (list byte) :=
  e ← find (named name) es; e_data e.

Lemma start_program_spec off root path es n plan (k k' : Kernel S D) ok : files_ok es n k -> (n < MAX_OPEN_FILES)%nat ->
  path <> str "tty" -> queued root plan k -> plan_ok plan -> start_program off root path k = Ret (ok, k') ->
  files_ok es (n + 1) k' /\
  match file es path with
  | Some data => ok = true /\ exists p, program_of data (k_next_pid k) p /\ queued root (plan ++ [User p]) k' /\
      k_next_pid k' = wrap 64 (k_next_pid k + 1)
  | None => ok = false /\ queued root plan k' /\ k_next_pid k' = k_next_pid k
  end.
Proof.
  intros [Hwf Hes Hfree] Hn Ht Hq Hok Hr. unfold start_program in Hr.
  destruct (read_program_spec path (k_vfs k) (k_tty k) n Hwf Hfree Hn Ht) as (v & Hrd & Hwf' & Hes' & Hfree').
  rewrite Hrd in Hr. cbn [mbind outcome_bind] in Hr. unfold contents in Hr. rewrite Hes in Hr. fold (file es path) in Hr.
  assert (queued root plan (set_files v (k_tty k) k)) as Hq1 by (by destruct Hq).
  destruct (file es path) as [data|].
  - inv_out. destruct a as [p k1]. inv_out.
    destruct (load_process_spec _ _ _ _ _ _ Ha) as (Hp & Hpid & Hv1 & Hq2).
    destruct (queue_user_spec root plan p k1 k' (Hq2 _ Hq1) Hok Ha0) as (Hq3 & Hv2 & Hpid2).
    split; [split; by rewrite Hv2, Hv1; rewrite ?Hes', ?Hes|]. split; [done|]. exists p. split_and!; [done|done|by rewrite Hpid2].
  - injection Hr as <- <-. split; [split; cbn [k_vfs set_files]; by rewrite ?Hes', ?Hes|done].
Qed.

(** The programs that run: [init], and the others only beside it. *)
Definition present (es : list VfsEntry) : list (list byte) :=
  match file es (str "init") with
  | None => []
  | Some _ => str "init" :: filter (fun name => is_Some (file es name)) [str "shell"; str "fault-tester"]
  end.

(** [ps]: the processes of the named files, numbered from [pid]. *)
Definition programs (es : list VfsEntry) (pid : Z) (names : list (list byte)) (ps : list Process) : Prop :=
  length ps = length names /\ forall i name p, names !! i = Some name -> ps !! i = Some p ->
    exists data, file es name = Some data /\ program_of data (pid + Z.of_nat i) p.

Lemma programs_snoc es pid names ps name p data : programs es pid names ps -> file es name = Some data ->
  program_of data (pid + Z.of_nat (length names)) p -> programs es pid (names ++ [name]) (ps ++ [p]).
Proof.
  intros [Hl Hp] Hd Ho. split; [rewrite !length_app; simpl; lia|]. intros i name' p' Hn Hps.
  destruct (decide (i < length names)%nat) as [Hlt|Hge].
  - rewrite lookup_app_l in Hn by lia. rewrite lookup_app_l in Hps by lia. by eapply Hp.
  - assert (i = length names) as ->.
    { apply lookup_lt_Some in Hn. rewrite length_app in Hn. simpl in Hn. lia. }
    rewrite lookup_app_r, Nat.sub_diag in Hn by done. rewrite <- Hl, lookup_app_r, Nat.sub_diag in Hps by done.
    injection Hn as <-. injection Hps as <-. by exists data.
Qed.

(** One more program of the list, present or not. *)
Record started (root : Z) (es : list VfsEntry) (n : nat) (names : list (list byte)) (ps : list Process)
    (k : Kernel S D) : Prop := mkStarted {
  sd_files : files_ok es n k; sd_programs : programs es 1 names ps;
  sd_queued : queued root (map User ps) k; sd_pid : k_next_pid k = 1 + len names }.

Lemma start_one off root path es n names ps (k k' : Kernel S D) ok : started root es n names ps k ->
  (n < MAX_OPEN_FILES)%nat -> (length names < 100)%nat -> path <> str "tty" ->
  start_program off root path k = Ret (ok, k') ->
  match file es path with
  | Some _ => ok = true /\ exists p, started root es (n + 1) (names ++ [path]) (ps ++ [p]) k'
  | None => ok = false /\ started root es (n + 1) names ps k'
  end.
Proof.
  intros [Hf Hp Hq Hpid] Hn Hl Ht Hr. pose proof (proj1 Hp) as Hlen.
  assert (plan_ok (map User ps)) as Hok by (unfold plan_ok, len; rewrite length_map; lia).
  destruct (start_program_spec off root path es n _ k k' ok Hf Hn Ht Hq Hok Hr) as [Hf' Hcase].
  destruct (file es path) as [data|] eqn:E.
  - destruct Hcase as (-> & p & Ho & Hq' & Hpid'). split; [done|]. exists p. split; [done| | |].
    + eapply programs_snoc; [done|exact E|]. rewrite Hpid in Ho. exact Ho.
    + by rewrite map_app.
    + rewrite Hpid', Hpid, len_app. unfold wrap, len. simpl. rewrite Z.mod_small; lia.
  - destruct Hcase as (-> & Hq' & Hpid'). split; [done|]. split; try done. congruence.
Qed.
Lemma start_programs_spec off root es n (k k' : Kernel S D) : started root es n [] [] k -> (n + 3 <= MAX_OPEN_FILES)%nat ->
  start_programs off root k = Ret k' -> exists m ps, started root es m (present es) ps k'.
Proof.
  intros Hs Hn Hr. unfold start_programs in Hr. inv_out. destruct a as [ok k1].
  pose proof (start_one off root (str "init") es n [] [] k k1 ok Hs ltac:(lia) ltac:(simpl; lia) ltac:(done) Ha) as H1s.
  unfold present. destruct (file es (str "init")) as [d|]; destruct H1s as [-> H1s]; [|injection Hr as <-; by eexists _, _].
  destruct H1s as [p1 H1s]. inv_out. destruct a as [ok2 k2]. inv_out. destruct a as [ok3 k3]. inv_out.
  pose proof (start_one off root (str "shell") es (n + 1) _ _ k1 k2 ok2 H1s ltac:(lia) ltac:(simpl; lia) ltac:(done) Ha0) as H2s.
  destruct (file es (str "shell")) as [d2|] eqn:E2; destruct H2s as [-> H2s].
  - destruct H2s as [p2 H2s].
    pose proof (start_one off root (str "fault-tester") es (n + 1 + 1) _ _ k2 k' ok3 H2s ltac:(lia) ltac:(simpl; lia) ltac:(done) Ha1) as H3s.
    rewrite filter_cons_True by (by rewrite E2). destruct (file es (str "fault-tester")) as [d3|] eqn:E3; destruct H3s as [-> H3s].
    + rewrite filter_cons_True by (by rewrite E3). destruct H3s as [p3 H3s]. by eexists _, _.
    + rewrite filter_cons_False by (rewrite E3; by intros [? [=]]). by eexists _, _.
  - pose proof (start_one off root (str "fault-tester") es (n + 1 + 1) _ _ k2 k' ok3 H2s ltac:(lia) ltac:(simpl; lia) ltac:(done) Ha1) as H3s.
    rewrite filter_cons_False by (rewrite E2; by intros [? [=]]). destruct (file es (str "fault-tester")) as [d3|] eqn:E3; destruct H3s as [-> H3s].
    + rewrite filter_cons_True by (by rewrite E3). destruct H3s as [p3 H3s]. by eexists _, _.
    + rewrite filter_cons_False by (rewrite E3; by intros [? [=]]). by eexists _, _.
Qed.

(** *** The first switch *)

(** The queue with its first task running. *)
Definition running (l : list Task) : list Task :=
  match l with t :: l => set_state t Running :: l | [] => [] end.

Lemma planned_ids root plan : map task_id (imap (planned root) plan) = map (fun i => 1 + Z.of_nat i) (seq 0 (length plan)).
Proof.
  change (map ?f ?l) with (f <$> l). rewrite fmap_imap. apply list_eq. intros i.
  rewrite list_lookup_imap, list_lookup_fmap. destruct (decide (i < length plan)%nat) as [Hlt|Hge].
  - destruct (lookup_lt_is_Some_2 plan i Hlt) as [e He]. rewrite He, lookup_seq_lt by done. done.
  - rewrite (lookup_ge_None_2 plan) by lia. by rewrite lookup_seq_ge by lia.
Qed.

Lemma planned_unique root plan : NoDup (map task_id (imap (planned root) plan)).
Proof.
  rewrite planned_ids. change (map ?f ?l) with (f <$> l). apply NoDup_fmap_2; [intros i j; lia|]. apply NoDup_seq.
Qed.

Lemma stack_high_canonical i : id_ok i -> canonical (stack_high i).
Proof.
  unfold canonical, stack_high, stack_low, STACK_SIZE, STACK_STRIDE, STACK_PAGES, GUARD_PAGES, KERNEL_STACK_REGION_BASE, id_ok. lia.
Qed.

Lemma start_scheduling_spec root plan (k : Kernel S D) sp sys : queued root plan k -> plan_ok plan ->
  start_scheduling (k_sys k) = Ret (sp, sys) ->
  ring sys = running (imap (planned root) plan) /\ Sched.wf sys /\ current_task (sched sys) = head (ring sys) /\
  sp = stack_high 1 - FRAME_BYTES.
Proof.
  intros [Hn Ht [Hc1 Hc2] Hf] Hok Hs. unfold start_scheduling in Hs. rewrite Ht in Hs.
  pose proof (planned_unique root plan) as Hnd. destruct plan as [|e plan]; [done|]. cbn [imap] in *. inv_out. case_if; [done|].
  injection Hs as <- <-. cbn [ring sched current_task running head tasks]. split; [done|].
  assert (a = hw_of (planned root 0 e)) as ->.
  { unfold switch_to in Ha. inv_out. match goal with Hx : virt_addr_new _ = Ret _ |- _ => apply virt_addr_new_Ret in Hx as -> end.
    unfold hw_of, set_interrupt_stack. cbn [cr3]. match goal with |- (if ?b then _ else _) = _ => destruct b eqn:Ec end; [|done].
    apply Z.eqb_eq in Ec. f_equal. exact Ec. }
  split; [|done]. split; cbn [ring sched current_task tasks current_task_id hw].
  - exact Hnd.
  - apply Forall_lookup. intros i t Hi. rewrite list_lookup_imap in Hi. destruct (plan !! i); [|done]. by injection Hi as <-.
  - assert (forall i e', (planned root 0 e :: imap (planned root ∘ Datatypes.S) plan) !! i = Some e' -> canonical (kernel_stack_top e')) as Hall.
    { intros i e' Hi. change (_ :: _) with (imap (planned root) (e :: plan)) in Hi. rewrite list_lookup_imap in Hi.
      destruct ((e :: plan) !! i) eqn:Ei; [|done]. injection Hi as <-. apply lookup_lt_Some in Ei.
      apply stack_high_canonical. unfold id_ok, plan_ok, len in *. lia. }
    apply Forall_cons. split; [exact (Hall 0%nat _ eq_refl)|]. apply Forall_lookup. intros i t Hi. exact (Hall (Datatypes.S i) t Hi).
  - done.
Qed.
End Queue.

(** Switching to [t] enters [e] with interrupts enabled and zero registers:
    a program in user mode at its entry point on its stack, a kernel task in
    ring 0 on its own empty stack. *)
Definition resumes (m : words) (t : Task) (e : start) : Prop := forall c, exists u,
  restore_context (stack_ptr t) c m = Some u /\ gpr u = zero_regs /\ rflags u = 0x202 /\
  match e with
  | User p => process t = p /\ rip u = entry_point p /\ rsp u = stack_top p /\ user_selector (cs u) = true
  | KernelTask entry => rip u = entry /\ rsp u = kernel_stack_top t /\ user_selector (cs u) = false
  end.

Lemma planned_resumes root m i e t : read_frame m (stack_ptr (planned root i e)) = start_frame i e ->
  t = planned root i e \/ t = set_state (planned root i e) Running -> resumes m t e.
Proof.
  intros Hf Ht c. assert (stack_ptr t = stack_ptr (planned root i e) /\ process t = process (planned root i e) /\
    kernel_stack_top t = kernel_stack_top (planned root i e)) as (-> & Hp & Hk) by (by destruct Ht as [->| ->]).
  rewrite restore_context_eq, Hf. eexists. split; [done|]. by destruct e.
Qed.

Lemma running_at root plan i e : plan !! i = Some e ->
  exists t, running (imap (planned root) plan) !! i = Some t /\ (t = planned root i e \/ t = set_state (planned root i e) Running).
Proof.
  intros Hi. destruct plan as [|e0 plan]; [done|]. cbn [imap running]. destruct i as [|i].
  - injection Hi as ->. eexists. split; [done|by right].
  - exists (planned root (Datatypes.S i) e). split; [|by left]. change (plan !! i = Some e) in Hi.
    change (imap (planned root ∘ Datatypes.S) plan !! i = Some (planned root (Datatypes.S i) e)).
    by rewrite list_lookup_imap, Hi.
Qed.

(** The console takes one descriptor and changes no task. *)
Lemma start_console_spec {S D} root fa es v (k k' : Kernel S D) : k_vfs k = v -> entries v = es -> Vfs.wf v -> free_from 0 v ->
  queued root [] k -> k_next_pid k = 1 -> start_console fa k = Ret k' -> started root es 1 [] [] k'.
Proof.
  intros Hv Hes Hwf Hfree Hq Hpid Hk. unfold start_console in Hk. rewrite Hv in Hk.
  destruct (read_program_spec (str "font.psf") v (k_tty k) 0 Hwf Hfree ltac:(unfold MAX_OPEN_FILES; lia) ltac:(done))
    as (v' & Hr & Hwf' & Hes' & Hfree').
  rewrite Hr in Hk. cbn [mbind outcome_bind] in Hk.
  assert (k_vfs k' = v' /\ k_next_pid k' = 1 /\ k_spawner k' = k_spawner k /\ k_sys k' = k_sys k) as (Hv1 & Hp1 & Hsp1 & Hs1).
  { destruct (contents v _); inv_out; done. }
  destruct Hq as [Hq1 Hq2 Hq3 Hq4]. split; [|by split|split; by rewrite ?Hsp1, ?Hs1|done].
  split; rewrite Hv1; [done|by rewrite Hes'|done].
Qed.

(** ** The end of the sequence *)

Section End.
Context {S D : Type} `{Machine S} `{VirtAddrs} `{PageEntries} `{AddressSpaces S}.

(** The system runs the programs of the files [es]: scheduler and file system
    satisfy their invariants; the tasks are, in this order, the programs
    ([init], and beside it [shell] and [fault-tester] when present) with
    process numbers from 1, each built from its file and entered in user mode
    at the entry point of the file's ELF header, then the three kernel tasks;
    their identifiers count from 1; and the context [sp] resumed first is that
    of the first of them, which the scheduler has as the running task. *)
Definition runs_programs (ad : Addresses) (es : list VfsEntry) (sp : Z) (k : Kernel S D) : Prop :=
  entries (k_vfs k) = es /\ Sched.wf (k_sys k) /\ Vfs.wf (k_vfs k) /\
  exists ps, programs es 1 (present es) ps /\
    let plan := map User ps ++ [KernelTask (heartbeat_task ad); KernelTask (worker_task ad); KernelTask (idle_task ad)] in
    length (ring (k_sys k)) = length plan /\
    (exists first, current_task (sched (k_sys k)) = Some first /\ head (ring (k_sys k)) = Some first /\ sp = stack_ptr first) /\
    forall i e, plan !! i = Some e -> exists t, ring (k_sys k) !! i = Some t /\ task_id t = 1 + Z.of_nat i /\
      resumes (stacks (k_spawner k)) t e.

(** The steps after the console. *)
Definition start_tasks (off root : Z) (ad : Addresses) (k : Kernel S D) : outcome (Z * Kernel S D) :=
  k ← start_programs off root k;
  k ← queue_kernel root (heartbeat_task ad) k;
  k ← queue_kernel root (worker_task ad) k;
  k ← queue_kernel root (idle_task ad) k;
  '(sp, sys) ← start_scheduling (k_sys k);
  Ret (sp, set_tasks (k_next_pid k) (k_spawner k) sys k).

Lemma running_length root plan : length (running (imap (planned root) plan)) = length plan.
Proof. transitivity (length (imap (planned root) plan)); [|apply length_imap]. by destruct (imap _ plan). Qed.

Lemma start_tasks_spec off root ad es sp (k k' : Kernel S D) : started root es 1 [] [] k ->
  start_tasks off root ad k = Ret (sp, k') -> runs_programs ad es sp k'.
Proof.
  intros Hst Hb. unfold start_tasks in Hb.
  apply bind_Ret_inv in Hb as (k2 & Hk2 & Hb).
  apply bind_Ret_inv in Hb as (k3 & Hk3 & Hb). apply bind_Ret_inv in Hb as (k4 & Hk4 & Hb).
  apply bind_Ret_inv in Hb as (k5 & Hk5 & Hb). apply bind_Ret_inv in Hb as ([sp' sys] & Hs & Hb). injection Hb as -> <-.
  destruct (start_programs_spec _ _ _ _ _ _ Hst ltac:(unfold MAX_OPEN_FILES; lia) Hk2) as (m & ps & [Hf2 Hps Hq2 _]).
  assert (length ps <= 3)%nat as Hl3.
  { destruct Hps as [-> _]. unfold present. destruct (file _ _); [|simpl; lia].
    pose proof (length_filter (fun name => is_Some (file es name)) [str "shell"; str "fault-tester"]). simpl in *. lia. }
  assert (forall x, (length x <= 3)%nat -> plan_ok (map User ps ++ x)) as Hpo.
  { intros x Hx. unfold plan_ok, len. rewrite length_app, length_map. lia. }
  destruct (queue_kernel_spec _ _ _ _ _ Hq2 ltac:(rewrite <- (app_nil_r (map User ps)); apply Hpo; simpl; lia) Hk3) as [Hq3 Hv3].
  destruct (queue_kernel_spec _ _ _ _ _ Hq3 ltac:(apply Hpo; simpl; lia) Hk4) as [Hq4 Hv4]. rewrite <- app_assoc in Hq4. cbn [app] in Hq4.
  destruct (queue_kernel_spec _ _ _ _ _ Hq4 ltac:(apply Hpo; simpl; lia) Hk5) as [Hq5 Hv5]. rewrite <- app_assoc in Hq5. cbn [app] in Hq5.
  destruct (start_scheduling_spec _ _ _ _ _ Hq5 ltac:(apply Hpo; simpl; lia) Hs) as (Hring & Hswf & Hcur & ->).
  unfold runs_programs. cbn [k_vfs k_sys k_spawner set_tasks]. rewrite Hv5, Hv4, Hv3.
  split; [apply Hf2|]. split; [done|]. split; [apply Hf2|]. exists ps. split; [done|]. cbv zeta.
  set (plan := map User ps ++ [KernelTask (heartbeat_task ad); KernelTask (worker_task ad); KernelTask (idle_task ad)]) in *.
  rewrite Hring in *. split; [apply running_length|]. split.
  - assert (is_Some (plan !! 0%nat)) as [e0 He0].
    { apply lookup_lt_is_Some. subst plan. rewrite length_app. simpl. lia. }
    destruct (running_at root plan 0 e0 He0) as (t & Ht & Hor). exists t. rewrite Hcur.
    assert (head (running (imap (planned root) plan)) = Some t) as Hhead by (by destruct (running _)).
    split_and!; [done|done|]. by destruct Hor as [->| ->].
  - intros i e Hi. destruct (running_at root plan i e Hi) as (t & Ht & Hor). exists t. split_and!; [done|by destruct Hor as [->| ->]|].
    eapply planned_resumes; [|exact Hor]. exact (q_frames _ _ _ Hq5 i e Hi).
Qed.
End End.

(** When boot reaches the scheduler, the hand-off block was valid and the
    system runs the programs of the ramdisk. *)
Lemma boot_outcome {S D} `{Machine S} `{VirtAddrs} `{PageEntries} `{AddressSpaces S}
    `{Hardware D} `{!LegacyPics D} `{GdtCrate} `{AcpiCrate} `{KernelHeap} fuel machine ad b screen stk io h sp (k : Kernel S D) :
  0 <= ramdisk_size b <= isize_max -> early_boot fuel machine ad b screen stk io h = Ret (sp, k) ->
  block_ok b /\ runs_programs ad (entries (k_vfs k)) sp k.
Proof.
  intros Hrs Hb. unfold early_boot in Hb.
  destruct (validate_boot_info b) as [[]|] eqn:Ev; [|done]. apply validate_boot_info_spec in Ev; [|lia].
  cbn [mbind outcome_bind] in Hb. apply bind_Ret_inv in Hb as (off & _ & Hb).
  apply bind_Ret_inv in Hb as ([s heap] & _ & Hb). apply bind_Ret_inv in Hb as ([[] io1] & _ & Hb).
  apply bind_Ret_inv in Hb as ([fb scr] & _ & Hb). apply bind_Ret_inv in Hb as ([[] io2] & _ & Hb).
  apply bind_Ret_inv in Hb as (v & Hv & Hb). destruct (mounted_files _ _ _ _ Hv Hrs) as [Hwf Hfree].
  apply bind_Ret_inv in Hb as ([] & _ & Hb).
  set (k0 := mkKernel 1 _ v Tty.new (initial h) io2 fb scr None) in Hb.
  apply bind_Ret_inv in Hb as (k1 & Hk1 & Hb).
  pose proof (start_console_spec (cr3 h) _ (entries v) v k0 k1 eq_refl eq_refl Hwf Hfree ltac:(by split) eq_refl Hk1) as Hst.
  pose proof (start_tasks_spec off (cr3 h) ad (entries v) sp k1 k Hst Hb) as Hrun. split; [done|].
  by rewrite (proj1 Hrun).
Qed.
