(* ===== verification/BootTotal.v ===== *)
(** * The boot sequence ends ([kernel/src/boot.rs])

    On a machine with enough frames and heap, devices that answer and a
    well-formed ramdisk, every step of [early_boot] returns, and the scheduler runs what
    the ramdisk holds. *)

From S2P Require Import Prelude Alloc Utf8 Abi X86 Elf Tty Vfs Ramdisk VfsHeap Video FrameAlloc Heap HeapLimits Paging Context Sched Process TaskNew.
From S2P Require Import FlatSpaces Bus Arch Drivers Smp Boot EarlyBoot.

Definition KERNEL_FLAGS : Z := Z.lor PRESENT WRITABLE.

(** ** The running address space *)

Section Running.
Context {S : Type} `{Machine S} `{VirtAddrs} `{PageEntries} `{AddressSpaces S} (off : Z) `{!Mapper S off}.
Hypothesis off_ok : off mod 4096 = 0 /\ canonical off.

(** A page the kernel can still map. *)
Definition mappable (s : S) (root v : Z) : Prop := plain s root v /\ translate s root v = None.

(** The running space is sound, and [free] are pages it can map. *)
Record roomy (root : Z) (free : Z -> Prop) (s : S) : Prop := mkRoomy {
  rm_space : kernel_space off s root;
  rm_free : forall v, free v -> mappable s root v }.

(** Memory that is neither a table nor in the allocator's pool. *)
Definition outside (root : Z) (s : S) (x : Z) : Prop :=
  (forall p, tables_of s root p -> ~ in_page p x) /\ forall f, owned s f -> ~ in_page (off + f) x.

(** [s'] after [s], with at most [n] frames handed out. *)
Record proceeds (root : Z) (n : nat) (s s' : S) : Prop := mkProceeds {
  pr_spent : exists k, (k <= n)%nat /\ spent k s s';
  pr_space : kernel_space off s' root;
  pr_plain : forall v, plain s root v -> plain s' root v;
  pr_outside : forall x, outside root s x -> outside root s' x }.

Lemma take_proceeds root s f s' : kernel_space off s root -> take_frame s = Ret (Some f, s') ->
  proceeds root 1 s s' /\ (forall v, translate s' root v = translate s root v) /\ pmem s' = pmem s /\ frame_ok f.
Proof.
  intros [Hr (Hrf & Hrc & Hro) Hkt Hkp Hco] Ht. pose proof (proj2 (take_frame_ok _ _ _ Ht) _ Hco) as Hco'.
  rewrite take_frame_allocates in Ht.
  destruct (allocate_frame_cases s (proj1 Hr)) as (r & s1 & Hal & Ha & Hok & Hm & Hown & Hres).
  rewrite Ht in Hal. injection Hal as <- <-. destruct Hres as [Hf _].
  destruct (allocate_space s _ s' root Ht) as [Htr Htb Hpl].
  split; [|split; [done|split; [done|by apply Hr]]]. split.
  - exists 1%nat. split; [done|]. eapply spent_frame; [apply spent_refl|done].
  - split; [by apply (ready_after off s)|by split_and!; auto| | |done].
    + intros g Hg Hbad. apply (Hkt g); [auto|by apply Htb].
    + intros p Hp. by apply Hkp, Htb.
  - intros v Hv. by apply Hpl.
  - intros x [Hx1 Hx2]. split; [intros p Hp; by apply Hx1, Htb|intros g Hg; by apply Hx2, Hown].
Qed.

(** Mapping into the running space or one beside it. *)
Lemma map_proceeds root s root' page f flags r s' k : kernel_space off s root -> coherent s (fun r => r = root' \/ r = root) ->
  map_to s root' page f flags = Ret (r, s') -> spent k s s' -> proceeds root k s s'.
Proof.
  intros [Hr (Hrf & Hrc & Hro) Hkt Hkp _] Hco Hm Hsp.
  pose proof (map_to_coherent _ _ _ _ _ _ _ _ Hm Hco (or_introl eq_refl)) as Hco'.
  destruct (map_to_tables _ _ _ _ _ _ _ _ Hm Hco (or_introl eq_refl)) as (Htb & _ & Hpl & _).
  pose proof (fun p => Htb root p (or_intror eq_refl)) as Htbr. pose proof (fun v => Hpl root v (or_intror eq_refl)) as Hplr.
  pose proof (spent_after _ _ _ Hsp) as Ha. destruct (after_keeps _ _ Ha (proj1 Hr)) as [_ Hown].
  assert (forall p, tables_of s' root p -> tables_of s root p \/ granted off s s' p) as Htb'.
  { intros p Hp. apply Htbr in Hp as [|[]]; auto. }
  split; [by exists k| |auto|].
  - split; [by apply (ready_after off s)|by split_and!; auto| | |apply (coherent_mono s' _ _ Hco'); by intros r' ->; right].
    + intros g Hg Hbad. apply Htb' in Hbad as [Hbad|(g' & _ & Hno & Heq)]; [by apply (Hkt g); [apply Hown|]|].
      apply Hno. by replace g' with g by lia.
    + intros p Hp. apply Htb' in Hp as [Hp|Hp]; [by apply Hkp|]. exact (granted_page off off_ok _ _ _ Hr Hp).
  - intros x [Hx1 Hx2]. split; [|intros g Hg; by apply Hx2, Hown].
    intros p Hp. apply Htb' in Hp as [Hp|(g & Hg & _ & ->)]; [by apply Hx1|by apply Hx2].
Qed.

Lemma proceeds_trans root n m s t u : proceeds root n s t -> proceeds root m t u -> proceeds root (n + m) s u.
Proof.
  intros [(k & Hk & Hsp) Hs Hp Ho] [(j & Hj & Hsp') Hs' Hp' Ho']. split; auto.
  exists (k + j)%nat. split; [lia|]. by eapply spent_trans.
Qed.

Lemma proceeds_answers root n m s t : proceeds root n s t -> answers (n + m) s -> answers m t.
Proof.
  intros [(k & Hk & Hsp) _ _ _] Ha. eapply answers_spent; [exact Hsp|]. eapply answers_le; [|exact Ha]. lia.
Qed.

Lemma proceeds_refl root s : kernel_space off s root -> proceeds root 0 s s.
Proof. intros Hs. split; auto. exists O. split; [done|apply spent_refl]. Qed.

Lemma proceeds_le root n m s t : (n <= m)%nat -> proceeds root n s t -> proceeds root m s t.
Proof. intros Hle [(k & Hk & Hsp) ? ? ?]. split; auto. exists k. split; [lia|done]. Qed.

(** Loading a program. *)
Lemma building_proceeds root s proot s' k n : kernel_space off s root -> building off root s proot s' -> spent k s s' ->
  (k <= n)%nat -> proceeds root n s s' /\ forall v, ~ user_page v -> translate s' root v = translate s root v.
Proof.
  intros Hks Hb Hsp Hk. split; [|apply (b_running_map _ _ _ _ _ Hb)]. split; [by exists k| | |].
  - by apply (building_keeps off off_ok s root proot).
  - apply (b_running_plain _ _ _ _ _ Hb).
  - destruct (after_keeps _ _ (spent_after _ _ _ Hsp) (proj1 (ks_ready _ _ _ Hks))) as [_ Hown].
    intros x [Hx1 Hx2]. split; [|intros f Hf; by apply Hx2, Hown].
    intros p Hp. destruct (b_running _ _ _ _ _ Hb p Hp) as [Hp'|[Hp' _]]; [by apply Hx1|].
    destruct (b_tables _ _ _ _ _ Hb p Hp') as [Hp''|(f & Hf & _ & ->)]; [by apply Hx1|by apply Hx2].
Qed.

(** A frame mapped at a page of the kernel half. *)
Lemma map_kernel_spec root s page : kernel_space off s root -> mappable s root page -> canonical page -> page mod 4096 = 0 ->
  answers 4 s ->
  exists f s1 s2, take_frame s = Ret (Some f, s1) /\ map_to s1 root page f KERNEL_FLAGS = Ret (true, s2) /\
    proceeds root 4 s s2 /\ (forall v, v <> page -> translate s2 root v = translate s root v) /\
    forall x, outside root s x -> pmem s2 x = pmem s x.
Proof.
  intros Hks [Hpl Hno] Hc Hpg (f & s1 & Hal & Hans). rewrite <- take_frame_allocates in Hal.
  destruct (take_proceeds root s f s1 Hks Hal) as (Hp1 & Htr & Hm1 & Hfok).
  destruct (map_to_returns s1 root page f KERNEL_FLAGS) as (r & s2 & k & Hm & Hk & Hsp & Hr); try done.
  { apply (ks_ready _ _ _ (pr_space _ _ _ _ Hp1)). } { apply (ks_root _ _ _ Hks). }
  rewrite Hr in Hm; [|by apply (pr_plain _ _ _ _ Hp1)|by rewrite Htr|done].
  pose proof (ks_coherent _ _ _ (pr_space _ _ _ _ Hp1)) as Hco1.
  assert (coherent s1 (fun r => r = root \/ r = root)) as Hco1' by (apply (coherent_mono s1 _ _ Hco1); naive_solver).
  pose proof (map_proceeds root _ _ _ _ _ _ _ _ (pr_space _ _ _ _ Hp1) Hco1' Hm Hsp) as Hp2.
  exists f, s1, s2. split; [done|]. split; [done|]. split; [|split].
  - eapply proceeds_le; [|exact (proceeds_trans _ _ _ _ _ _ Hp1 Hp2)]. lia.
  - intros v Hv. by rewrite (map_to_other _ _ _ _ _ _ _ _ Hm Hco1 eq_refl root v eq_refl Hv), Htr.
  - intros x Hx. destruct (map_to_tables _ _ _ _ _ _ _ _ Hm Hco1 eq_refl) as (_ & _ & _ & Hout). rewrite Hout, Hm1; [done|].
    apply (pr_outside _ _ _ _ Hp2), (pr_outside _ _ _ _ Hp1), Hx.
Qed.

(** *** Runs of pages *)

Inductive mapped_run (root : Z) : list Z -> S -> S -> Prop :=
| run_nil s : mapped_run root [] s s
| run_cons page pages f s s1 s2 s' : take_frame s = Ret (Some f, s1) -> map_to s1 root page f KERNEL_FLAGS = Ret (true, s2) ->
    mapped_run root pages s2 s' -> mapped_run root (page :: pages) s s'.

Lemma run_heap root pages s s' : mapped_run root pages s s' -> try_each (map_heap_page root) pages s = Ret (Ok s').
Proof.
  induction 1 as [|page pages f s s1 s2 s' Ht Hm _ IH]; [done|]. cbn [try_each]. unfold map_heap_page at 1. rewrite Ht.
  cbn [mbind outcome_bind fst snd]. fold KERNEL_FLAGS. rewrite Hm. exact IH.
Qed.

Lemma run_stack root pages s s' : mapped_run root pages s s' -> for_each (map_stack_page root) pages s = Ret s'.
Proof.
  induction 1 as [|page pages f s s1 s2 s' Ht Hm _ IH]; [done|]. cbn [for_each]. unfold map_stack_page at 2. rewrite Ht.
  cbn [mbind outcome_bind fst snd unwrap]. fold KERNEL_FLAGS. rewrite Hm. exact IH.
Qed.

Definition page_ok (v : Z) : Prop := canonical v /\ v mod 4096 = 0.

(** What a run of pages leaves behind. *)
Record ran (root : Z) (pages : list Z) (n : nat) (s s' : S) : Prop := mkRan {
  ran_proceeds : proceeds root n s s';
  ran_others : forall v, v ∉ pages -> translate s' root v = translate s root v }.

Lemma ran_cons root page pages n m s t u : proceeds root n s t -> (forall v, v <> page -> translate t root v = translate s root v) ->
  ran root pages m t u -> ran root (page :: pages) (n + m) s u.
Proof.
  intros Hp Hv [Hp' Hv']. split; [by eapply proceeds_trans|]. intros v [H1' H2']%not_elem_of_cons. rewrite Hv' by done. by apply Hv.
Qed.

Lemma ran_mappable root pages n s s' v : ran root pages n s s' -> v ∉ pages -> mappable s root v -> mappable s' root v.
Proof. intros [Hp Ho] Hv [Hpl Hno]. split; [by apply (pr_plain _ _ _ _ Hp)|by rewrite Ho]. Qed.

Lemma kernel_run root pages s : kernel_space off s root -> NoDup pages -> Forall page_ok pages ->
  (forall v, v ∈ pages -> mappable s root v) -> answers (4 * length pages) s ->
  exists s', mapped_run root pages s s' /\ ran root pages (4 * length pages) s s' /\
    forall x, outside root s x -> pmem s' x = pmem s x.
Proof.
  revert s. induction pages as [|page pages IH]; intros s Hks Hnd Hok Hfree Hans.
  { exists s. split; [constructor|]. split; [|done]. split; [by apply proceeds_refl|done]. }
  apply NoDup_cons in Hnd as [Hni Hnd]. inversion Hok as [|? ? [Hc Hm] Hok']; subst. cbn [length] in *.
  destruct (map_kernel_spec root s page Hks) as (f & s1 & s2 & Ht & Hmt & Hp & Ho & Hmem); try done.
  { apply Hfree. left. } { eapply answers_le; [|exact Hans]. lia. }
  destruct (IH s2) as (s' & Hrun & Hran & Hmem'); [apply Hp|done|done| | |].
  - intros v Hv. destruct (Hfree v) as [Hpl Hno]; [by right|]. split; [by apply (pr_plain _ _ _ _ Hp)|].
    rewrite Ho; [done|]. by intros ->.
  - apply (proceeds_answers root 4 _ s s2 Hp). by replace (4 + 4 * length pages)%nat with (4 * Datatypes.S (length pages))%nat by lia.
  - exists s'. split; [by econstructor|]. split.
    + replace (4 * Datatypes.S (length pages))%nat with (4 + 4 * length pages)%nat by lia. by eapply ran_cons.
    + intros x Hx. rewrite Hmem', Hmem; [done|done|]. by apply (pr_outside _ _ _ _ Hp).
Qed.

(** Pages mapped in the running space and, where possible, in a process's. *)
Lemma user_stack_run root proot pages s : kernel_space off s root -> coherent s (fun r => r = proot \/ r = root) ->
  frame_ok proot -> NoDup pages -> Forall page_ok pages ->
  (forall v, v ∈ pages -> mappable s root v) -> answers (7 * length pages) s ->
  exists s', for_each (map_user_stack_page root proot) pages s = Ret s' /\ ran root pages (7 * length pages) s s'.
Proof.
  intros Hks Hco Hpr. revert s Hks Hco. induction pages as [|page pages IH]; intros s Hks Hco Hnd Hok Hfree Hans.
  { exists s. split; [done|]. split; [by apply proceeds_refl|done]. }
  apply NoDup_cons in Hnd as [Hni Hnd]. inversion Hok as [|? ? [Hc Hm] Hok']; subst. cbn [length] in *.
  destruct (map_kernel_spec root s page Hks) as (f & s1 & s2 & Ht & Hmt & Hp & Ho & _); try done.
  { apply Hfree. left. } { eapply answers_le; [|exact Hans]. lia. }
  destruct (take_proceeds root s f s1 Hks Ht) as (_ & _ & _ & Hfok).
  destruct (map_to_returns s2 proot page f KERNEL_FLAGS) as (r & s3 & k & Hm3 & Hk & Hsp3 & _); try done.
  { apply (ks_ready _ _ _ (pr_space _ _ _ _ Hp)). }
  { apply (proceeds_answers root 4 _ s s2 Hp). eapply answers_le; [|exact Hans]. lia. }
  pose proof (map_to_coherent _ _ _ _ _ _ _ _ Hmt (proj2 (take_frame_ok _ _ _ Ht) _ Hco) (or_intror eq_refl)) as Hco2.
  pose proof (map_proceeds root _ _ _ _ _ _ _ _ (pr_space _ _ _ _ Hp) Hco2 Hm3 Hsp3) as Hp3.
  pose proof (proceeds_le _ _ 3 _ _ Hk Hp3) as Hp3'. pose proof (proceeds_trans _ _ _ _ _ _ Hp Hp3') as Hp7.
  assert (forall v, v <> page -> translate s3 root v = translate s root v) as Ho3.
  { intros v Hv. by rewrite (map_to_other _ _ _ _ _ _ _ _ Hm3 Hco2 (or_introl eq_refl) root v (or_intror eq_refl) Hv), Ho. }
  destruct (IH s3) as (s' & Hrun & Hran); [apply Hp3|exact (map_to_coherent _ _ _ _ _ _ _ _ Hm3 Hco2 (or_introl eq_refl))|done|done| | |].
  - intros v Hv. destruct (Hfree v) as [Hpl Hno]; [by right|]. split; [by apply (pr_plain _ _ _ _ Hp7)|].
    rewrite Ho3; [done|]. by intros ->.
  - apply (proceeds_answers root 7 _ s s3 Hp7). by replace (7 + 7 * length pages)%nat with (7 * Datatypes.S (length pages))%nat by lia.
  - exists s'. split.
    + cbn [for_each]. unfold map_user_stack_page at 2. rewrite Ht. cbn [mbind outcome_bind fst snd unwrap]. fold KERNEL_FLAGS.
      rewrite Hmt. cbn [mbind outcome_bind fst snd]. rewrite Hm3. exact Hrun.
    + replace (7 * Datatypes.S (length pages))%nat with (7 + 7 * length pages)%nat by lia. by eapply ran_cons.
Qed.

(** ** Steps of the boot sequence *)

Definition heap_run : list Z := map (fun i => HEAP_START + i * 4096) (seqZ 0 25).
Definition stack_run (id : Z) : list Z := map (fun i => stack_low id + i * 4096) (seqZ 0 8).

Lemma stack_run_bounds id v : v ∈ stack_run id -> stack_low id <= v < stack_low id + 32768 /\ v mod 4096 = 0.
Proof.
  intros (i & -> & Hi%elem_of_seqZ)%list_elem_of_fmap. split; [lia|].
  unfold stack_low, STACK_STRIDE, KERNEL_STACK_REGION_BASE, STACK_PAGES, GUARD_PAGES.
  replace (_ + i * 4096) with ((0xFFFFFE0000000 + id * 10 + 1 + i) * 4096) by lia. apply Z.mod_mul. lia.
Qed.

Lemma run_nodup a l : NoDup (map (fun i => a + i * 4096) (seqZ 0 l)).
Proof. apply NoDup_fmap_2; [intros ???; lia|apply NoDup_seqZ]. Qed.

Lemma heap_run_ok : Forall page_ok heap_run.
Proof.
  apply Forall_forall. intros v (i & -> & Hi%elem_of_seqZ)%list_elem_of_fmap. split; [unfold canonical, HEAP_START; lia|].
  unfold HEAP_START. replace (_ + i * 4096) with ((0xFFFFA00000000 + i) * 4096) by lia. apply Z.mod_mul. lia.
Qed.

Lemma stack_run_ok id : id_ok id -> Forall page_ok (stack_run id).
Proof.
  intros Hid. apply Forall_forall. intros v [Hb Hm]%stack_run_bounds. split; [|done]. unfold id_ok in Hid.
  unfold canonical, stack_low, STACK_STRIDE, KERNEL_STACK_REGION_BASE, STACK_PAGES, GUARD_PAGES in *. lia.
Qed.

Lemma regions_apart id v : 1 <= id <= 2 ^ 20 -> v ∈ stack_run id -> v ∉ heap_run ++ [KERNEL_STACK_REGION_BASE].
Proof.
  intros Hid [Hv _]%stack_run_bounds. unfold stack_low, STACK_STRIDE, KERNEL_STACK_REGION_BASE, STACK_PAGES, GUARD_PAGES in *.
  rewrite not_elem_of_app, list_elem_of_singleton. split; [|lia].
  intros (i & -> & Hi%elem_of_seqZ)%list_elem_of_fmap. unfold HEAP_START in Hv. lia.
Qed.

(** Memory: the heap's pages and the anchor of the stack region. *)
Lemma start_memory_returns root s : kernel_space off s root -> (forall v, v ∈ heap_run -> mappable s root v) ->
  mappable s root KERNEL_STACK_REGION_BASE -> answers 104 s ->
  exists s' heap, start_memory off root s = Ret (s', heap) /\
    ran root (heap_run ++ [KERNEL_STACK_REGION_BASE]) 104 s s' /\ forall x, outside root s x -> pmem s' x = pmem s x.
Proof.
  intros Hks Hheap [Hapl Hano] Hans. destruct (ks_root _ _ _ Hks) as (_ & Hrc & _).
  unfold start_memory, init_heap. rewrite (table_ptr_ok off off_ok) by done. cbn [mbind outcome_bind].
  rewrite (virt_addr_new_ok HEAP_START) by (unfold canonical, HEAP_START; lia). cbn [mbind outcome_bind].
  rewrite (virt_addr_add_ok HEAP_START HEAP_SIZE) by (unfold canonical, HEAP_START, HEAP_SIZE; lia). cbn [mbind outcome_bind].
  destruct heap_pages as (last & -> & Hpr). cbn [mbind outcome_bind]. rewrite Hpr. fold heap_run.
  destruct (kernel_run root heap_run s Hks (run_nodup _ _) heap_run_ok Hheap) as (s1 & Hrun & Hran & Hmem).
  { eapply answers_le; [|exact Hans]. vm_compute. lia. }
  rewrite (run_heap _ _ _ _ Hrun). cbn [try_bind]. destruct (fsb_init_inv HEAP_START HEAP_SIZE) as (a & -> & _); [done..|].
  cbn [mbind outcome_bind]. unfold init_kernel_stack_region.
  assert (KERNEL_STACK_REGION_BASE ∉ heap_run) as Hni.
  { intros (i & Heq & Hi%elem_of_seqZ)%list_elem_of_fmap. unfold KERNEL_STACK_REGION_BASE, HEAP_START in Heq. lia. }
  rewrite (ran_others _ _ _ _ _ Hran) by done. rewrite Hano. change (4 * length heap_run)%nat with 100%nat in Hran.
  pose proof (ran_proceeds _ _ _ _ _ Hran) as Hp.
  destruct (map_kernel_spec root s1 KERNEL_STACK_REGION_BASE) as (f & s2 & s3 & Ht & Hm & Hp2 & Ho & Hmem2).
  { apply Hp. } { by eapply ran_mappable. } { unfold canonical, KERNEL_STACK_REGION_BASE. lia. } { done. }
  { by apply (proceeds_answers root 100 4 s s1 Hp). }
  rewrite Ht. cbn [mbind outcome_bind fst snd unwrap]. fold KERNEL_FLAGS. rewrite Hm. cbn [mbind outcome_bind snd].
  exists s3, a. split; [done|]. split.
  - split; [exact (proceeds_trans _ _ _ _ _ _ Hp Hp2)|]. intros v [Hv1 Hv2]%not_elem_of_app.
    rewrite Ho by (intros ->; by apply Hv2, list_elem_of_singleton). by apply (ran_others _ _ _ _ _ Hran).
  - intros x Hx. rewrite Hmem2, Hmem; [done|done|]. by apply (pr_outside _ _ _ _ Hp).
Qed.

Lemma Task_new_returns root p entry (k : Spawner S) : id_ok (next_id k) -> kernel_space off (spaces k) root ->
  (forall v, v ∈ stack_run (next_id k) -> mappable (spaces k) root v) -> answers 32 (spaces k) ->
  exists t k', Task_new root p entry k = Ret (t, k') /\ next_id k' = wrap 64 (next_id k + 1) /\
    ran root (stack_run (next_id k)) 32 (spaces k) (spaces k').
Proof.
  intros Hid Hks Hfree Hans. unfold Task_new. cbn [TaskId_new]. rewrite stack_bounds_ok by done. cbn [mbind outcome_bind].
  destruct (virt_addr_sub (stack_high (next_id k)) 1) as [last| |] eqn:El;
    try (rewrite virt_addr_sub_ok in El; [done|..]; unfold id_ok, canonical, stack_high, stack_low, STACK_SIZE, STACK_STRIDE,
      KERNEL_STACK_REGION_BASE, STACK_PAGES, GUARD_PAGES in *; lia).
  cbn [mbind outcome_bind spaces]. rewrite (stack_pages _ _ Hid El). fold (stack_run (next_id k)).
  destruct (kernel_run root (stack_run (next_id k)) (spaces k) Hks (run_nodup _ _) (stack_run_ok _ Hid) Hfree)
    as (s' & Hrun & Hran & _); [done|].
  rewrite (run_stack _ _ _ _ Hrun). cbn [mbind outcome_bind]. destruct (first_context _ _ _ _ _ _) as [m sp].
  by eexists _, _.
Qed.

Lemma Task_new_user_returns root p (k : Spawner S) : id_ok (next_id k) -> kernel_space off (spaces k) root ->
  coherent (spaces k) (fun r => r = pml4_frame p \/ r = root) ->
  frame_ok (pml4_frame p) -> (forall v, v ∈ stack_run (next_id k) -> mappable (spaces k) root v) -> answers 56 (spaces k) ->
  exists t k', Task_new_user root p k = Ret (t, k') /\ next_id k' = wrap 64 (next_id k + 1) /\
    ran root (stack_run (next_id k)) 56 (spaces k) (spaces k').
Proof.
  intros Hid Hks Hco Hpr Hfree Hans. unfold Task_new_user. cbn [TaskId_new]. rewrite stack_bounds_ok by done. cbn [mbind outcome_bind].
  destruct (virt_addr_sub (stack_high (next_id k)) 1) as [last| |] eqn:El;
    try (rewrite virt_addr_sub_ok in El; [done|..]; unfold id_ok, canonical, stack_high, stack_low, STACK_SIZE, STACK_STRIDE,
      KERNEL_STACK_REGION_BASE, STACK_PAGES, GUARD_PAGES in *; lia).
  cbn [mbind outcome_bind spaces]. rewrite (stack_pages _ _ Hid El). fold (stack_run (next_id k)).
  destruct (user_stack_run root (pml4_frame p) (stack_run (next_id k)) (spaces k) Hks Hco Hpr (run_nodup _ _) (stack_run_ok _ Hid) Hfree)
    as (s' & Hrun & Hran); [done|].
  rewrite Hrun. cbn [mbind outcome_bind]. destruct (first_context _ _ _ _ _ _) as [m sp]. by eexists _, _.
Qed.
End Running.

(** ** Devices and screen *)

(** The firmware names no processors, or an APIC with the processors of the
    machine. *)
Definition platform_ok `{AcpiCrate} `{VirtAddrs} (rsdp off base : Z) : Prop :=
  rsdp = 0 \/ exists t bsp aps, rsdp <> 0 /\ from_rsdp (map_physical_region off) rsdp = Ret (Some t) /\
    PlatformInfo_new t = Some (mkPlatformInfo (Apic base) (Some (mkProcessorInfo bsp aps))) /\ base + 0x310 < 2 ^ 64 /\ 0 <= base /\ base mod 4 = 0.

Section Devices.
Context {D : Type} `{Hardware D} `{!ApicBase D} `{!LegacyPics D} `{!PciHost D} `{VirtAddrs} `{GdtCrate} `{AcpiCrate}.
Context (fuel : nat) (base : Z) `{!Delivers D fuel base}.

Lemma start_devices_returns rsdp off `{!Settles D fuel off} (s : Io D) : window off -> platform_ok rsdp off base -> (0 < fuel)%nat ->
  AP_APIC_IDS (st s) = [] -> CPU_COUNT (st s) = 1 -> AP_READY (st s) = 0 ->
  exists s', start_devices fuel rsdp off s = Ret (tt, s').
Proof.
  intros Hw Hpl Hf Hids Hone Hready. assert (wp (start_devices fuel rsdp off) s (fun _ _ => True)) as ([] & s' & Hs & _);
    [|by exists s']. unfold start_devices. apply wp_bind.
  eapply wp_mono; [|apply (wp_enumerate_pci fuel off (config (dev s)) s); [apply config_u32|done|done]].
  intros [] s1 [_ _ Hst1].
  assert (AP_APIC_IDS (st s1) = [] /\ CPU_COUNT (st s1) = 1 /\ AP_READY (st s1) = 0) as (Hids1 & Hone1 & Hready1).
  { rewrite Hst1. unfold found. by destruct (last _). }
  destruct Hpl as [->|(t & bsp & aps & Hr & Ht & Hi & Hlt & Hpos & Hmod)].
  - unfold acpi_init. rewrite Z.eqb_refl. apply wp_bind, wp_ret. unfold smp_init. apply wp_bind, wp_statics. apply wp_bind, wp_update.
    cbv zeta. rewrite Hids1. by apply wp_ret.
  - pose proof (wp_platform_start fuel base rsdp off t bsp aps s1 Hr Ht Hi Hlt Hpos Hf Hids1 Hone1 Hready1) as Hwp.
    rewrite Hmod in Hwp. cbn [Z.eqb orb] in Hwp. eapply wp_mono; [|exact Hwp]. done.
Qed.

Lemma arch_returns k off (s : Io D) : linked_ok k -> controllers_mapped off (apic_base (dev s)) -> LAPIC (st s) = None ->
  exists s', arch_init k off s = Ret (tt, s') /\ AP_APIC_IDS (st s') = AP_APIC_IDS (st s) /\
    CPU_COUNT (st s') = CPU_COUNT (st s) /\ AP_READY (st s') = AP_READY (st s).
Proof.
  intros Hk Hm Hl. destruct (wp_arch_init k off s Hk Hm Hl) as ([] & s' & Hs & _ & Hst). exists s'. by rewrite Hst.
Qed.
End Devices.

Lemma video_returns b m : fb_addr b = 0 \/ fb_ok (Framebuffer_new b) -> exists r, Video.init b m = Ret r.
Proof.
  intros Hfb. unfold Video.init. destruct (Z.eqb_spec (fb_addr b) 0) as [|Hne]; [by eexists|].
  destruct Hfb as [|Hfb]; [done|]. unfold clear. pose proof Hfb as [[Ha Ham] Hl Hc Hw He].
  rewrite mul_u_Ret by nia. cbn [mbind outcome_bind].
  destruct (fill_spec m (addr (Framebuffer_new b)) (fbheight (Framebuffer_new b) * pitch (Framebuffer_new b)) 0x001a2a)
    as (m1 & -> & _); [done|done|lia|]. cbn [mbind outcome_bind].
  destruct (draw_rect_returns (Framebuffer_new b) m1 20 20 100 100 0x00aaff Hfb) as (m2 & -> & _); [lia..|]. cbn [mbind outcome_bind].
  destruct (draw_rect_returns (Framebuffer_new b) m2 140 20 100 100 0xffaa00 Hfb) as (m3 & -> & _); [lia..|]. cbn [mbind outcome_bind].
  destruct (draw_rect_returns (Framebuffer_new b) m3 260 20 100 100 0x00ffaa Hfb) as (m4 & -> & _); [lia..|]. by eexists.
Qed.

(** ** Programs and tasks *)

(** A file the kernel can make a process of, given the frames. *)
Record program_ok (data : list byte) (h : ElfHeader) : Prop := mkProgramOk {
  pk_header : parse_header data = Ret (Ok h);
  pk_entry : canonical (entry h);
  pk_table : forall i, 0 <= i < program_header_count h -> exists o, segment_verdict data h i = Ok o;
  pk_fits : Forall (fits data) (omap (loadable data h) (seqZ 0 (program_header_count h)));
  pk_apart : ForallOrdPairs separate (omap (loadable data h) (seqZ 0 (program_header_count h))) }.

(** Frames for one program: its image and its kernel stack. *)
Definition cost (es : list VfsEntry) (name : list byte) : nat :=
  match file es name with
  | Some data => match header_verdict data with Ok h => program_frames data h + 56 | Err _ => 0 end
  | None => 0
  end.

Definition MAX_TASKS : nat := 6.

Section Programs.
Context {S D : Type} `{Machine S} `{VirtAddrs} `{PageEntries} `{AddressSpaces S} (off : Z) `{!Mapper S off}.
Hypothesis off_ok : off mod 4096 = 0 /\ canonical off.

(** [n] tasks were made; the stacks of the others can still be mapped. *)
Record steady (root : Z) (n : nat) (k : Kernel S D) : Prop := mkSteady {
  sy_space : kernel_space off (spaces (k_spawner k)) root;
  sy_free : forall id v, 1 + Z.of_nat n <= id <= Z.of_nat MAX_TASKS -> v ∈ stack_run id -> mappable off (spaces (k_spawner k)) root v;
  sy_next : next_id (k_spawner k) = 1 + Z.of_nat n;
  sy_count : task_count (sched (k_sys k)) = Z.of_nat n }.

Lemma stack_runs_apart i j v : i <> j -> v ∈ stack_run i -> v ∉ stack_run j.
Proof.
  intros Hne [Hi _]%stack_run_bounds [Hj _]%stack_run_bounds.
  unfold stack_low, STACK_STRIDE, STACK_PAGES, GUARD_PAGES in *. lia.
Qed.

(** A new task with the next identifier. *)
Lemma steady_next root n (k : Kernel S D) t sp' m j : steady root n k -> (n < MAX_TASKS)%nat ->
  next_id sp' = wrap 64 (next_id (k_spawner k) + 1) ->
  ran off root (stack_run (next_id (k_spawner k))) m (spaces (k_spawner k)) (spaces sp') -> answers (m + j) (spaces (k_spawner k)) ->
  exists sys, add_task t (k_sys k) = Ret sys /\
    steady root (n + 1) (set_tasks (k_next_pid k) sp' sys k) /\ answers j (spaces sp').
Proof.
  intros [Hks Hfree Hnext Hcount] Hn Hid Hran Hans. unfold MAX_TASKS in *. unfold add_task.
  rewrite add_u_Ret by lia. cbn [mbind outcome_bind]. eexists. split; [done|].
  pose proof (ran_proceeds _ _ _ _ _ _ Hran) as Hp. split; [|by apply (proceeds_answers off root m j _ _ Hp)].
  split; cbn [k_spawner k_sys set_tasks sched task_count].
  - apply Hp.
  - intros id v Hb Hv. unfold MAX_TASKS in Hb. apply (ran_mappable off root _ _ _ _ v Hran); [|apply (Hfree id); [lia|done]].
    apply (stack_runs_apart id); [lia|done].
  - rewrite Hid, Hnext. unfold wrap. rewrite Z.mod_small; lia.
  - lia.
Qed.

Lemma steady_id root n (k : Kernel S D) : steady root n k -> (n < MAX_TASKS)%nat -> id_ok (next_id (k_spawner k)) /\
  forall v, v ∈ stack_run (next_id (k_spawner k)) -> mappable off (spaces (k_spawner k)) root v.
Proof.
  intros [_ Hfree Hnext _] Hn. unfold MAX_TASKS in *. split; [unfold id_ok; lia|].
  intros v Hv. apply (Hfree (next_id (k_spawner k))); [lia|done].
Qed.

Lemma queue_user_returns root n p (k : Kernel S D) m : steady root n k -> (n < MAX_TASKS)%nat -> frame_ok (pml4_frame p) ->
  coherent (spaces (k_spawner k)) (fun r => r = pml4_frame p \/ r = root) ->
  answers (56 + m) (spaces (k_spawner k)) ->
  exists k', queue_user root p k = Ret k' /\ steady root (n + 1) k' /\ answers m (spaces (k_spawner k')).
Proof.
  intros Hs Hn Hp Hco Hans. destruct (steady_id root n k Hs Hn) as [Hid Hfree].
  destruct (Task_new_user_returns off off_ok root p (k_spawner k) Hid (sy_space _ _ _ Hs) Hco Hp Hfree) as (t & sp & Ht & Hnext & Hran).
  { eapply answers_le; [|exact Hans]. lia. }
  destruct (steady_next root n k t sp 56 m Hs Hn Hnext Hran Hans) as (sys & Ha & Hs' & Hans').
  unfold queue_user. rewrite Ht. cbn [mbind outcome_bind]. rewrite Ha. cbn [mbind outcome_bind]. by eexists.
Qed.

Lemma queue_kernel_returns root n entry (k : Kernel S D) m : steady root n k -> (n < MAX_TASKS)%nat ->
  answers (32 + m) (spaces (k_spawner k)) ->
  exists k', queue_kernel root entry k = Ret k' /\ steady root (n + 1) k' /\ answers m (spaces (k_spawner k')).
Proof.
  intros Hs Hn Hans. destruct (steady_id root n k Hs Hn) as [Hid Hfree].
  destruct (Task_new_returns off off_ok root (kernel_process root) entry (k_spawner k) Hid (sy_space _ _ _ Hs) Hfree)
    as (t & sp & Ht & Hnext & Hran).
  { eapply answers_le; [|exact Hans]. lia. }
  destruct (steady_next root n k t sp 32 m Hs Hn Hnext Hran Hans) as (sys & Ha & Hs' & Hans').
  unfold queue_kernel. rewrite Ht. cbn [mbind outcome_bind]. rewrite Ha. cbn [mbind outcome_bind]. by eexists.
Qed.

Lemma load_process_returns root n data h (k : Kernel S D) m : steady root n k -> len data <= isize_max -> program_ok data h ->
  answers (program_frames data h + m) (spaces (k_spawner k)) ->
  exists p k', load_process off root data k = Ret (p, k') /\ frame_ok (pml4_frame p) /\
    coherent (spaces (k_spawner k')) (fun r => r = pml4_frame p \/ r = root) /\ steady root n k' /\
    answers m (spaces (k_spawner k')).
Proof.
  intros [Hks Hfree Hnext Hcount] Hlen [Hh Hent Htab Hfit Hsep] Hans. unfold load_process.
  destruct (new_from_elf_spec off off_ok root data h (mkProcs (k_next_pid k) (spaces (k_spawner k))) Hks)
    as (pr & s & -> & Hb & (j & Hj & Hsp) & _).
  { split; try done. eapply answers_le; [|exact Hans]. cbn [mach]. lia. }
  cbn [mach next_pid] in *. cbn [mbind outcome_bind next_pid mach].
  destruct (building_proceeds off off_ok root _ pr s j (program_frames data h) Hks Hb Hsp Hj) as [Hp Htr].
  eexists _, _. split; [done|]. split; [by apply (b_root _ _ _ _ _ Hb)|].
  split; [exact (b_coherent _ _ _ _ _ Hb)|]. split; [|by apply (proceeds_answers off root _ m _ _ Hp)].
  split; cbn [k_spawner k_sys set_tasks spaces next_id]; [apply Hp| |done|done].
  intros id v Hid Hv. destruct (Hfree id v Hid Hv) as [Hpl Hno]. split; [by apply (pr_plain _ _ _ _ _ Hp)|].
  rewrite Htr; [done|]. intros [_ Hu]. apply stack_run_bounds in Hv as [Hv _].
  unfold stack_low, STACK_STRIDE, KERNEL_STACK_REGION_BASE, STACK_PAGES, GUARD_PAGES in *. lia.
Qed.

(** Program files that are present are well formed. *)
Definition name_runs (es : list VfsEntry) (name : list byte) : Prop :=
  forall data, file es name = Some data -> len data <= isize_max /\ exists h, program_ok data h.

Definition found_as_task (es : list VfsEntry) (name : list byte) : nat := match file es name with Some _ => 1 | None => 0 end.

Lemma start_program_returns root n path es fs (k : Kernel S D) m : files_ok es fs k -> (fs < MAX_OPEN_FILES)%nat ->
  path <> str "tty" -> name_runs es path -> steady root n k -> (n < MAX_TASKS)%nat ->
  answers (cost es path + m) (spaces (k_spawner k)) ->
  exists ok k', start_program off root path k = Ret (ok, k') /\ answers m (spaces (k_spawner k')) /\
    steady root (n + found_as_task es path) k'.
Proof.
  intros [Hwf Hes Hfree] Hfs Ht Hruns Hs Hn Hans. unfold start_program.
  destruct (read_program_spec path (k_vfs k) (k_tty k) fs Hwf Hfree Hfs Ht) as (v & -> & _). cbn [mbind outcome_bind].
  unfold contents. rewrite Hes. fold (file es path). unfold cost in Hans. unfold found_as_task.
  assert (steady root n (set_files v (k_tty k) k)) as Hs1 by (by destruct Hs).
  destruct (file es path) as [data|] eqn:E.
  - destruct (Hruns data E) as (Hlen & h & Hok). pose proof (pk_header _ _ Hok) as Hh. rewrite parse_header_eq in Hh.
    injection Hh as Hh. rewrite Hh, <- Nat.add_assoc in Hans.
    destruct (load_process_returns root n data h _ _ Hs1 Hlen Hok Hans) as (p & k1 & -> & Hp & Hco & Hs2 & Hans2). cbn [mbind outcome_bind].
    destruct (queue_user_returns root n p k1 m Hs2 Hn Hp Hco Hans2) as (k2 & -> & Hs3 & Hans3). by eexists _, _.
  - eexists _, _. split; [done|]. split; [done|]. by rewrite Nat.add_0_r.
Qed.

Lemma start_programs_returns root es fs (k : Kernel S D) m : started root es fs [] [] k -> (fs + 3 <= MAX_OPEN_FILES)%nat ->
  Forall (name_runs es) [str "init"; str "shell"; str "fault-tester"] -> steady root 0 k ->
  answers (cost es (str "init") + (cost es (str "shell") + (cost es (str "fault-tester") + m))) (spaces (k_spawner k)) ->
  exists n k', start_programs off root k = Ret k' /\ (n <= 3)%nat /\ steady root n k' /\ answers m (spaces (k_spawner k')).
Proof.
  intros Hst Hfs Hruns Hs Hans. rewrite !Forall_cons in Hruns. destruct Hruns as (Hr1 & Hr2 & Hr3 & _). unfold start_programs.
  destruct (start_program_returns root 0 (str "init") es fs k _ (sd_files _ _ _ _ _ _ Hst) ltac:(lia) ltac:(done) Hr1 Hs
    ltac:(unfold MAX_TASKS; lia) Hans) as (ok & k1 & E1 & Hans1 & Hs1). rewrite E1. cbn [mbind outcome_bind].
  pose proof (start_one off root (str "init") es fs [] [] k k1 ok Hst ltac:(lia) ltac:(simpl; lia) ltac:(done) E1) as H1s.
  unfold found_as_task in Hs1. destruct (file es (str "init")) as [d|]; destruct H1s as [-> H1s].
  2: { exists 0%nat, k1. split; [done|]. split; [lia|]. split; [done|]. eapply answers_le; [|exact Hans1]. lia. }
  destruct H1s as [p1 H1s].
  destruct (start_program_returns root _ (str "shell") es (fs + 1) k1 _ (sd_files _ _ _ _ _ _ H1s) ltac:(lia) ltac:(done) Hr2 Hs1
    ltac:(unfold MAX_TASKS; lia) Hans1) as (ok2 & k2 & E2 & Hans2 & Hs2). rewrite E2. cbn [mbind outcome_bind].
  assert (files_ok es (fs + 1 + 1) k2) as Hf2.
  { pose proof (start_one off root (str "shell") es (fs + 1) _ _ k1 k2 ok2 H1s ltac:(lia) ltac:(simpl; lia) ltac:(done) E2) as H2s.
    destruct (file es (str "shell")); destruct H2s as [_ H2s]; [destruct H2s as [p2 H2s]|]; apply H2s. }
  assert (forall name, found_as_task es name <= 1)%nat as Hle by (intros name; unfold found_as_task; destruct (file es name); lia).
  set (n2 := (0 + 1 + found_as_task es (str "shell"))%nat) in *. pose proof (Hle (str "shell")). assert (n2 <= 2)%nat as Hn2 by lia.
  destruct (start_program_returns root n2 (str "fault-tester") es (fs + 1 + 1) k2 _ Hf2 ltac:(lia) ltac:(done) Hr3 Hs2
    ltac:(unfold MAX_TASKS; lia) Hans2) as (ok3 & k3 & E3 & Hans3 & Hs3). rewrite E3. cbn [mbind outcome_bind].
  eexists _, k3. split; [done|]. split; [|split; [exact Hs3|done]]. pose proof (Hle (str "fault-tester")). lia.
Qed.
End Programs.

(** ** The whole sequence *)

(** What the machine, the loader and the ramdisk must provide: a valid block
    with the archive of [files]; page tables outside the allocator's pool with
    the kernel's regions unmapped; devices as the drivers expect them; program
    files that can be loaded; a heap that serves what the sequence asks of it,
    the copies of the files above all; and frames for everything. *)
Record bootable {S D} `{Machine S} `{VirtAddrs} `{PageEntries} `{AddressSpaces S} (off : Z) `{!Mapper S off}
    `{Hardware D} `{!ApicBase D} `{AcpiCrate} `{KernelHeap} (fuel : nat) (base : Z) (files : list (list byte * list byte))
    (s : S) (ad : Addresses) (b : BootInfo) (io : Io D) (root : Z) : Prop := mkBootable {
  bt_block : block_ok b /\ physical_memory_offset b = off /\ off mod 4096 = 0 /\ window off;
  bt_space : kernel_space off s root;
  bt_heap : forall v, v ∈ heap_run \/ v = KERNEL_STACK_REGION_BASE -> mappable off s root v;
  bt_stacks : forall id v, 1 <= id <= Z.of_nat MAX_TASKS -> v ∈ stack_run id -> mappable off s root v;
  bt_arch : linked_ok (linked ad) /\ controllers_mapped off (apic_base (dev io));
  bt_statics : LAPIC (st io) = None /\ AP_APIC_IDS (st io) = [] /\ CPU_COUNT (st io) = 1 /\ AP_READY (st io) = 0;
  bt_platform : platform_ok (rsdp_addr b) off base /\ (0 < fuel)%nat;
  bt_screen : fb_addr (Abi.framebuffer b) = 0 \/ fb_ok (Framebuffer_new (Abi.framebuffer b));
  bt_archive : ramdisk_addr b <> 0 /\ ramdisk_size b = len (pack files) /\ len (pack files) <= isize_max /\
    Forall (fun f => name_ok f.1) files /\ read_mem (pmem s) (ramdisk_addr b) (len (pack files)) = pack files;
  bt_apart : forall x, ramdisk_addr b <= x < ramdisk_addr b + len (pack files) -> outside off root s x;
  bt_font : font_addr ad mod 4 = 0 /\ forall d, file (default_entries ++ map file_entry files) (str "font.psf") = Some d ->
    d = create_minimal_psf2_font;
  bt_programs : Forall (name_runs (default_entries ++ map file_entry files)) [str "init"; str "shell"; str "fault-tester"];
  bt_served : serves (boot_requests (with_files Vfs.new files)) = true;
  bt_frames : let es := default_entries ++ map file_entry files in
    answers (104 + (cost es (str "init") + (cost es (str "shell") + (cost es (str "fault-tester") + 96)))) s }.

(** The tasks after the console. *)
Lemma start_tasks_returns {S D} `{Machine S} `{VirtAddrs} `{PageEntries} `{AddressSpaces S} (off : Z) `{!Mapper S off}
    root ad es (k : Kernel S D) : off mod 4096 = 0 /\ canonical off -> started root es 1 [] [] k ->
  Forall (name_runs es) [str "init"; str "shell"; str "fault-tester"] -> steady off root 0 k ->
  answers (cost es (str "init") + (cost es (str "shell") + (cost es (str "fault-tester") + 96))) (spaces (k_spawner k)) ->
  exists sp k', start_tasks off root ad k = Ret (sp, k').
Proof.
  intros Hoff Hst Hruns Hs Hans. unfold start_tasks.
  destruct (start_programs_returns off Hoff root es 1 k 96 Hst ltac:(unfold MAX_OPEN_FILES; lia) Hruns Hs Hans)
    as (n & k1 & E1 & Hn & Hs1 & Hans1). rewrite E1. cbn [mbind outcome_bind].
  destruct (start_programs_spec _ _ _ _ _ _ Hst ltac:(unfold MAX_OPEN_FILES; lia) E1) as (fs & ps & [_ Hps Hq1 _]).
  destruct (queue_kernel_returns off Hoff root n (heartbeat_task ad) k1 64 Hs1 ltac:(unfold MAX_TASKS; lia) Hans1) as (k2 & E2 & Hs2 & Hans2).
  destruct (queue_kernel_returns off Hoff root _ (worker_task ad) k2 32 Hs2 ltac:(unfold MAX_TASKS; lia) Hans2) as (k3 & E3 & Hs3 & Hans3).
  destruct (queue_kernel_returns off Hoff root _ (idle_task ad) k3 0 Hs3 ltac:(unfold MAX_TASKS; lia) Hans3) as (k4 & E4 & Hs4 & _).
  rewrite E2. cbn [mbind outcome_bind]. rewrite E3. cbn [mbind outcome_bind]. rewrite E4. cbn [mbind outcome_bind].
  assert (length ps <= 3)%nat as Hl3.
  { pose proof (q_next _ _ _ Hq1) as Hq. rewrite (sy_next _ _ _ _ Hs1) in Hq. unfold len in Hq. rewrite length_map in Hq. lia. }
  assert (forall x, (length x <= 3)%nat -> plan_ok (map User ps ++ x)) as Hpo.
  { intros x Hx. unfold plan_ok, len. rewrite length_app, length_map. lia. }
  destruct (queue_kernel_spec _ _ _ _ _ Hq1 ltac:(rewrite <- (app_nil_r (map User ps)); apply Hpo; simpl; lia) E2) as [Hq2 _].
  destruct (queue_kernel_spec _ _ _ _ _ Hq2 ltac:(apply Hpo; simpl; lia) E3) as [Hq3 _]. rewrite <- app_assoc in Hq3. cbn [app] in Hq3.
  destruct (queue_kernel_spec _ _ _ _ _ Hq3 ltac:(apply Hpo; simpl; lia) E4) as [Hq4 _].
  match type of Hq4 with queued _ ?l _ => assert (l <> []) as Hne by (by destruct ps); destruct l as [|e plan]; [done|] end.
  unfold start_scheduling. rewrite (q_tasks _ _ _ Hq4). cbn [imap]. unfold switch_to.
  rewrite virt_addr_new_ok by (apply (stack_high_canonical 1); unfold id_ok; lia). cbn [mbind outcome_bind]. by eexists _, _.
Qed.

(** C7: the boot sequence ends: on a machine as [bootable] describes it, for
    every choice of the files on the ramdisk, booting returns, and then the
    system runs what the ramdisk holds: its files are the default entries and
    the packed files, scheduler and file system satisfy their invariants, and
    the tasks are the programs [init], [shell] and [fault-tester] that are
    present, each entered at the entry point of its ELF header in user mode,
    followed by the three kernel tasks, the first of them running. *)
Theorem boot_completes {S D} `{Machine S} `{VirtAddrs} `{PageEntries} `{AddressSpaces S} off `{!Mapper S off}
    `{Hardware D} `{!ApicBase D} `{!LegacyPics D} `{!PciHost D} `{GdtCrate} `{AcpiCrate} `{KernelHeap} fuel base `{!Settles D fuel off}
    `{!Delivers D fuel base} files machine ad b screen stk (io : Io D) h :
  bootable off fuel base files (machine (FrameAlloc.new b) : S) ad b io (cr3 h) ->
  exists sp k, early_boot fuel machine ad b screen stk io h = Ret (sp, k) /\
    runs_programs ad (default_entries ++ map file_entry files) sp k.
Proof.
  intros [(Hblk & Hoff & Hal & Hwin) Hks Hheap Hstk (Hlk & Hctl) (Hl & Hids & Hone & Hready) (Hplat & Hfuel) Hscr
    (Hra & Hrs & Hmax & Hnames & Hread) Hapart (Hfa & Hfont) Hprogs Hserved Hfr].
  assert (canonical off) as Hcan by (destruct Hwin; unfold canonical; lia). pose proof (conj Hal Hcan) as Hok.
  set (es := default_entries ++ map file_entry files) in *. cbv zeta in Hfr. unfold early_boot.
  assert (validate_boot_info b = Ok tt) as ->. { apply validate_boot_info_spec; [|done]. rewrite Hrs. apply len_nonneg. }
  cbn [mbind outcome_bind]. rewrite Hoff, virt_addr_new_ok by done. cbn [mbind outcome_bind].
  destruct (start_memory_returns off Hok (cr3 h) (machine (FrameAlloc.new b)) Hks) as (s & heap & -> & Hran & Hmem).
  { intros v Hv. apply Hheap. by left. } { apply Hheap. by right. } { eapply answers_le; [|exact Hfr]. lia. }
  cbn [mbind outcome_bind]. destruct (arch_returns (linked ad) off io Hlk Hctl Hl) as (io1 & -> & Hids1 & Hone1 & Hready1).
  cbn [mbind outcome_bind]. destruct (video_returns (Abi.framebuffer b) screen Hscr) as ([fb scr] & ->). cbn [mbind outcome_bind].
  destruct (start_devices_returns fuel base (rsdp_addr b) off io1 Hwin Hplat Hfuel) as (io2 & ->); [congruence..|].
  cbn [mbind outcome_bind]. rewrite Hrs.
  assert (read_mem (pmem s) (ramdisk_addr b) (len (pack files)) = pack files) as Hread'.
  { etransitivity; [|exact Hread]. apply read_mem_ext. intros x Hx. apply Hmem, Hapart. lia. }
  pose proof (mount_pack (pmem s) (ramdisk_addr b) files Hnames Hmax Hra Hread') as Hmount. rewrite Hmount.
  cbn [mbind outcome_bind]. unfold on_heap.
  match goal with |- context [serves ?rs] => replace (serves rs) with true by (symmetry; exact Hserved) end. cbn [mbind outcome_bind]. fold es in Hmount |- *. set (v := mkVfs es _ _) in *.
  set (k0 := mkKernel 1 _ v Tty.new (initial h) io2 fb scr None).
  assert (Vfs.wf v /\ free_from 0 v) as [Hwf Hfree]. { apply (mounted_files _ _ _ _ Hmount). split; [apply len_nonneg|done]. }
  assert (exists k1, start_console (font_addr ad) k0 = Ret k1 /\ k_spawner k1 = k_spawner k0 /\ k_sys k1 = k_sys k0) as (k1 & Hk1 & Hsp1 & Hsys1).
  { unfold start_console. destruct (read_program_spec (str "font.psf") v (k_tty k0) 0 Hwf Hfree ltac:(unfold MAX_OPEN_FILES; lia) ltac:(done))
      as (v' & Hr & _). cbn [k_vfs k0]. rewrite Hr. cbn [mbind outcome_bind]. change (contents v (str "font.psf")) with (file es (str "font.psf")).
    destruct (file es (str "font.psf")) as [d|]; [|by eexists]. rewrite (Hfont d) by done. unfold init_console.
    rewrite built_font_parses by done. cbn [mbind outcome_bind]. by eexists. }
  rewrite Hk1. cbn [mbind outcome_bind].
  pose proof (start_console_spec (cr3 h) _ es v k0 k1 eq_refl eq_refl Hwf Hfree ltac:(by split) eq_refl Hk1) as Hst.
  pose proof (ran_proceeds _ _ _ _ _ _ Hran) as Hp.
  destruct (start_tasks_returns off (cr3 h) ad es k1 Hok Hst Hprogs) as (sp & k & Hrun).
  { split; rewrite ?Hsp1, ?Hsys1; cbn [k_spawner k0 spaces next_id k_sys initial sched task_count].
    - apply Hp.
    - intros id w Hid Hw. apply (ran_mappable off (cr3 h) _ _ _ _ w Hran); [apply (regions_apart id); [unfold MAX_TASKS in Hid; lia|done]|apply (Hstk id); [lia|done]].
    - done.
    - done. }
  { rewrite Hsp1. cbn [k_spawner k0 spaces]. by apply (proceeds_answers off (cr3 h) 104 _ _ _ Hp). }
  exists sp, k. split; [exact Hrun|]. by apply (start_tasks_spec off (cr3 h) ad es sp k1 k Hst).
Qed.

(** ** Concrete inputs *)

(** An allocator that grants [n] frames in a row. *)
Fixpoint grants {A} `{FrameSource A} (n : nat) (a : A) : bool :=
  match n with
  | O => true
  | Datatypes.S n => match allocate_frame a with Ret (Some _, a') => grants n a' | _ => false end
  end.

Lemma grants_answers {A} `{FrameSource A} n (a : A) (m : mem) : grants n a = true -> answers n (a, m).
Proof.
  revert a. induction n as [|n IH]; intros a Hg; [done|]. cbn [grants] in Hg.
  destruct (allocate_frame a) as [[[f|] a']| |] eqn:E; try done. exists f, (a', m). split; [|by apply IH].
  cbn [allocate_frame machine_frames plain_machine fst snd]. by rewrite E.
Qed.

(** A memory map with 300 usable pages from 1 MiB, a ramdisk with a program
    of four bytes as [init], top-level entries for the kernel's regions. *)
Definition demo_layout : mem * BootInfo := demo_boot [desc 7 0x100000 300].
Definition demo_segment : ProgramHeader :=
  {| ph_flags := 6; file_offset := 120; virtual_address := 0x400080; physical_address := 0x400080;
     file_size := 4; memory_size := 8; align := 0x1000 |}.
Definition demo_init : list byte := elf_image 0x400080 [demo_segment] [x0f; x05; xeb; xfe].
Definition demo_header : ElfHeader := mkElfHeader 0x400080 64 56 1.
Definition demo_files : list (list byte * list byte) := [(str "init", demo_init)].

Definition demo_block : BootInfo :=
  {| abi_version := 3; environment := environment (uefi 3); loader := loader (uefi 3); flags := 0;
     kernel_image_base := 0xffffffff80000000; kernel_image_size := 0x3000;
     physical_memory_offset := 0xffff800000000000;
     ramdisk_addr := 0xffff900000000000; ramdisk_size := len (pack demo_files);
     memory_map := memory_map demo_layout.2;
     Abi.framebuffer := mkBootFramebuffer 0 0 0 0 0 0; rsdp_addr := 0 |}.

#[local] Instance demo_source : FrameSource FrameAllocator := bump_source demo_layout.1.
#[local] Existing Instance demo_acpi.

Definition demo_addresses : Addresses :=
  mkAddresses demo_linked 0xffffffff80004000 0xffffffff80005000 0xffffffff80006000 0xffffa00000000000.

Definition demo_memory : mem :=
  put_entry (put_entry (mem_at 0xffff900000000000 (pack demo_files)) (off + 0x1000) 320 0x2003) (off + 0x1000) 508 0x3003.
Definition demo_start (a : FrameAllocator) : FrameAllocator * mem := (a, demo_memory).
Definition blank (a : Z) : Z := 0.
#[local] Existing Instance exact_heap.

Lemma demo_visited : visited demo_layout.1 (memory_map demo_block) = [mkDescriptor 7 0 0x100000 0 300 0].
Proof. vm_compute. reflexivity. Qed.

Lemma demo_owned f : owned (demo_start (FrameAlloc.new demo_block)) f -> f mod 4096 = 0 /\ 0x100000 <= f < 0x300000.
Proof.
  intros [Hf (Hm & d & Hd & _ & Hlo & Hhi)]. change (descriptors_of _ _) with (visited demo_layout.1 (memory_map demo_block)) in Hd.
  rewrite demo_visited in Hd. apply list_elem_of_singleton in Hd as ->. cbn in Hlo, Hhi. unfold PAGE_SIZE in *.
  split; [done|lia].
Qed.

Lemma demo_space : kernel_space off (demo_start (FrameAlloc.new demo_block)) 0x1000.
Proof.
  assert (forall f, owned (demo_start (FrameAlloc.new demo_block)) f -> frame_ok f /\ canonical (off + f) /\ f <> 0x1000) as Ho.
  { intros f [Hm Hb]%demo_owned. split; [split; [done|lia]|]. unfold canonical, off, Paging.demo_offset. lia. }
  split.
  - split.
    { split; [|done]. change (descriptors_of _ _) with (visited demo_layout.1 (memory_map demo_block)). rewrite demo_visited.
      by repeat constructor. } intros f Hf. split; by apply Ho.
  - split; [split; [done|lia]|]. split; [unfold canonical, off, Paging.demo_offset; lia|]. intros Hf. by apply Ho in Hf as (_ & _ & ?).
  - intros f Hf [Hp|[_ Hp]]; apply demo_owned in Hf; unfold off, Paging.demo_offset in *; lia.
  - intros p [->|[Hp _]]; done.
  - done.
Qed.

(** The kernel's pages can be mapped there. *)
Definition demo_free (v : Z) : bool :=
  kernel_page 0x1000 v && Flat.present (top demo_memory 0x1000 v) && bool_decide (space_translate demo_memory 0x1000 v = None).

Lemma demo_pages : forallb demo_free (heap_run ++ KERNEL_STACK_REGION_BASE :: concat (map stack_run (seqZ 1 6))) = true.
Proof. vm_compute. reflexivity. Qed.

Lemma demo_pages_mappable v : v ∈ heap_run ++ KERNEL_STACK_REGION_BASE :: concat (map stack_run (seqZ 1 6)) ->
  mappable off (demo_start (FrameAlloc.new demo_block)) 0x1000 v.
Proof.
  intros Hv. pose proof (proj1 (forallb_forall _ _) demo_pages v (proj1 (list_elem_of_In _ _) Hv)) as Hf.
  apply andb_prop in Hf as [Hf Ht%bool_decide_eq_true]. apply andb_prop in Hf as [Hk Hp].
  split; [|exact Ht]. split; [split; [done|lia]|by right].
Qed.

Lemma demo_program_ok : program_ok demo_init demo_header.
Proof.
  assert (omap (loadable demo_init demo_header) (seqZ 0 (program_header_count demo_header)) = [demo_segment]) as Hs by (by vm_compute).
  split; rewrite ?Hs.
  - by vm_compute.
  - unfold canonical, demo_header. simpl. lia.
  - intros i Hi. change (program_header_count demo_header) with 1 in Hi. replace i with 0 by lia. eexists. by vm_compute.
  - repeat constructor; try (vm_compute; congruence).
  - repeat constructor.
Qed.

Lemma demo_bootable : bootable off 1 0 demo_files (demo_start (FrameAlloc.new demo_block)) demo_addresses demo_block demo_io 0x1000.
Proof.
  split.
  - split; [by split; vm_compute|]. split; [done|]. split; [done|]. unfold window, off, Paging.demo_offset. lia.
  - exact demo_space.
  - intros v Hv. apply demo_pages_mappable, elem_of_app. destruct Hv as [Hv| ->]; [by left|right; left].
  - intros id v Hid Hv. apply demo_pages_mappable, elem_of_app. right. right. apply list_elem_of_In, in_concat.
    exists (stack_run id). split; [|by apply list_elem_of_In]. apply in_map, list_elem_of_In, elem_of_seqZ. unfold MAX_TASKS in Hid. lia.
  - split; [split; unfold canonical; vm_compute; intuition congruence|]. unfold controllers_mapped, canonical. vm_compute. intuition congruence.
  - done.
  - split; [by left|lia].
  - by left.
  - split; [done|]. split; [done|]. split; [by vm_compute|]. split; [|by vm_compute].
    unfold demo_files. apply Forall_cons. split; [solve_name_ok|by apply Forall_nil].
  - intros x Hx. change (len (pack demo_files)) with 196 in Hx. cbn [ramdisk_addr demo_block] in Hx. split.
    + intros p [->|[_ Hp]]; unfold in_page, off, Paging.demo_offset; lia.
    + intros f [_ Hf]%demo_owned. unfold in_page, off, Paging.demo_offset. lia.
  - split; [done|]. intros d Hd. vm_compute in Hd. discriminate Hd.
  - rewrite !Forall_cons. split_and!; [..|by apply Forall_nil].
    + intros d Hd. assert (d = demo_init) as -> by (vm_compute in Hd |- *; congruence).
      split; [by vm_compute|]. exists demo_header. exact demo_program_ok.
    + intros d Hd. vm_compute in Hd. discriminate Hd.
    + intros d Hd. vm_compute in Hd. discriminate Hd.
  - vm_compute. reflexivity.
  - apply grants_answers. vm_compute. reflexivity.
Qed.

Lemma boot_completes_witness : exists sp k,
  early_boot 1 demo_start demo_addresses demo_block blank blank demo_io (mkHw 0 0 0x1000) = Ret (sp, k) /\
  runs_programs demo_addresses (default_entries ++ map file_entry demo_files) sp k.
Proof.
  exact (boot_completes off 1 0 demo_files demo_start demo_addresses demo_block blank blank demo_io (mkHw 0 0 0x1000) demo_bootable).
Defined.
