(* ===== verification/KernelTasks.v ===== *)
(** * The kernel's own tasks and the end of the kernel image

    [heartbeat_task], [worker_task] and [idle_task] of [kernel/src/boot.rs],
    and the panic path of [kernel/src/bin/turnix-kernel-image.rs].  A task is
    an endless loop; one turn of it is a function, and what it has printed
    after [n] turns is the iterate.  The pure delay loops are left out. *)

From S2P Require Import Prelude Utf8 Serial Tty Vfs Ramdisk Bus SerialPort EarlyBoot.

(** ** The heartbeat *)

(** What the task does before its loop: the serial line, and the file system
    with a descriptor left open. *)
Definition heartbeat_start (v : Vfs) (tty : Tty) (line : list byte) : outcome (Vfs * Tty * list byte) :=
  match Vfs.open v (str "initramfs.txt") with
  | (Some fd, v) =>
      '(got, v, tty, buf) ← Vfs.read v tty fd (replicate 64 x00);
      match got with
      | Some n =>
          data ← slice buf 0 n;
          let content := default (str "INVALID UTF-8") (from_utf8 data) in
          Ret (v, tty, print line (str "[vfs:initramfs.txt] " ++ content ++ [x0a]))
      | None => Ret (v, tty, line)
      end
  | (None, v) => Ret (v, tty, print line (str "[vfs] initramfs.txt not found" ++ [x0a]))
  end.

(** One turn of the loop, up to the yield. *)
Definition heartbeat_turn (s : Z * list byte) : Z * list byte :=
  let counter := wrap 64 (s.1 + 1) in
  (counter, if counter mod 64 =? 0 then print s.2 (str "[task:heartbeat " ++ dec counter ++ str "]" ++ [x0a]) else s.2).

Definition worker_turn (s : Z * list byte) : Z * list byte :=
  let counter := wrap 64 (s.1 + 1) in
  (counter, if counter mod 256 =? 0 then print s.2 (str "w") else s.2).

(** [idle_task] only halts until the next interrupt. *)
Definition idle_turn (s : Z * list byte) : Z * list byte := s.

(** Every task of this form: [say c] is printed at the multiples [c] of
    [every]. *)
Definition periodic (every : Z) (say : Z -> list byte) (s : Z * list byte) : Z * list byte :=
  let counter := wrap 64 (s.1 + 1) in (counter, if counter mod every =? 0 then print s.2 (say counter) else s.2).

Lemma periodic_log every say n line : 0 < every -> Z.of_nat n < 2 ^ 64 ->
  Nat.iter n (periodic every say) (0, line) =
  (Z.of_nat n, line ++ concat (map (fun i => write_str (say (i * every))) (seqZ 1 (Z.of_nat n / every)))).
Proof.
  intros He. induction n as [|n IH]; intros Hn.
  { rewrite Z.div_0_l by lia. change (seqZ 1 0) with (@nil Z). by rewrite app_nil_r. }
  change (Nat.iter (S n) (periodic every say) (0, line)) with (periodic every say (Nat.iter n (periodic every say) (0, line))).
  rewrite IH by lia. unfold periodic. cbn [fst snd].
  assert (wrap 64 (Z.of_nat n + 1) = Z.of_nat (S n)) as -> by (unfold wrap; rewrite Z.mod_small; lia).
  f_equal. pose proof (Z.div_mod (Z.of_nat n) every ltac:(lia)) as Hd. pose proof (Z.mod_pos_bound (Z.of_nat n) every He) as Hm.
  pose proof (Z.div_mod (Z.of_nat (S n)) every ltac:(lia)) as Hd'. pose proof (Z.mod_pos_bound (Z.of_nat (S n)) every He) as Hm'.
  assert (0 <= Z.of_nat n / every) by (apply Z.div_pos; lia).
  destruct (Z.eqb_spec (Z.of_nat (S n) mod every) 0) as [Hz|Hz].
  - assert (Z.of_nat (S n) / every = Z.of_nat n / every + 1) as Hq by nia. rewrite Hq.
    rewrite seqZ_app, map_app, concat_app by lia. change (seqZ (1 + Z.of_nat n / every) 1) with [1 + Z.of_nat n / every].
    cbn [map concat]. rewrite app_nil_r, app_assoc. unfold print. do 3 f_equal. rewrite Hz, Hq in Hd'. lia.
  - assert (Z.of_nat (S n) / every = Z.of_nat n / every) as -> by nia. done.
Qed.

(** After [n] turns the heartbeat has printed one line for every 64th turn,
    with the number of the turn, in order; the worker one letter for every
    256th. *)
Lemma tasks_log n line : Z.of_nat n < 2 ^ 64 ->
  Nat.iter n heartbeat_turn (0, line) =
    (Z.of_nat n, line ++ concat (map (fun i => write_str (str "[task:heartbeat " ++ dec (i * 64) ++ str "]" ++ [x0a]))
      (seqZ 1 (Z.of_nat n / 64)))) /\
  Nat.iter n worker_turn (0, line) = (Z.of_nat n, line ++ concat (map (fun _ => str "w") (seqZ 1 (Z.of_nat n / 256)))).
Proof.
  intros Hn. split; [by apply (periodic_log 64 (fun c => str "[task:heartbeat " ++ dec c ++ str "]" ++ [x0a]))|].
  by apply (periodic_log 256 (fun _ => str "w")).
Qed.

(** The file is shown as far as 64 bytes reach; the file system is unchanged
    but for one more descriptor in use. *)
Lemma heartbeat_start_spec v tty line n : Vfs.wf v -> free_from n v -> (n < MAX_OPEN_FILES)%nat ->
  exists v', heartbeat_start v tty line = Ret (v', tty,
    match contents v (str "initramfs.txt") with
    | Some d => print line (str "[vfs:initramfs.txt] " ++ utf8_or (sub_list d 0 (Z.min 64 (len d))) (str "INVALID UTF-8") ++ [x0a])
    | None =>
        match find (named (str "initramfs.txt")) (entries v) with
        | Some _ => line
        | None => print line (str "[vfs] initramfs.txt not found" ++ [x0a])
        end
    end) /\ Vfs.wf v' /\ entries v' = entries v.
Proof.
  intros Hwf Hf Hn. pose proof (wf_open v (str "initramfs.txt") Hwf) as Hwf1.
  destruct (free_from_slot n v Hf Hn) as (j & Hj & Hjn & Hnone). unfold heartbeat_start, Vfs.open in *. rewrite open_loop_eq, Hj in *.
  unfold contents. destruct (find (named (str "initramfs.txt")) (entries v)) as [e|] eqn:He; [|by exists v].
  cbn [snd] in Hwf1. set (fd := mkFd (str "initramfs.txt") (e_type e) 0) in *.
  set (v1 := set_open v (<[j := Some fd]> (open_files v))) in *.
  assert (open_files v1 !! Z.to_nat (Z.of_nat j) = Some (Some fd)) as Hfd.
  { rewrite Nat2Z.id. cbn [v1 open_files set_open]. apply list_lookup_insert_eq. by eapply lookup_lt_Some. }
  cbn [mbind option_bind]. destruct (e_data e) as [d|] eqn:Hd.
  - pose proof (read_file v1 (Z.of_nat j) fd Hwf1 ltac:(lia) Hfd tty (replicate 64 x00) e d ltac:(done) He Hd) as Hr.
    cbv zeta in Hr. change (len (replicate 64 x00)) with 64 in Hr. cbn [fd fd_offset] in Hr. pose proof (len_nonneg d).
    replace (Z.min 64 (Z.max 0 (len d - 0))) with (Z.min 64 (len d)) in Hr by lia. rewrite Hr. cbn [mbind outcome_bind].
    set (m := Z.min 64 (len d)) in *. assert (len (sub_list d 0 m) = m) as Hlm by (rewrite len_sub_list by lia; lia).
    assert (slice (copy_into (replicate 64 x00) (sub_list d 0 m)) 0 m = Ret (sub_list d 0 m)) as ->.
    { rewrite slice_Ret; [|lia|unfold copy_into; rewrite len_app, Hlm; unfold len; rewrite length_drop, length_replicate; unfold len in Hlm; lia].
      rewrite Z.sub_0_r. f_equal. unfold copy_into. generalize (drop (length (sub_list d 0 m)) (replicate 64 x00)) as rest.
      generalize (sub_list d 0 m) Hlm. intros l Hl rest. unfold sub_list. rewrite drop_0, take_app_le by (unfold len in *; lia).
      apply take_ge. unfold len in *. lia. }
    cbn [mbind outcome_bind]. eexists. split; [done|].
    pose proof (wf_data _ Hwf e d (proj1 (find_named _ _ _ He)) Hd) as Hdl. case_if; [done|]. split; [|done].
    apply wf_set_offset; [done|by exists e|]. unfold in_range, isize_max in *. lia.
  - destruct (fd_in_table v1 (Z.of_nat j) fd Hwf1 ltac:(lia) Hfd) as [Hlt Hidx].
    unfold Vfs.read. rewrite Hlt, Hidx. cbn [mbind outcome_bind]. rewrite bool_decide_eq_false_2 by done.
    cbn [entries v1 set_open fd fd_name]. rewrite He, Hd. by exists v1.
Qed.

(** The text the build tool packs is shown whole. *)
Definition INITRAMFS_TXT : list byte := str "Hello from Initramfs!" ++ [x0a] ++ str "This is a kernel experiment." ++ [x0a].

Lemma heartbeat_greets es v tty line n : Vfs.wf v -> free_from n v -> (n < MAX_OPEN_FILES)%nat -> entries v = es ->
  file es (str "initramfs.txt") = Some INITRAMFS_TXT ->
  exists v', heartbeat_start v tty line = Ret (v', tty, line ++ str "[vfs:initramfs.txt] " ++ write_str INITRAMFS_TXT ++ [x0d; x0a]).
Proof.
  intros Hwf Hf Hn <- Hd. destruct (heartbeat_start_spec v tty line n Hwf Hf Hn) as (v' & Hr & _). exists v'. rewrite Hr.
  change (contents v (str "initramfs.txt")) with (file (entries v) (str "initramfs.txt")). by rewrite Hd.
Qed.

(** ** The kernel image *)

Definition QEMU_DEBUG_EXIT_PORT : Z := 0xF4.

Section Image.
Context {D : Type} `{Hardware D} (fuel : nat).

(** [qemu_exit]: the write, after which the processor halts for ever. *)
Definition qemu_exit (code : Z) : io D unit := tell (Out32 QEMU_DEBUG_EXIT_PORT code).
Definition qemu_exit_success : io D unit := qemu_exit 0x10.
Definition qemu_exit_failure : io D unit := qemu_exit 0x11.

(** The panic handler; [info] is the formatted message. *)
Definition panic (info : list (list byte)) : io D unit :=
  _ ← serial_init;
  _ ← port_print fuel ([str "panic: "] ++ info ++ [[x0a]]);
  qemu_exit_failure.
End Image.

(** A panic always ends: the message is on the serial line and the last
    request is the write that makes the emulator exit with failure. *)
Lemma panic_reports {D} {fuel} `{Uart D fuel} info (s : Io D) : Z.testbit (line_control (dev s)) 7 = false ->
  let bytes := write_str (str "panic: ") ++ concat (map write_str info) ++ [x0d; x0a] in
  exists s1, sent s (init_writes ++ data_writes bytes) bytes s1 /\
    panic fuel info s = Ret (tt, io_step s1 (Out32 0xF4 0x11)).
Proof.
  intros Hdl bytes. assert (wp (_ ← serial_init; port_print fuel ([str "panic: "] ++ info ++ [[x0a]])) s (fun _ s1 =>
    sent s (init_writes ++ data_writes bytes) bytes s1)) as ([] & s1 & Hs1 & Hsent).
  { apply wp_bind, wp_serial_init; [done|]. intros s0 Hs0. apply wp_port_print; [exact (se_conf _ _ _ _ Hs0)|]. intros s1 Hs1.
    pose proof (sent_trans _ _ _ _ _ _ _ Hs0 Hs1) as Hs. rewrite map_app, map_app, !concat_app in Hs. cbn [app map concat] in Hs.
    by rewrite app_nil_r in Hs. }
  exists s1. split; [done|]. unfold panic. unfold mbind, io_bind in *. destruct (serial_init s) as [[[] s0]| |]; [|done|done].
  by rewrite Hs1.
Qed.
