(* ===== verification/Syscall.v ===== *)
(** * System calls ([kernel/src/syscall/handler.rs], [syscall/mod.rs])

    Every handler over the kernel state it reaches: the file system, the
    terminal and console, the scheduler, the caller's memory and the serial
    line.  A handler returns a result, or gives the processor away (yield,
    exit) and names the context resumed. *)

From S2P Require Import Prelude Alloc Abi Utf8 Elf Tty Vfs VfsHeap Context X86 Sched Serial.

Inductive SyscallResult := Success (v : Z) | Error (e : Z).

Definition is_success (r : SyscallResult) : bool :=
  match r with Success _ => true | Error _ => false end.

Definition value (r : SyscallResult) : Z :=
  match r with Success v => v | Error _ => 0 end.

(** [syscall_dispatch]'s conversion to the value in [rax]. *)
Definition result_value (r : SyscallResult) : Z :=
  match r with Success v => v | Error e => wrap 64 e end.

Record Kernel (C : Type) := mkKernel {
  k_vfs : Vfs; k_tty : Tty; k_con : option C; k_sys : Sys; k_mem : mem; k_serial : list byte }.
Arguments mkKernel {C}. Arguments k_vfs {C}. Arguments k_tty {C}. Arguments k_con {C}.
Arguments k_sys {C}. Arguments k_mem {C}. Arguments k_serial {C}.

(** How a system call ends: with a result for the caller, or with another
    context resumed at this stack pointer; a caller that yielded gets
    [Success 0] when it is resumed, one that exited is gone. *)
Inductive ending := Returned (r : SyscallResult) | Yielded (sp : Z) | Exited (sp : Z).

(** [str::from_utf8(slice).unwrap_or("")] of a user slice. *)
Definition user_str (m : mem) (ptr n : Z) : outcome (list byte) :=
  s ← raw_slice m ptr n; Ret (utf8_or s []).

Definition ParseError_debug (e : ParseError) : list byte :=
  match e with
  | FileTooSmall => str "FileTooSmall" | BadMagic => str "BadMagic"
  | UnsupportedClass => str "UnsupportedClass" | UnsupportedEndian => str "UnsupportedEndian"
  | UnsupportedType => str "UnsupportedType" | UnsupportedMachine => str "UnsupportedMachine"
  | InvalidProgramHeaderSize => str "InvalidProgramHeaderSize"
  | ProgramHeaderOutOfBounds => str "ProgramHeaderOutOfBounds"
  end.

Definition nl : list byte := [x0a].

Section Handlers.
Context {C : Type} `{Console C} `{VirtAddrs}.

Abbreviation K := (Kernel C).
Definition handler : Type := SyscallArgs -> K -> outcome (ending * K).

Definition set_vfs (k : K) (v : Vfs) : K := mkKernel v (k_tty k) (k_con k) (k_sys k) (k_mem k) (k_serial k).
Definition set_mem (k : K) (m : mem) : K := mkKernel (k_vfs k) (k_tty k) (k_con k) (k_sys k) m (k_serial k).
Definition set_sys (k : K) (s : Sys) : K := mkKernel (k_vfs k) (k_tty k) (k_con k) s (k_mem k) (k_serial k).
Definition kprint (k : K) (text : list byte) : K :=
  mkKernel (k_vfs k) (k_tty k) (k_con k) (k_sys k) (k_mem k) (print (k_serial k) text).

Definition ok (v : Z) (k : K) : outcome (ending * K) := Ret (Returned (Success v), k).
Definition fail (e : Z) (k : K) : outcome (ending * K) := Ret (Returned (Error e), k).

Definition handle_mkdir : handler := fun args k =>
  if (arg0 args =? 0) || (arg1 args =? 0) then fail 1 k else
  path ← user_str (k_mem k) (arg0 args) (arg1 args);
  let '(b, v) := mkdir (k_vfs k) path in
  if b then ok 0 (set_vfs k v) else fail 1 (set_vfs k v).

Definition handle_unlink : handler := fun args k =>
  if (arg0 args =? 0) || (arg1 args =? 0) then fail 1 k else
  path ← user_str (k_mem k) (arg0 args) (arg1 args);
  let '(b, v) := unlink (k_vfs k) path in
  if b then ok 0 (set_vfs k v) else fail 1 (set_vfs k v).

Definition handle_brk : handler := fun _ k => fail 1 k.
Definition handle_getuid : handler := fun _ k => ok 0 k.
Definition handle_getgid : handler := fun _ k => ok 0 k.

Definition handle_write_file : handler := fun args k =>
  let fd := arg0 args in let buf_ptr := arg1 args in let buf_len := arg2 args in
  if (buf_ptr =? 0) || (buf_len =? 0) then fail 1 k else
  buf ← raw_slice (k_mem k) buf_ptr buf_len;
  r ← Vfs.write (k_vfs k) (k_tty k) (k_con k) fd buf;
  let '(res, v, con) := r in
  let k := mkKernel v (k_tty k) con (k_sys k) (k_mem k) (k_serial k) in
  match res with Some n => ok n k | None => fail 1 k end.

Definition handle_seek : handler := fun args k =>
  r ← seek (k_vfs k) (arg0 args) (arg1 args);
  if r.1 : bool then ok 0 (set_vfs k r.2) else fail 1 (set_vfs k r.2).

Definition handle_getpid : handler := fun _ k =>
  match get_current_task_id (k_sys k) with Some tid => ok tid k | None => fail 1 k end.

Definition handle_uptime : handler := fun _ k => ok (get_uptime_ticks (k_sys k)) k.

Definition handle_write : handler := fun args k =>
  let addr := arg0 args in let n := arg1 args in
  if (addr =? 0) || (n =? 0) then fail 1 k else
  string ← user_str (k_mem k) addr n;
  ok n (kprint k string).

Definition handle_read : handler := fun args k =>
  let fd := arg0 args in let buf_ptr := arg1 args in let buf_len := arg2 args in
  if (buf_ptr =? 0) || (buf_len =? 0) then fail 1 k else
  buf ← raw_slice (k_mem k) buf_ptr buf_len;
  r ← Vfs.read (k_vfs k) (k_tty k) fd buf;
  let '(res, v, tty, buf') := r in
  let k := mkKernel v tty (k_con k) (k_sys k) (write_mem (k_mem k) buf_ptr buf') (k_serial k) in
  match res with Some n => ok n k | None => fail 1 k end.

(** [sp]: where the yield interrupt of the exit saves the context. *)
Definition handle_exit (sp : Z) : handler := fun args k =>
  let code := as_signed 32 (arg0 args) in
  let k := kprint k (nl ++ str "[syscall] exit code: " ++ dec_signed code ++ nl) in
  let k := match current_task (sched (k_sys k)) with
           | Some t => kprint k (str "[scheduler] Task " ++ dec (task_id t) ++ str " exited/terminated." ++ nl)
           | None => k
           end in
  r ← exit_current_task sp (k_sys k);
  Ret (Exited r.1, set_sys k r.2).

Definition handle_open : handler := fun args k =>
  if (arg0 args =? 0) || (arg1 args =? 0) then fail 1 k else
  path ← user_str (k_mem k) (arg0 args) (arg1 args);
  let '(res, v) := Vfs.open (k_vfs k) path in
  match res with Some fd => ok fd (set_vfs k v) | None => fail 1 (set_vfs k v) end.

Definition handle_close : handler := fun args k =>
  r ← Vfs.close (k_vfs k) (arg0 args);
  ok 0 (set_vfs k r.2).

(** The loop over the names: memory and the offset reached. *)
Fixpoint ls_loop (files : list (list byte)) (buf_ptr buf_len : Z) (m : mem) (offset : Z) : outcome (mem * Z) :=
  match files with
  | [] => Ret (m, offset)
  | name_bytes :: rest =>
      e1 ← add_u 64 offset (len name_bytes);
      e2 ← add_u 64 e1 1;
      if buf_len <? e2 then Ret (m, offset) else
      let m := write_mem m (buf_ptr + offset) name_bytes in
      let m := write_mem m (buf_ptr + e1) nl in
      ls_loop rest buf_ptr buf_len m e2
  end.

Definition handle_ls : handler := fun args k =>
  let buf_ptr := arg0 args in let buf_len := arg1 args in
  if (buf_ptr =? 0) || (buf_len =? 0) then fail 1 k else
  let files := list_dir (k_vfs k) in
  _ ← raw_slice (k_mem k) buf_ptr buf_len;
  r ← ls_loop files buf_ptr buf_len (k_mem k) 0;
  ok r.2 (set_mem k r.1).

(** [*stat_ptr = stat]: the two fields; a misaligned pointer is caught by
    the debug build. *)
Definition store_stat (m : mem) (ptr : Z) (s : Stat) : outcome mem :=
  if negb (ptr mod 8 =? 0) then Panic else
  Ret (write_mem m ptr (enc [(8%nat, stat_size s); (4%nat, stat_file_type s)])).

Definition handle_stat : handler := fun args k =>
  let stat_ptr := arg2 args in
  if (arg0 args =? 0) || (arg1 args =? 0) || (stat_ptr =? 0) then fail 1 k else
  path ← user_str (k_mem k) (arg0 args) (arg1 args);
  match Vfs.stat (k_vfs k) path with
  | Some s => m ← store_stat (k_mem k) stat_ptr (to_abi s); ok 0 (set_mem k m)
  | None => fail 1 k
  end.

(** The loop of [handle_exec] over the program headers: the kernel with what
    it printed, and the segments counted. *)
Definition exec_step (data : list byte) (header : ElfHeader) (acc : K * Z) (i : Z) : outcome (K * Z) :=
  let '(k, loaded) := acc in
  r ← parse_program_header data header i;
  match r with
  | Ok (Some _) => n ← add_u 64 loaded 1; Ret (k, n)
  | Ok None => Ret (k, loaded)
  | Err e => Ret (kprint k (str "exec: program header error: " ++ ParseError_debug e ++ nl), loaded)
  end.

Definition handle_exec : handler := fun args k =>
  if (arg0 args =? 0) || (arg1 args =? 0)
  then fail 1 (kprint k (str "exec: null pointer or zero size" ++ nl)) else
  elf_data ← raw_slice (k_mem k) (arg0 args) (arg1 args);
  h ← parse_header elf_data;
  match h with
  | Err e => fail 1 (kprint k (str "exec: invalid ELF header: " ++ ParseError_debug e ++ nl))
  | Ok header =>
      r ← for_each (exec_step elf_data header) (seqZ 0 (program_header_count header)) (k, 0);
      let k := kprint r.1 (str "exec: loaded " ++ dec r.2 ++ str " segments, entry: " ++
                           hex (entry header) ++ nl) in
      ok (entry header) k
  end.

Definition handle_fork : handler := fun _ k =>
  fail 1 (kprint k (str "fork: simplified version - not fully implemented" ++ nl)).

Definition handle_wait : handler := fun _ k => fail 1 k.

Definition handle_yielder (sp : Z) : handler := fun args k =>
  if negb (arg0 args =? 0) then
    r ← timer_tick false sp (k_sys k);
    Ret (Yielded r.1, set_sys k r.2)
  else ok 0 k.

Definition handle_syscall (sp : Z) (call : Syscall) : handler :=
  match call with
  | SysWrite => handle_write
  | SysRead => handle_read
  | SysExit => handle_exit sp
  | SysOpen => handle_open
  | SysClose => handle_close
  | SysExec => handle_exec
  | SysFork => handle_fork
  | SysWait => handle_wait
  | SysYielder => handle_yielder sp
  | SysUptime => handle_uptime
  | SysLs => handle_ls
  | SysStat => handle_stat
  | SysGetPid => handle_getpid
  | SysSeek => handle_seek
  | SysWriteFile => handle_write_file
  | SysGetUid => handle_getuid
  | SysGetGid => handle_getgid
  | SysBrk => handle_brk
  | SysMkdir => handle_mkdir
  | SysUnlink => handle_unlink
  end.

(** [syscall_dispatch] on the saved registers: [inl v] is the value for
    [rax], [inr] the context resumed instead. *)
Definition syscall_dispatch (sp : Z) (frame : SyscallFrame) (k : K) : outcome ((Z + Z) * K) :=
  let r := f_gpr frame in
  let syscall_num := wrap 16 (rax r) in
  let args := mkSyscallArgs (rdi r) (rsi r) (rdx r) (r10 r) in
  match from_u16 syscall_num with
  | Some call =>
      e ← handle_syscall sp call args k;
      match e with
      | (Returned res, k) => Ret (inl (result_value res), k)
      | (Yielded next, k) | (Exited next, k) => Ret (inr next, k)
      end
  | None => Ret (inl 0xFFFFFFFFFFFFFFFF, k)
  end.

(** [syscall_from_user]. *)
Definition syscall_from_user (sp : Z) (header : SyscallHeader) : handler := fun args k =>
  match from_u16 (number header) with
  | Some call => handle_syscall sp call args k
  | None => fail (-1) (kprint k (str "unknown syscall: " ++ dec (number header) ++ nl))
  end.
End Handlers.

(** ** The kernel invariant across system calls *)

(** Names are Rust strings, hence at most [isize::MAX] bytes. *)
Definition names_bounded (v : Vfs) : Prop := Forall (fun n => len n <= isize_max) (list_dir v).

Record kernel_ok {C} `{TotalConsole C} (k : Kernel C) : Prop := {
  ok_vfs : Vfs.wf (k_vfs k);
  ok_names : names_bounded (k_vfs k);
  ok_con : con_opt_ok (k_con k);
  ok_sys : Sched.wf (k_sys k) }.

(** The arguments: 64-bit values; the lengths of the caller's slices at most
    [isize::MAX] and the stat pointer aligned, which the debug build checks. *)
Definition args_ok (call : Syscall) (args : SyscallArgs) : Prop :=
  in_u64 (arg0 args) /\ in_u64 (arg1 args) /\ in_u64 (arg2 args) /\
  match call with
  | SysWrite | SysOpen | SysMkdir | SysUnlink | SysExec | SysLs => arg1 args <= isize_max
  | SysRead | SysWriteFile => arg2 args <= isize_max
  | SysStat => arg1 args <= isize_max /\ arg2 args mod 8 = 0
  | _ => True
  end.

Lemma len_utf8_or s : len (utf8_or s []) <= len s.
Proof.
  unfold utf8_or, from_utf8. destruct (decode s); simpl; [lia|]. unfold len. simpl. lia.
Qed.

Lemma user_str_ok m ptr n :
  0 <= n <= isize_max -> exists path, user_str m ptr n = Ret path /\ len path <= isize_max.
Proof.
  intros Hn. unfold user_str. rewrite raw_slice_ok by done. cbn [mbind outcome_bind]. eexists. split; [done|].
  pose proof (len_utf8_or (read_mem m ptr n)) as Hl. rewrite len_read_mem in Hl by lia. lia.
Qed.

Lemma names_bounded_mkdir v path : names_bounded v -> len path <= isize_max -> names_bounded (mkdir v path).2.
Proof.
  unfold names_bounded, mkdir, list_dir. intros Hv Hp. case_if; [done|]. simpl. rewrite map_app.
  apply Forall_app. split; [done|]. by apply Forall_singleton.
Qed.

Lemma names_bounded_unlink v path : names_bounded v -> names_bounded (unlink v path).2.
Proof.
  unfold names_bounded, unlink, list_dir. intros Hv. destruct (position _ _); [|done]. simpl.
  change (list_delete ?k ?l) with (delete k l). rewrite Forall_forall in *.
  intros x (e & -> & He)%list_elem_of_fmap. apply Hv, list_elem_of_fmap_2.
  eapply sublist_subseteq; [apply sublist_delete|done].
Qed.

Lemma ls_loop_returns files buf_ptr buf_len m offset :
  Forall (fun n => len n <= isize_max) files -> 0 <= offset <= buf_len -> buf_len <= isize_max ->
  exists m' n, ls_loop files buf_ptr buf_len m offset = Ret (m', n).
Proof.
  unfold isize_max. intros Hf. revert m offset.
  induction Hf as [|name rest Hn _ IH]; intros m offset Ho Hb; cbn [ls_loop]; [eauto|].
  pose proof (len_nonneg name).
  rewrite add_u_Ret by lia. cbn [mbind outcome_bind]. rewrite add_u_Ret by lia. cbn [mbind outcome_bind].
  case_if; [eauto|]. apply IH; lia.
Qed.

Section Invariant.
Context {C : Type} `{TotalConsole C} `{VirtAddrs}.

(** A call that ends with a result keeps the kernel consistent. *)
Definition keeps (r : outcome (ending * Kernel C)) : Prop :=
  exists e k', r = Ret (e, k') /\ kernel_ok k'.

Lemma keeps_ok v k : kernel_ok k -> keeps (ok v k).
Proof. intros. by do 2 eexists. Qed.
Lemma keeps_fail e k : kernel_ok k -> keeps (fail e k).
Proof. intros. by do 2 eexists. Qed.

Lemma kernel_ok_vfs (k : Kernel C) v :
  kernel_ok k -> Vfs.wf v -> names_bounded v -> kernel_ok (set_vfs k v).
Proof. intros [? ? ? ?] ? ?. by split. Qed.
Lemma kernel_ok_sys (k : Kernel C) s : kernel_ok k -> Sched.wf s -> kernel_ok (set_sys k s).
Proof. intros [? ? ? ?] ?. by split. Qed.
Lemma kernel_ok_print (k : Kernel C) t : kernel_ok k -> kernel_ok (kprint k t).
Proof. intros [? ? ? ?]. by split. Qed.
Lemma kernel_ok_mem (k : Kernel C) m : kernel_ok k -> kernel_ok (set_mem k m).
Proof. intros [? ? ? ?]. by split. Qed.
End Invariant.

#[export] Hint Resolve keeps_ok keeps_fail kernel_ok_vfs kernel_ok_sys kernel_ok_print kernel_ok_mem : turnix.

Section Preserved.
Context {C : Type} `{TotalConsole C} `{VirtAddrs}.
Context (k : Kernel C) (args : SyscallArgs) (Hk : kernel_ok k).

(** The handlers that take a path from the caller. *)
Lemma with_path (f : list byte -> outcome (ending * Kernel C)) ptr n :
  0 <= n <= isize_max -> (forall path, len path <= isize_max -> keeps (f path)) ->
  keeps (path ← user_str (k_mem k) ptr n; f path).
Proof.
  intros Hn Hf. destruct (user_str_ok (k_mem k) ptr n Hn) as (path & -> & Hp).
  cbn [mbind outcome_bind]. by apply Hf.
Qed.

Lemma vfs_names_of_exec v o v' tty' con' :
  match o with OpMkdir _ | OpUnlink _ => False | _ => True end ->
  names_bounded v -> exec (v, k_tty k, k_con k) o = Ret (v', tty', con') -> names_bounded v'.
Proof.
  intros Ho Hv Hx. apply exec_names in Hx. unfold names_bounded. destruct o; try done; by rewrite Hx.
Qed.

Lemma handle_mkdir_keeps : args_ok SysMkdir args -> keeps (handle_mkdir args k).
Proof.
  intros (_ & Hn1 & _ & Hl). unfold handle_mkdir, in_range in *. case_if; [eauto with turnix|].
  apply with_path; [lia|]. intros path Hp.
  pose proof (wf_mkdir (k_vfs k) path (ok_vfs _ Hk)) as Hw.
  pose proof (names_bounded_mkdir (k_vfs k) path (ok_names _ Hk) Hp) as Hn.
  destruct (mkdir (k_vfs k) path) as [b v]. destruct b; eauto with turnix.
Qed.

Lemma handle_unlink_keeps : args_ok SysUnlink args -> keeps (handle_unlink args k).
Proof.
  intros (_ & Hn1 & _ & Hl). unfold handle_unlink, in_range in *. case_if; [eauto with turnix|].
  apply with_path; [lia|]. intros path Hp.
  pose proof (wf_unlink (k_vfs k) path (ok_vfs _ Hk)) as Hw.
  pose proof (names_bounded_unlink (k_vfs k) path (ok_names _ Hk)) as Hn.
  destruct (unlink (k_vfs k) path) as [b v]. destruct b; eauto with turnix.
Qed.

Lemma handle_open_keeps : args_ok SysOpen args -> keeps (handle_open args k).
Proof.
  intros (_ & Hn1 & _ & Hl). unfold handle_open, in_range in *. case_if; [eauto with turnix|].
  apply with_path; [lia|]. intros path Hp.
  pose proof (wf_open (k_vfs k) path (ok_vfs _ Hk)) as Hw.
  pose proof (vfs_names_of_exec (k_vfs k) (OpOpen path) (Vfs.open (k_vfs k) path).2 _ _ I (ok_names _ Hk) eq_refl) as Hn.
  destruct (Vfs.open (k_vfs k) path) as [r v]. destruct r; eauto with turnix.
Qed.

Lemma handle_stat_keeps : args_ok SysStat args -> keeps (handle_stat args k).
Proof.
  intros (_ & Hn1 & _ & Hl & Hal). unfold handle_stat, in_range in *. case_if; [eauto with turnix|].
  apply with_path; [lia|]. intros path Hp. destruct (stat _ path); [|eauto with turnix].
  unfold store_stat. rewrite Hal. cbn [Z.eqb negb mbind outcome_bind]. eauto with turnix.
Qed.

Lemma handle_write_keeps : args_ok SysWrite args -> keeps (handle_write args k).
Proof.
  intros (_ & Hn1 & _ & Hl). unfold handle_write, in_range in *. case_if; [eauto with turnix|].
  apply with_path; [lia|]. eauto with turnix.
Qed.

Lemma handle_ls_keeps : args_ok SysLs args -> keeps (handle_ls args k).
Proof.
  intros (_ & Hn1 & _ & Hl). unfold handle_ls, in_range in *. case_if; [eauto with turnix|].
  rewrite raw_slice_ok by lia. cbn [mbind outcome_bind].
  destruct (ls_loop_returns (list_dir (k_vfs k)) (arg0 args) (arg1 args) (k_mem k) 0 (ok_names _ Hk))
    as (m' & n & ->); [lia|lia|]. cbn [mbind outcome_bind]. eauto with turnix.
Qed.

Lemma handle_seek_keeps : args_ok SysSeek args -> keeps (handle_seek args k).
Proof.
  intros (Hn0 & Hn1 & _ & _). unfold handle_seek, in_range in *.
  destruct (seek_wf (k_vfs k) (arg0 args) (arg1 args) (ok_vfs _ Hk)) as (b & v & Hs & Hv); [lia|done|].
  pose proof (vfs_names_of_exec (k_vfs k) (OpSeek (arg0 args) (arg1 args)) v (k_tty k) (k_con k) I (ok_names _ Hk)) as Hn.
  cbn [exec] in Hn. rewrite Hs in *. cbn [mbind outcome_bind fst snd] in *.
  specialize (Hn eq_refl). destruct b; eauto with turnix.
Qed.

Lemma handle_close_keeps : args_ok SysClose args -> keeps (handle_close args k).
Proof.
  intros (Hn0 & _). unfold handle_close, in_range in *.
  destruct (close_wf (k_vfs k) (arg0 args) (ok_vfs _ Hk)) as (b & v & Hs & Hv); [lia|].
  pose proof (vfs_names_of_exec (k_vfs k) (OpClose (arg0 args)) v (k_tty k) (k_con k) I (ok_names _ Hk)) as Hn.
  cbn [exec] in Hn. rewrite Hs in *. cbn [mbind outcome_bind fst snd] in *.
  specialize (Hn eq_refl). eauto with turnix.
Qed.

Lemma handle_read_keeps : args_ok SysRead args -> keeps (handle_read args k).
Proof.
  intros (Hn0 & _ & Hn2 & Hl). unfold handle_read, in_range in *. case_if; [eauto with turnix|].
  rewrite raw_slice_ok by lia. cbn [mbind outcome_bind].
  set (buf := read_mem _ _ _).
  destruct (read_wf (k_vfs k) (k_tty k) (arg0 args) buf (ok_vfs _ Hk)) as (r & v & tty & buf' & Hs & Hv); [lia|].
  pose proof (vfs_names_of_exec (k_vfs k) (OpRead (arg0 args) buf) v tty (k_con k) I (ok_names _ Hk)) as Hn.
  cbn [exec] in Hn. rewrite Hs in *. cbn [mbind outcome_bind] in *. specialize (Hn eq_refl).
  assert (kernel_ok (mkKernel v tty (k_con k) (k_sys k) (write_mem (k_mem k) (arg1 args) buf') (k_serial k)))
    by (split; [done|done|apply Hk|apply Hk]).
  destruct r; eauto with turnix.
Qed.

Lemma handle_write_file_keeps :
  args_ok SysWriteFile args -> keeps (handle_write_file args k) \/
  (write_too_large (k_vfs k) (arg0 args) (read_mem (k_mem k) (arg1 args) (arg2 args)) /\
   handle_write_file args k = Panic).
Proof.
  intros (Hn0 & _ & Hn2 & Hl). unfold handle_write_file, in_range in *. case_if; [left; eauto with turnix|].
  rewrite raw_slice_ok by lia. cbn [mbind outcome_bind].
  set (buf := read_mem _ _ _).
  destruct (write_wf (k_vfs k) (k_tty k) (k_con k) (arg0 args) buf (ok_vfs _ Hk) (ok_con _ Hk))
    as [(r & v & con & Hs & Hv & Hcon)|[Hbig ->]]; [lia| |by right]. left.
  pose proof (vfs_names_of_exec (k_vfs k) (OpWrite (arg0 args) buf) v (k_tty k) con I (ok_names _ Hk)) as Hn.
  cbn [exec] in Hn. rewrite Hs in *. cbn [mbind outcome_bind] in *. specialize (Hn eq_refl).
  assert (kernel_ok (mkKernel v (k_tty k) con (k_sys k) (k_mem k) (k_serial k)))
    by (split; [done|done|done|apply Hk]).
  destruct r; eauto with turnix.
Qed.
End Preserved.

Section Preserved2.
Context {C : Type} `{TotalConsole C} `{VirtAddrs}.
Context (k : Kernel C) (args : SyscallArgs) (Hk : kernel_ok k).

Lemma exec_loop_keeps data header l (k0 : Kernel C) n :
  len data <= isize_max -> header_typed header -> 56 <= program_header_entry_size header ->
  Forall in_u16 l -> kernel_ok k0 -> 0 <= n -> n + len l < 2 ^ 63 ->
  exists k' n', for_each (exec_step data header) l (k0, n) = Ret (k', n') /\ kernel_ok k'.
Proof.
  intros Hlen Hty Hmin Hl. revert k0 n. induction Hl as [|i l Hi _ IH]; intros k0 n Hk0 Hn Hb; cbn [for_each]; [eauto|].
  replace (len (i :: l)) with (1 + len l) in Hb by (unfold len; simpl; lia). pose proof (len_nonneg l).
  cbn [exec_step]. rewrite parse_program_header_eq by done. cbn [mbind outcome_bind].
  destruct (segment_verdict data header i) as [[ph|]|e]; cbn [mbind outcome_bind].
  - rewrite add_u_Ret by lia. cbn [mbind outcome_bind]. apply IH; [done|lia|lia].
  - apply IH; [done|lia|lia].
  - apply IH; [eauto with turnix|lia|lia].
Qed.

Lemma handle_exec_keeps : args_ok SysExec args -> keeps (handle_exec args k).
Proof.
  intros (_ & Hn1 & _ & Hl). unfold handle_exec, in_range in *. case_if; [eauto with turnix|].
  rewrite raw_slice_ok by lia. cbn [mbind outcome_bind].
  set (data := read_mem _ _ _). assert (len data = arg1 args) as Hd by (apply len_read_mem; lia).
  rewrite parse_header_eq. cbn [mbind outcome_bind].
  destruct (header_verdict data) as [h|e] eqn:Hh; [|eauto with turnix].
  apply header_verdict_Ok in Hh as [Hc ->]. pose proof (header_fields_typed data) as Hty.
  destruct (exec_loop_keeps data (header_fields data) (seqZ 0 (program_header_count (header_fields data))) k 0)
    as (k' & n' & -> & Hk'); [lia|done| | |done|lia| |].
  - unfold header_checks in Hc. rewrite !Forall_cons in Hc. simpl in *. lia.
  - apply Forall_forall. intros i. rewrite elem_of_seqZ. destruct Hty as (_ & _ & _ & Hcnt).
    unfold in_range in *. lia.
  - destruct Hty as (_ & _ & _ & Hcnt). unfold len, in_range in *. rewrite length_seqZ. lia.
  - cbn [mbind outcome_bind]. eauto with turnix.
Qed.

Lemma handle_yielder_keeps sp : keeps (handle_yielder sp args k).
Proof.
  unfold handle_yielder. case_if; [|eauto with turnix].
  destruct (tick_cases false sp (k_sys k) (ok_sys _ Hk)) as (p & s' & -> & Hs & _). cbn [mbind outcome_bind].
  do 2 eexists. split; [done|]. eauto with turnix.
Qed.

(** The only task there is. *)
Definition last_task (s : Sys) : Prop := is_Some (current_task (sched s)) /\ tasks (sched s) = [].

Lemma handle_exit_keeps sp : keeps (handle_exit sp args k) \/ handle_exit sp args k = Loop /\ last_task (k_sys k).
Proof.
  unfold handle_exit.
  match goal with |- context [exit_current_task sp (k_sys ?k1)] => set (k2 := k1) end.
  assert (k_sys k2 = k_sys k /\ kernel_ok k2) as [Hs Hk2].
  { unfold k2. cbn [k_sys kprint]. destruct (current_task (sched (k_sys k))); split; eauto with turnix. }
  rewrite Hs. pose proof (exit_cases sp (k_sys k) (ok_sys _ Hk)) as Hx. unfold last_task.
  destruct (current_task (sched (k_sys k))) as [c|].
  - destruct (tasks (sched (k_sys k))) as [|n rest]; [right; rewrite Hx; split; [done|split; [by eexists|done]]|].
    left. destruct Hx as (s' & -> & Hs' & _). cbn [mbind outcome_bind]. do 2 eexists. split; [done|]. eauto with turnix.
  - left. destruct Hx as (s' & -> & Hs' & _). cbn [mbind outcome_bind]. do 2 eexists. split; [done|]. eauto with turnix.
Qed.

Lemma handle_syscall_keeps sp call :
  args_ok call args ->
  keeps (handle_syscall sp call args k) \/
  (call = SysExit /\ last_task (k_sys k) /\ handle_syscall sp call args k = Loop) \/
  (call = SysWriteFile /\
   write_too_large (k_vfs k) (arg0 args) (read_mem (k_mem k) (arg1 args) (arg2 args)) /\
   handle_syscall sp call args k = Panic).
Proof.
  intros Ha. destruct call; cbn [handle_syscall].
  - left. by apply handle_write_keeps.
  - destruct (handle_exit_keeps sp) as [|[Hx Hlast]]; [by left|right; left; by split_and!].
  - left. by apply handle_read_keeps.
  - left. by apply handle_open_keeps.
  - left. by apply handle_close_keeps.
  - left. by apply handle_exec_keeps.
  - left. unfold handle_fork. eauto with turnix.
  - left. unfold handle_wait. eauto with turnix.
  - left. apply handle_yielder_keeps.
  - left. unfold handle_uptime. eauto with turnix.
  - left. by apply handle_ls_keeps.
  - left. by apply handle_stat_keeps.
  - left. unfold handle_getpid. destruct (get_current_task_id _); eauto with turnix.
  - left. by apply handle_seek_keeps.
  - destruct (handle_write_file_keeps k args Hk Ha) as [|[Hbig Hp]]; [by left|right; right; by split_and!].
  - left. unfold handle_getuid. eauto with turnix.
  - left. unfold handle_getgid. eauto with turnix.
  - left. unfold handle_brk. eauto with turnix.
  - left. by apply handle_mkdir_keeps.
  - left. by apply handle_unlink_keeps.
Qed.
End Preserved2.

(** *** Arguments the debug build refuses *)

(** The length of the slice the call makes of its arguments. *)
Definition slice_arg (call : Syscall) (args : SyscallArgs) : option Z :=
  match call with
  | SysWrite | SysOpen | SysMkdir | SysUnlink | SysExec | SysLs | SysStat => Some (arg1 args)
  | SysRead | SysWriteFile => Some (arg2 args)
  | _ => None
  end.

Definition args_typed (args : SyscallArgs) : Prop := in_u64 (arg0 args) /\ in_u64 (arg1 args) /\ in_u64 (arg2 args).

Definition long_slice (call : Syscall) (args : SyscallArgs) : Prop :=
  exists n, slice_arg call args = Some n /\ isize_max < n.

Lemma args_cases call args : args_typed args ->
  args_ok call args \/ long_slice call args \/ (call = SysStat /\ arg2 args mod 8 <> 0 /\ arg1 args <= isize_max).
Proof.
  intros (H0 & H1 & H2). unfold args_ok, long_slice.
  assert (forall n, n <= isize_max \/ isize_max < n) as Hn by lia.
  destruct call; cbn [slice_arg]; try (by left; split_and!); try (destruct (Hn (arg1 args)) as [Hle|Hgt]; [|right; left; by eexists]);
    try (destruct (Hn (arg2 args)) as [Hle'|Hgt]; [|right; left; by eexists]); try (by left; split_and!).
  destruct (Z.eq_dec (arg2 args mod 8) 0) as [He|Hne]; [left; by split_and!|right; right; by split_and!].
Qed.

(** A slice that long is a panic, unless the call fails before. *)
Lemma long_slice_panics {C} `{Console C} `{VirtAddrs} sp call args (k : Kernel C) : long_slice call args ->
  handle_syscall sp call args k = fail 1 k \/ handle_syscall sp call args k = fail 1 (kprint k (str "exec: null pointer or zero size" ++ nl)) \/
  handle_syscall sp call args k = Panic.
Proof.
  intros (n & Hn & Hbig). assert (forall m p, raw_slice m p n = Panic) as Hraw.
  { intros m p. unfold raw_slice. by replace (isize_max <? n) with true by lia. }
  destruct call; cbn [slice_arg] in Hn; try discriminate Hn; injection Hn as Hn; subst n; cbn [handle_syscall];
    unfold handle_write, handle_read, handle_open, handle_exec, handle_ls, handle_stat, handle_write_file, handle_mkdir, handle_unlink;
    case_if; auto; unfold user_str; rewrite Hraw; auto.
Qed.

(** ** The kernel invariant on the kernel's heap *)

(** What a call asks of the allocator. *)
Definition syscall_requests {C} (call : Syscall) (args : SyscallArgs) (k : Kernel C) : list Request :=
  let null := (arg0 args =? 0) || (arg1 args =? 0) in
  let path := user_str (k_mem k) (arg0 args) (arg1 args) in
  match call with
  | SysOpen => if null then [] else match path with Ret p => open_requests (k_vfs k) p | _ => [] end
  | SysMkdir => if null then [] else match path with Ret p => mkdir_requests (k_vfs k) p | _ => [] end
  | SysLs => if null then [] else list_dir_requests (k_vfs k)
  | SysWriteFile =>
      if (arg1 args =? 0) || (arg2 args =? 0) then [] else
      match raw_slice (k_mem k) (arg1 args) (arg2 args) with
      | Ret buf => write_requests (k_vfs k) (k_con k) (arg0 args) buf
      | _ => []
      end
  | _ => []
  end.

Definition serve_syscall `{KernelHeap} {C} `{Console C} `{VirtAddrs} (sp : Z) (call : Syscall) (args : SyscallArgs) (k : Kernel C)
    : outcome (ending * Kernel C) :=
  on_heap (syscall_requests call args k) (handle_syscall sp call args k).

(** Why a call may panic. *)
Inductive call_panics `{KernelHeap} {C} (args : SyscallArgs) (k : Kernel C) : Syscall -> Prop :=
| cp_slice call : long_slice call args -> call_panics args k call
| cp_stat : arg2 args mod 8 <> 0 -> call_panics args k SysStat
| cp_write : write_too_large (k_vfs k) (arg0 args) (read_mem (k_mem k) (arg1 args) (arg2 args)) ->
    call_panics args k SysWriteFile
| cp_heap call : serves (syscall_requests call args k) = false -> call_panics args k call.

Lemma misaligned_stat {C} `{Console C} sp `{VirtAddrs} args (k : Kernel C) : 0 <= arg1 args <= isize_max -> arg2 args mod 8 <> 0 ->
  handle_syscall sp SysStat args k = fail 1 k \/ handle_syscall sp SysStat args k = Panic.
Proof.
  intros Hl Hm. cbn [handle_syscall]. unfold handle_stat. case_if; [by left|].
  destruct (user_str_ok (k_mem k) (arg0 args) (arg1 args) Hl) as (path & -> & _). cbn [mbind outcome_bind].
  destruct (stat (k_vfs k) path); [right|by left]. unfold store_stat. by replace (arg2 args mod 8 =? 0) with false by lia.
Qed.

(** C2: on any heap, every system call with any arguments keeps the kernel
    consistent (file system, names, console, scheduler) and ends: with a
    result, or by yielding or exiting to another context.  It halts only when
    the last task exits, and panics only for one of these reasons: a slice of
    more than [isize::MAX] bytes, a misaligned stat pointer, a file write
    beyond [isize::MAX] bytes, a heap that refuses what the call asks for. *)
Theorem syscall_preserves_kernel `{KernelHeap} {C} `{TotalConsole C} `{VirtAddrs} sp call args (k : Kernel C) :
  kernel_ok k -> args_typed args ->
  (exists e k', serve_syscall sp call args k = Ret (e, k') /\ kernel_ok k') \/
  (call = SysExit /\ last_task (k_sys k) /\ serve_syscall sp call args k = Loop) \/
  (serve_syscall sp call args k = Panic /\ call_panics args k call).
Proof.
  intros Hk Ha. unfold serve_syscall, on_heap. destruct (serves _) eqn:E; [|right; right; split; [done|by apply cp_heap]].
  destruct (args_cases call args Ha) as [Hok|[Hlong|(-> & Hm & Hl)]].
  - destruct (handle_syscall_keeps k args Hk sp call Hok) as [Hkeep|[Hx|(-> & Hb & Hx)]]; [by left|by right; left|].
    right. right. split; [done|by apply cp_write].
  - destruct (long_slice_panics sp call args k Hlong) as [->|[->| ->]]; [left|left|by right; right; split; [|by apply cp_slice]].
    + by exists (Returned (Error 1)), k.
    + eexists _, _. split; [done|]. destruct Hk. by split.
  - destruct Ha as (_ & Ha1 & _). unfold in_range in Ha1.
    destruct (misaligned_stat sp args k ltac:(lia) Hm) as [->| ->]; [left; by exists (Returned (Error 1)), k|].
    right. right. split; [done|by apply cp_stat].
Qed.

(** ** What a system call does to the caller's memory *)

(** The bytes a call may write. *)
Definition may_write (call : Syscall) (args : SyscallArgs) (a : Z) : Prop :=
  match call with
  | SysRead => arg1 args <= a < arg1 args + arg2 args
  | SysLs => arg0 args <= a < arg0 args + arg1 args
  | SysStat => arg2 args <= a < arg2 args + 12
  | _ => False
  end.

Lemma len_copy_into buf src : len src <= len buf -> len (copy_into buf src) = len buf.
Proof. unfold copy_into, len. rewrite length_app, length_drop. lia. Qed.

Lemma slice_width {A} (l : list A) a b s : slice l a b = Ret s -> len s = b - a.
Proof.
  unfold slice. case_if; [|done]. intros [= <-]. rewrite len_sub_list; lia.
Qed.

Lemma read_buffer_len v tty i buf r v' tty' buf' :
  Vfs.read v tty i buf = Ret (r, v', tty', buf') -> len buf' = len buf.
Proof.
  unfold Vfs.read. intros Hr. case_if; [by simplify_eq|]. inv_out.
  destruct a as [fd|]; [|by simplify_eq]. case_bool_decide.
  - destruct (read_line tty) as [[line|] tty1]; [|by simplify_eq]. inv_out.
    apply slice_width in Ha0. apply len_copy_into. lia.
  - destruct (find _ _) as [e|]; [|by simplify_eq]. destruct (e_data e); [|by simplify_eq].
    case_if; [by simplify_eq|]. inv_out. apply slice_width in Ha2.
    apply add_u_inv in Ha1. apply len_copy_into. lia.
Qed.

(** The listing: the longest prefix of the names that fits, each followed by a
    newline. *)
Definition listing (names : list (list byte)) : list byte := concat (map (fun n => n ++ nl) names).

Lemma listing_cons n names : listing (n :: names) = n ++ nl ++ listing names.
Proof. unfold listing. simpl. by rewrite <- app_assoc. Qed.

Lemma ls_loop_spec files ptr size m off m' n :
  0 <= off <= size -> ls_loop files ptr size m off = Ret (m', n) ->
  exists j, let text := listing (take j files) in
    n = off + len text /\ n <= size /\ read_mem m' (ptr + off) (len text) = text /\
    (forall a, a < ptr + off \/ ptr + n <= a -> m' a = m a) /\
    (j = length files \/ exists name, files !! j = Some name /\ size < n + len name + 1).
Proof.
  revert m off. induction files as [|name rest IH]; intros m off Ho Hl; cbn [ls_loop] in Hl.
  { injection Hl as <- <-. exists 0%nat. cbn [take listing map concat]. change (len []) with 0.
    split_and!; [lia|lia|done|done|by left]. }
  inv_out. apply add_u_inv in Ha as [-> _]. apply add_u_inv in Ha0 as [-> _].
  pose proof (len_nonneg name). case_if.
  - injection Hl as <- <-. exists 0%nat. cbn [take listing map concat]. change (len []) with 0.
    split_and!; [lia|lia|done|done|].
    right. exists name. split; [done|lia].
  - set (m1 := write_mem (write_mem m (ptr + off) name) (ptr + (off + len name)) nl) in Hl.
    destruct (IH m1 (off + len name + 1)) as (j & Hn & Hs & Hr & Hout & Hj); [lia|done|].
    set (text := listing (take j rest)) in *. pose proof (len_nonneg text).
    assert (len nl = 1) as Hnl by done.
    exists (S j). cbn [take]. rewrite listing_cons. fold text. rewrite !len_app, Hnl.
    assert (read_mem m1 (ptr + off) (len name) = name) as Hr1.
    { transitivity (read_mem (write_mem m (ptr + off) name) (ptr + off) (len name)); [|apply read_write_mem].
      apply read_mem_ext. intros x Hx. unfold m1. apply write_mem_out. lia. }
    assert (read_mem m1 (ptr + off + len name) 1 = nl) as Hr2.
    { unfold m1. replace (ptr + off + len name) with (ptr + (off + len name)) by lia.
      apply (read_write_mem _ _ nl). }
    split_and!; [lia|lia| | |].
    + rewrite (read_mem_app m' _ (len name)), (read_mem_app m' _ 1) by lia. f_equal; [|f_equal].
      * etransitivity; [|exact Hr1]. apply read_mem_ext. intros x Hx. apply Hout. lia.
      * etransitivity; [|exact Hr2]. apply read_mem_ext. intros x Hx. apply Hout. lia.
      * etransitivity; [|exact Hr]. f_equal. lia.
    + intros a Ha. rewrite Hout by lia. unfold m1. rewrite !write_mem_out by lia. done.
    + destruct Hj as [->|(nm & Hnm & Hbig)]; [by left|right]. exists nm. split; [done|lia].
Qed.

Section Effects.
Context {C : Type} `{Console C} `{VirtAddrs}.

Lemma ok_inv v (k : Kernel C) e k' : ok v k = Ret (e, k') -> e = Returned (Success v) /\ k' = k.
Proof. by intros [= <- <-]. Qed.
Lemma fail_inv v (k : Kernel C) e k' : fail v k = Ret (e, k') -> e = Returned (Error v) /\ k' = k.
Proof. by intros [= <- <-]. Qed.

Lemma exec_loop_mem data header l (k : Kernel C) n r :
  for_each (exec_step data header) l (k, n) = Ret r -> k_mem r.1 = k_mem k.
Proof.
  intros Hr. apply (for_each_inv (fun s => k_mem s.1 = k_mem k)) in Hr; [done| |done].
  intros [k1 n1] t' i _ Hk1 Hs. cbn [exec_step] in Hs. inv_out.
  destruct a as [[ph|]|e]; inv_out; done.
Qed.
End Effects.

(** Read a handler's result back to its exit point. *)
Ltac handler_exits :=
  repeat first
    [ progress inv_out
    | match goal with
      | E : ok _ _ = Ret _ |- _ => apply ok_inv in E as [-> ->]
      | E : fail _ _ = Ret _ |- _ => apply fail_inv in E as [-> ->]
      | E : context [let '(_, _) := ?x in _] |- _ => destruct x eqn:?
      | E : context [if ?b then _ else _] |- _ => destruct b eqn:?
      | E : context [match ?o with _ => _ end] |- _ => destruct o eqn:?
      end ].

(** The handlers that write to the caller's memory. *)
Section Footprint.
Context {C : Type} `{Console C} `{VirtAddrs} (args : SyscallArgs) (k : Kernel C) (e : ending) (k' : Kernel C).

Lemma read_footprint :
  0 <= arg2 args -> handle_read args k = Ret (e, k') ->
  forall a, k_mem k' a <> k_mem k a -> arg1 args <= a < arg1 args + arg2 args.
Proof.
  unfold handle_read. intros Ha2 Hc a Hne. case_if; [by apply fail_inv in Hc as [_ ->]|]. inv_out.
  destruct a1 as [[[res v] tty] buf']. apply read_buffer_len in Ha0.
  unfold raw_slice in Ha. case_if; [done|]. inv_out. rewrite len_read_mem in Ha0 by done.
  assert (k_mem k' = write_mem (k_mem k) (arg1 args) buf') as Hm
    by (destruct res; [apply ok_inv in Hc as [_ ->]|apply fail_inv in Hc as [_ ->]]; done).
  rewrite Hm in Hne. destruct (decide (arg1 args <= a < arg1 args + arg2 args)); [done|].
  exfalso. apply Hne, write_mem_out. lia.
Qed.

Lemma ls_footprint :
  0 <= arg1 args -> handle_ls args k = Ret (e, k') ->
  forall a, k_mem k' a <> k_mem k a -> arg0 args <= a < arg0 args + arg1 args.
Proof.
  unfold handle_ls. intros Ha1 Hc a Hne. case_if; [by apply fail_inv in Hc as [_ ->]|]. inv_out.
  destruct a1 as [m' n]. apply ls_loop_spec in Ha0 as (j & Hn & Hs & _ & Hout & _); [|lia].
  apply ok_inv in Hc as [_ ->]. cbn [set_mem k_mem fst] in Hne.
  destruct (decide (arg0 args <= a < arg0 args + arg1 args)); [done|].
  exfalso. apply Hne, Hout. lia.
Qed.

Lemma stat_footprint :
  handle_stat args k = Ret (e, k') ->
  forall a, k_mem k' a <> k_mem k a -> arg2 args <= a < arg2 args + 12.
Proof.
  unfold handle_stat. intros Hc a Hne. case_if; [by apply fail_inv in Hc as [_ ->]|]. inv_out.
  destruct (stat (k_vfs k) a0); [|by apply fail_inv in Hc as [_ ->]]. inv_out.
  apply ok_inv in Hc as [_ ->]. cbn [set_mem k_mem] in Hne. unfold store_stat in Ha0. case_if; [done|].
  inv_out. destruct (decide (arg2 args <= a < arg2 args + 12)); [done|].
  exfalso. apply Hne, write_mem_out. rewrite len_enc. simpl. lia.
Qed.

Lemma exec_mem : handle_exec args k = Ret (e, k') -> k_mem k' = k_mem k.
Proof.
  unfold handle_exec. intros Hc. case_if; [by apply fail_inv in Hc as [_ ->]|]. inv_out.
  destruct a0 as [h|err]; [|by apply fail_inv in Hc as [_ ->]]. inv_out.
  apply ok_inv in Hc as [_ ->]. cbn [kprint k_mem].
  match goal with Hx : for_each _ _ _ = Ret _ |- _ => by rewrite (exec_loop_mem _ _ _ _ _ _ Hx) end.
Qed.
End Footprint.

(** C10: a system call changes no byte of memory outside the buffer its caller
    passed for the result: the read buffer, the listing buffer, or the stat
    block. *)
Theorem syscall_footprint {C} `{Console C} `{VirtAddrs} sp call args (k : Kernel C) e k' :
  0 <= arg1 args -> 0 <= arg2 args ->
  handle_syscall sp call args k = Ret (e, k') ->
  forall a, k_mem k' a <> k_mem k a -> may_write call args a.
Proof.
  intros Ha1 Ha2 Hc a Hne.
  destruct call; cbn [handle_syscall may_write] in *;
    lazymatch goal with |- False => apply Hne; clear Hne | _ => idtac end.
  - unfold handle_write in Hc. handler_exits; done.
  - unfold handle_exit in Hc. inv_out. cbn [set_sys k_mem]. by destruct (current_task (sched (k_sys k))).
  - by apply (read_footprint args k e k').
  - unfold handle_open in Hc. handler_exits; done.
  - unfold handle_close in Hc. handler_exits; done.
  - by rewrite (exec_mem args k e k' Hc).
  - unfold handle_fork in Hc. handler_exits; done.
  - unfold handle_wait in Hc. handler_exits; done.
  - unfold handle_yielder in Hc. handler_exits; simplify_eq; done.
  - unfold handle_uptime in Hc. handler_exits; done.
  - by apply (ls_footprint args k e k').
  - by apply (stat_footprint args k e k').
  - unfold handle_getpid in Hc. handler_exits; done.
  - unfold handle_seek in Hc. handler_exits; done.
  - unfold handle_write_file in Hc. handler_exits; simplify_eq; done.
  - unfold handle_getuid in Hc. handler_exits; done.
  - unfold handle_getgid in Hc. handler_exits; done.
  - unfold handle_brk in Hc. handler_exits; done.
  - unfold handle_mkdir in Hc. handler_exits; done.
  - unfold handle_unlink in Hc. handler_exits; done.
Qed.

(** The entries written by the loop: as many as fit. *)
Lemma ls_loop_text v ptr n m : names_bounded v -> 0 < n <= isize_max ->
  exists j m', let text := listing (take j (list_dir v)) in
    ls_loop (list_dir v) ptr n m 0 = Ret (m', len text) /\ read_mem m' ptr (len text) = text /\ len text <= n /\
    (forall a, a < ptr \/ ptr + len text <= a -> m' a = m a) /\
    (j = length (list_dir v) \/ exists name, list_dir v !! j = Some name /\ n < len text + len name + 1).
Proof.
  intros Hb Hn. destruct (ls_loop_returns (list_dir v) ptr n m 0 Hb) as (m' & k & Hl); [lia|lia|].
  pose proof Hl as Hl'. apply ls_loop_spec in Hl as (j & Hk & Hs & Hr & Hout & Hj); [|lia].
  rewrite Z.add_0_l in Hk. subst k. rewrite Z.add_0_r in *. exists j, m'. by split_and!.
Qed.

(** [ls] returns the number of bytes of the longest prefix of the
    directory listing (names in table order, each followed by a newline) that
    fits the buffer, the buffer starts with exactly those bytes, and nothing
    else of the kernel state or memory changes. *)
Theorem syscall_ls {C} `{Console C} `{VirtAddrs} sp args (k : Kernel C) :
  names_bounded (k_vfs k) -> arg0 args <> 0 -> 0 < arg1 args <= isize_max ->
  exists j m', let text := listing (take j (list_dir (k_vfs k))) in
    handle_syscall sp SysLs args k = Ret (Returned (Success (len text)), set_mem k m') /\
    read_mem m' (arg0 args) (len text) = text /\ len text <= arg1 args /\
    (forall a, a < arg0 args \/ arg0 args + len text <= a -> m' a = k_mem k a) /\
    (j = length (list_dir (k_vfs k)) \/
     exists name, list_dir (k_vfs k) !! j = Some name /\ arg1 args < len text + len name + 1).
Proof.
  intros Hb H0' H1'. cbn [handle_syscall]. unfold handle_ls. case_if; [lia|].
  rewrite raw_slice_ok by lia. cbn [mbind outcome_bind].
  destruct (ls_loop_text (k_vfs k) (arg0 args) (arg1 args) (k_mem k) Hb H1') as (j & m' & -> & Hr & Hle & Hout & Hj).
  cbn [mbind outcome_bind fst snd]. exists j, m'. by split_and!.
Qed.

Lemma read_delivers {C} `{Console C} `{VirtAddrs} sp args (k : Kernel C) fd d :
  Vfs.wf (k_vfs k) -> 0 <= arg0 args -> arg1 args <> 0 -> 0 < arg2 args <= isize_max ->
  open_files (k_vfs k) !! Z.to_nat (arg0 args) = Some (Some fd) -> fd_name fd <> str "tty" ->
  contents (k_vfs k) (fd_name fd) = Some d ->
  let n := Z.min (arg2 args) (Z.max 0 (len d - fd_offset fd)) in
  exists k', handle_syscall sp SysRead args k = Ret (Returned (Success n), k') /\
    read_mem (k_mem k') (arg1 args) n = sub_list d (fd_offset fd) n /\
    (forall a, a < arg1 args \/ arg1 args + n <= a -> k_mem k' a = k_mem k a) /\
    open_files (k_vfs k') !! Z.to_nat (arg0 args) =
      Some (Some (mkFd (fd_name fd) (fd_type fd) (fd_offset fd + n))).
Proof.
  intros Hwf H0' H1' H2' Hfd Htty Hd n. apply contents_Some in Hd as (e & He & Hde).
  cbn [handle_syscall]. unfold handle_read. case_if; [lia|].
  rewrite raw_slice_ok by lia. cbn [mbind outcome_bind].
  set (buf := read_mem (k_mem k) (arg1 args) (arg2 args)).
  assert (len buf = arg2 args) as Hbuf by (apply len_read_mem; lia).
  rewrite (read_file (k_vfs k) (arg0 args) fd Hwf H0' Hfd (k_tty k) buf e d Htty He Hde). rewrite Hbuf. fold n.
  cbn [mbind outcome_bind]. eexists. split; [done|]. cbn [k_mem k_vfs].
  destruct (wf_fds _ Hwf _ _ Hfd) as [Hoff _]. unfold in_range in Hoff. pose proof (len_nonneg d).
  set (src := sub_list d (fd_offset fd) n).
  assert (len src = n) as Hsrc.
  { unfold src. destruct (decide (len d <= fd_offset fd)) as [Hpast|Hin].
    - replace n with 0 by lia. unfold sub_list. by rewrite take_0.
    - apply len_sub_list; lia. }
  split_and!.
  - rewrite <- Hsrc at 1. unfold copy_into.
    transitivity (read_mem (write_mem (k_mem k) (arg1 args) src) (arg1 args) (len src)); [|apply read_write_mem].
    apply read_mem_ext. intros x Hx. unfold write_mem. by rewrite zget_app_l by lia.
  - intros a Ha. unfold write_mem. destruct (zget (copy_into buf src) (a - arg1 args)) as [b|] eqn:Eg; [|done].
    pose proof (zget_Some_bound _ _ _ Eg) as Hbd. rewrite len_copy_into in Hbd by lia.
    unfold copy_into in Eg. rewrite zget_lookup in Eg by lia. rewrite lookup_app_r in Eg by (unfold len in Hsrc; lia).
    rewrite lookup_drop in Eg.
    replace (length src + (Z.to_nat (a - arg1 args) - length src))%nat with (Z.to_nat (a - arg1 args)) in Eg
      by (unfold len in Hsrc; lia).
    rewrite <- zget_lookup in Eg by lia. unfold buf in Eg. rewrite zget_read_mem in Eg by lia.
    injection Eg as <-. f_equal. lia.
  - case_if.
    + replace n with 0 by lia. rewrite Z.add_0_r, Hfd. by destruct fd.
    + by apply set_offset_lookup.
Qed.

(** [read] on an open file delivers the next bytes of the file into the
    caller's buffer: the result is the number of bytes, limited by the buffer
    and by what is left of the file; the buffer starts with them, the rest of
    memory is untouched, and the descriptor has advanced past them. *)
Theorem syscall_read_file {C} `{Console C} `{VirtAddrs} sp args (k : Kernel C) fd d :
  Vfs.wf (k_vfs k) -> 0 <= arg0 args -> arg1 args <> 0 -> 0 < arg2 args <= isize_max ->
  open_files (k_vfs k) !! Z.to_nat (arg0 args) = Some (Some fd) -> fd_name fd <> str "tty" ->
  contents (k_vfs k) (fd_name fd) = Some d ->
  let n := Z.min (arg2 args) (Z.max 0 (len d - fd_offset fd)) in
  exists k', handle_syscall sp SysRead args k = Ret (Returned (Success n), k') /\
    read_mem (k_mem k') (arg1 args) n = sub_list d (fd_offset fd) n /\
    (forall a, a < arg1 args \/ arg1 args + n <= a -> k_mem k' a = k_mem k a) /\
    open_files (k_vfs k') !! Z.to_nat (arg0 args) =
      Some (Some (mkFd (fd_name fd) (fd_type fd) (fd_offset fd + n))).
Proof. by apply read_delivers. Qed.

(** The dispatcher as the library sees it: a number with the low 16 bits of a
    call reaches its handler, any other returns [u64::MAX]. *)
Lemma dispatch_decodes {C} `{Console C} `{VirtAddrs} sp frame (k : Kernel C) :
  let r := f_gpr frame in
  let args := mkSyscallArgs (rdi r) (rsi r) (rdx r) (r10 r) in
  (forall call, rax r mod 2 ^ 16 = id call ->
     syscall_dispatch sp frame k =
       (x ← handle_syscall sp call args k;
        Ret (match x.1 with Returned res => inl (result_value res) | Yielded p | Exited p => inr p end, x.2))) /\
  ((forall call, rax r mod 2 ^ 16 <> id call) -> syscall_dispatch sp frame k = Ret (inl (2 ^ 64 - 1), k)).
Proof.
  intros r args. unfold syscall_dispatch. fold r. fold args. unfold wrap. split.
  - intros call Hc. rewrite Hc, from_u16_id. destruct (handle_syscall sp call args k) as [[e k']| |]; [|done..].
    cbn [mbind outcome_bind fst snd]. by destruct e.
  - intros Hno. destruct (from_u16 (rax r mod 2 ^ 16)) as [call|] eqn:E; [|done].
    apply id_from_u16 in E. by destruct (Hno call).
Qed.

(** ** Concrete inputs *)

(** The file system [Vfs.demo], three tasks, and a caller whose memory holds
    the text [null] at 0x1000. *)
Definition demo_state : Kernel (list con_event) :=
  mkKernel Vfs.demo Tty.new None Sched.demo_sys (write_mem (fun _ => x00) 0x1000 (str "null")) [].

Lemma demo_state_ok : kernel_ok demo_state.
Proof.
  split; [exact demo_wf| |exact I|exact (reachable_wf _ _ demo_reachable)].
  unfold names_bounded. repeat (apply Forall_cons; split; [by vm_compute|]). by apply Forall_nil.
Qed.

Lemma syscall_preserves_kernel_witness :
  exists k', @serve_syscall (small_heap 100) _ _ _ 0x5000 SysOpen (mkSyscallArgs 0x1000 4 0 0) demo_state =
    Ret (Returned (Success 2), k') /\ kernel_ok k'.
Proof.
  destruct (@syscall_preserves_kernel (small_heap 100) _ _ _ _ 0x5000 SysOpen (mkSyscallArgs 0x1000 4 0 0) demo_state demo_state_ok)
    as [(e & k' & Hk & Hok)|[[? _]|[Hp _]]]; [by vm_compute| |done|vm_compute in Hp; discriminate].
  exists k'. split; [|exact Hok]. rewrite Hk. vm_compute in Hk. injection Hk as <- _. reflexivity.
Defined.

Lemma syscall_footprint_witness :
  match handle_syscall 0x5000 SysRead (mkSyscallArgs 0 0x2000 8 0) demo_state with
  | Ret (_, k') => k_mem k' 0x3000 = k_mem demo_state 0x3000
  | _ => False
  end.
Proof.
  assert (match handle_syscall 0x5000 SysRead (mkSyscallArgs 0 0x2000 8 0) demo_state
    with Ret _ => true | _ => false end = true) as Hok by (by vm_compute).
  destruct (handle_syscall 0x5000 SysRead (mkSyscallArgs 0 0x2000 8 0) demo_state) as [[e k']| |] eqn:E;
    [|discriminate Hok..].
  destruct (decide (k_mem k' 0x3000 = k_mem demo_state 0x3000)) as [Heq|Hne]; [exact Heq|exfalso].
  apply (syscall_footprint 0x5000 SysRead (mkSyscallArgs 0 0x2000 8 0) demo_state e k') in Hne;
    [|by vm_compute..|exact E]. simpl in Hne. lia.
Defined.

Lemma syscall_ls_witness :
  exists j m', let text := listing (take j (list_dir Vfs.demo)) in
    handle_syscall 0x5000 SysLs (mkSyscallArgs 0x4000 11 0 0) demo_state =
      Ret (Returned (Success (len text)), set_mem demo_state m') /\
    read_mem m' 0x4000 (len text) = text.
Proof.
  destruct (syscall_ls 0x5000 (mkSyscallArgs 0x4000 11 0 0) demo_state (ok_names _ demo_state_ok))
    as (j & m' & Hr & Hm & _); [done|by vm_compute|].
  exists j, m'. split; [exact Hr|exact Hm].
Defined.

Lemma syscall_read_file_witness :
  exists k', handle_syscall 0x5000 SysRead (mkSyscallArgs 0 0x2000 8 0) demo_state =
    Ret (Returned (Success 3), k') /\ read_mem (k_mem k') 0x2000 3 = str "abc".
Proof.
  destruct (syscall_read_file 0x5000 (mkSyscallArgs 0 0x2000 8 0) demo_state (demo_fd 0) (str "abc"))
    as (k' & Hk & Hm & _); [exact demo_wf|by vm_compute..|].
  exists k'. split; [exact Hk|exact Hm].
Defined.
