(* ===== verification/Libturnix.v ===== *)
(** * The user library ([userland/libturnix/src/lib.rs])

    Each wrapper loads the registers, executes [syscall] and interprets the
    value in [rax]; the system call itself is the kernel's dispatcher.  A
    slice or string is its address and length in the caller's memory.
    [junk]: the registers a wrapper leaves alone; [sp]: where the kernel saves
    the caller's context if the call switches away. *)

From S2P Require Import Prelude Abi Utf8 Elf Tty Vfs Context X86 Sched Serial Syscall.

Section Lib.
Context {C : Type} `{Console C} `{VirtAddrs}.
Context (sp : Z) (junk : regs).

Abbreviation K := (Kernel C).

Definition with_args (num a0 a1 a2 : Z) : SyscallFrame :=
  mkFrame (mkRegs num (rbx junk) 0 a2 (rbp junk) a1 a0 (r8 junk) (r9 junk) (r10 junk) 0 (r12 junk)
             (r13 junk) (r14 junk) (r15 junk)) 0 0x2b 0 0 0x23.

(** The value the caller finds in [rax]; a call that switched away does not
    come back here. *)
Definition syscall3 (num a0 a1 a2 : Z) (k : K) : outcome (Z * K) :=
  r ← syscall_dispatch sp (with_args num a0 a1 a2) k;
  match r with
  | (inl v, k) => Ret (v, k)
  | (inr _, _) => Loop
  end.
Definition syscall2 (num a0 a1 : Z) := syscall3 num a0 a1 (rdx junk).
Definition syscall1 (num a0 : Z) := syscall2 num a0 (rsi junk).
Definition syscall0 (num : Z) := syscall1 num (rdi junk).

(** [if (res as i64) < 0 { None } else { Some(res) }]. *)
Definition to_option (res : Z) : option Z := if as_signed 64 res <? 0 then None else Some res.
(** [(res as i64) >= 0]. *)
Definition to_bool (res : Z) : bool := 0 <=? as_signed 64 res.

Definition lib_print (message : Z * Z) (k : K) : outcome (unit * K) :=
  r ← syscall2 (id SysWrite) message.1 message.2 k; Ret (tt, r.2).
Definition lib_read (fd : Z) (buf : Z * Z) (k : K) : outcome (option Z * K) :=
  r ← syscall3 (id SysRead) fd buf.1 buf.2 k; Ret (to_option r.1, r.2).
Definition lib_open (path : Z * Z) (k : K) : outcome (option Z * K) :=
  r ← syscall2 (id SysOpen) path.1 path.2 k; Ret (to_option r.1, r.2).
Definition lib_close (fd : Z) (k : K) : outcome (unit * K) :=
  r ← syscall1 (id SysClose) fd k; Ret (tt, r.2).
Definition lib_ls (buf : Z * Z) (k : K) : outcome (option Z * K) :=
  r ← syscall2 (id SysLs) buf.1 buf.2 k; Ret (to_option r.1, r.2).

(** [st]: the address of the local [Stat], initialised to zeros. *)
Definition lib_stat (path : Z * Z) (st : Z) (k : K) : outcome (option Stat * K) :=
  let k := set_mem k (write_mem (k_mem k) st (enc [(8%nat, 0); (4%nat, 0)])) in
  r ← syscall3 (id SysStat) path.1 path.2 st k;
  let value := mkStat (field (read_mem (k_mem r.2) st 12) 0 8) (field (read_mem (k_mem r.2) st 12) 8 4) in
  Ret (if as_signed 64 r.1 <? 0 then None else Some value, r.2).

Definition lib_exec (elf_data : Z * Z) (k : K) : outcome (unit * K) :=
  _ ← syscall2 (id SysExec) elf_data.1 elf_data.2 k; Loop.
Definition lib_exit (code : Z) (k : K) : outcome (unit * K) :=
  _ ← syscall1 (id SysExit) (wrap 64 code) k; Loop.
Definition lib_uptime (k : K) : outcome (Z * K) := syscall0 (id SysUptime) k.
Definition lib_getpid (k : K) : outcome (Z * K) := syscall0 (id SysGetPid) k.
Definition lib_fork (k : K) : outcome (Z * K) := syscall0 (id SysFork) k.
Definition lib_seek (fd offset : Z) (k : K) : outcome (bool * K) :=
  r ← syscall2 (id SysSeek) fd offset k; Ret (to_bool r.1, r.2).
Definition lib_write (fd : Z) (buf : Z * Z) (k : K) : outcome (option Z * K) :=
  r ← syscall3 (id SysWriteFile) fd buf.1 buf.2 k; Ret (to_option r.1, r.2).
Definition lib_getuid (k : K) : outcome (Z * K) := syscall0 (id SysGetUid) k.
Definition lib_getgid (k : K) : outcome (Z * K) := syscall0 (id SysGetGid) k.
Definition lib_mkdir (path : Z * Z) (k : K) : outcome (bool * K) :=
  r ← syscall2 (id SysMkdir) path.1 path.2 k; Ret (to_bool r.1, r.2).
Definition lib_unlink (path : Z * Z) (k : K) : outcome (bool * K) :=
  r ← syscall2 (id SysUnlink) path.1 path.2 k; Ret (to_bool r.1, r.2).

(** ** Lemmas *)

(** A wrapper runs the handler of its call. *)
Lemma syscall3_runs call a0 a1 a2 (k : K) res k' :
  handle_syscall sp call (mkSyscallArgs a0 a1 a2 (r10 junk)) k = Ret (Returned res, k') ->
  syscall3 (id call) a0 a1 a2 k = Ret (result_value res, k').
Proof.
  intros Hh. unfold syscall3, syscall_dispatch, with_args. cbn [f_gpr rax rdi rsi rdx r10].
  assert (wrap 16 (id call) = id call) as -> by (by destruct call).
  rewrite from_u16_id, Hh. done.
Qed.

Lemma syscall3_eq call a0 a1 a2 (k : K) :
  syscall3 (id call) a0 a1 a2 k =
    (r ← handle_syscall sp call (mkSyscallArgs a0 a1 a2 (r10 junk)) k;
     match r.1 with Returned res => Ret (result_value res, r.2) | _ => Loop end).
Proof.
  unfold syscall3, syscall_dispatch, with_args. cbn [f_gpr rax rdi rsi rdx r10].
  assert (wrap 16 (id call) = id call) as -> by (by destruct call).
  rewrite from_u16_id. by destruct (handle_syscall _ _ _ k) as [[[] ?]| |].
Qed.

Lemma to_option_small v : 0 <= v < 2 ^ 63 -> to_option v = Some v.
Proof.
  intros Hv. unfold to_option, as_signed. rewrite Z.mod_small by lia.
  replace (v <? 2 ^ (64 - 1)) with true by (change (2 ^ (64 - 1)) with (2 ^ 63); lia).
  by replace (v <? 0) with false by lia.
Qed.
End Lib.

(** The text a user slice holds. *)
Definition holds (m : mem) (s : Z * Z) (text : list byte) : Prop :=
  read_mem m s.1 s.2 = text /\ s.2 = len text /\ s.1 <> 0.

Lemma user_str_holds m s text cs :
  holds m s text -> decode text = Some cs -> len text <= isize_max ->
  user_str m s.1 s.2 = Ret text.
Proof.
  intros (Hr & Hl & _) Hd Hm. unfold user_str. pose proof (len_nonneg text).
  rewrite raw_slice_ok by lia. cbn [mbind outcome_bind]. rewrite Hr. unfold utf8_or, from_utf8. by rewrite Hd.
Qed.

Lemma open_at_zero v path e d :
  Vfs.wf v -> find (named path) (entries v) = Some e -> e_data e = Some d -> ~ Forall is_Some (open_files v) ->
  exists j v1, Vfs.open v path = (Some (Z.of_nat j), v1) /\ (j < MAX_OPEN_FILES)%nat /\ Vfs.wf v1 /\
    open_files v1 !! j = Some (Some (mkFd path (e_type e) 0)) /\ contents v1 path = Some d.
Proof.
  intros Hwf He Hd Hfree. pose proof (wf_open v path Hwf) as Hwf1. unfold Vfs.open in *.
  rewrite open_loop_eq, He in *.
  destruct (free_slot (open_files v)) as [j|] eqn:Hj; [|by apply free_slot_None in Hj].
  destruct (free_slot_Some _ _ Hj) as [Hn _]. pose proof (lookup_lt_Some _ _ _ Hn) as Hlt.
  eexists j, _. split; [done|]. split; [by rewrite <- (wf_slots _ Hwf)|]. split; [done|].
  split; [simpl; by apply list_lookup_insert_eq|]. apply contents_Some. simpl. by exists e.
Qed.

(** C24: a program that opens an existing file through the library and reads
    into a buffer gets the beginning of the file: [open] returns a descriptor
    below 16, and [read] fills the buffer with the file's first bytes, as
    many as fit or as there are. *)
Theorem user_open_read {C} `{TotalConsole C} `{VirtAddrs} sp junk (k : Kernel C) path text cs e d buf :
  kernel_ok k -> holds (k_mem k) path text -> text <> [] -> decode text = Some cs -> len text <= isize_max ->
  text <> str "tty" -> find (named text) (entries (k_vfs k)) = Some e -> e_data e = Some d ->
  ~ Forall is_Some (open_files (k_vfs k)) -> buf.1 <> 0 -> 0 < buf.2 <= isize_max ->
  exists fd k1 n k2, lib_open sp junk path k = Ret (Some fd, k1) /\ 0 <= fd < 16 /\
    lib_read sp junk fd buf k1 = Ret (Some n, k2) /\ n = Z.min buf.2 (len d) /\
    read_mem (k_mem k2) buf.1 n = take (Z.to_nat n) d.
Proof.
  intros Hk Hp Hne Hcs Hlen Htty He Hd Hfree Hb1 Hb2.
  pose proof (user_str_holds _ _ _ _ Hp Hcs Hlen) as Hs. destruct Hp as (_ & Hp2 & Hp1).
  assert (0 < len text) as Hpos by (destruct text; [done|unfold len; simpl; lia]).
  destruct (open_at_zero (k_vfs k) text e d (ok_vfs _ Hk) He Hd Hfree)
    as (j & v1 & Ho & Hj & Hwf1 & Hfd & Hc). unfold MAX_OPEN_FILES in Hj.
  assert (lib_open sp junk path k = Ret (Some (Z.of_nat j), set_vfs k v1)) as Hopen.
  { unfold lib_open, syscall2. rewrite (syscall3_runs _ _ SysOpen _ _ _ _ (Success (Z.of_nat j)) (set_vfs k v1)).
    - cbn [mbind outcome_bind fst snd result_value]. rewrite to_option_small by lia. done.
    - cbn [handle_syscall]. unfold handle_open. cbn [arg0 arg1]. case_if; [lia|].
      rewrite Hs. cbn [mbind outcome_bind]. rewrite Ho. done. }
  pose proof (wf_data _ (ok_vfs _ Hk) e d (proj1 (find_named _ _ _ He)) Hd) as Hdl. pose proof (len_nonneg d).
  assert (exists k2, handle_syscall sp SysRead (mkSyscallArgs (Z.of_nat j) buf.1 buf.2 (r10 junk)) (set_vfs k v1) =
      Ret (Returned (Success (Z.min buf.2 (len d))), k2) /\
    read_mem (k_mem k2) buf.1 (Z.min buf.2 (len d)) = take (Z.to_nat (Z.min buf.2 (len d))) d) as (k2 & Hr & Hm).
  { destruct (read_delivers sp (mkSyscallArgs (Z.of_nat j) buf.1 buf.2 (r10 junk)) (set_vfs k v1)
      (mkFd text (e_type e) 0) d) as (k2 & Hr & Hm & _); cbn [arg0 arg1 arg2]; try done; try lia.
    - by rewrite Nat2Z.id.
    - cbn [arg0 arg1 arg2 fd_offset] in *. replace (Z.max 0 (len d - 0)) with (len d) in * by lia.
      exists k2. split; [done|]. rewrite Hm. unfold sub_list. by rewrite drop_0. }
  exists (Z.of_nat j), (set_vfs k v1), (Z.min buf.2 (len d)), k2.
  split_and!; [done|lia|lia| |done|done].
  unfold lib_read. rewrite (syscall3_runs _ _ SysRead _ _ _ _ _ _ Hr).
  cbn [mbind outcome_bind fst snd result_value]. unfold isize_max in *. by rewrite to_option_small by lia.
Qed.

Lemma stat_enc_fields size ty :
  in_u64 size -> in_u32 ty ->
  field (enc [(8%nat, size); (4%nat, ty)]) 0 8 = size /\ field (enc [(8%nat, size); (4%nat, ty)]) 8 4 = ty.
Proof.
  intros Hs Ht.
  pose proof (field_enc [(8%nat, size); (4%nat, ty)] 0 8 size [] eq_refl) as H0'.
  pose proof (field_enc [(8%nat, size); (4%nat, ty)] 1 4 ty [] eq_refl) as H1'.
  rewrite app_nil_r in *. unfold in_range in *.
  change (256 ^ Z.of_nat 8) with (2 ^ 64) in H0'. change (256 ^ Z.of_nat 4) with (2 ^ 32) in H1'.
  rewrite Z.mod_small in H0' by exact Hs. rewrite Z.mod_small in H1' by exact Ht.
  split; [exact H0'|exact H1'].
Qed.


(** ** Errors

    The kernel reports a failed call as [Error(1)], which reaches the caller
    as the value 1; the library takes only negative values for errors, so a
    failed [open] looks like descriptor 1 and a failed [unlink] like
    success. *)

Lemma open_missing_is_descriptor_1 {C} `{Console C} `{VirtAddrs} sp junk (k : Kernel C) path text cs :
  holds (k_mem k) path text -> text <> [] -> decode text = Some cs -> len text <= isize_max ->
  find (named text) (entries (k_vfs k)) = None ->
  lib_open sp junk path k = Ret (Some 1, k) /\ lib_unlink sp junk path k = Ret (true, k).
Proof.
  intros Hp Hne Hcs Hlen He. pose proof (user_str_holds _ _ _ _ Hp Hcs Hlen) as Hs.
  destruct Hp as (_ & Hp2 & Hp1).
  assert (0 < len text) as Hpos by (destruct text; [done|unfold len; simpl; lia]).
  assert (set_vfs k (k_vfs k) = k) as Hsame by (by destruct k). split.
  - unfold lib_open, syscall2. rewrite (syscall3_runs _ _ SysOpen _ _ _ _ (Error 1) k); [done|].
    cbn [handle_syscall]. unfold handle_open. cbn [arg0 arg1]. case_if; [lia|].
    rewrite Hs. cbn [mbind outcome_bind]. unfold Vfs.open. rewrite open_loop_eq, He. by rewrite Hsame.
  - unfold lib_unlink, syscall2. rewrite (syscall3_runs _ _ SysUnlink _ _ _ _ (Error 1) k); [done|].
    cbn [handle_syscall]. unfold handle_unlink. cbn [arg0 arg1]. case_if; [lia|].
    rewrite Hs. cbn [mbind outcome_bind]. unfold unlink. apply position_named_None in He. rewrite He.
    by rewrite Hsame.
Qed.

(** ** Concrete inputs *)

(** A caller with the text [a] at 0x1000. *)
Definition demo_user_state : Kernel (list con_event) :=
  mkKernel Vfs.demo Tty.new None Sched.demo_sys (write_mem (fun _ => x00) 0x1000 (str "a")) [].

Lemma demo_user_state_ok : kernel_ok demo_user_state.
Proof. destruct demo_state_ok as [Hv Hn Hs]. by split. Qed.

Lemma user_open_read_witness :
  exists fd k1 k2, lib_open 0x5000 demo_regs (0x1000, 1) demo_user_state = Ret (Some fd, k1) /\
    lib_read 0x5000 demo_regs fd (0x2000, 2) k1 = Ret (Some 2, k2) /\
    read_mem (k_mem k2) 0x2000 2 = str "ab".
Proof.
  destruct (user_open_read 0x5000 demo_regs demo_user_state (0x1000, 1) (str "a") [97]
    (mkEntry (str "a") Regular (Some (str "abc"))) (str "abc") (0x2000, 2) demo_user_state_ok)
    as (fd & k1 & n & k2 & Ho & _ & Hr & Hn & Hm);
    [by split_and!|done|reflexivity|by vm_compute|done|reflexivity|reflexivity| |done|by vm_compute|].
  - intros Hall. apply (Forall_lookup_1 _ _ 2%nat None) in Hall; [by destruct Hall|reflexivity].
  - vm_compute in Hn. subst n. exists fd, k1, k2. split; [exact Ho|]. split; [exact Hr|exact Hm].
Defined.

