(* ===== verification/UserShell.v ===== *)
(** * The user programs ([userland/shell/src/main.rs], [userland/init])

    The interactive shell over the user library: decimal output, the commands,
    the loop that reads lines from the terminal; and [init].  User programs
    are built without overflow checks, so the index arithmetic of [print_u64],
    which fills a 20-byte buffer from the end, wraps, and only the bounds
    check of the store can fail. *)

From S2P Require Import Prelude Abi Utf8 Elf Tty Vfs Context X86 Sched Serial Syscall Libturnix.

(** [while n > 0 { idx -= 1; buf\[idx\] = ..; n /= 10 }]. *)
Fixpoint print_loop (fuel : nat) (n idx : Z) (buf : list byte) : outcome (Z * list byte) :=
  match fuel with
  | O => Loop
  | S fuel' =>
      if 0 <? n then
        let idx := wrap 64 (idx - 1) in
        if idx <? len buf then
          print_loop fuel' (n / 10) idx (<[Z.to_nat idx := byte_of (wrap 8 (48 + n mod 10))]> buf)
        else Panic
      else Ret (idx, buf)
  end.

(** The texts handed to [tty_print]; 64 rounds are more than the 20 digits of
    any [u64] need. *)
Definition print_u64 (n : Z) : outcome (list (list byte)) :=
  if n =? 0 then Ret [str "0"] else
  r ← print_loop 64 n 20 (replicate 20 x00);
  let '(idx, buf) := r in
  s ← slice buf idx (len buf);
  match from_utf8 s with
  | Some s => Ret [s]
  | None => Ret []
  end.

Lemma print_loop_spec (fuel i : nat) n buf acc :
  (i < fuel)%nat -> (i <= 20)%nat -> length buf = 20%nat -> drop i buf = acc -> 0 <= n < 10 ^ Z.of_nat i ->
  exists j buf', print_loop fuel n (Z.of_nat i) buf = Ret (Z.of_nat j, buf') /\ length buf' = 20%nat /\
    (j <= 20)%nat /\ drop j buf' = if n =? 0 then acc else digits 10 ascii_digit i n acc.
Proof.
  revert i n buf acc. induction fuel as [|fuel IH]; intros i n buf acc Hf Hi Hb Hacc Hn; [lia|].
  cbn [print_loop]. destruct (0 <? n) eqn:E.
  - destruct i as [|i]; [change (10 ^ Z.of_nat 0) with 1 in Hn; lia|].
    assert (wrap 64 (Z.of_nat (S i) - 1) = Z.of_nat i) as ->.
    { unfold wrap. rewrite Z.mod_small by lia. lia. }
    unfold len. rewrite Hb. assert ((Z.of_nat i <? Z.of_nat 20) = true) as -> by (apply Z.ltb_lt; lia).
    rewrite Nat2Z.id. pose proof (Z.mod_pos_bound n 10 ltac:(lia)).
    assert (byte_of (wrap 8 (48 + n mod 10)) = ascii_digit (n mod 10)) as ->.
    { unfold ascii_digit, wrap. f_equal. apply Z.mod_small. lia. }
    assert (drop i (<[i := ascii_digit (n mod 10)]> buf) = ascii_digit (n mod 10) :: acc) as Hdrop.
    { rewrite (drop_S _ (ascii_digit (n mod 10)) i) by (apply list_lookup_insert_eq; lia).
      f_equal. rewrite drop_insert_lt by lia. done. }
    rewrite Nat2Z.inj_succ, Z.pow_succ_r in Hn by lia.
    destruct (IH i (n / 10) _ _ ltac:(lia) ltac:(lia) ltac:(by rewrite length_insert) Hdrop)
      as (j & buf' & Hl & Hb' & Hj & Hd).
    { pose proof (Z.div_mod n 10 ltac:(lia)). lia. }
    exists j, buf'. split_and!; [exact Hl|done|done|]. rewrite Hd.
    replace (n =? 0) with false by lia. cbn [digits].
    destruct (n <? 10) eqn:E10; [by rewrite (Z.div_small n 10) by lia|].
    replace (n / 10 =? 0) with false; [done|]. pose proof (Z.div_mod n 10 ltac:(lia)). lia.
  - replace (n =? 0) with true by lia. by exists i, buf.
Qed.

Lemma digits_ascii fuel n acc :
  Forall (fun b => u8 b < 0x80) acc -> Forall (fun b => u8 b < 0x80) (digits 10 ascii_digit fuel n acc).
Proof.
  revert n acc. induction fuel as [|fuel IH]; intros n acc Hacc; [done|]. cbn [digits].
  pose proof (Z.mod_pos_bound n 10 ltac:(lia)).
  assert (Forall (fun b => u8 b < 0x80) (ascii_digit (n mod 10) :: acc)) as Hc.
  { apply Forall_cons. split; [|done]. unfold ascii_digit. rewrite u8_byte_of, Z.mod_small by lia. lia. }
  case_if; [done|by apply IH].
Qed.

Lemma digits_longer fuel n acc : (length acc <= length (digits 10 ascii_digit fuel n acc))%nat.
Proof.
  revert n acc. induction fuel as [|fuel IH]; intros n acc; cbn [digits]; [lia|].
  case_if; [cbn [length]; lia|]. etransitivity; [|apply IH]. cbn [length]. lia.
Qed.

Lemma dec_nonempty n : 0 < len (dec n).
Proof.
  unfold dec, len. cbn [digits]. case_if; [cbn [length]; lia|].
  pose proof (digits_longer 19 (n / 10) [ascii_digit (n mod 10)]) as Hl. cbn [length] in Hl. cbn [digits] in Hl. lia.
Qed.

Lemma from_utf8_ascii bs : Forall (fun b => u8 b < 0x80) bs -> from_utf8 bs = Some bs.
Proof.
  intros Hb. unfold from_utf8. assert (exists l, decode bs = Some l) as [l ->]; [|done].
  induction Hb as [|b bs Hlt _ [l IH]]; [by eexists|]. cbn [decode].
  replace (u8 b <? 0x80) with true by lia. rewrite IH. by eexists.
Qed.

(** for every 64-bit value [print_u64] stays inside its buffer and prints
    one text, the decimal digits of the value without leading zeros, from
    which the value can be read back. *)
Theorem print_u64_decimal n : in_u64 n -> print_u64 n = Ret [dec n] /\ undec (dec n) = n.
Proof.
  intros Hn. unfold in_range in Hn. split; [|apply undec_dec; lia]. unfold print_u64.
  destruct (n =? 0) eqn:E; [by replace n with 0 by lia|].
  destruct (print_loop_spec 64 20 n (replicate 20 x00) []) as (j & buf & Hl & Hb & Hj & Hd); [lia|lia|done|done| |].
  { change (Z.of_nat 20) with 20. lia. }
  change (Z.of_nat 20) with 20 in Hl. rewrite Hl.
  cbn [mbind outcome_bind]. rewrite slice_Ret by (unfold len; lia). cbn [mbind outcome_bind].
  rewrite E in Hd. unfold sub_list. rewrite Nat2Z.id, Hd, take_ge.
  - fold (dec n). rewrite from_utf8_ascii; [done|]. apply digits_ascii. by apply Forall_nil.
  - rewrite <- Hd, length_drop. unfold len. lia.
Qed.

Lemma print_u64_decimal_witness : print_u64 18446744073709551615 = Ret [str "18446744073709551615"].
Proof. destruct (print_u64_decimal 18446744073709551615) as [H _]; [by vm_compute|]. exact H. Defined.

(** ** The shell *)

(** Where the linker puts the string literals, and the buffers on the stack:
    the line, the listing, the digits. *)
Record Places := mkPlaces { lit : list byte -> Z; line_buf : Z; ls_buf : Z; num_buf : Z }.

Section Shell.
Context {C : Type} `{Console C} `{VirtAddrs}.
Context (sp : Z) (junk : regs) (at_ : Places).

Abbreviation K := (Kernel C).

(** [|s| { write(tty_fd, s.as_bytes()); }]. *)
Definition tty_print (tty_fd : Z) (s : Z * Z) (k : K) : outcome K :=
  r ← lib_write sp junk tty_fd s k; Ret r.2.

Definition print_lit (tty_fd : Z) (s : list byte) (k : K) : outcome K := tty_print tty_fd (lit at_ s, len s) k.

(** [print_u64], with its buffer in memory. *)
Definition shell_print_u64 (n tty_fd : Z) (k : K) : outcome K :=
  if n =? 0 then print_lit tty_fd (str "0") k else
  r ← print_loop 64 n 20 (replicate 20 x00);
  let '(idx, buf) := r in
  let k := set_mem k (write_mem (k_mem k) (num_buf at_) buf) in
  s ← slice buf idx (len buf);
  match from_utf8 s with
  | Some s => tty_print tty_fd (num_buf at_ + idx, len s) k
  | None => Ret k
  end.

(** [handle_command], on the text [cmd] at address [a]. *)
Definition handle_command (cmd : list byte) (a tty_fd : Z) (k : K) : outcome K :=
  if bool_decide (cmd = str "help") then print_lit tty_fd (str "Available: help, hello, ls, uptime, exit" ++ nl) k else
  if bool_decide (cmd = str "hello") then print_lit tty_fd (str "Hello from the clean Turnix shell!" ++ nl) k else
  if bool_decide (cmd = str "ls") then
    let k := set_mem k (write_mem (k_mem k) (ls_buf at_) (replicate 1024 x00)) in
    r ← lib_ls sp junk (ls_buf at_, 1024) k;
    let '(got, k) := r in
    match got with
    | Some n =>
        s ← slice (read_mem (k_mem k) (ls_buf at_) 1024) 0 n;
        match from_utf8 s with
        | Some s => tty_print tty_fd (ls_buf at_, len s) k
        | None => print_lit tty_fd [] k
        end
    | None => Ret k
    end
  else if bool_decide (cmd = str "uptime") then
    k ← print_lit tty_fd (str "Uptime ticks: ") k;
    r ← lib_uptime sp junk k;
    k ← shell_print_u64 r.1 tty_fd r.2;
    print_lit tty_fd nl k
  else if bool_decide (cmd = str "exit") then
    k ← print_lit tty_fd (str "Goodbye!" ++ nl) k;
    r ← lib_exit sp junk 0 k;
    Ret r.2
  else
    k ← print_lit tty_fd (str "Unknown command: ") k;
    k ← tty_print tty_fd (a, len cmd) k;
    print_lit tty_fd nl k.

(** One turn of the loop of [_start]: the prompt, and what follows it. *)
Definition shell_reply (tty_fd : Z) (k : K) : outcome K :=
  r ← lib_read sp junk tty_fd (line_buf at_, 256) k;
  let '(got, k) := r in
  match got with
  | Some n =>
      if 0 <? n then
        s ← slice (read_mem (k_mem k) (line_buf at_) 256) 0 n;
        let '(start, line) := trim (utf8_or s []) in
        if bool_decide (line = []) then Ret k else handle_command line (line_buf at_ + start) tty_fd k
      else Ret k
  | None => Ret k
  end.

Definition shell_turn (tty_fd : Z) (k : K) : outcome K :=
  k ← print_lit tty_fd (str "> ") k;
  shell_reply tty_fd k.

(** [n] turns of the loop. *)
Fixpoint shell_turns (n : nat) (tty_fd : Z) (k : K) : outcome K :=
  match n with
  | O => Ret k
  | S n' => k ← shell_turn tty_fd k; shell_turns n' tty_fd k
  end.

(** [_start] up to the loop: the descriptor of the terminal. *)
Definition shell_start (k : K) : outcome (Z * K) :=
  r ← lib_open sp junk (lit at_ (str "tty"), len (str "tty")) k;
  tty_fd ← unwrap r.1;
  k ← print_lit tty_fd (str "Turnix Interactive Shell (Phase 6)" ++ nl) r.2;
  k ← print_lit tty_fd (str "System PID: ") k;
  r ← lib_getpid sp junk k;
  k ← shell_print_u64 r.1 tty_fd r.2;
  k ← print_lit tty_fd (nl ++ str "Type 'help' for commands." ++ nl ++ nl) k;
  let k := set_mem k (write_mem (k_mem k) (line_buf at_) (replicate 256 x00)) in
  Ret (tty_fd, k).

(** [userland/init]: two messages on the serial line, then the end. *)
Definition init_start (k : K) : outcome (unit * K) :=
  r ← lib_print sp junk (lit at_ (str "turnix System Init (v3)" ++ nl), len (str "turnix System Init (v3)" ++ nl)) k;
  r ← lib_print sp junk (lit at_ (str "Searching for shell..." ++ nl), len (str "Searching for shell..." ++ nl)) r.2;
  lib_exit sp junk 0 r.2.
End Shell.

(** ** What the shell says *)

(** The literals of the program. *)
Definition literals : list (list byte) :=
  [str "> "; str "Available: help, hello, ls, uptime, exit" ++ nl; str "Hello from the clean Turnix shell!" ++ nl;
   str "Uptime ticks: "; nl; str "Unknown command: "; str "0"; str "Goodbye!" ++ nl].

Definition in_buffer (p : Places) (a : Z) : Prop :=
  line_buf p <= a < line_buf p + 256 \/ ls_buf p <= a < ls_buf p + 1024 \/ num_buf p <= a < num_buf p + 20.

(** The literals are in memory, away from the buffers. *)
Record places_ok (p : Places) (m : mem) : Prop := mkPlacesOk {
  pl_lit : forall s, s ∈ literals -> lit p s <> 0 /\ read_mem m (lit p s) (len s) = s /\
    forall a, lit p s <= a < lit p s + len s -> ~ in_buffer p a;
  pl_nonnull : 0 < line_buf p /\ ls_buf p <> 0 /\ 0 < num_buf p }.

(** What the shell prints for a command: a listing that is not empty and is
    valid UTF-8 is shown as it is, others are not shown. *)
Definition shown (text : list byte) : list (list byte) :=
  if bool_decide (text = []) then [] else match from_utf8 text with Some _ => [text] | None => [] end.

Definition commands : list (list byte) := [str "help"; str "hello"; str "ls"; str "uptime"; str "exit"].

Inductive answers (v : Vfs) (ticks : Z) : list byte -> list (list byte) -> Prop :=
  | ans_blank : answers v ticks [] []
  | ans_help : answers v ticks (str "help") [str "Available: help, hello, ls, uptime, exit" ++ nl]
  | ans_hello : answers v ticks (str "hello") [str "Hello from the clean Turnix shell!" ++ nl]
  | ans_ls j : j = length (list_dir v) \/ (exists name, list_dir v !! j = Some name /\
        1024 < len (listing (take j (list_dir v))) + len name + 1) ->
      answers v ticks (str "ls") (shown (listing (take j (list_dir v))))
  | ans_uptime : answers v ticks (str "uptime") [str "Uptime ticks: "; dec ticks; nl]
  | ans_unknown cmd : cmd <> [] -> cmd ∉ commands -> answers v ticks cmd [str "Unknown command: "; cmd; nl].

(** The command of a typed line: what reaches the shell's buffer, between white
    space; nothing when the cut at 256 bytes splits a character. *)
Definition line_text (line : list Z) : list byte := utf8_or (take 256 (encode line)) [].
Definition command (line : list Z) : list byte := (trim (line_text line)).2.

Lemma trim_parts s : exists pre post, line_text s = pre ++ command s ++ post /\ len pre = (trim (line_text s)).1 /\
  from_utf8 (command s) = Some (command s) /\ len (line_text s) <= len (take 256 (encode s)).
Proof.
  unfold command. destruct (decode (take 256 (encode s))) as [cs|] eqn:E.
  - pose proof (decode_scalar _ _ E) as Hsc. pose proof (encode_decode _ _ E) as Hen.
    assert (line_text s = encode cs) as -> by (unfold line_text, utf8_or, from_utf8; by rewrite E, Hen).
    destruct (trim (encode cs)) as [start text] eqn:Ht. cbn [fst snd].
    destruct (trim_encode cs start text Hsc Ht) as (lead & mid & trail & Hcs & Htx & Hst & _).
    exists (encode lead), (encode trail). split_and!; [by rewrite Hcs, !encode_app, Htx|done| |by rewrite Hen].
    rewrite Htx. apply from_utf8_encode. rewrite Hcs, !Forall_app in Hsc. tauto.
  - assert (line_text s = []) as -> by (unfold line_text, utf8_or, from_utf8; by rewrite E).
    exists [], []. split_and!; [done|done|done|]. apply len_nonneg.
Qed.

Local Ltac a_literal := unfold literals; repeat (apply list_elem_of_here || apply list_elem_of_further).

Section ShellProofs.
Context {C : Type} `{Console C} `{VirtAddrs}.
Context (sp : Z) (junk : regs) (at_ : Places).

Abbreviation K := (Kernel C).

(** [fd] is open on the terminal. *)
Definition on_tty (fd : Z) (v : Vfs) : Prop :=
  0 <= fd /\ exists f, open_files v !! Z.to_nat fd = Some (Some f) /\ fd_name f = str "tty".

(** The same terminal with [n] lines fewer in its queue. *)
Definition taken (n : nat) (t : Tty) : Tty := mkTty (line_buffer t) (drop n (input_queue t)).

(** The console, if there is one, shows a text; it may also fault. *)
Definition show (con : option C) (s : list byte) : outcome (option C) := with_console con (fun c => con_write_str c s).

(** [k] with [n] lines read, memory [m] and console [con]. *)
Definition after (k : K) (n : nat) (m : mem) (con : option C) : K :=
  mkKernel (k_vfs k) (taken n (k_tty k)) con (k_sys k) m (k_serial k).
Definition moved (k : K) (n : nat) (m : mem) : K := after k n m None.

(** From [k], with whatever console, [run] shows [texts] in this order, ends as
    the console does, reads [n] lines and leaves memory [m], which differs only
    in the buffers. *)
Definition unbuffered (m m' : mem) : Prop := forall a, ~ in_buffer at_ a -> m' a = m a.
Definition prints (run : K -> outcome K) (k : K) (n : nat) (texts : list (list byte)) (m : mem) : Prop :=
  unbuffered (k_mem k) m /\
  forall con, run (after k 0 (k_mem k) con) = (con' ← for_each show texts con; Ret (after k n m con')).

Record speaking (fd : Z) (k : K) : Prop := mkSpeaking {
  sk_vfs : Vfs.wf (k_vfs k);
  sk_names : names_bounded (k_vfs k);
  sk_tty : on_tty fd (k_vfs k);
  sk_places : places_ok at_ (k_mem k) }.

Lemma after_moved k n1 m1 n2 m2 con : after (moved k n1 m1) n2 m2 con = after k (n1 + n2) m2 con.
Proof. unfold after, moved, taken. cbn. by rewrite drop_drop. Qed.

Lemma after_start k m : after k 0 m (k_con k) = set_mem k m.
Proof. by destruct k as [? [? ?] ? ? ? ?]. Qed.

Lemma unbuffered_trans m1 m2 m3 : unbuffered m1 m2 -> unbuffered m2 m3 -> unbuffered m1 m3.
Proof. intros H1' H2' a Ha. by rewrite H2', H1'. Qed.

Lemma speaking_moved fd k n m : speaking fd k -> unbuffered (k_mem k) m -> speaking fd (moved k n m).
Proof.
  intros [Hv Hn Ht [Hlit Hnn]] Hm. split; [done|done|done|]. split; [|done]. intros s Hin.
  destruct (Hlit s Hin) as (Hnz & Hr & Hd). split_and!; [done| |done].
  etransitivity; [|exact Hr]. apply read_mem_ext. intros x Hx. by apply Hm, Hd.
Qed.

(** First a step that shows nothing. *)
Lemma prints_from run run' k n m n2 texts m2 : unbuffered (k_mem k) m ->
  (forall con, run (after k 0 (k_mem k) con) = run' (after k n m con)) ->
  prints run' (moved k n m) n2 texts m2 -> prints run k (n + n2) texts m2.
Proof.
  intros Hm He [Hm2 Hr]. split; [by apply (unbuffered_trans _ m)|]. intros con. specialize (Hr con).
  rewrite after_moved, Nat.add_0_r in Hr. rewrite He. change (k_mem (moved k n m)) with m in Hr. rewrite Hr.
  destruct (for_each show texts con); [|done..]. cbn [mbind outcome_bind]. by rewrite after_moved.
Qed.

Lemma prints_seq run1 run2 k n1 t1 m1 n2 t2 m2 : prints run1 k n1 t1 m1 -> prints run2 (moved k n1 m1) n2 t2 m2 ->
  prints (fun k => k ← run1 k; run2 k) k (n1 + n2) (t1 ++ t2) m2.
Proof.
  intros [Hm1 Hr1] [Hm2 Hr2]. split; [by apply (unbuffered_trans _ m1)|]. intros con. rewrite Hr1, for_each_app.
  destruct (for_each show t1 con) as [con1| |]; [|done..]. cbn [mbind outcome_bind]. specialize (Hr2 con1).
  rewrite after_moved, Nat.add_0_r in Hr2. change (k_mem (moved k n1 m1)) with m1 in Hr2. rewrite Hr2.
  destruct (for_each show t2 con1); [|done..]. cbn [mbind outcome_bind]. by rewrite after_moved.
Qed.

Lemma prints_ext run run' k n texts m : prints run k n texts m -> (forall k, run' k = run k) -> prints run' k n texts m.
Proof. intros [Hm Hr] He. split; [done|]. intros con. by rewrite He. Qed.

Lemma prints_nothing k : prints (fun k => Ret k) k 0 [] (k_mem k).
Proof. by split. Qed.

(** A write to the terminal reaches the console. *)
Lemma tty_print_says fd a text k : speaking fd k -> a <> 0 -> read_mem (k_mem k) a (len text) = text ->
  from_utf8 text = Some text -> 0 < len text <= isize_max ->
  prints (tty_print sp junk fd (a, len text)) k 0 [text] (k_mem k).
Proof.
  intros [Hwf Hn (Hfd & f & Hf & Hname) _] Ha Hr Hu Hl. split; [done|]. intros con.
  unfold tty_print, lib_write. rewrite syscall3_eq. cbn [handle_syscall]. unfold handle_write_file. cbn [arg0 arg1 arg2 fst snd].
  replace ((a =? 0) || (len text =? 0)) with false by lia. rewrite raw_slice_ok by lia. cbn [mbind outcome_bind after k_mem k_vfs k_tty k_con].
  rewrite Hr. destruct (fd_in_table (k_vfs k) fd f Hwf Hfd Hf) as [Hlt Hidx].
  unfold Vfs.write. rewrite Hlt, Hidx. cbn [mbind outcome_bind]. rewrite bool_decide_eq_true_2 by done.
  rewrite Hu. unfold Tty.write. cbn [for_each]. change (with_console con (fun c => con_write_str c text)) with (show con text).
  by destruct (show con text).
Qed.

(** An empty text is refused by the system call, and nothing is shown. *)
Lemma tty_print_empty fd a k : tty_print sp junk fd (a, 0) k = Ret k.
Proof.
  unfold tty_print, lib_write. rewrite (syscall3_runs _ _ SysWriteFile _ _ _ _ (Error 1) k); [done|].
  cbn [handle_syscall]. unfold handle_write_file. cbn [arg1 arg2 fst snd]. by rewrite orb_true_r.
Qed.

Lemma literal_ascii s : s ∈ literals -> from_utf8 s = Some s /\ 0 < len s <= isize_max.
Proof.
  intros Hs. unfold literals in Hs.
  repeat (apply elem_of_cons in Hs as [->|Hs]; [by vm_compute|]). by apply elem_of_nil in Hs.
Qed.

Lemma print_lit_says fd s k : speaking fd k -> s ∈ literals -> prints (print_lit sp junk at_ fd s) k 0 [s] (k_mem k).
Proof.
  intros Hk Hs. destruct (literal_ascii s Hs) as [Hu Hl]. destruct (sk_places _ _ Hk) as [Hlit _].
  destruct (Hlit s Hs) as (Hnz & Hr & _). by apply tty_print_says.
Qed.

(** The digits of a number. *)
Lemma print_u64_says fd n k : speaking fd k -> in_u64 n ->
  exists m, prints (shell_print_u64 sp junk at_ n fd) k 0 [dec n] m.
Proof.
  intros Hk Hn. unfold in_range in Hn. destruct (Z.eqb_spec n 0) as [->|Hz].
  { exists (k_mem k). eapply prints_ext; [apply (print_lit_says fd (str "0") k Hk); a_literal|done]. }
  destruct (print_loop_spec 64 20 n (replicate 20 x00) []) as (j & buf & Hl & Hb & Hj & Hd); [lia|lia|done|done| |].
  { change (Z.of_nat 20) with 20. lia. }
  change (Z.of_nat 20) with 20 in Hl. rewrite (proj2 (Z.eqb_neq n 0) Hz) in Hd. change (drop j buf = dec n) in Hd.
  assert (Forall (fun b => u8 b < 0x80) (dec n)) as Hascii by (apply digits_ascii; by apply Forall_nil).
  set (m := write_mem (k_mem k) (num_buf at_) buf).
  assert (unbuffered (k_mem k) m) as Hm.
  { intros a Ha. apply write_mem_out. unfold len. rewrite Hb. unfold in_buffer in Ha. lia. }
  assert (len (dec n) = 20 - Z.of_nat j) as Hlen by (rewrite <- Hd; unfold len; rewrite length_drop, Hb; lia).
  destruct (sk_places _ _ Hk) as [_ (_ & _ & Hnb)]. exists m.
  apply (prints_from _ (tty_print sp junk fd (num_buf at_ + Z.of_nat j, len (dec n))) k 0 m 0 [dec n] m Hm).
  - intros con. unfold shell_print_u64. rewrite (proj2 (Z.eqb_neq n 0) Hz), Hl. cbn [mbind outcome_bind].
    rewrite slice_Ret by (unfold len; lia). cbn [mbind outcome_bind].
    assert (sub_list buf (Z.of_nat j) (len buf - Z.of_nat j) = dec n) as ->.
    { unfold sub_list. rewrite Nat2Z.id, Hd, take_ge; [done|]. rewrite <- Hd, length_drop. unfold len. lia. }
    by rewrite (from_utf8_ascii (dec n)).
  - apply tty_print_says; [by apply speaking_moved|lia| |by apply from_utf8_ascii|pose proof (dec_nonempty n); unfold isize_max; lia].
    cbn [moved after k_mem]. pose proof (read_write_mem (k_mem k) (num_buf at_) buf) as Hrw. fold m in Hrw.
    replace (len buf) with (Z.of_nat j + len (dec n)) in Hrw by (rewrite Hlen; unfold len; lia).
    rewrite read_mem_app in Hrw by (pose proof (dec_nonempty n); lia).
    transitivity (drop j buf); [|exact Hd]. rewrite <- Hrw. symmetry. apply drop_app_length'.
    pose proof (len_read_mem m (num_buf at_) (Z.of_nat j)). unfold len in *. lia.
Qed.

(** Reading the terminal takes the first line, as much of it as fits. *)
Lemma shell_reads fd k line q : speaking fd k -> input_queue (k_tty k) = line :: q ->
  exists m, unbuffered (k_mem k) m /\ let text := take 256 (encode line) in
    read_mem m (line_buf at_) (len text) = text /\
    forall con, lib_read sp junk fd (line_buf at_, 256) (after k 0 (k_mem k) con) = Ret (Some (len text), after k 1 m con).
Proof.
  intros [Hwf Hn (Hfd & f & Hf & Hname) [_ (Hlb & _)]] Hq. set (text := take 256 (encode line)).
  assert (0 <= len text <= 256) as Ht by (unfold len, text; rewrite length_take; lia).
  set (buf := read_mem (k_mem k) (line_buf at_) 256). assert (len buf = 256) as Hbuf by (by apply len_read_mem).
  set (m := write_mem (k_mem k) (line_buf at_) (copy_into buf text)). exists m.
  assert (len (copy_into buf text) = 256) as Hci by (rewrite len_copy_into; lia). split; [|cbv zeta; split].
  - intros a Ha. apply write_mem_out. unfold in_buffer in Ha. lia.
  - pose proof (read_write_mem (k_mem k) (line_buf at_) (copy_into buf text)) as Hrw.
    rewrite Hci in Hrw. replace 256 with (len text + (256 - len text)) in Hrw by lia. fold m in Hrw.
    rewrite read_mem_app in Hrw by lia. unfold copy_into in Hrw.
    apply app_inj_1 in Hrw as [Hrw _]; [done|]. pose proof (len_read_mem m (line_buf at_) (len text)). unfold len in *. lia.
  - intros con. unfold lib_read. rewrite (syscall3_runs _ _ SysRead _ _ _ _ (Success (len text)) (after k 1 m con)).
    + cbn [mbind outcome_bind fst snd result_value]. by rewrite to_option_small by lia.
    + cbn [handle_syscall]. unfold handle_read. cbn [arg0 arg1 arg2 fst snd].
      replace ((line_buf at_ =? 0) || (256 =? 0)) with false by lia. rewrite raw_slice_ok by done.
      cbn [mbind outcome_bind after k_mem k_vfs k_tty k_con]. fold buf. rewrite (read_tty _ _ f) by done.
      unfold read_line, taken at 1. cbn [input_queue]. rewrite drop_0, Hq, Hbuf. cbv zeta. cbn [mbind outcome_bind line_buffer].
      assert (sub_list (encode line) 0 (256 `min` len (encode line)) = text) as ->.
      { unfold sub_list, text, len. rewrite drop_0. destruct (Z.min_spec 256 (Z.of_nat (length (encode line)))) as [[? ->]|[? ->]]; [done|].
        rewrite Nat2Z.id. rewrite !take_ge by lia. done. }
      assert (256 `min` len (encode line) = len text) as -> by (unfold len, text; rewrite length_take; lia).
      unfold m, after, taken. cbn. by rewrite Hq.
Qed.

(** The listing, read back from the buffer. *)
Lemma shell_ls_says fd a k : speaking fd k ->
  exists texts m, prints (handle_command sp junk at_ (str "ls") a fd) k 0 texts m /\
    answers (k_vfs k) (get_uptime_ticks (k_sys k)) (str "ls") texts.
Proof.
  intros Hk. set (m0 := write_mem (k_mem k) (ls_buf at_) (replicate 1024 x00)).
  pose proof Hk as [_ Hn _ [_ (_ & Hlsb & _)]].
  destruct (ls_loop_text (k_vfs k) (ls_buf at_) 1024 m0 Hn) as (j & m & Hl & Hr & Hle & Hout & Hj); [unfold isize_max; lia|].
  set (text := listing (take j (list_dir (k_vfs k)))) in *. pose proof (len_nonneg text) as H0'.
  assert (unbuffered (k_mem k) m) as Hm.
  { intros x Hx. unfold in_buffer in Hx. rewrite Hout by lia. apply write_mem_out. change (len (replicate 1024 x00)) with 1024. lia. }
  assert (forall con, handle_command sp junk at_ (str "ls") a fd (after k 0 (k_mem k) con) =
    match from_utf8 text with
    | Some s => tty_print sp junk fd (ls_buf at_, len s) (after k 0 m con)
    | None => Ret (after k 0 m con)
    end) as Hrun.
  { intros con. change (handle_command sp junk at_ (str "ls") a fd (after k 0 (k_mem k) con)) with
      (r ← lib_ls sp junk (ls_buf at_, 1024) (after k 0 m0 con);
       let '(got, k) := r in
       match got with
       | Some n =>
           s ← slice (read_mem (k_mem k) (ls_buf at_) 1024) 0 n;
           match from_utf8 s with
           | Some s => tty_print sp junk fd (ls_buf at_, len s) k
           | None => print_lit sp junk at_ fd [] k
           end
       | None => Ret k
       end).
    unfold lib_ls, syscall2. cbn [fst snd]. rewrite (syscall3_runs _ _ SysLs _ _ _ _ (Success (len text)) (after k 0 m con)).
    2: { cbn [handle_syscall]. unfold handle_ls. cbn [arg0 arg1]. replace ((ls_buf at_ =? 0) || (1024 =? 0)) with false by lia.
         rewrite raw_slice_ok by (unfold isize_max; lia). cbn [mbind outcome_bind after k_vfs k_mem]. by rewrite Hl. }
    cbn [mbind outcome_bind fst snd result_value]. rewrite to_option_small by lia.
    cbn [after k_mem]. pose proof (len_read_mem m (ls_buf at_) 1024) as Hlr.
    rewrite slice_Ret by lia. cbn [mbind outcome_bind].
    assert (sub_list (read_mem m (ls_buf at_) 1024) 0 (len text - 0) = text) as ->.
    { unfold sub_list. rewrite drop_0, Z.sub_0_r. replace 1024 with (len text + (1024 - len text)) by lia.
      rewrite read_mem_app, Hr by lia. unfold len. rewrite Nat2Z.id. apply take_app_length. }
    destruct (from_utf8 text); [done|]. apply tty_print_empty. }
  exists (shown text), m. split; [|by apply ans_ls]. unfold shown. case_bool_decide as Ht.
  { split; [done|]. intros con. rewrite Hrun, Ht. change (from_utf8 []) with (Some (@nil byte)). cbn match beta. change (len (@nil byte)) with 0. by rewrite tty_print_empty. }
  destruct (from_utf8 text) as [s|] eqn:Hu; [|by split].
  apply from_utf8_Some in Hu as Hs. subst s. assert (0 < len text) by (destruct text; [done|unfold len; cbn [length]; lia]).
  apply (prints_from _ _ k 0 m 0 [text] m Hm Hrun). apply tty_print_says; [by apply speaking_moved|done|done|done|unfold isize_max; lia].
Qed.

(** A command's answer. *)
Lemma handle_command_says fd a cmd k : speaking fd k -> in_u64 (get_uptime_ticks (k_sys k)) ->
  cmd <> [] -> cmd <> str "exit" -> a <> 0 -> read_mem (k_mem k) a (len cmd) = cmd -> from_utf8 cmd = Some cmd ->
  len cmd <= 256 ->
  exists texts m, prints (handle_command sp junk at_ cmd a fd) k 0 texts m /\
    answers (k_vfs k) (get_uptime_ticks (k_sys k)) cmd texts.
Proof.
  intros Hk Hup Hne Hex Ha Hr Hu Hlen. destruct (decide (cmd = str "ls")) as [->|Hls]; [by apply shell_ls_says|].
  assert (0 < len cmd) by (destruct cmd; [done|unfold len; cbn [length]; lia]).
  unfold handle_command. case_bool_decide as Hhelp; [subst|case_bool_decide as Hhello; [subst|]].
  - eexists _, _. split; [apply (print_lit_says fd _ k Hk); a_literal|constructor].
  - eexists _, _. split; [apply (print_lit_says fd _ k Hk); a_literal|constructor].
  - rewrite (bool_decide_eq_false_2 (cmd = str "ls")) by done. case_bool_decide as Htime; [subst|].
    + pose proof (print_lit_says fd (str "Uptime ticks: ") k Hk ltac:(a_literal)) as Hp1.
      pose proof (speaking_moved fd k 0 (k_mem k) Hk ltac:(done)) as Hk1.
      destruct (print_u64_says fd (get_uptime_ticks (k_sys k)) (moved k 0 (k_mem k)) Hk1 Hup) as (m2 & Hp2).
      pose proof (speaking_moved fd _ 0 m2 Hk1 (proj1 Hp2)) as Hk2.
      pose proof (prints_seq _ _ _ _ _ _ _ _ _ Hp2 (print_lit_says fd nl _ Hk2 ltac:(a_literal))) as Hp23.
      eexists _, _. split; [|apply ans_uptime]. eapply (prints_seq _ _ _ _ _ _ 0 _ _ Hp1).
      eapply (prints_from _ (fun k => k ← shell_print_u64 sp junk at_ (get_uptime_ticks (k_sys k)) fd k; print_lit sp junk at_ fd nl k)
        (moved k 0 (k_mem k)) 0 (k_mem k) 0); [done| |].
      * intros con. unfold lib_uptime, syscall0, syscall1, syscall2.
        rewrite (syscall3_runs _ _ SysUptime _ _ _ _ (Success (get_uptime_ticks (k_sys k))) (after (moved k 0 (k_mem k)) 0 (k_mem k) con)) by done.
        done.
      * destruct Hp23 as [Hm Hp23]. split; [exact Hm|]. intros con. specialize (Hp23 con). rewrite !after_moved in *. exact Hp23.
    + rewrite bool_decide_eq_false_2 by done.
      pose proof (print_lit_says fd (str "Unknown command: ") k Hk ltac:(a_literal)) as Hp1.
      pose proof (speaking_moved fd k 0 (k_mem k) Hk ltac:(done)) as Hk1.
      pose proof (tty_print_says fd a cmd (moved k 0 (k_mem k)) Hk1 Ha Hr Hu ltac:(unfold isize_max; lia)) as Hp2.
      pose proof (speaking_moved fd _ 0 (k_mem k) Hk1 ltac:(done)) as Hk2.
      pose proof (prints_seq _ _ _ _ _ _ _ _ _ Hp2 (print_lit_says fd nl _ Hk2 ltac:(a_literal))) as Hp23.
      eexists _, _. split; [exact (prints_seq _ _ _ _ _ _ _ _ _ Hp1 Hp23)|].
      apply ans_unknown; [done|]. unfold commands. rewrite !not_elem_of_cons. split_and!; try done. apply not_elem_of_nil.
Qed.

(** After the prompt: the line is read and its command handled. *)
Lemma shell_reply_reads fd k line q : speaking fd k -> input_queue (k_tty k) = line :: q ->
  exists m a, unbuffered (k_mem k) m /\ a <> 0 /\ read_mem m a (len (command line)) = command line /\ len (command line) <= 256 /\
    forall con, shell_reply sp junk at_ fd (after k 0 (k_mem k) con) =
      if bool_decide (command line = []) then Ret (after k 1 m con)
      else handle_command sp junk at_ (command line) a fd (after k 1 m con).
Proof.
  intros Hk Hq. destruct (shell_reads fd k line q Hk Hq) as (m & Hm & Hr & Hread). cbv zeta in *.
  destruct (trim_parts line) as (pre & post & Hline & Hpre & Hu & Hle). destruct (sk_places _ _ Hk) as [_ (Hlb & _)].
  set (text := take 256 (encode line)) in *. set (cmd := command line) in *.
  assert (0 <= len text <= 256) as Ht by (unfold len, text; rewrite length_take; lia).
  pose proof (len_nonneg pre) as Hp0. pose proof (len_nonneg cmd) as Hc0. pose proof (len_nonneg post).
  assert (len pre + len cmd <= 256) as Hfit by (rewrite Hline, !len_app in Hle; lia).
  assert (read_mem m (line_buf at_ + len pre) (len cmd) = cmd) as Hcmd.
  { destruct (decide (cmd = [])) as [->|Hne]; [done|].
    assert (line_text line = text) as Heq.
    { unfold line_text, utf8_or in *. fold text in Hline |- *. destruct (from_utf8 text) eqn:E; [by apply from_utf8_Some in E|].
      cbn [default] in Hline. destruct pre, cmd; done. }
    rewrite <- Heq, Hline, !len_app in Hr. rewrite read_mem_app in Hr by lia.
    apply app_inj_1 in Hr as [_ Hr]; [|pose proof (len_read_mem m (line_buf at_) (len pre)); unfold len in *; lia].
    rewrite read_mem_app in Hr by lia.
    by apply app_inj_1 in Hr as [Hr _]; [|pose proof (len_read_mem m (line_buf at_ + len pre) (len cmd)); unfold len in *; lia]. }
  exists m, (line_buf at_ + len pre). split_and!; [done|lia|done|lia|]. intros con. unfold shell_reply. rewrite Hread.
  cbn [mbind outcome_bind]. destruct (Z.ltb_spec 0 (len text)) as [Hpos|Hnil].
  - pose proof (len_read_mem m (line_buf at_) 256) as Hlr. cbn [after k_mem]. rewrite slice_Ret by lia. cbn [mbind outcome_bind].
    assert (sub_list (read_mem m (line_buf at_) 256) 0 (len text - 0) = text) as ->.
    { unfold sub_list. rewrite drop_0, Z.sub_0_r. replace 256 with (len text + (256 - len text)) by lia.
      rewrite read_mem_app, Hr by lia. unfold len. rewrite Nat2Z.id. apply take_app_length. }
    unfold cmd, command. rewrite Hpre. unfold line_text. fold text. by destruct (trim (utf8_or text [])).
  - assert (cmd = []) as Hnone; [|by rewrite bool_decide_eq_true_2].
    apply length_zero_iff_nil. rewrite Hline, !len_app in Hle. unfold len in *. lia.
Qed.

(** One turn of the loop: the prompt, then the answer to the line read. *)
Lemma shell_turn_says fd k line q : speaking fd k -> in_u64 (get_uptime_ticks (k_sys k)) ->
  input_queue (k_tty k) = line :: q -> command line <> str "exit" ->
  exists texts m, prints (shell_turn sp junk at_ fd) k 1 (str "> " :: texts) m /\
    answers (k_vfs k) (get_uptime_ticks (k_sys k)) (command line) texts.
Proof.
  intros Hk Hup Hq Hex. pose proof (print_lit_says fd (str "> ") k Hk ltac:(a_literal)) as Hp1.
  pose proof (speaking_moved fd k 0 (k_mem k) Hk ltac:(done)) as Hk1.
  destruct (shell_reply_reads fd (moved k 0 (k_mem k)) line q Hk1 Hq) as (m & a & Hm & Ha & Hr & Hl & Hreply).
  destruct (trim_parts line) as (_ & _ & _ & _ & Hu & _). set (cmd := command line) in *.
  assert (exists texts m2, prints (fun k => if bool_decide (cmd = []) then Ret k else handle_command sp junk at_ cmd a fd k)
    (moved (moved k 0 (k_mem k)) 1 m) 0 texts m2 /\ answers (k_vfs k) (get_uptime_ticks (k_sys k)) cmd texts) as (texts & m2 & Hp2 & Hans).
  { case_bool_decide as Hb; [exists [], m; split; [apply prints_nothing|rewrite Hb; apply ans_blank]|].
    apply (handle_command_says fd a cmd (moved (moved k 0 (k_mem k)) 1 m)); try done. by apply speaking_moved. }
  exists texts, m2. split; [|done]. eapply (prints_seq _ _ _ 0 [_] _ 1 texts m2 Hp1).
  exact (prints_from (shell_reply sp junk at_ fd) (fun k => if bool_decide (cmd = []) then Ret k else handle_command sp junk at_ cmd a fd k)
    _ 1 m 0 texts m2 Hm Hreply Hp2).
Qed.

(** The last turn: the shell says goodbye and exits. *)
Lemma shell_turn_exits fd k line q : speaking fd k -> input_queue (k_tty k) = line :: q -> command line = str "exit" ->
  exists m, unbuffered (k_mem k) m /\ forall con, shell_turn sp junk at_ fd (after k 0 (k_mem k) con) =
    (con' ← for_each show [str "> "; str "Goodbye!" ++ nl] con; r ← lib_exit sp junk 0 (after k 1 m con'); Ret r.2).
Proof.
  intros Hk Hq Hex. destruct (print_lit_says fd (str "> ") k Hk ltac:(a_literal)) as [_ Hp1].
  pose proof (speaking_moved fd k 0 (k_mem k) Hk ltac:(done)) as Hk1.
  destruct (shell_reply_reads fd (moved k 0 (k_mem k)) line q Hk1 Hq) as (m & a & Hm & _ & _ & _ & Hreply). rewrite Hex in Hreply.
  destruct (print_lit_says fd (str "Goodbye!" ++ nl) (moved (moved k 0 (k_mem k)) 1 m)) as [_ Hp2]; [by apply speaking_moved|a_literal|].
  exists m. split; [done|]. intros con. unfold shell_turn. rewrite Hp1. cbn [for_each].
  destruct (show con (str "> ")) as [con1| |]; [|done..]. cbn [mbind outcome_bind].
  specialize (Hreply con1). rewrite !after_moved in Hreply. cbn [Nat.add] in Hreply.
  etransitivity; [exact Hreply|]. cbn match. specialize (Hp2 con1). rewrite !after_moved in Hp2. cbn [Nat.add for_each] in Hp2.
  change (k_mem (moved (moved k 0 (k_mem k)) 1 m)) with m in Hp2.
  change (handle_command sp junk at_ (str "exit") a fd (after k 1 m con1)) with
    (k ← print_lit sp junk at_ fd (str "Goodbye!" ++ nl) (after k 1 m con1); r ← lib_exit sp junk 0 k; Ret r.2).
  rewrite Hp2. destruct (show con1 _) as [con2| |]; [|done..]. cbn [mbind outcome_bind]. by rewrite !after_moved.
Qed.

Lemma for_each_show_app t1 t2 (f : option C -> outcome K) con :
  (con1 ← for_each show t1 con; con2 ← for_each show t2 con1; f con2) = (con2 ← for_each show (t1 ++ t2) con; f con2).
Proof. rewrite for_each_app. by destruct (for_each show t1 con). Qed.

Lemma set_mem_id (k : K) : set_mem k (k_mem k) = k.
Proof. by destruct k. Qed.

Lemma shell_turns_more n fd k : shell_turns sp junk at_ (n + 1) fd k = (k ← shell_turns sp junk at_ n fd k; shell_turn sp junk at_ fd k).
Proof.
  revert k. induction n as [|n IH]; intros k; cbn [Nat.add shell_turns]; [by destruct (shell_turn sp junk at_ fd k) eqn:E; cbn [mbind outcome_bind]; rewrite E|].
  destruct (shell_turn _ _ _ fd k); [apply IH|done..].
Qed.

(** A sequence of turns. *)
Lemma shell_turns_say fd lines : forall k rest, speaking fd k -> in_u64 (get_uptime_ticks (k_sys k)) ->
  input_queue (k_tty k) = lines ++ rest -> str "exit" ∉ map command lines ->
  exists replies m, Forall2 (answers (k_vfs k) (get_uptime_ticks (k_sys k))) (map command lines) replies /\
    prints (shell_turns sp junk at_ (length lines) fd) k (length lines) (concat (map (cons (str "> ")) replies)) m.
Proof.
  induction lines as [|line lines IH]; intros k rest Hk Hup Hq Hex; [exists [], (k_mem k); split; [by constructor|apply prints_nothing]|].
  cbn [map] in Hex. apply not_elem_of_cons in Hex as [Hex Hexs]. cbn [length shell_turns].
  destruct (shell_turn_says fd k line (lines ++ rest) Hk Hup Hq) as (texts & m & Hp & Ha); [done|].
  destruct (IH (moved k 1 m) rest) as (replies & m2 & Has & Hps); [by apply speaking_moved; [|apply Hp]|done|by cbn; rewrite Hq|done|].
  exists (texts :: replies), m2. split; [by constructor|]. exact (prints_seq _ _ _ 1 _ _ (length lines) _ _ Hp Hps).
Qed.
End ShellProofs.

(** C15: a shell with the terminal open answers the lines typed, in order.  A
    line is what of it fits the 256-byte buffer, and its command the text
    between white space (nothing when the cut splits a character).  As long as
    no command is [exit], one turn of the loop per line shows the prompt and
    the answer (the fixed texts of [help] and [hello], the longest prefix of
    the directory listing that fits 1024 bytes, the uptime in decimal, the
    name of an unknown command, nothing for a blank line); at a line with
    [exit] it shows [Goodbye!] and calls [exit(0)].  The turns do to the
    console exactly these writes, and fault exactly where the console does;
    if it does not, the lines are consumed and nothing else of the system
    changes but the shell's buffers. *)
Theorem shell_session {C} `{Console C} `{VirtAddrs} sp junk at_ fd (k : Kernel C) lines rest :
  speaking at_ fd k -> in_u64 (get_uptime_ticks (k_sys k)) ->
  input_queue (k_tty k) = lines ++ rest -> str "exit" ∉ map command lines ->
  exists replies m, let texts := concat (map (cons (str "> ")) replies) in
    Forall2 (answers (k_vfs k) (get_uptime_ticks (k_sys k))) (map command lines) replies /\ unbuffered at_ (k_mem k) m /\
    shell_turns sp junk at_ (length lines) fd k = (con ← for_each show texts (k_con k); Ret (after k (length lines) m con)) /\
    forall line rest', rest = line :: rest' -> command line = str "exit" ->
      exists m', unbuffered at_ m m' /\ shell_turns sp junk at_ (length lines + 1) fd k =
        (con ← for_each show (texts ++ [str "> "; str "Goodbye!" ++ nl]) (k_con k);
         r ← lib_exit sp junk 0 (after k (length lines + 1) m' con); Ret r.2).
Proof.
  intros Hk Hup Hq Hex. destruct (shell_turns_say sp junk at_ fd lines k rest Hk Hup Hq Hex) as (replies & m & Ha & Hm & Hr).
  exists replies, m. cbv zeta. specialize (Hr (k_con k)). rewrite after_start, set_mem_id in Hr. split_and!; [done|done|done|].
  intros line rest' -> Hcmd. pose proof (speaking_moved at_ fd k (length lines) m Hk Hm) as Hk1.
  destruct (shell_turn_exits sp junk at_ fd (moved k (length lines) m) line rest' Hk1) as (m' & Hm' & He); [|done|].
  { cbn [moved after k_tty taken input_queue]. by rewrite Hq, drop_app_length. }
  exists m'. split; [done|]. rewrite shell_turns_more, Hr, <- for_each_show_app.
  destruct (for_each show _ (k_con k)) as [con| |]; [|done..]. cbn [mbind outcome_bind]. specialize (He con).
  rewrite after_moved, Nat.add_0_r in He. cbn [moved after k_mem] in He. etransitivity; [exact He|].
  destruct (for_each show _ con) as [con'| |]; [|done..]. cbn [mbind outcome_bind]. by rewrite after_moved.
Qed.

(** ** Concrete inputs *)

(** The terminal open as descriptor 0, lines typed, the last one [exit]; the
    literals at 0x10000 and up. *)
Definition demo_places : Places :=
  mkPlaces (fun s => 0x10000 + 0x100 * default 0 (Z.of_nat ∘ fst <$> list_find (s =.) literals)) 0x1000 0x2000 0x3000.

Definition demo_lines : list (list Z) := [[32; 104; 101; 108; 112; 10]; [10]; [108; 115; 10]; replicate 300 104].

Definition demo_shell_state : Kernel (list con_event) :=
  mkKernel (mkVfs (entries Vfs.demo) (Some (mkFd (str "tty") Device 0) :: replicate 15 None) (cwd Vfs.demo))
    (mkTty [] (demo_lines ++ [[101; 120; 105; 116; 10]])) (Some []) Sched.demo_sys
    (fold_right (fun s m => write_mem m (lit demo_places s) s) (fun _ => x00) literals) [].

Lemma demo_shell_speaking : speaking demo_places 0 demo_shell_state.
Proof.
  assert (kernel_ok demo_state) as [Hv Hn _ Hs] by exact demo_state_ok. split.
  - split; [done| |exact (wf_data _ Hv)].
    intros [|j] fd; cbn; intros Hj; simplify_eq; [by split; [|eexists]|].
    by apply (lookup_replicate 15 None) in Hj as [? _].
  - exact Hn.
  - split; [done|]. by exists (mkFd (str "tty") Device 0).
  - split; [|by vm_compute]. intros s Hin.
    assert (0x10000 <= lit demo_places s /\ read_mem (k_mem demo_shell_state) (lit demo_places s) (len s) = s) as [Hlo Hr].
    { unfold literals in Hin. repeat (apply elem_of_cons in Hin as [->|Hin]; [by vm_compute|]). by apply elem_of_nil in Hin. }
    split; [lia|]. split; [exact Hr|]. intros a Ha. unfold in_buffer. cbn [demo_places line_buf ls_buf num_buf]. lia.
Qed.

(** A line of 300 letters is an unknown command of 256. *)
Lemma shell_session_witness : exists replies m,
  shell_turns 0x5000 demo_regs demo_places 4 0 demo_shell_state =
    (con ← for_each show (concat (map (cons (str "> ")) replies)) (Some []); Ret (after demo_shell_state 4 m con)) /\
  replies !! 3%nat = Some [str "Unknown command: "; replicate 256 "h"%byte; nl].
Proof.
  destruct (shell_session 0x5000 demo_regs demo_places 0 demo_shell_state demo_lines [[101; 120; 105; 116; 10]] demo_shell_speaking)
    as (replies & m & Ha & _ & Hr & _).
  - by vm_compute.
  - reflexivity.
  - assert (map command demo_lines = [str "help"; []; str "ls"; replicate 256 "h"%byte]) as -> by (vm_compute; reflexivity).
    rewrite !not_elem_of_cons. split_and!; try done. apply not_elem_of_nil.
  - exists replies, m. split; [exact Hr|].
    assert (map command demo_lines = [str "help"; []; str "ls"; replicate 256 "h"%byte]) as Hc by (vm_compute; reflexivity).
    rewrite Hc in Ha. destruct (Forall2_lookup_l _ _ _ 3%nat _ Ha eq_refl) as (r & -> & Hans). f_equal.
    inversion Hans; done.
Defined.
