(* ===== verification/UserStd.v ===== *)
(** * The user runtime library and the fault tester
    ([userland/std/src/lib.rs], [userland/fault-tester/src/main.rs])

    Both run over the system-call library.  [format!] needs an allocator,
    which a program using the library has to bring; [out] is the address it
    returned for the text. *)

From S2P Require Import Prelude Abi Utf8 Serial Tty Vfs Context X86 Sched Interrupts Syscall Libturnix.

Section Std.
Context {C : Type} `{Console C} `{VirtAddrs}.
Context (sp : Z) (junk : regs).

Abbreviation K := (Kernel C).

(** [Stdout::write_str]: descriptor 1; the result of the call is dropped. *)
Definition Stdout_write_str (s : Z * Z) (k : K) : outcome (result unit unit * K) :=
  r ← lib_write sp junk 1 s k; Ret (Ok tt, r.2).

(** [Write::write_fmt] of the formatted [text]. *)
Definition Stdout_write_fmt (out : Z) (text : list byte) (k : K) : outcome (result unit unit * K) :=
  Stdout_write_str (out, len text) (set_mem k (write_mem (k_mem k) out text)).

Definition std_print (out : Z) (text : list byte) (k : K) : outcome K :=
  r ← Stdout_write_fmt out text k; Ret r.2.

Definition std_println (out : Z) (text : list byte) (k : K) : outcome K :=
  k ← std_print out text k; std_print out [x0a] k.

Definition std_abort (k : K) : outcome (unit * K) := lib_exit sp junk 1 k.

(** ** The fault tester *)

(** A read in user mode succeeds on a page the entries mark for users;
    otherwise the processor faults with the user code segment. *)
Definition user_readable (page : option (Z * Z)) : bool :=
  match page with Some (_, flags) => negb (Z.land flags USER_ACCESSIBLE =? 0) | None => false end.

Definition attempt : list byte :=
  str "Fault Tester: Attempting to read from kernel memory (0xFFFF_FFFF_8000_0000)..." ++ [x0a].
Definition success : list byte := str "Fault Tester: SUCCESS (This should NOT happen!)" ++ [x0a].

(** [page]: what the running address space has at 0xFFFF_FFFF_8000_0000;
    [a1], [a2]: the addresses of the literals; [cs]: the code segment.  The
    result is the context resumed after the fault.  The read is not volatile:
    this is a build in which the compiler keeps it.  The report the fault
    handler logs is left out. *)
Definition fault_tester_start (page : option (Z * Z)) (a1 a2 cs : Z) (k : K) : outcome (Z * K) :=
  r ← lib_print sp junk (a1, len attempt) k;
  if user_readable page then
    r ← lib_print sp junk (a2, len success) r.2;
    r ← lib_exit sp junk 0 r.2;
    Loop
  else
    f ← page_fault_handler cs sp (k_sys r.2);
    Ret (f.1, set_sys r.2 f.2).
End Std.

(** ** Printing *)

(** Descriptor 1 is open on the file [name] with the contents [d], not past
    its end. *)
Record stdout_file {C} `{TotalConsole C} (name d : list byte) (k : Kernel C) : Prop := mkStdoutFile {
  so_wf : Vfs.wf (k_vfs k) /\ con_opt_ok (k_con k);
  so_tty : name <> str "tty";
  so_fd : exists fd, open_files (k_vfs k) !! 1%nat = Some (Some fd) /\ fd_name fd = name /\ fd_offset fd <= len d;
  so_data : contents (k_vfs k) name = Some d }.

Section Printing.
Context {C : Type} `{TotalConsole C} `{VirtAddrs} (sp : Z) (junk : regs).

Lemma std_print_appends out name d text (k : Kernel C) : stdout_file name d k -> out <> 0 -> text <> [] ->
  len d + len text <= isize_max ->
  exists k', std_print sp junk out text k = Ret k' /\ stdout_file name (d ++ text) k' /\
    k_con k' = k_con k /\ k_serial k' = k_serial k /\ k_sys k' = k_sys k.
Proof.
  intros [[Hwf Hcon] Htty (fd & Hfd & Hname & Hoff) Hd] Hout Hne Hlen.
  assert (0 < len text) as Hpos by (destruct text; [done|unfold len; simpl; lia]). pose proof (len_nonneg d). subst name.
  set (m := write_mem (k_mem k) out text).
  pose proof (write_appends (k_vfs k) (k_tty k) (k_con k) 1 fd d text Hwf ltac:(lia) Hfd Htty Hd) as Hw.
  replace (isize_max <? Z.max (len d) (fd_offset fd) + len text) with false in Hw by lia.
  destruct Hw as (v' & Hw & Hc & Hf). replace (Z.to_nat (fd_offset fd - len d)) with O in Hc by lia.
  cbn [replicate app] in Hc.
  exists (mkKernel v' (k_tty k) (k_con k) (k_sys k) m (k_serial k)). split; [|split; [split; cbn [k_vfs]|done]].
  - unfold std_print, Stdout_write_fmt, Stdout_write_str, lib_write.
    rewrite (syscall3_runs _ _ SysWriteFile _ _ _ _ (Success (len text)) (mkKernel v' (k_tty k) (k_con k) (k_sys k) m (k_serial k)));
      [done|].
    cbn [handle_syscall]. unfold handle_write_file. cbn [arg0 arg1 arg2 fst snd].
    replace ((out =? 0) || (len text =? 0)) with false by lia. rewrite raw_slice_ok by lia. cbn [mbind outcome_bind].
    cbn [k_mem set_mem]. rewrite (read_write_mem (k_mem k) out text). cbn [k_vfs k_tty k_con set_mem]. by rewrite Hw.
  - split; [|done]. destruct (write_wf (k_vfs k) (k_tty k) (k_con k) 1 text Hwf Hcon ltac:(lia))
      as [(r & v2 & c2 & Hw2 & Hwf2 & _)|[_ Hw2]]; rewrite Hw in Hw2; by simplify_eq.
  - done.
  - exists (mkFd (fd_name fd) (fd_type fd) (fd_offset fd + len text)). split; [done|]. split; [done|].
    cbn [fd_offset]. rewrite len_app. lia.
  - done.
Qed.

(** [println!] appends the text and a newline to whatever file descriptor 1
    is; nothing reaches the screen or the serial line. *)
Lemma std_println_appends out name d text (k : Kernel C) : stdout_file name d k -> out <> 0 -> text <> [] ->
  len d + len text < isize_max ->
  exists k', std_println sp junk out text k = Ret k' /\ stdout_file name (d ++ text ++ [x0a]) k' /\
    k_con k' = k_con k /\ k_serial k' = k_serial k.
Proof.
  intros Hs Ho Hne Hl. destruct (std_print_appends out name d text k Hs Ho Hne) as (k1 & H1' & Hs1 & Hc1 & Hl1 & _); [lia|].
  destruct (std_print_appends out name (d ++ text) [x0a] k1 Hs1 Ho) as (k2 & H2' & Hs2 & Hc2 & Hl2 & _);
    [done|rewrite len_app; change (len [x0a]) with 1; lia|].
  exists k2. rewrite <- app_assoc in Hs2. unfold std_println. rewrite H1'. cbn [mbind outcome_bind].
  split_and!; [done|done|congruence|congruence].
Qed.

(** With descriptor 1 closed the text is lost, and [print!] does not
    notice. *)
Lemma std_print_lost out text (k : Kernel C) : Vfs.wf (k_vfs k) -> open_files (k_vfs k) !! 1%nat = Some None ->
  len text <= isize_max -> std_print sp junk out text k = Ret (set_mem k (write_mem (k_mem k) out text)).
Proof.
  intros Hwf Hfd Hl. set (k1 := set_mem k (write_mem (k_mem k) out text)). pose proof (len_nonneg text).
  unfold std_print, Stdout_write_fmt, Stdout_write_str, lib_write. fold k1.
  rewrite (syscall3_runs _ _ SysWriteFile _ _ _ _ (Error 1) k1); [done|].
  cbn [handle_syscall]. unfold handle_write_file. cbn [arg0 arg1 arg2 fst snd].
  case_if; [done|]. rewrite raw_slice_ok by lia. cbn [mbind outcome_bind]. unfold Vfs.write.
  change (k_vfs k1) with (k_vfs k). pose proof (wf_slots _ Hwf) as Hsl. unfold MAX_OPEN_FILES in Hsl.
  assert (idx (open_files (k_vfs k)) 1 = Ret None) as Hidx.
  { unfold idx, zget. replace ((1 <? 0) || (len (open_files (k_vfs k)) <=? 1)) with false by (unfold len; lia).
    change (Z.to_nat 1) with 1%nat. by rewrite Hfd. }
  replace (len (open_files (k_vfs k)) <=? 1) with false by (unfold len; lia). rewrite Hidx. cbn [mbind outcome_bind].
  unfold k1. by destruct k.
Qed.

(** ** The fault tester is ended by its fault *)

(** With the literal in its memory and a page that is not open to users,
    the tester prints its first message, never the second, and the next task
    of the ring runs; the tester is in the ring no more. *)
Lemma fault_tester_ends page a1 a2 cs c n rest (k : Kernel C) :
  user_readable page = false -> Z.land cs 0x3 = 0x3 -> holds (k_mem k) (a1, len attempt) attempt ->
  at_ring (k_sys k) c (n :: rest) ->
  exists s', fault_tester_start sp junk page a1 a2 cs k = Ret (stack_ptr n, set_sys (kprint k attempt) s') /\
    at_ring s' (resume n) rest.
Proof.
  intros Hp Hcs Hh Hr. destruct (exit_drops (k_sys k) c n rest sp Hr) as (s' & Hx & Hr'). exists s'. split; [|done].
  unfold fault_tester_start, lib_print, syscall2.
  assert (exists cs, decode attempt = Some cs) as [ds Hds] by (eexists; vm_compute; reflexivity).
  pose proof (user_str_holds _ _ _ _ Hh Hds ltac:(by vm_compute)) as Hs. destruct Hh as (_ & _ & Ha). cbn [fst snd] in *.
  rewrite (syscall3_runs _ _ SysWrite _ _ _ _ (Success (len attempt)) (kprint k attempt)).
  - cbn [mbind outcome_bind fst snd]. rewrite Hp. unfold page_fault_handler. rewrite Hcs. change (0x3 =? 0x3) with true. cbv iota.
    change (k_sys (kprint k attempt)) with (k_sys k). rewrite Hx. done.
  - cbn [handle_syscall]. unfold handle_write. cbn [arg0 arg1].
    replace ((a1 =? 0) || (len attempt =? 0)) with false; [|symmetry; apply orb_false_iff; split; [lia|reflexivity]].
    rewrite Hs. done.
Qed.
End Printing.

(** ** Concrete inputs *)

Definition demo_fds : list (option FileDescriptor) :=
  [Some (mkFd (str "font.psf") Regular 0); Some (mkFd (str "init") Regular 3)] ++ replicate 14 None.

(** After boot descriptor 1 is the program file [init]: what a program
    prints is appended to it. *)
Definition demo_std_state : Kernel (list con_event) :=
  mkKernel (mkVfs [mkEntry (str "font.psf") Regular (Some (str "F")); mkEntry (str "init") Regular (Some (str "ELF"))] demo_fds (str "/"))
    Tty.new None Sched.demo_sys (fun _ => x00) [].

Lemma println_grows_init :
  exists k', std_println 0x5000 demo_regs 0x2000 (str "hi") demo_std_state = Ret k' /\
    contents (k_vfs k') (str "init") = Some (str "ELFhi" ++ [x0a]) /\ k_serial k' = [].
Proof. eexists. split; [vm_compute; reflexivity|]. by split. Qed.
