(* ===== verification/Repl.v ===== *)
(** * The kernel command line ([kernel/src/shell.rs], [kernel_info] of
    [kernel/src/lib.rs])

    The module is in the repository but not in the kernel's module tree, so
    no running system has it.  The writer it prints to is a parameter: what
    [write_fmt] does with the formatted text, with the writer's state after an
    error. *)

From S2P Require Import Prelude Abi Utf8 Serial Vfs Heap.

Definition PROJECT_NAME : list byte := str "turnix".

Record KernelInfo := mkKernelInfo { project_name : list byte; info_abi_version : Z }.

Definition kernel_info : KernelInfo := mkKernelInfo PROJECT_NAME ABI_VERSION.

Inductive Response := RChar (b : byte) | RBackspace | RNewline.

Inductive CommandResult :=
| Empty | Help | Info | Ls | Cat (path : list byte) | Echo (text : list byte) | Clear | Version | Memory | Tasks
| Exit | Unknown (cmd : list byte).

Definition Repl_prompt : list byte := str "turnix> ".

Definition handle_byte (b : byte) : option Response :=
  let c := u8 b in
  if (c =? 13) || (c =? 10) then Some RNewline else
  if (c =? 8) || (c =? 0x7F) then Some RBackspace else
  if ((0x20 <=? c) && (c <=? 0x7E)) || ((0xA0 <=? c) && (c <=? 0xFF)) then Some (RChar b) else None.

(** [str::split_whitespace] on characters: [w] is the word being read. *)
Fixpoint words (w cs : list Z) : list (list Z) :=
  match cs with
  | [] => match w with [] => [] | _ => [w] end
  | c :: cs => if is_whitespace c then match w with [] => words [] cs | _ => w :: words [] cs end else words (w ++ [c]) cs
  end.

Definition split_whitespace (s : list byte) : list (list byte) := map encode (words [] (default [] (decode s))).

(** [[T]::join]. *)
Fixpoint join (sep : list byte) (l : list (list byte)) : list byte :=
  match l with
  | [] => []
  | [s] => s
  | s :: l => s ++ sep ++ join sep l
  end.

Definition process_command (line : list byte) : outcome CommandResult :=
  let cmd := (trim line).2 in
  match cmd with
  | [] => Ret Empty
  | _ =>
      let parts := split_whitespace cmd in
      first ← idx parts 0;
      if bool_decide (first = str "help") then Ret Help else
      if bool_decide (first = str "info") then Ret Info else
      if bool_decide (first = str "ls") then Ret Ls else
      if bool_decide (first = str "cat") then
        if 1 <? len parts then path ← idx parts 1; Ret (Cat path) else Ret (Echo (str "Usage: cat <file>")) else
      if bool_decide (first = str "echo") then
        if 1 <? len parts then rest ← slice parts 1 (len parts); Ret (Echo (join (str " ") rest)) else Ret (Echo []) else
      if bool_decide (first = str "clear") then Ret Clear else
      if bool_decide (first = str "version") then Ret Version else
      if bool_decide (first = str "mem") then Ret Memory else
      if bool_decide (first = str "tasks") then Ret Tasks else
      if bool_decide (first = str "exit") then Ret Exit else
      Ret (Unknown first)
  end.

(** ["{:016x}"]. *)
Definition hex16 (n : Z) : list byte :=
  let ds := digits 16 hex_digit 16 n [] in replicate (16 - length ds) x30 ++ ds.

Definition help_lines : list (list byte) :=
  [str "Available commands:"; str "  help    - Show this help message"; str "  info   - Show kernel information";
   str "  ls     - List files"; str "  cat    - Show file contents"; str "  echo   - Echo text back";
   str "  clear  - Clear the screen"; str "  version - Show version"; str "  mem    - Show memory info";
   str "  tasks  - Show tasks"; str "  exit   - Exit (shutdown)"].

Section Output.
Context {W : Type} (write_fmt : W -> list byte -> result W W).

Definition writeln (w : W) (text : list byte) : outcome (result W W) := Ret (write_fmt w (text ++ [x0a])).

(** [let _ = writeln!(..)]. *)
Definition writeln_ignored (w : W) (text : list byte) : W :=
  match write_fmt w (text ++ [x0a]) with Ok w | Err w => w end.

Definition write_output (r : CommandResult) (vfs : Vfs) (w : W) : outcome (result W W) :=
  match r with
  | Empty => Ret (Ok w)
  | Help => try_each writeln help_lines w
  | Info => try_each writeln [str "turnix - A Rust-first operating system"; str "Phase 6: Terminal-first usability";
                              str "Built with Rust (nightly, no_std)"] w
  | Ls => Ret (Ok (fold_left writeln_ignored (list_dir vfs) w))
  | Cat path => writeln w (str "cat: file '" ++ path ++ str "' - demo only")
  | Echo text => writeln w text
  | Clear => writeln w ([x1b] ++ str "[2J" ++ [x1b] ++ str "[H")
  | Version => try_each writeln [str "turnix " ++ project_name kernel_info; str "ABI version: " ++ dec (info_abi_version kernel_info)] w
  | Memory => writeln w (str "Heap: " ++ dec HEAP_SIZE ++ str " bytes at 0x" ++ hex16 HEAP_START)
  | Tasks => writeln w (str "Scheduler: preemptive kernel-task baseline enabled")
  | Exit => writeln w (str "Shutting down...")
  | Unknown cmd => writeln w (str "Unknown command: " ++ cmd ++ str ". Type 'help' for available commands.")
  end.
End Output.

(** ** Splitting into words *)

Definition blank (cs : list Z) : Prop := Forall (fun c => is_whitespace c = true) cs.
Definition solid (cs : list Z) : Prop := cs <> [] /\ Forall (fun c => is_whitespace c = false) cs.

Lemma words_lead cs ds : blank cs -> words [] (cs ++ ds) = words [] ds.
Proof. induction 1 as [|c cs Hc _ IH]; [done|]. cbn [app words]. by rewrite Hc. Qed.

Lemma words_solid w cs ds : Forall (fun c => is_whitespace c = false) cs -> words w (cs ++ ds) = words (w ++ cs) ds.
Proof.
  intros Hcs. revert w. induction Hcs as [|c cs Hc _ IH]; intros w; [by rewrite app_nil_r|].
  cbn [app words]. rewrite Hc, IH. by rewrite <- app_assoc.
Qed.

Lemma words_blank w cs : blank cs -> words w cs = match w with [] => [] | _ => [w] end.
Proof.
  intros Hcs. revert w. induction Hcs as [|c cs Hc _ IH]; intros w; [by destruct w|].
  cbn [words]. rewrite Hc. destruct w; by rewrite IH.
Qed.

(** Trailing white space adds no word. *)
Lemma words_trail w cs ds : blank ds -> words w (cs ++ ds) = words w cs.
Proof.
  intros Hd. revert w. induction cs as [|c cs IH]; intros w; [by rewrite app_nil_l, words_blank|].
  cbn [app words]. destruct (is_whitespace c); [destruct w; by rewrite IH|by rewrite IH].
Qed.

Lemma words_nil cs w : words w cs = [] -> w = [] /\ blank cs.
Proof.
  revert w. induction cs as [|c cs IH]; intros w; cbn [words].
  { destruct w; [|done]. intros _. split; [done|constructor]. }
  destruct (is_whitespace c) eqn:E.
  - destruct w; [|done]. intros [_ Hb]%IH. split; [done|]. by constructor.
  - intros [Hw _]%IH. by destruct w.
Qed.

(** Every word is solid. *)
Lemma words_are_solid w cs : Forall (fun c => is_whitespace c = false) w -> Forall solid (words w cs).
Proof.
  revert w. induction cs as [|c cs IH]; intros w Hw; cbn [words].
  - destruct w; [done|]. apply Forall_cons. by split.
  - destruct (is_whitespace c) eqn:E.
    + destruct w; [by apply IH|]. apply Forall_cons. split; [by split|by apply IH].
    + apply IH, Forall_app. split; [done|]. by constructor.
Qed.

(** Words joined by a space are found again. *)
Fixpoint join_chars (ws : list (list Z)) : list Z :=
  match ws with
  | [] => []
  | [w] => w
  | w :: ws => w ++ [0x20] ++ join_chars ws
  end.

Lemma words_join ws : Forall solid ws -> words [] (join_chars ws) = ws.
Proof.
  induction 1 as [|w ws [Hne Hw] _ IH]; [done|]. destruct ws as [|w' ws].
  - cbn [join_chars]. rewrite <- (app_nil_r w) at 1. rewrite words_solid by done. cbn [app words]. by destruct w.
  - change (join_chars (w :: w' :: ws)) with (w ++ [0x20] ++ join_chars (w' :: ws)). rewrite words_solid by done.
    cbn [app words]. change (is_whitespace 0x20) with true. cbv iota. destruct w; [done|]. by rewrite IH.
Qed.

Lemma join_encode ws : join (str " ") (map encode ws) = encode (join_chars ws).
Proof.
  induction ws as [|w ws IH]; [done|]. destruct ws as [|w' ws]; [done|].
  change (join_chars (w :: w' :: ws)) with (w ++ [0x20] ++ join_chars (w' :: ws)). rewrite !encode_app, <- IH. done.
Qed.

(** ** Commands *)

(** The words of the trimmed line are the words of the line. *)
Lemma trim_words cs text : Forall scalar cs -> (trim (encode cs)).2 = text ->
  exists mid, text = encode mid /\ Forall scalar mid /\ words [] mid = words [] cs /\ (mid = [] <-> blank cs).
Proof.
  intros Hcs Ht. destruct (trim (encode cs)) as [start t] eqn:E. cbn [snd] in Ht. subst t. pose proof E as E'.
  destruct (trim_encode cs start text Hcs E) as (lead & mid & trail & Hsp & Htx & _ & Hws).
  apply Forall_app in Hws as [Hl Hr]. exists mid. subst cs. rewrite !Forall_app in Hcs.
  split; [done|]. split; [apply Hcs|]. split; [by rewrite words_lead, words_trail|]. split.
  - intros ->. by apply Forall_app.
  - intros Hb. unfold trim in E'. rewrite decode_encode in E' by (by rewrite !Forall_app).
    change (default [] (Some (lead ++ mid ++ trail))) with (lead ++ mid ++ trail) in E'.
    assert (skip_whitespace (lead ++ mid ++ trail) = []) as Hsk.
    { clear -Hb. induction Hb as [|c cs Hc _ IH]; [done|]. cbn [skip_whitespace]. by rewrite Hc. }
    rewrite Hsk in E'. injection E' as _ He. rewrite Htx in He. destruct mid as [|c mid]; [done|]. exfalso.
    apply (f_equal decode) in He. rewrite (decode_encode (c :: mid)) in He by apply Hcs. done.
Qed.

(** The answer to the words of a line. *)
Definition answer (parts : list (list byte)) : CommandResult :=
  match parts with
  | [] => Empty
  | first :: rest =>
      if bool_decide (first = str "help") then Help else
      if bool_decide (first = str "info") then Info else
      if bool_decide (first = str "ls") then Ls else
      if bool_decide (first = str "cat") then
        match rest with path :: _ => Cat path | [] => Echo (str "Usage: cat <file>") end else
      if bool_decide (first = str "echo") then Echo (join (str " ") rest) else
      if bool_decide (first = str "clear") then Clear else
      if bool_decide (first = str "version") then Version else
      if bool_decide (first = str "mem") then Memory else
      if bool_decide (first = str "tasks") then Tasks else
      if bool_decide (first = str "exit") then Exit else Unknown first
  end.

Lemma two_parts {A} (x y : A) l : (1 <? len (x :: y :: l)) = true.
Proof. apply Z.ltb_lt. unfold len. cbn [length]. lia. Qed.

(** No line panics, and only its words matter. *)
Lemma process_command_answers cs : Forall scalar cs ->
  process_command (encode cs) = Ret (answer (map encode (words [] cs))).
Proof.
  intros Hcs. unfold process_command.
  destruct (trim_words cs _ Hcs eq_refl) as (mid & Htx & Hm & Hw & Hb). rewrite Htx.
  destruct (decide (mid = [])) as [->|Emid].
  { change (encode []) with (@nil byte). cbv iota. rewrite words_blank by (by apply Hb). done. }
  assert (exists b bs, encode mid = b :: bs) as (b & bs & Hbs).
  { destruct (encode mid) as [|b bs] eqn:Ee; [|by exists b, bs]. apply (f_equal decode) in Ee.
    rewrite decode_encode in Ee by done. by injection Ee as Ee. }
  rewrite Hbs. cbv iota. rewrite <- Hbs. unfold split_whitespace. rewrite decode_encode by done.
  change (default [] (Some mid)) with mid. rewrite Hw.
  destruct (words [] cs) as [|w ws] eqn:Ew.
  { apply words_nil in Ew as [_ Hbl]. by apply Hb in Hbl. }
  set (parts := map encode (w :: ws)). change (idx parts 0) with (Ret (encode w)). cbn [mbind outcome_bind]. unfold answer.
  change parts with (encode w :: map encode ws). cbv iota zeta.
  repeat (case_bool_decide; [done|]). case_bool_decide.
  { destruct ws as [|v ws]; [done|]. cbn [map]. rewrite two_parts.
    unfold idx. rewrite zget_lookup by lia. done. }
  case_bool_decide; [|by repeat (case_bool_decide; [done|])]. destruct ws as [|v ws]; [done|].
  cbn [map]. rewrite two_parts.
  rewrite slice_Ret; [|unfold len; cbn [length map]; lia|lia]. cbn [mbind outcome_bind]. unfold sub_list.
  change (Z.to_nat 1) with 1%nat. rewrite skipn_cons, drop_0, take_ge; [done|]. unfold len. cbn [length map]. lia.
Qed.

(** [echo] gives its words back with single spaces. *)
Lemma echo_joins ws : Forall solid ws -> Forall (Forall scalar) ws ->
  process_command (encode ((map u8 (str "echo") ++ [0x20]) ++ join_chars ws)) = Ret (Echo (encode (join_chars ws))).
Proof.
  intros Hs Hsc. rewrite process_command_answers.
  - assert (words [] ((map u8 (str "echo") ++ [32]) ++ join_chars ws) = map u8 (str "echo") :: words [] (join_chars ws)) as ->
      by done.
    rewrite words_join by done. cbn [map answer].
    change (encode (map u8 (str "echo"))) with (str "echo").
    repeat (rewrite bool_decide_eq_false_2 by done). rewrite bool_decide_eq_true_2 by done. by rewrite join_encode.
  - apply Forall_app. split.
    { change (map u8 (str "echo") ++ [32]) with [101; 99; 104; 111; 32]. rewrite !Forall_cons. unfold scalar. split_and!; [lia..|done]. }
    induction Hsc as [|w ws Hw _ IH]; [done|]. apply Forall_cons in Hs as [_ Hs].
    destruct ws as [|w' ws]; [done|]. apply Forall_app. split; [done|]. apply Forall_cons. split; [by left|by apply IH].
Qed.

(** The names the help text lists. *)
Definition listed (line : list byte) : list byte := default [] (head (split_whitespace line)).

(** [help] lists the commands there are: a one-word command is known exactly
    when a line of the help text begins with it. *)
Lemma help_complete w : answer [w] = Unknown w <-> w ∉ map listed (drop 1 help_lines).
Proof.
  assert (map listed (drop 1 help_lines) =
    [str "help"; str "info"; str "ls"; str "cat"; str "echo"; str "clear"; str "version"; str "mem"; str "tasks"; str "exit"]) as -> by (vm_compute; reflexivity).
  rewrite !not_elem_of_cons. unfold answer.
  repeat (case_bool_decide; [by split; [done|intros Hn; exfalso; naive_solver]|]).
  split; [|done]. intros _. split_and!; try done. apply not_elem_of_nil.
Qed.

(** [version] prints the name of the project twice and no version of it. *)
Lemma version_text : write_output (fun w s => Ok (w ++ s)) Version Vfs.new [] =
  Ret (Ok (str "turnix turnix" ++ [x0a] ++ str "ABI version: 3" ++ [x0a])).
Proof. by vm_compute. Qed.

(** An error of the writer ends the text there. *)
Lemma write_output_stops {W} (wf : W -> list byte -> result W W) r v w e :
  (forall text, wf w text = Err e) -> r <> Empty -> r <> Ls -> write_output wf r v w = Ret (Err e).
Proof. intros He H1 H2. destruct r; try done; cbn [write_output try_each help_lines]; unfold writeln; by rewrite He. Qed.
