(* ===== verification/Locks.v ===== *)
(** * The kernel's spin locks on one processor

    Which locks the code takes, and where it masks interrupts: the handlers
    of [interrupts/mod.rs] and [syscall/handler.rs] with what they call
    ([vfs.rs], [tty/mod.rs], [drivers/video/mod.rs], [input/mod.rs],
    [task/scheduler.rs], [process.rs], the global allocator) and the kernel
    tasks of [boot.rs].  A [lazy_static] runs its initialiser on its first use,
    and whoever uses it meanwhile waits: that is a lock as well ([First]).  The
    data the code works on is left to the other files: a branch
    is a choice, a loop a repetition.

    A spin lock that is found taken can only be released by code the processor
    runs later; with interrupts masked there is none.  [kernel_never_spins]
    shows that the handlers never find a lock taken, provided tasks take locks
    with interrupts masked only; [heartbeat_deadlock] shows that the heartbeat
    task does not keep to that.  The file system, the scheduler and the local
    APIC are created while booting; locks taken only then or by code that
    nothing calls (those of [boot.rs], [acpi.rs], [security], [fs],
    [drivers/ahci.rs], [drivers/net.rs], the PICs and the I/O APIC) and faults
    in the kernel, which end in a panic, are left out. *)

From S2P Require Import Prelude.

Inductive Static := VFS | TTY | CONSOLE | FRAMEBUFFER | SCHEDULER | KEYBOARD | KEYBOARD_BUFFER | LAPIC | ALLOCATOR.

(** The mutex of a static, the first use of a lazy one, and the [inner] mutex
    of a process.  All processes share one name here: then nobody may hold the
    mutexes of two of them. *)
Inductive Lock := Mutex (s : Static) | First (s : Static) | PROCESS.
Coercion Mutex : Static >-> Lock.

#[global] Instance Static_eq_dec : EqDecision Static.
Proof. solve_decision. Defined.

#[global] Instance Lock_eq_dec : EqDecision Lock.
Proof. solve_decision. Defined.

(** Code, as far as locks see it.  [With l p]: [p] in the scope of the guard
    of [l.lock()]; [Try l p]: of [if let Some(..) = l.try_lock()]. *)
Inductive prog :=
| Skip
| Seq (p q : prog)
| Alt (p q : prog)
| Many (p : prog)
| With (l : Lock) (p : prog)
| Try (l : Lock) (p : prog)
| WithoutInterrupts (p : prog)
| Yield
| Exit.

Declare Scope prog_scope.
Delimit Scope prog_scope with prog.
Bind Scope prog_scope with prog.
Notation "p ⨾ q" := (Seq p q) (at level 85, right associativity) : prog_scope.
Notation "p ⊞ q" := (Alt p q) (at level 86, right associativity) : prog_scope.
#[local] Open Scope prog_scope.

Definition maybe (p : prog) : prog := p ⊞ Skip.

(** ** The code *)

(** One call of the global allocator. *)
Definition heap_locks : prog := With ALLOCATOR Skip.
(** Growing, cloning and dropping of strings and vectors. *)
Definition allocations : prog := Many heap_locks.

(** A lazy static locked: its initialiser [init] runs if this is the first use. *)
Definition locked (s : Static) (init p : prog) : prog := maybe (With (First s) init) ⨾ With s p.

Definition newline_locks : prog := locked FRAMEBUFFER Skip Skip.
Definition write_char_locks : prog := newline_locks ⊞ Skip ⊞ (allocations ⨾ locked FRAMEBUFFER Skip Skip ⨾ allocations).
Definition backspace_locks : prog := maybe (locked FRAMEBUFFER Skip Skip).
Definition console_write_str_locks : prog := Many write_char_locks.

Definition handle_input_locks : prog :=
  (allocations ⨾ locked CONSOLE Skip (maybe newline_locks)) ⊞
  maybe (locked CONSOLE Skip (maybe backspace_locks)) ⊞
  maybe (allocations ⨾ locked CONSOLE Skip (maybe write_char_locks)).
Definition tty_write_locks : prog := locked CONSOLE Skip (maybe console_write_str_locks).

(** The buffer is created with room for 128 characters. *)
Definition add_char_locks : prog := locked KEYBOARD_BUFFER heap_locks allocations.

Definition vfs_open_locks : prog := allocations.
Definition vfs_read_locks : prog := locked TTY Skip allocations ⊞ Skip.
Definition vfs_write_locks : prog := maybe (locked TTY Skip tty_write_locks) ⊞ allocations.

(** The handlers that work on the file system. *)
Definition handle_open_locks : prog := maybe (With VFS vfs_open_locks).
Definition handle_read_locks : prog := maybe (With VFS vfs_read_locks).
Definition handle_write_file_locks : prog := maybe (With VFS vfs_write_locks).
Definition handle_close_locks : prog := With VFS allocations.
Definition handle_seek_locks : prog := With VFS Skip.
Definition handle_ls_locks : prog := maybe (With VFS allocations).
Definition handle_stat_locks : prog := maybe (With VFS Skip).
Definition handle_mkdir_locks : prog := maybe (With VFS allocations).
Definition handle_unlink_locks : prog := maybe (With VFS allocations).

Definition get_current_task_id_locks : prog := With SCHEDULER Skip.
(** [pml4_frame], and again when CR3 is to change. *)
Definition switch_to_locks : prog := With PROCESS Skip ⨾ maybe (With PROCESS Skip).
Definition timer_tick_locks : prog := Try SCHEDULER (maybe (allocations ⨾ switch_to_locks) ⨾ allocations).
Definition exit_current_task_locks : prog := WithoutInterrupts (With SCHEDULER Skip) ⨾ Exit.

Definition handle_yielder_locks : prog := maybe Yield.
Definition page_fault_locks : prog := exit_current_task_locks.
Definition gpf_locks : prog := exit_current_task_locks.

Definition keyboard_locks : prog :=
  locked KEYBOARD Skip (maybe (locked TTY Skip handle_input_locks ⨾ add_char_locks) ⨾ With LAPIC Skip).
Definition timer_locks : prog := With LAPIC Skip ⨾ timer_tick_locks.

Definition heartbeat_start_locks : prog := With VFS (vfs_open_locks ⨾ maybe vfs_read_locks).
Definition heartbeat_locks : prog := heartbeat_start_locks ⨾ Many Yield.
Definition worker_locks : prog := Many Skip.
Definition idle_locks : prog := Many Skip.

(** What a user program can enter: the system calls (those not listed take no
    lock) and its faults. *)
Definition entries : list prog :=
  [handle_open_locks; handle_read_locks; handle_write_file_locks; handle_close_locks; handle_seek_locks;
   handle_ls_locks; handle_stat_locks; handle_mkdir_locks; handle_unlink_locks; get_current_task_id_locks;
   handle_yielder_locks; exit_current_task_locks; page_fault_locks; gpf_locks; Skip].

(** ** The processor *)

Inductive instr := Run (p : prog) | Unlock (l : Lock) | Unmask.

(** What happens when a context has nothing left to do: it returns to the one
    below, hands the processor to the next task if there is one and the
    scheduler's lock was free, or ends its task (which halts if the lock was
    not free); the lowest context of a task (user mode, or the function of a
    kernel task) stays. *)
Inductive kind := Bottom | Return | Switch | Drop.

Record context := mkContext { masked : bool; todo : list instr; ending : kind }.

(** A task is a stack of contexts. *)
Record state := mkState { running : list context; ready : list (list context); held : list Lock }.

Definition unlock (l : Lock) (h : list Lock) : list Lock := filter (fun l' => l' <> l) h.

(** One instruction: masking, what is left to do, locks held. *)
Inductive instr_step : bool -> list instr -> list Lock -> bool -> list instr -> list Lock -> Prop :=
| i_skip m k h : instr_step m (Run Skip :: k) h m k h
| i_seq m p q k h : instr_step m (Run (p ⨾ q) :: k) h m (Run p :: Run q :: k) h
| i_left m p q k h : instr_step m (Run (p ⊞ q) :: k) h m (Run p :: k) h
| i_right m p q k h : instr_step m (Run (p ⊞ q) :: k) h m (Run q :: k) h
| i_done m p k h : instr_step m (Run (Many p) :: k) h m k h
| i_again m p k h : instr_step m (Run (Many p) :: k) h m (Run p :: Run (Many p) :: k) h
| i_lock m l p k h : l ∉ h -> instr_step m (Run (With l p) :: k) h m (Run p :: Unlock l :: k) (l :: h)
| i_try m l p k h : l ∉ h -> instr_step m (Run (Try l p) :: k) h m (Run p :: Unlock l :: k) (l :: h)
| i_busy m l p k h : l ∈ h -> instr_step m (Run (Try l p) :: k) h m k h
| i_unlock m l k h : instr_step m (Unlock l :: k) h m k (unlock l h)
| i_mask p k h : instr_step false (Run (WithoutInterrupts p) :: k) h true (Run p :: Unmask :: k) h
| i_masked p k h : instr_step true (Run (WithoutInterrupts p) :: k) h true (Run p :: k) h
| i_unmask m k h : instr_step m (Unmask :: k) h false k h.

Inductive step : state -> state -> Prop :=
| s_instr m k e rest r h m' k' h' : instr_step m k h m' k' h' ->
    step (mkState (mkContext m k e :: rest) r h) (mkState (mkContext m' k' e :: rest) r h')
| s_keyboard k e rest r h :
    step (mkState (mkContext false k e :: rest) r h)
      (mkState (mkContext true [Run keyboard_locks] Return :: mkContext false k e :: rest) r h)
| s_timer k e rest r h :
    step (mkState (mkContext false k e :: rest) r h)
      (mkState (mkContext true [Run timer_locks] Switch :: mkContext false k e :: rest) r h)
| s_enter p rest r h : p ∈ entries ->
    step (mkState (mkContext false [] Bottom :: rest) r h)
      (mkState (mkContext true [Run p] Return :: mkContext false [] Bottom :: rest) r h)
| s_yield m k e rest r h :
    step (mkState (mkContext m (Run Yield :: k) e :: rest) r h)
      (mkState (mkContext true [Run timer_tick_locks] Switch :: mkContext m k e :: rest) r h)
| s_exit m k e rest r h :
    step (mkState (mkContext m (Run Exit :: k) e :: rest) r h)
      (mkState (mkContext true [Run timer_tick_locks] Drop :: mkContext m k e :: rest) r h)
| s_return m e rest r h : e = Return \/ e = Switch ->
    step (mkState (mkContext m [] e :: rest) r h) (mkState rest r h)
| s_switch m rest t r h :
    step (mkState (mkContext m [] Switch :: rest) (t :: r) h) (mkState t (r ++ [rest]) h)
| s_drop m rest t r h :
    step (mkState (mkContext m [] Drop :: rest) (t :: r) h) (mkState t r h)
| s_halt m c rest r h : Mutex SCHEDULER ∈ h ->
    step (mkState (mkContext m [] Drop :: c :: rest) r h) (mkState (mkContext (masked c) [] Bottom :: rest) r h).

(** The processor waits for a lock that is taken. *)
Definition spins (s : state) : Prop :=
  exists m l p k e rest r h, s = mkState (mkContext m (Run (With l p) :: k) e :: rest) r h /\ l ∈ h.

(** ** The discipline *)

(** Locks are taken with interrupts masked, none twice, and none is held
    when the task gives up the processor. *)
Fixpoint disciplined (m : bool) (h : list Lock) (p : prog) : bool :=
  match p with
  | Skip => true
  | Seq p q | Alt p q => disciplined m h p && disciplined m h q
  | Many p => disciplined m h p
  | With l p | Try l p => m && bool_decide (l ∉ h) && disciplined m (l :: h) p
  | WithoutInterrupts p => disciplined true h p
  | Yield | Exit => bool_decide (h = [])
  end.

(** The same for what a context still has to do, holding [h]. *)
Fixpoint proceeds (m : bool) (h : list Lock) (k : list instr) : Prop :=
  match k with
  | [] => h = []
  | Run p :: k => disciplined m h p = true /\ proceeds m h k
  | Unlock l :: k => m = true /\ exists h', h = l :: h' /\ l ∉ h' /\ proceeds m h' k
  | Unmask :: k => m = true /\ h = [] /\ proceeds false [] k
  end.

Definition waiting (c : context) : Prop := proceeds (masked c) [] (todo c).

(** Only the context that runs holds locks. *)
Definition orderly (s : state) : Prop :=
  Forall (Forall waiting) (ready s) /\
  match running s with
  | [] => held s = []
  | c :: rest => proceeds (masked c) (held s) (todo c) /\ Forall waiting rest
  end.

(** With interrupts enabled nothing is held. *)
Lemma proceeds_unmasked h k : proceeds false h k -> h = [].
Proof. induction k as [|[p|l|] k IH]; cbn [proceeds]; naive_solver. Qed.

Lemma unlock_other l h : l ∉ h -> unlock l h = h.
Proof.
  unfold unlock. induction h as [|x h IH]; [done|]. intros [Hx Hh]%not_elem_of_cons.
  rewrite filter_cons_True by done. by rewrite IH.
Qed.

Lemma unlock_head l h : l ∉ h -> unlock l (l :: h) = h.
Proof. intros Hl. unfold unlock. rewrite filter_cons_False by auto. by apply unlock_other. Qed.

Lemma instr_proceeds m k h m' k' h' : instr_step m k h m' k' h' -> proceeds m h k -> proceeds m' h' k'.
Proof.
  destruct 1; cbn [proceeds disciplined]; rewrite ?andb_true_iff, ?bool_decide_eq_true; try naive_solver.
  - intros (-> & h' & -> & Hl & Hk). by rewrite unlock_head.
  - intros [Hp Hk]. pose proof (proceeds_unmasked _ _ Hk) as ->. by split_and!.
Qed.

(** The code of the handlers keeps the discipline. *)
Lemma handlers_disciplined : Forall (fun p => disciplined true [] p = true) (keyboard_locks :: timer_locks :: timer_tick_locks :: entries).
Proof. repeat (constructor; [by vm_compute|]). constructor. Qed.

Lemma handler_starts p : p ∈ keyboard_locks :: timer_locks :: timer_tick_locks :: entries -> proceeds true [] [Run p].
Proof. intros Hp. split; [|done]. pose proof handlers_disciplined as Hd. rewrite Forall_forall in Hd. by apply Hd. Qed.

Ltac a_handler := apply handler_starts; rewrite !elem_of_cons; tauto.

Lemma step_orderly s s' : step s s' -> orderly s -> orderly s'.
Proof.
  destruct 1; intros [Hr Hc]; cbn [running ready held masked todo] in *; destruct Hc as [Hk Hrest];
    split; cbn [running ready held masked todo]; try done.
  - split; [by eapply instr_proceeds|done].
  - pose proof (proceeds_unmasked _ _ Hk) as ->. split; [a_handler|]. by apply Forall_cons.
  - pose proof (proceeds_unmasked _ _ Hk) as ->. split; [a_handler|]. by apply Forall_cons.
  - cbn [proceeds] in Hk. subst h. split; [a_handler|]. by apply Forall_cons.
  - destruct Hk as [Hy Hk]. cbn [disciplined] in Hy. apply bool_decide_eq_true in Hy as ->.
    split; [a_handler|]. by apply Forall_cons.
  - destruct Hk as [Hy Hk]. cbn [disciplined] in Hy. apply bool_decide_eq_true in Hy as ->.
    split; [a_handler|]. by apply Forall_cons.
  - cbn [proceeds] in Hk. subst h. destruct rest as [|c rest]; [done|]. apply Forall_cons in Hrest. done.
  - apply Forall_cons in Hr as [_ Hr]. apply Forall_app. split; [done|]. by apply Forall_cons.
  - apply Forall_cons in Hr as [Ht _]. cbn [proceeds] in Hk. subst h. destruct t as [|c t]; [done|]. by apply Forall_cons in Ht.
  - by apply Forall_cons in Hr as [_ Hr].
  - apply Forall_cons in Hr as [Ht _]. cbn [proceeds] in Hk. subst h. destruct t as [|c t]; [done|]. by apply Forall_cons in Ht.
  - cbn [proceeds] in Hk. subst h. by apply elem_of_nil in H.
Qed.

Lemma orderly_never_spins s : orderly s -> ~ spins s.
Proof.
  intros [_ Hc] (m & l & p & k & e & rest & r & h & -> & Hl). cbn [running held masked todo] in Hc.
  destruct Hc as [[Hd _] _]. cbn [disciplined] in Hd. rewrite !andb_true_iff, bool_decide_eq_true in Hd. by destruct Hd as [[_ Hn] _].
Qed.

(** A context with something left to do goes on, unless it spins. *)
Lemma progress m i k e rest r h : ~ spins (mkState (mkContext m (i :: k) e :: rest) r h) ->
  exists s', step (mkState (mkContext m (i :: k) e :: rest) r h) s'.
Proof.
  intros Hns. destruct i as [[|p q|p q|p|l p|l p|p| |]|l|]; try (eexists; apply s_instr; constructor; fail).
  - destruct (decide (l ∈ h)) as [Hl|Hl]; [|eexists; by apply s_instr, i_lock].
    exfalso. apply Hns. by do 8 eexists.
  - destruct (decide (l ∈ h)) as [Hl|Hl]; eexists; apply s_instr; [by apply i_busy|by apply i_try].
  - destruct m; eexists; apply s_instr; constructor.
  - eexists. apply s_yield.
  - eexists. apply s_exit.
Qed.

(** A processor that spins with interrupts masked is stuck for good. *)
Lemma masked_spin_stuck l p k e rest r h s' :
  l ∈ h -> ~ step (mkState (mkContext true (Run (With l p) :: k) e :: rest) r h) s'.
Proof. intros Hl Hs. inversion Hs as [? ? ? ? ? ? ? ? ? Hi| | | | | | | | |]; subst. inversion Hi; subst. done. Qed.

(** ** Results *)

(** A context between system calls: user mode, or kernel code that takes
    locks with interrupts masked only. *)
Definition between (c : context) : Prop :=
  exists l, c = mkContext false (map Run l) Bottom /\ Forall (fun p => disciplined false [] p = true) l.

Definition quiet (s : state) : Prop := held s = [] /\ Forall (Forall between) (running s :: ready s).

Lemma between_waiting c : between c -> waiting c.
Proof.
  intros (l & -> & Hl). unfold waiting. cbn [masked todo]. induction Hl as [|p l Hp _ IH]; [done|]. by split.
Qed.

Lemma quiet_orderly s : quiet s -> orderly s.
Proof.
  intros [Hh Hq]. assert (forall t, Forall between t -> Forall waiting t) as Hw.
  { intros t Ht. eapply Forall_impl; [exact Ht|exact between_waiting]. }
  apply Forall_cons in Hq as [Hrun Hrdy]. apply Hw in Hrun. split; [eapply Forall_impl; [exact Hrdy|exact Hw]|].
  destruct (running s) as [|c rest]; [done|]. apply Forall_cons in Hrun. by rewrite Hh.
Qed.

(** C17: from a quiet state on, whatever keys and timer interrupts arrive and
    whatever system calls and faults the programs make, the processor never
    finds a lock taken that it waits for, and the code that runs always goes
    on. *)
Theorem kernel_never_spins s s' : quiet s -> rtc step s s' ->
  ~ spins s' /\
  forall m i k e rest r h, s' = mkState (mkContext m (i :: k) e :: rest) r h -> exists s'', step s' s''.
Proof.
  intros Hq Hs. assert (orderly s') as Ho.
  { apply quiet_orderly in Hq. induction Hs as [s|s t u Hst _ IH]; [done|]. by apply IH, (step_orderly s). }
  pose proof (orderly_never_spins _ Ho) as Hns. split; [done|]. intros m i k e rest r h ->. by apply progress.
Qed.

(** ** The heartbeat task *)

Definition user_mode : context := mkContext false [] Bottom.
Definition kernel_task (p : prog) : context := mkContext false [Run p] Bottom.

Ltac goes_by c := eapply rtc_l; [apply s_instr, c; set_solver|].
Ltac used_before := goes_by i_seq; goes_by i_right; goes_by i_skip.

(** The timer takes the processor from the heartbeat task while it holds the
    file system's lock; the next program opens a file, and the processor
    waits for the lock with interrupts masked, for good. *)
Lemma heartbeat_deadlock : exists s, spins s /\ (forall s', ~ step s s') /\
  rtc step (mkState [kernel_task heartbeat_locks] [[user_mode]] []) s.
Proof.
  exists (mkState [mkContext true [Run (With VFS vfs_open_locks)] Return; user_mode]
    [[mkContext false [Run (vfs_open_locks ⨾ maybe vfs_read_locks); Unlock VFS; Run (Many Yield)] Bottom]] [Mutex VFS]).
  split; [|split].
  - do 8 eexists. split; [reflexivity|]. set_solver.
  - intros s'. apply masked_spin_stuck. set_solver.
  - unfold kernel_task, heartbeat_locks, heartbeat_start_locks. goes_by i_seq. goes_by i_lock.
    eapply rtc_l; [apply s_timer|]. unfold timer_locks, timer_tick_locks, allocations.
    goes_by i_seq. goes_by i_lock. goes_by i_skip. goes_by i_unlock. goes_by i_try.
    goes_by i_seq. goes_by i_right. goes_by i_skip. goes_by i_done. goes_by i_unlock.
    eapply rtc_l; [apply s_switch|]. eapply rtc_l; [apply (s_enter handle_open_locks); set_solver|].
    goes_by i_left. apply rtc_refl.
Qed.

(** A key pressed while the heartbeat task is inside the allocator has the
    same effect, without any other task. *)
Lemma heartbeat_key_deadlock : exists s, spins s /\ (forall s', ~ step s s') /\
  rtc step (mkState [kernel_task heartbeat_locks] [] []) s.
Proof.
  exists (mkState [mkContext true [Run heap_locks; Run allocations; Run (locked CONSOLE Skip (maybe newline_locks)); Unlock TTY;
      Run add_char_locks; Run (With LAPIC Skip); Unlock KEYBOARD] Return;
    mkContext false [Run Skip; Unlock ALLOCATOR; Run allocations; Run (maybe vfs_read_locks); Unlock VFS; Run (Many Yield)] Bottom]
    [] [Mutex TTY; Mutex KEYBOARD; Mutex ALLOCATOR; Mutex VFS]).
  split; [|split].
  - do 8 eexists. split; [reflexivity|]. set_solver.
  - intros s'. apply masked_spin_stuck. set_solver.
  - unfold kernel_task, heartbeat_locks, heartbeat_start_locks. goes_by i_seq. goes_by i_lock. goes_by i_seq.
    unfold vfs_open_locks, allocations. goes_by i_again. goes_by i_lock.
    eapply rtc_l; [apply s_keyboard|]. unfold keyboard_locks, handle_input_locks. unfold locked at 1. used_before. goes_by i_lock.
    goes_by i_seq. goes_by i_left. goes_by i_seq. unfold locked at 1. used_before. goes_by i_lock. goes_by i_left.
    goes_by i_seq. goes_by i_again.
    apply rtc_refl.
Qed.

(** With its first part under [without_interrupts] the task would be fine. *)
Lemma heartbeat_masked_between : between (kernel_task (WithoutInterrupts heartbeat_start_locks ⨾ Many Yield)) /\
  disciplined false [] heartbeat_locks = false.
Proof. split; [|done]. eexists [_]. split; [done|]. by repeat constructor. Qed.

(** ** Concrete inputs *)

Definition demo_tasks : state := mkState [user_mode] [[kernel_task worker_locks]; [user_mode]] [].

Definition demo_opening : state :=
  mkState [mkContext true [Run vfs_open_locks; Unlock VFS] Return; user_mode] (ready demo_tasks) [Mutex VFS].

Lemma kernel_never_spins_witness : ~ spins demo_opening /\ exists s, step demo_opening s.
Proof.
  destruct (kernel_never_spins demo_tasks demo_opening) as [Hs Hg].
  - split; [done|]. repeat constructor.
    all: by first [exists []; split; [done|constructor] | exists [worker_locks]; split; [done|repeat constructor]].
  - eapply rtc_l; [apply (s_enter handle_open_locks); set_solver|]. goes_by i_left. goes_by i_lock. apply rtc_refl.
  - split; [exact Hs|]. exact (Hg _ _ _ _ _ _ _ eq_refl).
Defined.
